(* ===== verification/_CoqProject ===== *)
-Q . S2P
Prelude.v
CS.v
CodeUtil.v
SortedList.v
Distance.v
Bytes.v
Wire.v
Arrays.v
Buffers.v
Streams.v
Factory.v
Objects.v
Commands.v
Ownership.v
Strings.v
Emails.v
Sql.v
Database.v
Dao.v
ContactDao.v
PersonDao.v
OrgDao.v
VisibilityDao.v
AuditDao.v
Schema.v
Tables.v
Changes.v
Cascade.v
Integrity.v
Catalog.v
History.v
Hierarchy.v
Queries.v
SchemaServer.v
SchemaDao.v
Person.v
Layout.v
Concepts.v
Encodings.v
Constraints.v
FileSystem.v
Paths.v
Files.v
Logs.v
IoUtil.v
Utilities.v
Locales.v
Platforms.v
Statistic.v
Statics.v
Tests.v
DbTests.v
