(* ===== verification/Prelude.v ===== *)
(** * Pensar: a verification of the C++ library and of the contact application

    This is the root of the development.  It describes the whole, then holds the vocabulary that every other
    file uses: characters, outcomes, machine integers, and the list lemmas and tactics they share.

    ** The program

    The repository has two parts.  [cpp/src] is a header-only library: fixed-capacity strings, sorted lists,
    byte order and wire formats, a binary buffer, objects that write themselves into it, object factories,
    transactional commands, constraints on values, encodings, and paths, files and a log over the file system.  [contact] is an application of it: e-mail addresses, phone numbers and persons,
    a data layer over PostgreSQL, and the schema of its database, with triggers that keep the search vectors and a log of every change.  An [Object] has an id from a [Generator]; what it stores in a
    [BinaryBuffer] starts with its [ClassInfo], whose names are [CS] strings; a [Command] is an [Object], and so is a
    [Person], whose block of data is made of e-mail addresses, names and phones, themselves made of [CS] strings.
    The data layer has its own transfer objects and borrows connections from a pool; what it writes goes to the tables of the schema, whose
    functions answer its searches.

    ** The files

    - Prelude: [outcome], a call that returns, throws, or has undefined behaviour; integers at their width.
    - Streams: what the classes use of formatted text streams.
    - CS (cs.hpp), CodeUtil (bool.hpp, code_util.hpp), Strings (s.hpp): character arrays with a terminator,
      three-valued results, string utilities.
    - SortedList (sorted_list.hpp), Distance (distance.hpp), Arrays (array.hpp): containers and edit distance.
    - Bytes (byte_order.hpp, endian.hpp), Wire (wire_int.hpp, wire_double.hpp): byte order and portable numbers.
    - Buffers (binary_buffer.hpp), Objects (class_info.hpp, equal.hpp, object.hpp, generator.hpp, error.hpp):
      serialization.  The interface between them is the pair of classes [BinaryBufferIO] and
      [BinaryRoundTrip] of Objects: what a serializable class promises; generators, plain objects and persons
      are its instances, and the theorems on sequences of objects are proved against it.
    - Factory (factory.hpp), Commands (command.hpp): pools of shared objects, transactions and undo.  Ownership has the
      commands again as objects in a store, with their destructors; it is related to the trees of Commands by
      [view].  Statics composes Factory with the classes that have a static factory.
    - Emails (contact/e-mail.hpp, phone.hpp), Person (contact/person.hpp): the application's data.
    - Sql, Database, Dao (contact/data/db_connection.hpp): the SQL the data layer writes, as syntax with its
      meaning; the server as the class [Server] with the laws [ServerLaws]; sessions; a small server that meets
      the laws; and the shapes the data access objects share.  The class [Entity] states what a transfer object
      says of its table, and [represents] that a table is a finite map of such objects.
    - ContactDao, PersonDao, OrgDao, VisibilityDao, AuditDao (contact/data): the data access objects.  Queries: what the
      operations of the last three that only read return.
    - Schema, Tables (contact/db/contact_ddl.sql): the domains, tables, checks, keys and references; the contents of a database and what
      one statement does to them - defaults, search vectors, constraints, and the queue of events whose triggers check references,
      cascade, log and refresh.  Changes, Cascade and Integrity are the proofs about them: rules for computations that can
      fail, what one event does, what a queue of events does.  Catalog writes the declarations of the DDL
      down a second time, as lists of columns, keys, references and actions, and shows that Schema agrees; the theorems on the database are stated with it.  History has the installation, the functions of the audit and the life of a
      database; Hierarchy the recursive query of units.
    - SchemaServer: the schema as an instance of [Server] that meets [ServerLaws], so that every theorem on the data layer holds over it.
      SchemaDao: what the data layer does to its own tables.
    - Layout (data.hpp): the layout checks and the layout dumper, over a description of a structure's members.
      Concepts (concept.hpp, equal.hpp, span_util.hpp): the concepts of the library as questions about a description of a
      program's types, the overloads and dispatches that are chosen by them, and the program's own classes.
    - Encodings (encoding.hpp, icu_util.hpp, and the conversions of s.hpp): encodings, their detection and the chains of
      conversions.  ICU is the class [IcuText] with the laws [IcuTextLaws], and UTF-8 text without marks an instance.
    - Constraints (constraint.hpp): patterns as regular expressions, ranges, and composites in a heap of objects.
    - FileSystem: what the code uses of [std::filesystem] and [std::fstream] - a map from paths to files and
      directories, and streams with a position, a buffer and two bits; a path with a separator or a dot at its end names directories only, as in POSIX.  Paths (path.hpp), Files (file.hpp), Logs
      (log.hpp) and IoUtil (io_util.hpp, io_util_macos.hpp) are written over it.
    - Utilities (mac_address.hpp, sysinfo.hpp, system.hpp and its platform files, stop_watch.hpp, random_util.hpp,
      algorithm_util.hpp, language.hpp), Locales (country.hpp, locale.hpp, bytes_util.hpp, memory.hpp, type_util.hpp) and Statistic
      (statistic.hpp): what is small.
    - Platforms (multiplatform.hpp and the folders windows, linux, macos, ios, android): which files a build gets, and what they
      do.  The calls of Windows on files are the class [Win32] with the laws [Win32Laws], and an instance over FileSystem.
    - Tests, DbTests (cpp/src/test, contact/test): the test cases of the repository, evaluated on the model; those of the data layer run
      through sessions, over the schema.

    ** How code is written here

    A method is a function from the object's fields to the new fields and its result.  A method that can throw
    or leave its arrays gives an [outcome]; [noexcept] turns a throw into [Terminate].  Shared pointers are
    addresses in an explicit heap with reference counts (Factory), or the constructors live, dangling and
    null of a slot (Commands); where lifetimes matter, objects are cells of a store that [delete] takes away (Ownership, Constraints).  The data layer is a state monad over [World], the database with its pool; it
    goes on in the world a failed call left; so is a [File] over the file system, whose stream and whose
    world a failed call leaves as they are.  A [char] is a signed byte, a [size_t] is a natural number where
    it cannot wrap and [wrap64] where it can, signed overflow is undefined.  A [double] is its 64 bits.

    ** What the theorems show

    - Containers: every history of operations on a sorted list keeps it sorted, and strictly when unique;
      insertion, removal, search and construction do what a sorted list promises; both distance functions
      compute the optimal string alignment distance - the cheapest alignment, which edits no part of the text twice; free sequences of edits can
      cost less -, and the closest string is found.
    - Text: the copying of strings into arrays is exact up to the capacity, and where concatenation leaves
      the array; splitting is inverted by joining; replacement ends, or never does, and replaces one first occurrence after another; numbers are printed and
      grouped; the e-mail validators accept exactly a grammar.
    - Bytes: conversion reverses every word, portable integers and doubles give the same value on any
      platform; the buffer is a queue of bytes; saving and loading, objects, generators, persons and
      composites of commands are round trips, and what happens when the class is another.
    - Behaviour: generators count, pools grow, a composite stops at the first command that throws, and what
      undo restores; what copying, cloning and comparing do.  A client that gives each command away at most once has every
      command deleted exactly once, and a command that is given away twice, or a clone, is deleted twice.
    - Data layer: each session gives its connection back, unless its constructor throws, at the first SET or at the second; each table, through
      its operations, is a finite map from ids to transfer objects; quoting is safe, and where it is missing
      the caller's text is read as SQL.  The queries that ask a function of the server return its rows as they are, in a
      session with the language that was asked for.
    - Schema: in every state that statements, purges and time can lead to, the tables are what the catalogue says - types, NOT NULL, owners and viewers, unique keys, references;
      the log of a table, replayed, gives the table, with the letter, the time and the user of each change; a deletion takes away exactly what refers to the row by cascading references, a unit
      that stays loses its parent when the parent is gone and only then, and only a language or a
      qualifier that is in use is not deleted; the time stamps of a row are those of its first creation and of its last change;
      the hierarchy of units ends, cycles included, and which units it lists.  The schema keeps the laws the data layer relies on,
      and a person that is added is stored, read back and logged.
    - Files: creating the directories of a path, and removing it, do to the tree of files what they promise;
      a text file refines its content through any history of writes and reads, and the log file the sequence of
      its messages; buffers, words and lines are round trips.  Which modes can make a file, what a closed file does
      when it is written to, and what the end of a file does to [close].
    - Types and values: the layout checks accept exactly the structures without padding whose members are all listed; the
      predefined patterns accept what their names say; for which types [equal] compiles and what it then compares; code points are a round trip and which encodings are
      detected; a random name is made as soon as a letter is drawn.

    - Platforms: each platform's file functions against those of macOS, and what they do differently.

    Where the code does not do what its names or comments say, the theorem states what it does.

    ** Bounds, fuel and parameters

    Loops over a container recurse on it.  [std::lower_bound] runs for the length of its range, which is more
    than its halvings.  The replacing loop of Strings has fuel: the theorems show how much is enough and that
    in the other cases none is.  The recursion of a pool's [get] has fuel two, and the theorem shows it
    is enough unless the refill size is zero, when none is.  The domain loop of Emails has a little more than
    the length of the domain.  The search for a first letter in Files counts down from the source's thousand, the reading of
    lines in IoUtil has the length of the file.  A statement of the schema runs its queue of triggers with fuel twice the rows of all tables and
    the events it starts with ([enough]): a row is taken away once and a unit loses its parent once, and the theorems show that
    deletions, insertions and updates end within it.  The hierarchy has a step for each unit, which is shown to be enough
    in every consistent database.  ICU (normalisation, code points), the arithmetic of the processor on doubles, the C file
    functions, SOCI and PostgreSQL are code this repository only calls: they are arguments or classes, with
    the laws the code relies on, and every theorem that has such a law is applied to a concrete instance.

    ** What is not modelled

    The operating system, clocks and random engines, whose answers are arguments; symbolic links, permissions and full disks;
    JSON conversion, which is commented out; the wide-character build; the call operators of Operand, UnaryOperand and BinaryOperand and the members ok, Or, And, Xor and Not of
    Constraint, which can not be instantiated; the functions of
    bytes_util.hpp that have no body; of the schema, the materialized views with their accessors and the view of contacts, which the data layer does
    not read, the search in one log, statements on the log tables themselves, the rights of roles and functions, and indexes
    that are not unique.  What PostgreSQL computes on text - the search vectors, their matching and ranking, the text of time stamps
    and of rows - is the class [Postgres] with the laws [PostgresLaws]. *)
From stdpp Require Export base tactics list list_numbers numbers strings option sorting relations.
From Stdlib Require Export Ascii ZArith Lia.
From Stdlib Require String.

(** ** Bytes, characters and strings

    The library is built without [WIDE_CHAR] (string_def.hpp), so [C] is [char] and [S] is
    [std::basic_string<char>].  A [char] and a [std::byte] are the same eight bits of memory; both
    are [ascii], which makes [memcpy] between a character array and a byte span the identity. *)

Abbreviation byte := ascii (only parsing).
Abbreviation str := (list ascii) (only parsing).

Declare Scope pensar_scope.
Delimit Scope pensar_scope with pensar.
Notation "'W' s" := (String.list_ascii_of_string s%string) (at level 9, s at level 0) : pensar_scope.
Open Scope pensar_scope.
Open Scope list_scope.

(** [W('\0')], NULL_CHAR of string_def.hpp. *)
(* src: cpp/src/string_def.hpp:29-29 NULL_CHAR *)
Definition NULL_CHAR : ascii := Ascii.zero.
(* src: cpp/src/string_def.hpp:22-22 EMPTY *)
Definition EMPTY : str := [].
(* src: cpp/src/string_def.hpp:24-24 CURRENT_DIR *)
Definition CURRENT_DIR : str := W ".".
(* src: cpp/src/string_def.hpp:25-25 DEFAULT_TXT_FILE_EXTENSION *)
Definition DEFAULT_TXT_FILE_EXTENSION : str := W ".txt".
(* src: cpp/src/string_def.hpp:26-26 DEFAULT_BIN_FILE_EXTENSION *)
Definition DEFAULT_BIN_FILE_EXTENSION : str := W ".bin".
(* src: cpp/src/string_def.hpp:27-27 DOUBLE_QUOTES *)
Definition DOUBLE_QUOTES : str := ["034"%char].

Definition byte_val (b : byte) : Z := Z.of_N (N_of_ascii b).
Definition byte_of_Z (z : Z) : byte := ascii_of_N (Z.to_N (z mod 256)).

(** ** Outcomes

    A C++ call returns, throws, or has undefined behaviour (an out-of-bounds access, a null dereference, a
    signed overflow, a loop without side effects that never ends); a call that waits for ever counts with the
    last.  The three are the constructors of [outcome]; sequencing stops at the first call that does not return. *)

Inductive exn : Type :=
  | RuntimeError (what : str)
  | OutOfRange (what : str)
  | InvalidArgument (what : str)
  | ErrorObject (what : str)
  | Terminate.

Inductive undefined : Type :=
  | OutOfBounds
  | Uninitialized
  | NullDereference
  | SignedOverflow
  | UseAfterFree
  | MismatchedFree
  | InvalidIterator
  | AssertFailed
  | NoProgress.

Inductive outcome (A : Type) : Type :=
  | Ret (a : A)
  | Throw (e : exn)
  | Undef (u : undefined).
Arguments Ret {A} a.
Arguments Throw {A} e.
Arguments Undef {A} u.

#[export] Instance outcome_ret : MRet outcome := fun A a => Ret a.
#[export] Instance outcome_bind : MBind outcome := fun A B f m =>
  match m with Ret a => f a | Throw e => Throw e | Undef u => Undef u end.
#[export] Instance outcome_fmap : FMap outcome := fun A B f m =>
  match m with Ret a => Ret (f a) | Throw e => Throw e | Undef u => Undef u end.

Lemma outcome_bind_ret {A B} (a : A) (f : A -> outcome B) : (Ret a ≫= f) = f a.
Proof. reflexivity. Qed.

Lemma outcome_bind_Ret_inv {A B} (m : outcome A) (f : A -> outcome B) (b : B) :
  (m ≫= f) = Ret b -> exists a, m = Ret a /\ f a = Ret b.
Proof. destruct m; simpl; intros; try discriminate; eauto. Qed.

Lemma outcome_bind_assoc {A B D} (m : outcome A) (f : A -> outcome B) (g : B -> outcome D) :
  (m ≫= f) ≫= g = m ≫= (fun a => f a ≫= g).
Proof. by destruct m. Qed.

(** [noexcept]: an exception that leaves the function calls [std::terminate]. *)
Definition noexcept {A} (m : outcome A) : outcome A :=
  match m with Throw _ => Throw Terminate | _ => m end.

Lemma noexcept_Ret_inv {A} (m : outcome A) a : noexcept m = Ret a -> m = Ret a.
Proof. by destruct m. Qed.

#[export] Instance exn_eq_dec : EqDecision exn.
Proof. solve_decision. Defined.
#[export] Instance undefined_eq_dec : EqDecision undefined.
Proof. solve_decision. Defined.
#[export] Instance outcome_eq_dec {A} `{EqDecision A} : EqDecision (outcome A).
Proof. solve_decision. Defined.

(** ** Machine integers *)

Definition two64 : Z := 2 ^ 64.
(** [size_t] arithmetic wraps modulo 2^64. *)
Definition wrap64 (z : Z) : Z := z mod two64.
(** The range of [int64_t] and of a signed type of [w] bits. *)
Definition in_signed (w : Z) (z : Z) : bool := bool_decide (- 2 ^ (w - 1) <= z < 2 ^ (w - 1))%Z.
Definition signed_wrap (w : Z) (z : Z) : Z := ((z + 2 ^ (w - 1)) mod 2 ^ w - 2 ^ (w - 1))%Z.

(** ** Generic automation *)

(** Case analysis on the booleans and decisions of the goal, then arithmetic or congruence. *)
Ltac bool_cases :=
  repeat (case_match || case_decide || case_bool_decide); simplify_eq/=.
Ltac solve_bounds := intros; simpl in *; repeat case_decide; repeat case_bool_decide; simplify_eq/=; try lia; try done.
(** Inversion of a successful monadic computation. *)
Ltac inv_ret :=
  repeat match goal with
  | H : (_ ≫= _) = Ret _ |- _ => apply outcome_bind_Ret_inv in H as (? & ? & ?)
  | H : Ret _ = Ret _ |- _ => injection H as H; try subst
  | H : Throw _ = Ret _ |- _ => discriminate H
  | H : Undef _ = Ret _ |- _ => discriminate H
  end.

Create HintDb pensar.
Create Rewrite HintDb pensar_len.
#[export] Hint Resolve Permutation_refl Permutation_sym perm_skip : pensar.
#[export] Hint Rewrite @length_app @length_insert @length_take @length_drop @length_replicate @length_fmap : pensar_len.

(** ** Lists *)

Section lists.
Context {A : Type}.
Implicit Types (l k : list A) (x y : A).

(** [std::vector::insert(begin + i, x)] and [erase(begin + i)]. *)
Definition vector_insert (i : nat) (x : A) (l : list A) : list A := take i l ++ x :: drop i l.
Definition vector_erase (i : nat) (l : list A) : list A := take i l ++ drop (S i) l.

Lemma vector_insert_length i x l : length (vector_insert i x l) = S (length l).
Proof.
  unfold vector_insert. rewrite length_app, length_take; cbn [length]. rewrite length_drop. lia.
Qed.

Lemma vector_insert_Permutation i x l : vector_insert i x l ≡ₚ x :: l.
Proof.
  unfold vector_insert. rewrite <- Permutation_middle. by rewrite take_drop.
Qed.

Lemma vector_erase_Permutation i x l : l !! i = Some x -> x :: vector_erase i l ≡ₚ l.
Proof.
  intros H. unfold vector_erase. rewrite Permutation_middle. by rewrite take_drop_middle.
Qed.

Lemma vector_erase_length i l : i < length l -> S (length (vector_erase i l)) = length l.
Proof. intros. unfold vector_erase. rewrite length_app, length_take, length_drop. lia. Qed.

Lemma vector_erase_sublist i l : vector_erase i l `sublist_of` l.
Proof.
  unfold vector_erase. rewrite <- (take_drop i l) at 3. apply sublist_app; [done|].
  rewrite <- (Nat.add_1_r i), <- drop_drop. apply sublist_drop.
Qed.

Lemma StronglySorted_lookup (R : relation A) l :
  StronglySorted R l <-> forall i j x y, i < j -> l !! i = Some x -> l !! j = Some y -> R x y.
Proof.
  split.
  - induction 1 as [|z l Hs IH Hall]; intros i j x y Hij Hi Hj; [done|].
    destruct j as [|j]; [lia|]. destruct i as [|i]; simplify_eq/=.
    + rewrite Forall_forall in Hall. apply Hall. by eapply list_elem_of_lookup_2.
    + apply (IH i j); try done. lia.
  - induction l as [|z l IH]; intros H; constructor.
    + apply IH. intros i j x y Hij Hi Hj. apply (H (S i) (S j)); try done. lia.
    + apply Forall_forall. intros y Hy. apply list_elem_of_lookup in Hy as [j Hj].
      apply (H 0 (S j)); try done. lia.
Qed.

Lemma StronglySorted_sublist (R : relation A) l k :
  k `sublist_of` l -> StronglySorted R l -> StronglySorted R k.
Proof.
  induction 1 as [|x l1 l2 Hs IH|x l1 l2 Hs IH]; intros H; try done.
  - inversion H as [|? ? H1 H2]; subst. constructor; [by apply IH|].
    rewrite Forall_forall in *. intros y Hy. apply H2. by eapply elem_of_sublist.
  - inversion H; subst. by apply IH.
Qed.

(** [for (i = 0; i < n; ++i) acc = f(i, acc)] is [fold_left] over [seq 0 n]; loop invariants are
    proved with this rule. *)
Lemma fold_left_seq_inv {St} (P : nat -> St -> Prop) (f : St -> nat -> St) a n s :
  P a s ->
  (forall i s, a <= i < a + n -> P i s -> P (S i) (f s i)) ->
  P (a + n) (fold_left f (seq a n) s).
Proof.
  revert a s. induction n as [|n IH]; intros a s H0 HS; simpl.
  - by rewrite Nat.add_0_r.
  - replace (a + S n) with (S a + n) by lia. apply IH.
    + apply HS; [lia|done].
    + intros i s' Hi. apply HS. lia.
Qed.
End lists.

#[export] Hint Resolve vector_insert_Permutation vector_erase_sublist : pensar.

Lemma byte_val_range b : (0 <= byte_val b < 256)%Z.
Proof. unfold byte_val. pose proof (N_ascii_bounded b). lia. Qed.

Lemma byte_of_val b : byte_of_Z (byte_val b) = b.
Proof.
  unfold byte_of_Z. rewrite Z.mod_small by apply byte_val_range.
  unfold byte_val. rewrite N2Z.id. apply ascii_N_embedding.
Qed.

Lemma byte_val_of z : byte_val (byte_of_Z z) = (z mod 256)%Z.
Proof.
  unfold byte_val, byte_of_Z. rewrite N_ascii_embedding.
  - rewrite Z2N.id; [done|]. by apply Z.mod_pos_bound.
  - pose proof (Z.mod_pos_bound z 256). lia.
Qed.

(** ** Decimal integers

    [os << n] and [std::to_string(n)] for an integer print its decimal digits, with a leading minus
    sign when it is negative.  The fuel of [digits_aux] is one more than the binary logarithm, which
    bounds the number of decimal digits. *)

Definition digit_char (d : Z) : ascii := byte_of_Z (48 + d).
Definition is_digit (c : ascii) : bool := bool_decide (48 <= byte_val c <= 57)%Z.
Definition digit_val (c : ascii) : Z := (byte_val c - 48)%Z.

Fixpoint digits_aux (fuel : nat) (n : Z) (acc : str) : str :=
  match fuel with
  | O => acc
  | S fuel =>
      let acc := digit_char (n mod 10) :: acc in
      if (n <? 10)%Z then acc else digits_aux fuel (n / 10) acc
  end.

Definition digits (n : Z) : str := digits_aux (S (Z.to_nat (Z.log2 n))) n [].

Definition decimal (n : Z) : str :=
  if (n <? 0)%Z then "-"%char :: digits (- n) else digits n.

(** The value of a digit string, most significant digit first. *)
Definition digits_val (s : str) : Z := fold_left (fun v c => (v * 10 + digit_val c)%Z) s 0%Z.

Lemma digit_val_char d : (0 <= d < 10)%Z -> digit_val (digit_char d) = d.
Proof. intros. unfold digit_val, digit_char. rewrite byte_val_of, Z.mod_small; lia. Qed.

Lemma is_digit_char d : (0 <= d < 10)%Z -> is_digit (digit_char d) = true.
Proof.
  intros. unfold is_digit, digit_char. rewrite byte_val_of, Z.mod_small by lia.
  apply bool_decide_eq_true_2. lia.
Qed.

Lemma digits_val_app s t :
  digits_val (s ++ t) = (digits_val s * 10 ^ Z.of_nat (length t) + digits_val t)%Z.
Proof.
  unfold digits_val. rewrite fold_left_app. generalize (fold_left (fun v c => (v * 10 + digit_val c)%Z) s 0%Z).
  intros a. revert a. induction t as [|c t IH] using rev_ind; intros a; simpl; [lia|].
  rewrite !fold_left_app, length_app; simpl. rewrite IH.
  rewrite Nat2Z.inj_add, Z.pow_add_r by lia. simpl Z.of_nat. lia.
Qed.

Lemma digits_val_cons c s :
  digits_val (c :: s) = (digit_val c * 10 ^ Z.of_nat (length s) + digits_val s)%Z.
Proof. apply (digits_val_app [c]). Qed.

Lemma digits_aux_spec fuel n acc :
  (0 <= n)%Z -> (n < 2 ^ Z.of_nat fuel)%Z -> 0 < fuel ->
  exists ds, digits_aux fuel n acc = ds ++ acc /\ digits_val ds = n /\ ds <> []
    /\ Forall (fun c => is_digit c = true) ds
    /\ (10 ^ (Z.of_nat (length ds) - 1) <= Z.max n 1)%Z.
Proof.
  revert n acc. induction fuel as [|fuel IH]; intros n acc Hn Hlt Hf; [lia|]. cbn [digits_aux].
  pose proof (Z.mod_pos_bound n 10 ltac:(lia)) as Hm.
  destruct (Z.ltb_spec n 10) as [Hs|Hs].
  - exists [digit_char (n mod 10)]. repeat split; try done.
    + unfold digits_val; simpl. rewrite digit_val_char by lia. rewrite Z.mod_small; lia.
    + constructor; [|done]. apply is_digit_char; lia.
    + simpl length. change (Z.of_nat 1 - 1)%Z with 0%Z. rewrite Z.pow_0_r. lia.
  - destruct (IH (n / 10)%Z (digit_char (n mod 10) :: acc)) as (ds & E & V & N & F & L).
    + apply Z.div_pos; lia.
    + rewrite Nat2Z.inj_succ, Z.pow_succ_r in Hlt by lia. apply Z.div_lt_upper_bound; lia.
    + destruct fuel; [|lia]. simpl in Hlt. lia.
    + exists (ds ++ [digit_char (n mod 10)]). rewrite E, <- app_assoc. split; [done|].
      repeat split.
      * rewrite digits_val_app, V. simpl length. change (10 ^ Z.of_nat 1)%Z with 10%Z.
        unfold digits_val; simpl. rewrite digit_val_char by lia.
        pose proof (Z.div_mod n 10). lia.
      * by destruct ds.
      * apply Forall_app; split; [done|]. constructor; [|done]. apply is_digit_char; lia.
      * rewrite length_app; simpl length.
        replace (Z.of_nat (length ds + 1) - 1)%Z with (Z.succ (Z.of_nat (length ds) - 1)) by lia.
        rewrite Z.pow_succ_r by (destruct ds; [done|simpl; lia]).
        pose proof (Z.div_mod n 10). assert (1 <= n / 10)%Z by (apply Z.div_le_lower_bound; lia). lia.
Qed.

Lemma digits_spec n :
  (0 <= n)%Z ->
  digits_val (digits n) = n /\ digits n <> [] /\ Forall (fun c => is_digit c = true) (digits n)
  /\ (10 ^ (Z.of_nat (length (digits n)) - 1) <= Z.max n 1)%Z.
Proof.
  intros Hn. destruct (digits_aux_spec (S (Z.to_nat (Z.log2 n))) n []) as (ds & E & H).
  - done.
  - rewrite Nat2Z.inj_succ, Z2Nat.id by apply Z.log2_nonneg.
    destruct (decide (n = 0)%Z) as [->|]; [done|]. apply Z.log2_spec. lia.
  - lia.
  - unfold digits. rewrite E, app_nil_r. exact H.
Qed.

Lemma decimal_val n : (0 <= n)%Z -> digits_val (decimal n) = n.
Proof. intros. unfold decimal. destruct (Z.ltb_spec n 0); [lia|]. by apply digits_spec. Qed.

Lemma digits_length_le n k :
  (0 <= n < 10 ^ Z.of_nat k)%Z -> 0 < k -> length (digits n) <= k.
Proof.
  intros [Hn Hk] Hpos. destruct (digits_spec n Hn) as (_ & _ & _ & L).
  destruct (decide (length (digits n) <= k)) as [|Hgt]; [done|].
  exfalso.
  assert (10 ^ Z.of_nat k <= 10 ^ (Z.of_nat (length (digits n)) - 1))%Z by (apply Z.pow_le_mono_r; lia).
  assert (1 < 10 ^ Z.of_nat k)%Z by (apply Z.pow_gt_1; lia). lia.
Qed.

(** ** Memory blocks

    [memcpy] into a block at an offset, and a checked store; leaving the block is undefined. *)

Section memory.
Context {A : Type}.
Implicit Types (blk src : list A).

Definition overlay (pos : nat) (src blk : list A) : list A :=
  take pos blk ++ src ++ drop (pos + length src) blk.

Definition memcpy_at (blk : list A) (pos : nat) (src : list A) : outcome (list A) :=
  if decide (pos + length src <= length blk) then Ret (overlay pos src blk) else Undef OutOfBounds.

Definition store_at (blk : list A) (i : nat) (x : A) : outcome (list A) :=
  if decide (i < length blk) then Ret (<[i := x]> blk) else Undef OutOfBounds.

Definition load_at (blk : list A) (i : nat) : outcome A :=
  match blk !! i with Some x => Ret x | None => Undef OutOfBounds end.

Lemma load_at_Some blk i x : blk !! i = Some x -> load_at blk i = Ret x.
Proof. unfold load_at. by intros ->. Qed.
Lemma load_at_None blk i : length blk <= i -> load_at blk i = Undef OutOfBounds.
Proof. intros H. unfold load_at. by rewrite lookup_ge_None_2. Qed.

Lemma overlay_length pos src blk :
  pos + length src <= length blk -> length (overlay pos src blk) = length blk.
Proof. intros. unfold overlay. rewrite !length_app, length_take, length_drop. lia. Qed.

Lemma overlay_take pos src blk :
  pos + length src <= length blk -> take (pos + length src) (overlay pos src blk) = take pos blk ++ src.
Proof.
  intros. unfold overlay. rewrite app_assoc. apply take_app_length'.
  rewrite length_app, length_take. lia.
Qed.

Lemma overlay_drop pos src blk :
  pos + length src <= length blk ->
  drop (pos + length src) (overlay pos src blk) = drop (pos + length src) blk.
Proof.
  intros. unfold overlay. rewrite app_assoc. apply drop_app_length'.
  rewrite length_app, length_take. lia.
Qed.

Lemma overlay_0 src blk : overlay 0 src blk = src ++ drop (length src) blk.
Proof. done. Qed.
End memory.

(** [char_traits::length]: the index of the first NUL.  [None] when the block holds none, in which case
    the scan leaves the block. *)
Fixpoint nul_index (s : str) : option nat :=
  match s with
  | [] => None
  | c :: s => if decide (c = NULL_CHAR) then Some 0 else S <$> nul_index s
  end.

(** The length of the NUL-terminated string that [std::string::c_str] points to. *)
Definition cstr_length (s : str) : nat := default (length s) (nul_index s).

Definition no_nul (s : str) : Prop := NULL_CHAR ∉ s.
#[export] Instance no_nul_dec s : Decision (no_nul s).
Proof. unfold no_nul. apply _. Defined.

Lemma nul_index_app s t : no_nul s -> nul_index (s ++ NULL_CHAR :: t) = Some (length s).
Proof.
  induction s as [|c s IH]; intros H; simpl.
  - done.
  - apply not_elem_of_cons in H as [Hc Hs]. rewrite decide_False by congruence. by rewrite IH.
Qed.

Lemma nul_index_None s : no_nul s <-> nul_index s = None.
Proof.
  unfold no_nul. induction s as [|c s IH]; simpl; [split; [done|intros _; apply not_elem_of_nil]|].
  rewrite not_elem_of_cons. case_decide; [naive_solver|].
  rewrite fmap_None. naive_solver.
Qed.

Lemma nul_index_Some s n :
  nul_index s = Some n -> n < length s /\ no_nul (take n s) /\ s !! n = Some NULL_CHAR.
Proof.
  revert n. induction s as [|c s IH]; intros n H; simpl in *; [done|]. case_decide as Hc.
  - simplify_eq. split; [lia|]. split; [apply not_elem_of_nil|done].
  - apply fmap_Some in H as (m & Hm & ->). destruct (IH m Hm) as (H1 & H2 & H3).
    split; [lia|]. split; [|done]. unfold no_nul in *. simpl. rewrite not_elem_of_cons. split; [congruence|done].
Qed.

Lemma no_nul_take n s : no_nul s -> no_nul (take n s).
Proof. unfold no_nul. intros H Hin. apply H. eapply elem_of_sublist; [exact Hin|apply sublist_take]. Qed.

#[export] Hint Resolve no_nul_take : pensar.

(** ** Formatted input: [is >> s] skips white space and reads up to the next white space. *)

(** [isspace] and [iswspace] in the "C" locale. *)
(* src: cpp/src/s.hpp:309-313 is_space *)
Definition is_space (c : ascii) : bool :=
  bool_decide (byte_val c = 32 \/ 9 <= byte_val c <= 13)%Z.

Fixpoint drop_while {A} (p : A -> bool) (l : list A) : list A :=
  match l with [] => [] | x :: l' => if p x then drop_while p l' else l end.
Fixpoint take_while {A} (p : A -> bool) (l : list A) : list A :=
  match l with [] => [] | x :: l' => if p x then x :: take_while p l' else [] end.

Definition read_token (s : str) : str * str :=
  let s := drop_while is_space s in
  (take_while (fun c => negb (is_space c)) s, drop_while (fun c => negb (is_space c)) s).

Lemma take_drop_while {A} (p : A -> bool) l : take_while p l ++ drop_while p l = l.
Proof. induction l as [|x l IH]; simpl; [done|]. destruct (p x); simpl; [by rewrite IH|done]. Qed.

Lemma take_while_all {A} (p : A -> bool) l : Forall (fun x => p x = true) (take_while p l).
Proof. induction l as [|x l IH]; simpl; [done|]. destruct (p x) eqn:E; by constructor. Qed.

Lemma drop_while_head {A} (p : A -> bool) l : match drop_while p l with x :: _ => p x = false | [] => True end.
Proof. induction l as [|x l IH]; simpl; [done|]. by destruct (p x) eqn:E. Qed.

Lemma take_while_app {A} (p : A -> bool) l k :
  Forall (fun x => p x = true) l -> take_while p (l ++ k) = l ++ take_while p k.
Proof. induction 1 as [|x l Hx H IH]; simpl; [done|]. by rewrite Hx, IH. Qed.

Lemma drop_while_app {A} (p : A -> bool) l k :
  Forall (fun x => p x = true) l -> drop_while p (l ++ k) = drop_while p k.
Proof. induction 1 as [|x l Hx H IH]; simpl; [done|]. by rewrite Hx, IH. Qed.

Lemma forallb_map_comp {A B} (f : A -> B) (p : B -> bool) l : forallb p (map f l) = forallb (fun x => p (f x)) l.
Proof. induction l as [|x l IH]; simpl; [done|]. by rewrite IH. Qed.

Lemma forallb_ext_elem {A} (p q : A -> bool) l : (forall x, x ∈ l -> p x = q x) -> forallb p l = forallb q l.
Proof.
  induction l as [|x l IH]; intros H; simpl; [done|].
  rewrite H by left. rewrite IH; [done|]. intros y Hy. apply H. by right.
Qed.
