(* ===== verification/CS.v ===== *)
(** * CS: bounded, NUL-terminated character arrays (cpp/src/cs.hpp)

    [CS<MIN, MAX, CaseSensitive, AccentSensitive>] is a [std::array<C, MAX>] that holds a
    NUL-terminated string.  A value is its array, a list of length [MAX].  Reading past the array, which
    an unterminated array makes [length] do, is undefined behaviour.

    The free [operator+] templates of lines 420-524 whose parameters are [int] never take part in a
    call: an [int] parameter is not deduced from the [size_t] argument of [CS].  The one that is
    callable, [S + CS], is [S_plus_cs]. *)
From S2P Require Import Prelude.

(** ** Single characters (lines 47-133) *)

(** The part of ICU that accent removal calls: NFD normalisation of one code point ([None] when ICU
    reports a failure) and the test for category Mn. *)
Class Icu : Type := {
  icu_nfd : Z -> option (list Z);
  icu_non_spacing_mark : Z -> bool;
}.

(** The size of the buffers that messages are converted in. *)
(* src: cpp/src/icu_util.hpp:42-42 BUFFER_SIZE *)
Definition BUFFER_SIZE : nat := 1024.

(** [char] is signed on the platforms the project builds for. *)
Definition char_val (c : ascii) : Z := signed_wrap 8 (byte_val c).

(** [std::tolower] in the "C" locale, on the [int] a [char] converts to. *)
Definition tolower (c : Z) : Z := if bool_decide (65 <= c <= 90)%Z then (c + 32)%Z else c.

Section chars.
Context {I : Icu}.

(* src: cpp/src/icu_util.hpp:534-563 icu_util::remove_accent_char *)
Definition remove_accent_char (c : ascii) : ascii :=
if (char_val c <? 128)%Z then c else
match icu_nfd (char_val c) with
| None => c
| Some cps =>
    match List.find (fun ch => negb (icu_non_spacing_mark ch)) cps with
    | Some ch => byte_of_Z ch
    | None => c
    end
end.

(* src: cpp/src/cs.hpp:49-60 remove_accent, copy_remove_accent *)
Definition copy_remove_accent (c : ascii) : ascii := remove_accent_char c.

(* src: cpp/src/cs.hpp:62-86 equal *)
Definition char_equal (case_sensitive accent_sensitive : bool) (c c2 : ascii) : bool :=
if case_sensitive then
  if accent_sensitive then (char_val c =? char_val c2)%Z
  else (char_val (copy_remove_accent c) =? char_val (copy_remove_accent c2))%Z
else
  if accent_sensitive then (tolower (char_val c) =? tolower (char_val c2))%Z
  else (tolower (char_val (copy_remove_accent c)) =? tolower (char_val (copy_remove_accent c2)))%Z.

(* src: cpp/src/cs.hpp:88-112 less *)
Definition char_less (case_sensitive accent_sensitive : bool) (c c2 : ascii) : bool :=
if case_sensitive then
  if accent_sensitive then (char_val c <? char_val c2)%Z
  else (char_val (copy_remove_accent c) <? char_val (copy_remove_accent c2))%Z
else
  if accent_sensitive then (tolower (char_val c) <? tolower (char_val c2))%Z
  else (tolower (char_val (copy_remove_accent c)) <? tolower (char_val (copy_remove_accent c2)))%Z.

(* src: cpp/src/cs.hpp:114-117 not_equal *)
Definition char_not_equal cs acs c c2 : bool := negb (char_equal cs acs c c2).
(* src: cpp/src/cs.hpp:119-123 greater *)
Definition char_greater cs acs c c2 : bool := negb (char_less cs acs c c2) && negb (char_equal cs acs c c2).
(* src: cpp/src/cs.hpp:125-128 less_equal *)
Definition char_less_equal cs acs c c2 : bool := char_less cs acs c c2 || char_equal cs acs c c2.
(* src: cpp/src/cs.hpp:130-133 greater_equal *)
Definition char_greater_equal cs acs c c2 : bool := char_greater cs acs c c2 || char_equal cs acs c c2.

End chars.

(** The key a comparison reduces a character to. *)
Definition char_key (case_sensitive : bool) (c : ascii) : Z :=
  if case_sensitive then char_val c else tolower (char_val c).

Section chars_facts.
Context {I : Icu}.

Lemma char_val_range c : (- 128 <= char_val c < 128)%Z.
Proof. unfold char_val, signed_wrap. change (2 ^ (8 - 1))%Z with 128%Z. change (2 ^ 8)%Z with 256%Z.
  pose proof (Z.mod_pos_bound (byte_val c + 128) 256). lia. Qed.

Lemma char_val_inj c c2 : char_val c = char_val c2 -> c = c2.
Proof.
  unfold char_val, signed_wrap. change (2 ^ (8 - 1))%Z with 128%Z. change (2 ^ 8)%Z with 256%Z.
  intros H. rewrite <- (byte_of_val c), <- (byte_of_val c2). f_equal.
  pose proof (byte_val_range c). pose proof (byte_val_range c2).
  apply Z.add_cancel_r in H.
  pose proof (Z.div_mod (byte_val c + 128) 256). pose proof (Z.div_mod (byte_val c2 + 128) 256). lia.
Qed.

Lemma remove_accent_char_id c : remove_accent_char c = c.
Proof.
  unfold remove_accent_char. pose proof (char_val_range c).
  destruct (Z.ltb_spec (char_val c) 128); [done|lia].
Qed.

Lemma char_equal_key cs acs c c2 : char_equal cs acs c c2 = (char_key cs c =? char_key cs c2)%Z.
Proof. unfold char_equal, char_key, copy_remove_accent. rewrite !remove_accent_char_id. by destruct cs, acs. Qed.

Lemma char_less_key cs acs c c2 : char_less cs acs c c2 = (char_key cs c <? char_key cs c2)%Z.
Proof. unfold char_less, char_key, copy_remove_accent. rewrite !remove_accent_char_id. by destruct cs, acs. Qed.

Lemma char_trichotomy cs acs c c2 :
  char_greater cs acs c c2 = char_less cs acs c2 c
  /\ char_less_equal cs acs c c2 = negb (char_less cs acs c2 c).
Proof.
  unfold char_greater, char_less_equal. rewrite !char_equal_key, !char_less_key.
  destruct (Z.ltb_spec (char_key cs c) (char_key cs c2)), (Z.ltb_spec (char_key cs c2) (char_key cs c)),
    (Z.eqb_spec (char_key cs c) (char_key cs c2)); simpl; split; try done; lia.
Qed.
End chars_facts.

Lemma char_key_nul cs c : char_key cs c = char_key cs NULL_CHAR <-> c = NULL_CHAR.
Proof.
  split; [|by intros ->]. intros H. apply char_val_inj. revert H. unfold char_key, tolower.
  change (char_val NULL_CHAR) with 0%Z. destruct cs; [done|].
  repeat case_bool_decide; lia.
Qed.

(** ** The array and its length (lines 141-268) *)

Definition nthc (data : str) (i : nat) : ascii := nth i data NULL_CHAR.

(* src: cpp/src/cs.hpp:154-157 CS::fill *)
Definition cs_fill (MAX : nat) (c : ascii) : str := replicate MAX c.
(* src: cpp/src/cs.hpp:159-168 CS::fill_null, CS::CS *)
Definition cs_null (MAX : nat) : str := cs_fill MAX NULL_CHAR.
(* src: cpp/src/cs.hpp:170-173 CS::is_null_char *)
Definition cs_is_null_char (data : str) (index : nat) : outcome bool :=
  c ← load_at data index; Ret (bool_decide (c = NULL_CHAR)).

(* src: cpp/src/cs.hpp:175-178 CS::length *)
Definition cs_length (data : str) : outcome nat :=
  match nul_index data with Some n => Ret n | None => Undef OutOfBounds end.

(* src: cpp/src/cs.hpp:182-187 CS::copy *)
Definition too_long (MAX : nat) : exn := RuntimeError (W "String is too long. Max size is " ++ decimal (Z.of_nat MAX)).
(* src: cpp/src/cs.hpp:188-193 CS::copy *)
Definition too_short (MIN : nat) : exn := RuntimeError (W "String is too short. Min size is " ++ decimal (Z.of_nat MIN)).

(** [data] is the array before the call; [s_length] characters are read from [s]. *)
(* src: cpp/src/cs.hpp:180-202 CS::copy *)
Definition cs_copy_n (MIN MAX : nat) (data s : str) (s_length : nat)
    (add_null_at_end fill_null_before_copy : bool) : outcome str :=
  if decide (MAX <= s_length) then Throw (too_long MAX) else
  if decide (s_length < MIN) then Throw (too_short MIN) else
  let data := if fill_null_before_copy then cs_null MAX else data in
  data ← (if decide (0 < s_length) then memcpy_at data 0 (take s_length s) else Ret data);
  if add_null_at_end then store_at data s_length NULL_CHAR else Ret data.

(** [copy(const C* )] and [CS(const C* )]: the source ends at its first NUL. *)
(* src: cpp/src/cs.hpp:204-208 CS::copy *)
Definition cs_of_cstr (MIN MAX : nat) (s : str) : outcome str :=
  cs_copy_n MIN MAX (cs_null MAX) s (cstr_length s) true true.

(** [copy(const S&)], [CS(const S&)] and [operator=(const S&)]. *)
(* src: cpp/src/cs.hpp:210-223 CS::copy, CS::CS *)
Definition cs_of_S (MIN MAX : nat) (s : str) : outcome str :=
  cs_copy_n MIN MAX (cs_null MAX) s (length s) true true.

(* src: cpp/src/cs.hpp:340-344 CS::operator= *)
Definition cs_assign_S (MIN MAX : nat) (s : str) : outcome str := noexcept (cs_of_S MIN MAX s).
(* src: cpp/src/cs.hpp:354-358 CS::operator= *)
Definition cs_assign_array (arr : str) : str := arr.

(* src: cpp/src/cs.hpp:236-250 CS::to_string, CS::str, CS::operator S *)
Definition cs_str (data : str) : outcome str := n ← cs_length data; Ret (take n data).

(* src: cpp/src/cs.hpp:253-256 CS::cmp_strlen *)
Definition cs_cmp_strlen (a b : str) : outcome Z :=
  la ← cs_length a; lb ← cs_length b; Ret (wrap64 (Z.of_nat la - Z.of_nat lb)).
(* src: cpp/src/cs.hpp:258-261 CS::eq_strlen *)
Definition cs_eq_strlen (a b : str) : outcome bool :=
  la ← cs_length a; lb ← cs_length b; Ret (bool_decide (la = lb)).
(* src: cpp/src/cs.hpp:263-266 CS::empty *)
Definition cs_empty (data : str) : outcome bool := n ← cs_length data; Ret (bool_decide (n = 0)).
(* src: cpp/src/cs.hpp:269-278 CS::operator[], CS::at *)
Definition cs_index (data : str) (index : nat) : outcome ascii := load_at data index.

(* src: cpp/src/cs.hpp:360-364 CS::assign *)
Definition cs_assign (MIN MAX : nat) (data other : str) : outcome str :=
  n ← cs_length other; cs_copy_n MIN MAX data other n true true.

(** ** Comparison (lines 281-337) *)
Section compare.
Context {I : Icu} (case_sensitive accent_sensitive : bool).

(* src: cpp/src/cs.hpp:281-298 CS::operator== *)
Definition cs_eq (a b : str) : outcome bool :=
result ← cs_eq_strlen a b;
if (result : bool) then
  strlen ← cs_length a;
  Ret (forallb (fun i => char_equal case_sensitive accent_sensitive (nthc a i) (nthc b i)) (seq 0 strlen))
else Ret false.

(* src: cpp/src/cs.hpp:300-303 CS::operator!= *)
Definition cs_neq (a b : str) : outcome bool := negb <$> cs_eq a b.

(* src: cpp/src/cs.hpp:305-322 CS::operator< *)
Definition cs_lt (a b : str) : outcome bool :=
if char_less case_sensitive accent_sensitive (nthc a 0) (nthc b 0) then
  strlen ← cs_length a;
  Ret (forallb (fun i => char_less case_sensitive accent_sensitive (nthc a i) (nthc b i)) (seq 1 (strlen - 1)))
else Ret false.

(* src: cpp/src/cs.hpp:324-327 CS::operator> *)
Definition cs_gt (a b : str) : outcome bool := cs_lt b a.
(* src: cpp/src/cs.hpp:329-332 CS::operator<= *)
Definition cs_le (a b : str) : outcome bool := negb <$> cs_lt b a.
(* src: cpp/src/cs.hpp:334-337 CS::operator>= *)
Definition cs_ge (a b : str) : outcome bool := negb <$> cs_lt a b.

End compare.

(** ** Concatenation and streaming (lines 366-402, 478-490) *)

(* src: cpp/src/cs.hpp:366-379 CS::operator+= *)
Definition cs_append (MAX : nat) (data other : str) : outcome str :=
  strlen ← cs_length data;
  other_strlen ← cs_length other;
  if decide (MAX < strlen + other_strlen)
  then Throw (RuntimeError (W "CString is too long. Max size is " ++ decimal (Z.of_nat MAX)))
  else
    data ← memcpy_at data strlen (take other_strlen other);
    store_at data (strlen + other_strlen) NULL_CHAR.

(* src: cpp/src/cs.hpp:381-386 CS::operator+ *)
Definition cs_plus (MAX : nat) (data other : str) : outcome str := cs_append MAX data other.

(* src: cpp/src/cs.hpp:479-490 operator+ *)
Definition S_plus_cs (N : nat) (lhs rhs : str) : outcome str :=
  rhs_length ← cs_length rhs;
  let min_size := length lhs + rhs_length + 1 in
  if decide (N < min_size)
  then Throw (RuntimeError
    (W "CS<N> operator+ (const std::basic_string<Char>& lhs, const CS<N>& rhs) - rhs must be of size > "
      ++ decimal (Z.of_nat min_size)))
  else
    result ← memcpy_at (cs_null (N + 1)) 0 lhs;
    memcpy_at result (length lhs) (take rhs_length rhs).

(* src: cpp/src/cs.hpp:389-393 CS::write *)
Definition cs_write (data os : str) : outcome str := s ← cs_str data; Ret (os ++ s).
(* src: cpp/src/cs.hpp:395-401 CS::read *)
Definition cs_read (MIN MAX : nat) (istr : str) : outcome (str * str) :=
  let '(s, rest) := read_token istr in data ← cs_of_S MIN MAX s; Ret (data, rest).

(** [operator C*]: a new array with the string and its terminator. *)
(* src: cpp/src/cs.hpp:226-234 CS::operator C* *)
Definition cs_new_cstr (data : str) : outcome str := n ← cs_length data; Ret (take (n + 1) data).
(* src: cpp/src/cs.hpp:347-351 CS::operator= *)
Definition cs_assign_cstr (MIN MAX : nat) (s : str) : outcome str := cs_of_cstr MIN MAX s.
(* src: cpp/src/cs.hpp:149-152 CS::size *)
Definition cs_size (MAX : nat) (data : str) : nat := MAX.
(* src: cpp/src/cs.hpp:407-411 operator<< *)
Definition cs_out (data os : str) : outcome str := cs_write data os.
(* src: cpp/src/cs.hpp:413-417 operator>> *)
Definition cs_in (MIN MAX : nat) (istr : str) : outcome (str * str) := cs_read MIN MAX istr.

(** *** The templates of [operator+] on arrays (lines 420-533)

    Their sizes are [int] where a [CS] has a [size_t], so that they are called with explicit sizes only.  Each
    makes an array of the sum of the sizes, filled with NULs, and copies over it; a pointer reads the memory it
    points to, terminator included. *)
(* src: cpp/src/cs.hpp:421-430 operator+ *)
Definition plus_cs_cs (N N2 : nat) (lhs rhs : str) : outcome str :=
  result ← memcpy_at (cs_null (N + N2)) 0 lhs; memcpy_at result N rhs.
(* src: cpp/src/cs.hpp:433-447 operator+ *)
Definition plus_cs_S (N N2 : nat) (lhs rhs : str) : outcome str :=
  if decide (length rhs <> N2)
  then Throw (RuntimeError (W "CS<N> operator+ (const CS<N>& lhs, const std::basic_string<Char>& rhs) - rhs must be of size N2"))
  else result ← memcpy_at (cs_null (N + N2)) 0 lhs; memcpy_at result N rhs.
(* src: cpp/src/cs.hpp:450-463 operator+ *)
Definition plus_cs_cstr (N N2 : nat) (lhs rhs : str) : outcome str :=
  if decide (cstr_length rhs <> N2)
  then Throw (RuntimeError (W "CS<N> operator+ (const CS<N>& lhs, const Char* rhs) - rhs must be of size N2"))
  else
    result ← memcpy_at (cs_null (N + N2)) 0 lhs;
    if decide (N <= length rhs) then memcpy_at result N (take N rhs) else Undef OutOfBounds.
(* src: cpp/src/cs.hpp:466-476 operator+ *)
Definition plus_cs_array (N N2 : nat) (lhs rhs : str) : outcome str :=
  result ← memcpy_at (cs_null (N + N2)) 0 lhs; memcpy_at result N rhs.
(* src: cpp/src/cs.hpp:492-501 operator+ *)
Definition plus_array_cs (N N2 : nat) (lhs rhs : str) : outcome str :=
  result ← memcpy_at (cs_null (N + N2)) 0 lhs; memcpy_at result N rhs.
(* src: cpp/src/cs.hpp:504-513 operator+ *)
Definition plus_cs_char (N : nat) (lhs : str) (rhs : ascii) : outcome str :=
  result ← memcpy_at (cs_null (N + 1)) 0 lhs; store_at result N rhs.
(* src: cpp/src/cs.hpp:516-525 operator+ *)
Definition plus_char_cs (N : nat) (lhs : ascii) (rhs : str) : outcome str :=
  result ← store_at (cs_null (N + 1)) 0 lhs; memcpy_at result 1 rhs.
(* src: cpp/src/cs.hpp:528-533 assign *)
Definition assign_array (lhs rhs : str) : outcome str := memcpy_at lhs 0 rhs.

(** ** Facts *)

(** A terminated array of the declared size. *)
Definition cs_wf (MAX : nat) (data : str) : Prop := length data = MAX /\ NULL_CHAR ∈ data.

Lemma cs_length_ret data n :
  cs_length data = Ret n <-> nul_index data = Some n.
Proof. unfold cs_length. destruct (nul_index data); split; intros; by simplify_eq. Qed.

Lemma cs_wf_length MAX data :
  cs_wf MAX data -> exists n, cs_length data = Ret n /\ n < MAX /\ no_nul (take n data).
Proof.
  intros [<- Hin]. destruct (nul_index data) as [n|] eqn:E.
  - exists n. pose proof (nul_index_Some _ _ E) as (? & ? & ?). split; [|by split]. by apply cs_length_ret.
  - apply nul_index_None in E. by destruct E.
Qed.

(** The array [copy] builds from a string of [n] characters. *)
Lemma cs_copy_fill MIN MAX data s n :
  n <= length s -> n < MAX -> MIN <= n ->
  cs_copy_n MIN MAX data s n true true = Ret (take n s ++ replicate (MAX - n) NULL_CHAR).
Proof.
  intros Hs HM Hm. unfold cs_copy_n. rewrite !decide_False by lia.
  assert (Hov : overlay 0 (take n s) (cs_null MAX) = take n s ++ replicate (MAX - n) NULL_CHAR).
  { unfold cs_null, cs_fill. rewrite overlay_0, length_take, drop_replicate. do 2 f_equal. lia. }
  assert (Hst : store_at (take n s ++ replicate (MAX - n) NULL_CHAR) n NULL_CHAR
                = Ret (take n s ++ replicate (MAX - n) NULL_CHAR)).
  { unfold store_at. rewrite decide_True by (rewrite length_app, length_take, length_replicate; lia).
    f_equal. apply list_insert_id. rewrite lookup_app_r by (rewrite length_take; lia).
    apply lookup_replicate. rewrite length_take. split; [done|lia]. }
  case_decide as Hn.
  - unfold memcpy_at. rewrite decide_True.
    + rewrite Hov. exact Hst.
    + unfold cs_null, cs_fill. rewrite length_replicate, length_take. lia.
  - assert (n = 0) as -> by lia. rewrite <- Hst. cbn [mbind outcome_bind take app].
    by rewrite Nat.sub_0_r.
Qed.

Lemma cs_of_S_ok MIN MAX s :
  MIN <= length s -> length s < MAX ->
  cs_of_S MIN MAX s = Ret (s ++ replicate (MAX - length s) NULL_CHAR).
Proof.
  intros. unfold cs_of_S. rewrite cs_copy_fill by lia. by rewrite firstn_all.
Qed.

Lemma cs_of_S_long MIN MAX s : MAX <= length s -> cs_of_S MIN MAX s = Throw (too_long MAX).
Proof. intros. unfold cs_of_S, cs_copy_n. by rewrite decide_True. Qed.

Lemma cs_of_S_short MIN MAX s : length s < MIN -> length s < MAX -> cs_of_S MIN MAX s = Throw (too_short MIN).
Proof. intros. unfold cs_of_S, cs_copy_n. rewrite decide_False by lia. by rewrite decide_True. Qed.

Lemma padded_nul_index s k : no_nul s -> 0 < k -> nul_index (s ++ replicate k NULL_CHAR) = Some (length s).
Proof. intros H Hk. destruct k; [lia|]. simpl. by apply nul_index_app. Qed.

Lemma cs_length_padded s k : no_nul s -> 0 < k -> cs_length (s ++ replicate k NULL_CHAR) = Ret (length s).
Proof. intros. apply cs_length_ret. by apply padded_nul_index. Qed.

Lemma cs_str_padded s k : no_nul s -> 0 < k -> cs_str (s ++ replicate k NULL_CHAR) = Ret s.
Proof.
  intros. unfold cs_str. rewrite cs_length_padded by done. simpl. f_equal. by apply take_app_length'.
Qed.

Lemma cs_wf_padded MAX s : length s < MAX -> cs_wf MAX (s ++ replicate (MAX - length s) NULL_CHAR).
Proof.
  intros. split.
  - rewrite length_app, length_replicate. lia.
  - apply elem_of_app. right. apply elem_of_replicate. split; [done|lia].
Qed.

Lemma cs_of_S_wf MIN MAX s data : cs_of_S MIN MAX s = Ret data -> cs_wf MAX data.
Proof.
  destruct (decide (MAX <= length s)); [by rewrite cs_of_S_long|].
  destruct (decide (length s < MIN)); [rewrite cs_of_S_short by lia; done|].
  rewrite cs_of_S_ok by lia. intros [= <-]. apply cs_wf_padded. lia.
Qed.

Lemma cs_of_S_str MIN MAX s data : no_nul s -> cs_of_S MIN MAX s = Ret data -> cs_str data = Ret s.
Proof.
  intros Hs. destruct (decide (MAX <= length s)); [by rewrite cs_of_S_long|].
  destruct (decide (length s < MIN)); [rewrite cs_of_S_short by lia; done|].
  rewrite cs_of_S_ok by lia. intros [= <-]. apply cs_str_padded; [done|lia].
Qed.

#[export] Hint Resolve cs_of_S_wf cs_of_S_str cs_wf_padded : pensar.

(** Comparison of two terminated arrays reduces to their strings. *)
Lemma cs_str_wf MAX data : cs_wf MAX data -> exists s, cs_str data = Ret s /\ no_nul s /\ length s < MAX
  /\ cs_length data = Ret (length s) /\ (forall i, i < length s -> nthc data i = nthc s i).
Proof.
  intros Hwf. destruct (cs_wf_length _ _ Hwf) as (n & Hn & Hlt & Hnn).
  exists (take n data). unfold cs_str. rewrite Hn. simpl. destruct Hwf as [Hl _].
  assert (length (take n data) = n) as -> by (rewrite length_take; lia).
  repeat split; try done. intros i Hi. unfold nthc. apply nth_lookup_Some with (d := NULL_CHAR).
  destruct (lookup_lt_is_Some_2 data i) as [c Hc]; [lia|].
  rewrite Hc. f_equal. symmetry. apply nth_lookup_Some. by rewrite lookup_take_lt.
Qed.

Section eq_facts.
Context {I : Icu} (cs acs : bool).

Lemma forallb_nthc_key s t :
  length s = length t ->
  forallb (fun i => char_equal cs acs (nthc s i) (nthc t i)) (seq 0 (length s))
  = bool_decide (map (char_key cs) s = map (char_key cs) t).
Proof.
  revert t. induction s as [|c s IH]; intros [|d t] Hl; try done. simpl in Hl. injection Hl as Hl.
  transitivity (char_equal cs acs c d && forallb (fun i => char_equal cs acs (nthc s i) (nthc t i)) (seq 0 (length s))).
  { cbn [length seq forallb]. rewrite <- seq_shift, forallb_map_comp. done. }
  rewrite (IH t Hl), char_equal_key. simpl.
  destruct (Z.eqb_spec (char_key cs c) (char_key cs d)) as [E|E]; simpl.
  - apply bool_decide_ext. rewrite E. split; [congruence|]. by intros [= ?].
  - symmetry. apply bool_decide_eq_false_2. congruence.
Qed.

Lemma cs_eq_key MAX a b s t :
  cs_wf MAX a -> cs_wf MAX b -> cs_str a = Ret s -> cs_str b = Ret t ->
  cs_eq cs acs a b = Ret (bool_decide (map (char_key cs) s = map (char_key cs) t)).
Proof.
  intros Ha Hb Hs Ht.
  destruct (cs_str_wf _ _ Ha) as (s' & Es & _ & _ & La & Na).
  destruct (cs_str_wf _ _ Hb) as (t' & Et & _ & _ & Lb & Nb).
  rewrite Es in Hs; rewrite Et in Ht. injection Hs as ->; injection Ht as ->.
  unfold cs_eq, cs_eq_strlen. rewrite La, Lb. simpl. case_bool_decide as Hl.
  - f_equal. rewrite <- (forallb_nthc_key _ _ Hl).
    apply forallb_ext_elem. intros i [_ Hi]%elem_of_seq. rewrite Na, Nb by lia. done.
  - f_equal. symmetry. apply bool_decide_eq_false_2. intros E. apply (f_equal length) in E.
    rewrite !length_map in E. done.
Qed.
End eq_facts.

(** ** Properties *)

(** [copy] on every branch: a string of at least [MIN] and fewer than [MAX] characters is stored in
    a NUL-terminated array of [MAX] characters and read back unchanged (its length included); a longer
    one is refused with the "too long" error, a shorter one with the "too short" error. *)
Theorem cs_copy_roundtrip (MIN MAX : nat) (s : str) (Hs : no_nul s) :
  if decide (MAX <= length s) then cs_of_S MIN MAX s = Throw (too_long MAX)
  else if decide (length s < MIN) then cs_of_S MIN MAX s = Throw (too_short MIN)
  else exists data, cs_of_S MIN MAX s = Ret data /\ cs_wf MAX data
         /\ cs_str data = Ret s /\ cs_length data = Ret (length s)
         /\ cs_assign_S MIN MAX s = Ret data.
Proof.
  repeat case_decide.
  - by apply cs_of_S_long.
  - apply cs_of_S_short; lia.
  - eexists. split; [apply cs_of_S_ok; lia|]. split; [apply cs_wf_padded; lia|].
    split; [apply cs_str_padded; [done|lia]|]. split; [apply cs_length_padded; [done|lia]|].
    unfold cs_assign_S. by rewrite cs_of_S_ok by lia.
Qed.

Lemma cs_copy_roundtrip_witness :
  no_nul (W "Mauricio") /\ exists data, cs_of_S 0 20 (W "Mauricio") = Ret data /\ cs_str data = Ret (W "Mauricio").
Proof.
  assert (no_nul (W "Mauricio")) as H by (apply (bool_decide_unpack _); vm_compute; exact I).
  split; [exact H|].
  destruct (cs_copy_roundtrip 0 20 (W "Mauricio") H) as (data & E & _ & Es & _).
  exists data. split; [exact E|exact Es].
Defined.

Lemma cs_padding MAX data s :
  cs_wf MAX data -> cs_str data = Ret s -> exists k, data = s ++ NULL_CHAR :: k /\ length k = MAX - length s - 1.
Proof.
  intros Hwf Hs. destruct (cs_wf_length _ _ Hwf) as (n & Hn & Hlt & Hnn).
  unfold cs_str in Hs. rewrite Hn in Hs. injection Hs as <-.
  apply cs_length_ret, nul_index_Some in Hn as (_ & _ & Hl).
  exists (drop (S n) data). rewrite take_drop_middle by done. destruct Hwf as [Hw _].
  rewrite length_drop, length_take. split; [done|lia].
Qed.

(** C25. [operator+=] on every branch.  The joined string is stored when its length is below [MAX] and
    the error is thrown when it exceeds [MAX]; when it equals [MAX] the guard lets the call through and
    the terminator is written one past the end of the array. *)
Theorem cs_append_spec (MAX : nat) (a b s t : str)
    (Ha : cs_wf MAX a) (Hb : cs_wf MAX b) (Hs : cs_str a = Ret s) (Ht : cs_str b = Ret t) :
  if decide (MAX < length s + length t)
  then cs_append MAX a b = Throw (RuntimeError (W "CString is too long. Max size is " ++ decimal (Z.of_nat MAX)))
  else if decide (length s + length t = MAX) then cs_append MAX a b = Undef OutOfBounds
  else exists data, cs_append MAX a b = Ret data /\ cs_wf MAX data /\ cs_str data = Ret (s ++ t).
Proof.
  destruct (cs_str_wf _ _ Ha) as (s' & Es & Ns & _ & La & _).
  destruct (cs_str_wf _ _ Hb) as (t' & Et & Nt & Lt & Lb & _).
  rewrite Es in Hs; rewrite Et in Ht. injection Hs as ->; injection Ht as ->.
  unfold cs_append. rewrite La, Lb. cbn [mbind outcome_bind].
  destruct (cs_padding _ _ _ Hb Et) as (kb & -> & _). rewrite take_app_length.
  destruct (cs_padding _ _ _ Ha Es) as (ka & -> & Lka).
  destruct Ha as [Hal _]. rewrite length_app in Hal; simpl in Hal.
  destruct (decide (MAX < length s + length t)) as [Hgt|Hle]; [done|].
  unfold memcpy_at. rewrite (decide_True (P := length s + length t <= _)) by (rewrite length_app; simpl; lia).
  cbn [mbind outcome_bind]. unfold store_at.
  rewrite overlay_length by (rewrite length_app; simpl; lia).
  rewrite (length_app s (NULL_CHAR :: ka)); simpl length.
  destruct (decide (length s + length t = MAX)) as [Heq|Hne].
  - rewrite decide_False by lia. done.
  - rewrite decide_True by lia. eexists. split; [done|].
    unfold overlay. rewrite take_app_length, app_assoc, <- (length_app s t).
    assert (HD : exists c k, drop (length (s ++ t)) (s ++ NULL_CHAR :: ka) = c :: k).
    { destruct (drop (length (s ++ t)) (s ++ NULL_CHAR :: ka)) as [|c k] eqn:E; [|by eauto].
      apply (f_equal length) in E. rewrite length_drop, !length_app in E. simpl in E. lia. }
    destruct HD as (c & k & HD). rewrite HD.
    assert (HL : length (s ++ t) + S (length k) = MAX).
    { apply (f_equal length) in HD. rewrite length_drop, !length_app in HD. rewrite length_app. simpl in HD. lia. }
    assert (HN : no_nul (s ++ t)) by (unfold no_nul in *; rewrite elem_of_app; tauto).
    rewrite insert_app_r_alt, Nat.sub_diag by lia. simpl. repeat split.
    + rewrite (length_app (s ++ t)). simpl. lia.
    + apply elem_of_app. right. left.
    + unfold cs_str, cs_length. rewrite nul_index_app by done. simpl. by rewrite take_app_length.
Qed.

Lemma cs_append_spec_witness :
  let a := W "abc" ++ [NULL_CHAR; NULL_CHAR] in let b := W "de" ++ replicate 3 NULL_CHAR in
  cs_wf 5 a /\ cs_wf 5 b /\ cs_append 5 a b = Undef OutOfBounds.
Proof.
  intros a b.
  assert (cs_wf 5 a) as Ha by (split; [reflexivity|apply (bool_decide_unpack _); vm_compute; exact I]).
  assert (cs_wf 5 b) as Hb by (split; [reflexivity|apply (bool_decide_unpack _); vm_compute; exact I]).
  split; [exact Ha|]. split; [exact Hb|].
  exact (cs_append_spec 5 a b (W "abc") (W "de") Ha Hb eq_refl eq_refl).
Defined.

(** The order [operator<] computes: smaller at the first position and at every later position of the
    left string; a position past the end of the right string holds NUL. *)
Definition pointwise_less (cs : bool) (s t : str) : Prop :=
  (char_key cs (nthc s 0) < char_key cs (nthc t 0))%Z
  /\ forall i, 1 <= i < length s -> (char_key cs (nthc s i) < char_key cs (nthc t i))%Z.

Lemma nthc_copied MAX s data : cs_of_S 0 MAX s = Ret data -> forall i, nthc data i = nthc s i.
Proof.
  destruct (decide (MAX <= length s)); [by rewrite cs_of_S_long|].
  rewrite cs_of_S_ok by lia. intros [= <-] i. unfold nthc. destruct (decide (i < length s)).
  - by rewrite app_nth1 by lia.
  - rewrite app_nth2, (nth_overflow s) by lia. rewrite nth_lookup.
    destruct (_ !! _) eqn:E; [|done]. by apply lookup_replicate in E as [-> _].
Qed.

Lemma cs_copied_length MAX s data : no_nul s -> cs_of_S 0 MAX s = Ret data -> cs_length data = Ret (length s).
Proof.
  intros Hs. destruct (decide (MAX <= length s)); [by rewrite cs_of_S_long|].
  rewrite cs_of_S_ok by lia. intros [= <-]. apply cs_length_padded; [done|lia].
Qed.

(** [operator<] is not a lexicographic order: it holds exactly when every character of the left
    string is below the one at the same position on the right, so "az" and "ba" are each [<=] the other
    without being equal, and [operator<=] is not antisymmetric. *)
Theorem cs_lt_pointwise {I : Icu} (cs acs : bool) (MAX : nat) (a b s t : str)
    (Ns : no_nul s) (Nt : no_nul t) (Ha : cs_of_S 0 MAX s = Ret a) (Hb : cs_of_S 0 MAX t = Ret b) :
  (exists r, cs_lt cs acs a b = Ret r /\ (r = true <-> pointwise_less cs s t))
  /\ (exists x y, cs_of_S 0 20 (W "az") = Ret x /\ cs_of_S 0 20 (W "ba") = Ret y
        /\ cs_le cs acs x y = Ret true /\ cs_le cs acs y x = Ret true /\ cs_eq cs acs x y = Ret false).
Proof.
  split.
  - pose proof (nthc_copied _ _ _ Ha) as Na. pose proof (nthc_copied _ _ _ Hb) as Nb.
    pose proof (cs_copied_length _ _ _ Ns Ha) as La.
    unfold cs_lt. rewrite char_less_key, Na, Nb. unfold pointwise_less.
    destruct (Z.ltb_spec (char_key cs (nthc s 0)) (char_key cs (nthc t 0))) as [H0|H0].
    + rewrite La. cbn [mbind outcome_bind]. eexists. split; [done|].
      rewrite forallb_forall. split.
      * intros H. split; [done|]. intros i Hi. specialize (H i). rewrite in_seq, char_less_key, Na, Nb in H.
        apply Z.ltb_lt, H. lia.
      * intros [_ H] i Hi%in_seq. rewrite char_less_key, Na, Nb. apply Z.ltb_lt, H. lia.
    + eexists. split; [done|]. split; [done|]. intros [? _]. lia.
  - do 2 eexists. split; [reflexivity|]. split; [reflexivity|].
    destruct cs, acs; done.
Qed.

(** An instance for evaluation: no code point decomposes. *)
Definition icu_identity : Icu := {| icu_nfd := fun c => Some [c]; icu_non_spacing_mark := fun _ => false |}.

Lemma cs_lt_pointwise_witness :
  let a := W "ab" ++ replicate 2 NULL_CHAR in let b := W "bc" ++ replicate 2 NULL_CHAR in
  cs_of_S 0 4 (W "ab") = Ret a /\ cs_of_S 0 4 (W "bc") = Ret b
  /\ exists r, @cs_lt icu_identity false false a b = Ret r /\ (r = true <-> pointwise_less false (W "ab") (W "bc")).
Proof.
  intros a b.
  assert (no_nul (W "ab")) as Na by (apply (bool_decide_unpack _); vm_compute; exact I).
  assert (no_nul (W "bc")) as Nb by (apply (bool_decide_unpack _); vm_compute; exact I).
  split; [reflexivity|]. split; [reflexivity|].
  exact (proj1 (@cs_lt_pointwise icu_identity false false 4 a b (W "ab") (W "bc") Na Nb eq_refl eq_refl)).
Defined.

(** ** What the templates of [operator+] make *)

Lemma memcpy_null n s : length s <= n -> memcpy_at (cs_null n) 0 s = Ret (s ++ replicate (n - length s) NULL_CHAR).
Proof.
  intros H. unfold memcpy_at, cs_null, cs_fill. rewrite length_replicate, decide_True by lia. f_equal.
  by rewrite overlay_0, drop_replicate.
Qed.

Lemma memcpy_behind s t k : length t <= k -> memcpy_at (s ++ replicate k NULL_CHAR) (length s) t = Ret (s ++ t ++ replicate (k - length t) NULL_CHAR).
Proof.
  intros H. unfold memcpy_at. rewrite length_app, length_replicate, decide_True by lia. f_equal. unfold overlay.
  rewrite take_app_length. do 2 f_equal. rewrite drop_app, drop_replicate, drop_ge by lia. simpl. f_equal. lia.
Qed.

Lemma cs_str_app s t : no_nul s -> cs_str (s ++ NULL_CHAR :: t) = Ret s.
Proof. intros H. unfold cs_str, cs_length. rewrite nul_index_app by done. cbn. by rewrite take_app_length. Qed.

(** The templates that join an array and something behind it keep the NULs that end the left one, so that the text
    of the result is the left text alone: what is behind it is in the array and is not seen.  A pointer is
    read for the size of the left array and not of the right text, which leaves the memory when the text is shorter.
    Only a character, or an array without NULs, in front of a [CS] is joined to its text. *)
Theorem plus_templates (N N2 : nat) (s t : str) (c : ascii) (Hs : no_nul s) (Ht : no_nul t) (Hls : length s < N) (Hlt : length t < N2) (Hc : c <> NULL_CHAR) :
  let a := s ++ replicate (N - length s) NULL_CHAR in let b := t ++ replicate (N2 - length t) NULL_CHAR in
  (exists r, plus_cs_cs N N2 a b = Ret r /\ cs_str r = Ret s /\ take N2 (drop N r) = b)
  /\ (exists r, plus_cs_S N (length t) a t = Ret r /\ cs_str r = Ret s)
  /\ (exists e, plus_cs_S N N2 a t = Throw e)
  /\ (plus_cs_cstr N (length t) a (t ++ [NULL_CHAR]) =
      if decide (N <= length t) then Ret (a ++ take N t ++ replicate (length t - N) NULL_CHAR) else Undef OutOfBounds)
  /\ (exists r, plus_cs_char N a c = Ret r /\ cs_str r = Ret s)
  /\ (exists r, plus_char_cs N2 c b = Ret r /\ cs_str r = Ret (c :: t))
  /\ (exists r, plus_array_cs (length s) N2 s b = Ret r /\ cs_str r = Ret (s ++ t)).
Proof.
  intros a b. assert (La : length a = N) by (unfold a; rewrite length_app, length_replicate; lia).
  assert (Lb : length b = N2) by (unfold b; rewrite length_app, length_replicate; lia).
  assert (Ha : forall x, cs_str (a ++ x) = Ret s).
  { intros x. unfold a. destruct (N - length s) as [|k] eqn:E; [lia|]. cbn [replicate]. rewrite <- app_assoc. by apply cs_str_app. }
  assert (Hab : forall k, memcpy_at (cs_null (N + k)) 0 a = Ret (a ++ replicate k NULL_CHAR)).
  { intros k. rewrite memcpy_null by lia. do 3 f_equal. lia. }
  assert (Hb : forall u, no_nul u -> cs_str (u ++ b) = Ret (u ++ t)).
  { intros u Hu. unfold b. destruct (N2 - length t) as [|k] eqn:E; [lia|]. cbn [replicate]. rewrite app_assoc. apply cs_str_app.
    unfold no_nul in *. rewrite elem_of_app. tauto. }
  assert (Hbeh : forall u k, length u <= k -> memcpy_at (a ++ replicate k NULL_CHAR) N u = Ret (a ++ u ++ replicate (k - length u) NULL_CHAR)).
  { intros u k Hu. rewrite <- La at 1. by apply memcpy_behind. }
  unfold plus_cs_cs, plus_cs_S, plus_cs_cstr, plus_cs_char, plus_char_cs, plus_array_cs. rewrite !Hab. cbn [mbind outcome_bind].
  split; [|split; [|split; [|split; [|split; [|split]]]]].
  - rewrite Hbeh by lia. eexists. split; [done|]. split; [by apply Ha|]. rewrite drop_app_length' by done. by rewrite take_app_length'.
  - rewrite decide_False by tauto. rewrite Hbeh by lia. eexists. split; [done|]. by apply Ha.
  - rewrite decide_True by lia. by eexists.
  - unfold cstr_length. rewrite (nul_index_app t []) by done. cbn [default from_option]. rewrite decide_False by (cbn; tauto). rewrite length_app. cbn [length].
    destruct (decide (N <= length t)).
    + rewrite decide_True by lia. rewrite take_app_le by lia. rewrite Hbeh by (rewrite length_take; lia). by rewrite length_take_le by lia.
    + destruct (decide (N <= length t + 1)) as [He|]; [|done]. unfold memcpy_at.
      rewrite decide_False; [done|]. rewrite length_take, !length_app, length_replicate. simpl. lia.
  - unfold store_at. rewrite decide_True by (rewrite length_app; simpl; lia). eexists. split; [done|].
    rewrite insert_app_r_alt by lia. by apply Ha.
  - unfold store_at. rewrite decide_True by (unfold cs_null, cs_fill; rewrite length_replicate; lia). cbn [mbind outcome_bind].
    unfold cs_null, cs_fill. rewrite Nat.add_1_r. cbn [replicate]. eexists. split.
    + apply (memcpy_behind [c] b N2). lia.
    + rewrite Lb, Nat.sub_diag, app_nil_r. apply (Hb [c]). unfold no_nul. rewrite list_elem_of_singleton. congruence.
  - rewrite memcpy_null by lia. cbn [mbind outcome_bind]. eexists. split; [apply memcpy_behind; lia|].
    replace (length s + N2 - length s - length b) with 0 by lia. rewrite app_nil_r. by apply Hb.
Qed.

Lemma plus_templates_witness :
  no_nul (W "ab") /\ no_nul (W "c") /\ exists r, plus_cs_cs 4 3 (W "ab" ++ replicate 2 NULL_CHAR) (W "c" ++ replicate 2 NULL_CHAR) = Ret r /\ cs_str r = Ret (W "ab").
Proof.
  assert (Ha : no_nul (W "ab")) by (apply (bool_decide_unpack _); vm_compute; exact I).
  assert (Hb : no_nul (W "c")) by (apply (bool_decide_unpack _); vm_compute; exact I).
  split; [exact Ha|]. split; [exact Hb|].
  destruct (plus_templates 4 3 (W "ab") (W "c") "x"%char Ha Hb ltac:(simpl; lia) ltac:(simpl; lia) ltac:(done)) as [(r & H1 & H2 & _) _].
  exists r. split; [exact H1|exact H2].
Defined.
