(* ===== verification/CodeUtil.v ===== *)
(** * Bool and Result (cpp/src/bool.hpp, cpp/src/code_util.hpp)

    [Bool] is the three-state boolean; [Result<T>] carries a value, a [Bool] and an error message held in
    a [CS<0, 256>]. *)
From S2P Require Import Prelude CS.

(** ** Bool *)

(* src: cpp/src/bool.hpp:13-20 Bool *)
Record Bool : Type := mk_Bool { bool_mvalue : Z }.
(* src: cpp/src/bool.hpp:16-16 Bool::UNKNOWN *)
Definition Bool_UNKNOWN : Bool := mk_Bool (-1).
(* src: cpp/src/bool.hpp:17-17 Bool::F *)
Definition Bool_F : Bool := mk_Bool 0.
(* src: cpp/src/bool.hpp:18-18 Bool::T *)
Definition Bool_T : Bool := mk_Bool 1.
(* src: cpp/src/bool.hpp:41-42 Bool::Bool *)
Definition Bool_of_int8 (value : Z) : Bool := mk_Bool (signed_wrap 8 value).
(* src: cpp/src/bool.hpp:44-45 Bool::Bool *)
Definition Bool_of_bool (value : bool) : Bool := if value then Bool_T else Bool_F.
(* src: cpp/src/bool.hpp:47-48 Bool::operator bool *)
Definition Bool_to_bool (b : Bool) : bool := bool_decide (bool_mvalue b = 1%Z).
(* src: cpp/src/bool.hpp:50-51 Bool::operator int_fast8_t *)
Definition Bool_to_int8 (b : Bool) : Z := bool_mvalue b.
(* src: cpp/src/bool.hpp:53-54 Bool::operator== *)
Definition Bool_eq (b other : Bool) : bool := bool_decide (bool_mvalue b = bool_mvalue other).

#[export] Instance Bool_eq_dec : EqDecision Bool.
Proof. solve_decision. Defined.

(** ** Result *)
Section result.
  Context {T : Type}.

(* src: cpp/src/code_util.hpp:13-20 Result *)
Record Result : Type := mk_Result { mresult : T; mok : Bool; merror_message : str }.

(** [EMPTY] converted to [CS<0, 256>]. *)
Definition EMPTY_MESSAGE : str := cs_null 256.

(* src: cpp/src/code_util.hpp:31-31 Result::Result *)
Definition result_of (rt : T) : Result := mk_Result rt Bool_T EMPTY_MESSAGE.
(* src: cpp/src/code_util.hpp:33-33 Result::Result *)
Definition result_error (err : str) (r : T) : Result := mk_Result r Bool_F err.
(** The value member is default-initialised, [uninit] standing for what it holds. *)
(* src: cpp/src/code_util.hpp:46-46 Result::Result *)
Definition result_of_cstr (error_message : str) (uninit : T) : outcome Result :=
  err ← cs_of_cstr 0 256 error_message; Ret (mk_Result uninit Bool_F err).
(* src: cpp/src/code_util.hpp:48-52 Result::operator Bool, Result::operator bool *)
Definition result_bool (r : Result) : bool := Bool_eq (mok r) Bool_T.
(* src: cpp/src/code_util.hpp:103-107 Result::operator! *)
Definition result_not (r : Result) : bool := negb (Bool_to_bool (mok r)).
(* src: cpp/src/code_util.hpp:81-86 Result::operator= *)
Definition result_assign_value (r : Result) (other : T) : Result :=
  {| mresult := other; mok := mok r; merror_message := merror_message r |}.
(* src: cpp/src/code_util.hpp:88-93 Result::operator= *)
Definition result_assign_Bool (r : Result) (other : Bool) : Result :=
  {| mresult := mresult r; mok := other; merror_message := merror_message r |}.
(* src: cpp/src/code_util.hpp:95-101 Result::operator= *)
Definition result_assign_error (r : Result) (other : str) : Result :=
  {| mresult := mresult r; mok := Bool_F; merror_message := other |}.
(* src: cpp/src/code_util.hpp:63-79 Result::operator==, Result::operator!=, Result::operator< *)
Definition result_eq (teq : T -> T -> bool) (r : Result) (other : T) : bool := teq (mresult r) other.
(* src: cpp/src/code_util.hpp:45-45 Result::Result *)
Definition result_of_message (error_message : str) (uninit : T) : Result := mk_Result uninit Bool_F error_message.
(* src: cpp/src/code_util.hpp:55-57 Result::operator T *)
Definition result_value (r : Result) : T := mresult r.
(* src: cpp/src/code_util.hpp:60-60 Result::operator ErrorMessageType *)
Definition result_message (r : Result) : str := merror_message r.
(** The value is printed, whether the result is one or not. *)
(* src: cpp/src/code_util.hpp:111-116 operator<< *)
Definition result_write (write : str -> T -> str) (os : str) (r : Result) : str := write os (mresult r).
End result.
Arguments Result : clear implicits.
(* src: cpp/src/bool.hpp:57-60 operator<< *)
Definition bool_write (os : str) (b : Bool) : str := os ++ decimal (bool_mvalue b).

Lemma result_bool_of {T} (t : T) : result_bool (result_of t) = true.
Proof. done. Qed.

Lemma result_of_cstr_ok {T} (msg : str) (u : T) :
  no_nul msg -> length msg < 256 ->
  exists r, result_of_cstr msg u = Ret r /\ mok r = Bool_F /\ cs_str (merror_message r) = Ret msg.
Proof.
  intros Hn Hl. unfold result_of_cstr.
  assert (cstr_length msg = length msg) as E.
  { unfold cstr_length. apply nul_index_None in Hn. by rewrite Hn. }
  unfold cs_of_cstr. rewrite E, cs_copy_fill by lia. rewrite firstn_all. cbn [mbind outcome_bind].
  eexists. split; [done|]. split; [done|]. apply cs_str_padded; [done|lia].
Qed.

#[export] Hint Resolve result_bool_of result_of_cstr_ok : pensar.
