(* ===== verification/SortedList.v ===== *)
(** * SortedList (cpp/src/sorted_list.hpp)

    A vector kept in the order of a comparator, optionally without equivalent elements.  The state is
    the data vector and the [unique_] flag; the comparator is fixed for the life of the list and is a
    parameter of the section, with the laws of [std::strict_weak_order] as a class. *)
From S2P Require Import Prelude CS CodeUtil.

(** [std::strict_weak_order<Compare, T, T>]. *)
Class StrictWeakOrder {T : Type} (comp : T -> T -> bool) : Prop := {
  swo_irrefl x : comp x x = false;
  swo_trans x y z : comp x y = true -> comp y z = true -> comp x z = true;
  swo_incomp x y z : comp x y = false -> comp y z = false -> comp x z = false;
}.

(** ** State and operations *)

(* src: cpp/src/sorted_list.hpp:264-268 SortedList *)
Record sorted_list (T : Type) : Type := mk_list { data_ : list T; unique_ : bool }.
Arguments mk_list {T}.
Arguments data_ {T}.
Arguments unique_ {T}.

(* src: cpp/src/sorted_list.hpp:31-44 validate_index *)
Definition validate_index (index size : nat) (context : str) (throws : bool) : outcome (Result bool) :=
  let msg := context ++ W ": Index " ++ decimal (Z.of_nat index) ++ W " out of bounds for size " ++ decimal (Z.of_nat size) in
  if decide (size <= index) then
    if throws then Throw (OutOfRange msg)
    else err ← cs_of_S 0 256 msg; Ret (result_error err false)
  else Ret (result_of true).

Section ops.
Context {T : Type} (comp : T -> T -> bool).
Implicit Types (l : sorted_list T) (value : T).

(** [std::lower_bound]: the binary search on the half-open range [first, first + len).  The range
  shrinks at every step, so [len] itself is enough fuel. *)
Fixpoint lower_bound_loop (fuel : nat) (data : list T) (first len : nat) (value : T) : nat :=
match fuel with
| O => first
| S fuel =>
    if decide (len = 0) then first else
    let half := Nat.div2 len in
    let middle := first + half in
    match data !! middle with
    | Some x =>
        if comp x value
        then lower_bound_loop fuel data (S middle) (len - half - 1) value
        else lower_bound_loop fuel data first half value
    | None => first
    end
end.
Definition lower_bound (data : list T) (value : T) : nat :=
lower_bound_loop (length data) data 0 (length data) value.

(** Neither is before the other: what [add] and [find] test at the lower bound. *)
Definition equivalent (x y : T) : bool := negb (comp x y) && negb (comp y x).

(* src: cpp/src/sorted_list.hpp:57-59 SortedList::SortedList *)
Definition new_list (unique : bool) : sorted_list T := mk_list [] unique.

(* src: cpp/src/sorted_list.hpp:123-139 SortedList::add *)
Definition add l value : sorted_list T * bool :=
let it := lower_bound (data_ l) value in
let present := match data_ l !! it with Some x => equivalent x value | None => false end in
if unique_ l && present then (l, false)
else (mk_list (vector_insert it value (data_ l)) (unique_ l), true).

(* src: cpp/src/sorted_list.hpp:62-81 SortedList::SortedList *)
Definition of_range (items : list T) (unique : bool) : sorted_list T :=
fold_left (fun l item => fst (add l item)) items (new_list unique).

(** The iterator is an index; [end()] is the size. *)
(* src: cpp/src/sorted_list.hpp:142-155 SortedList::find *)
Definition find l value : nat :=
let it := lower_bound (data_ l) value in
match data_ l !! it with
| Some x => if equivalent x value then it else length (data_ l)
| None => length (data_ l)
end.

(* src: cpp/src/sorted_list.hpp:157-173 SortedList::remove *)
Definition remove l value : sorted_list T * bool :=
let it := find l value in
if decide (it = length (data_ l)) then (l, false)
else (mk_list (vector_erase it (data_ l)) (unique_ l), true).

(* src: cpp/src/sorted_list.hpp:176-180 SortedList::remove_at *)
Definition remove_at l (index : nat) : outcome (sorted_list T) :=
_ ← validate_index index (length (data_ l)) (W "SortedList::remove_at") true;
Ret (mk_list (vector_erase index (data_ l)) (unique_ l)).

(* src: cpp/src/sorted_list.hpp:182-193 SortedList::at *)
Definition at_ l (index : nat) : outcome T :=
_ ← validate_index index (length (data_ l)) (W "SortedList::at") true; load_at (data_ l) index.

(** A store through the non-const reference that [at] returns. *)
(* src: cpp/src/sorted_list.hpp:183-187 SortedList::at *)
Definition at_store l (index : nat) value : outcome (sorted_list T) :=
_ ← validate_index index (length (data_ l)) (W "SortedList::at") true;
data ← store_at (data_ l) index value; Ret (mk_list data (unique_ l)).

(* src: cpp/src/sorted_list.hpp:195-207 SortedList::operator[] *)
Definition subscript l (index : nat) : outcome T :=
_ ← validate_index index (length (data_ l)) (W "SortedList::operator[]") true; load_at (data_ l) index.

(* src: cpp/src/sorted_list.hpp:209-213 SortedList::contains *)
Definition contains l value : bool := negb (bool_decide (find l value = length (data_ l))).
(* src: cpp/src/sorted_list.hpp:215-216 SortedList::size *)
Definition size l : nat := length (data_ l).
(* src: cpp/src/sorted_list.hpp:218-219 SortedList::empty *)
Definition empty l : bool := bool_decide (length (data_ l) = 0).
(* src: cpp/src/sorted_list.hpp:221-222 SortedList::clear *)
Definition clear l : sorted_list T := mk_list [] (unique_ l).
(* src: cpp/src/sorted_list.hpp:116-117 SortedList::set_unique *)
Definition set_unique l (unique : bool) : sorted_list T := mk_list (data_ l) unique.
(* src: cpp/src/sorted_list.hpp:119-120 SortedList::is_unique *)
Definition is_unique l : bool := unique_ l.
(* src: cpp/src/sorted_list.hpp:250-261 SortedList::last, SortedList::back *)
Definition last_ l : outcome T :=
match List.last (map Some (data_ l)) None with
| Some x => Ret x
| None => Throw (OutOfRange (W "SortedList::back: List is empty"))
end.

(** An iterator is an index from the front, a reverse iterator one from the back; the end is the size. *)
(* src: cpp/src/sorted_list.hpp:224-230 SortedList::begin, SortedList::end *)
Definition iter_read l (i : nat) : outcome T := load_at (data_ l) i.
(** What [begin()] of a list that is not constant gives can be written through. *)
(* src: cpp/src/sorted_list.hpp:225-225 SortedList::begin *)
Definition iter_store l (i : nat) value : outcome (sorted_list T) := data ← store_at (data_ l) i value; Ret (mk_list data (unique_ l)).
(* src: cpp/src/sorted_list.hpp:232-238 SortedList::rbegin, SortedList::rend *)
Definition reverse_read l (i : nat) : outcome T := if decide (i < length (data_ l)) then load_at (data_ l) (length (data_ l) - 1 - i) else Undef OutOfBounds.
(* src: cpp/src/sorted_list.hpp:240-244 SortedList::as_range, SortedList::data *)
Definition as_range l : list T := data_ l.
(* src: cpp/src/sorted_list.hpp:246-247 SortedList::comparator *)
Definition comparator : T -> T -> bool := comp.

(** [show] is the stream insertion of an element. *)
(* src: cpp/src/sorted_list.hpp:96-114 SortedList::to_s *)
Definition to_s (show : T -> str) l : str :=
let body := fold_left (fun '(ss, first) item =>
    ((if (first : bool) then ss else ss ++ W ", ") ++ show item, false)) (data_ l) (W "[", true) in
fst body ++ W "]".

End ops.

(** ** The order invariant *)

Section facts.
Context {T : Type} (comp : T -> T -> bool) `{!StrictWeakOrder comp}.
Implicit Types (l : sorted_list T) (x y value : T).

(** Non-decreasing: no later element is before an earlier one. *)
Definition ordered (data : list T) : Prop := StronglySorted (fun x y => comp y x = false) data.
(** Strictly increasing: no two elements are equivalent. *)
Definition strictly_ordered (data : list T) : Prop := StronglySorted (fun x y => comp x y = true) data.

Lemma comp_asym x y : comp x y = true -> comp y x = false.
Proof.
  intros H. destruct (comp y x) eqn:E; [|done].
  pose proof (swo_trans _ _ _ H E) as C. by rewrite swo_irrefl in C.
Qed.

Lemma equivalent_iff x y : equivalent comp x y = true <-> comp x y = false /\ comp y x = false.
Proof. unfold equivalent. by rewrite andb_true_iff, !negb_true_iff. Qed.

Lemma comp_equivalent_l x y z : equivalent comp x y = true -> comp x z = comp y z.
Proof.
  intros [H1 H2]%equivalent_iff.
  destruct (comp x z) eqn:E1, (comp y z) eqn:E2; try done.
  - by rewrite (swo_incomp _ _ _ H1 E2) in E1.
  - by rewrite (swo_incomp _ _ _ H2 E1) in E2.
Qed.

Lemma strictly_ordered_ordered data : strictly_ordered data -> ordered data.
Proof.
  unfold strictly_ordered, ordered. rewrite !StronglySorted_lookup. intros H i j x y Hij Hi Hj.
  apply comp_asym. eauto.
Qed.

(** What [std::lower_bound] promises: the split point of the range. *)
Definition split_at (data : list T) value (r : nat) : Prop :=
  r <= length data
  /\ (forall j x, j < r -> data !! j = Some x -> comp x value = true)
  /\ (forall j x, r <= j -> data !! j = Some x -> comp x value = false).

Lemma lower_bound_loop_split fuel data first len value :
  ordered data -> len <= fuel -> first + len <= length data ->
  (forall j x, j < first -> data !! j = Some x -> comp x value = true) ->
  (forall j x, first + len <= j -> data !! j = Some x -> comp x value = false) ->
  split_at data value (lower_bound_loop comp fuel data first len value).
Proof.
  intros Hs. unfold ordered in Hs; rewrite StronglySorted_lookup in Hs.
  revert first len. induction fuel as [|fuel IH]; intros first len Hf Hb Hlo Hhi.
  { assert (len = 0) as -> by lia. rewrite Nat.add_0_r in Hhi. cbn [lower_bound_loop]. split; [lia|by split]. }
  cbn [lower_bound_loop]. case_decide as Hz.
  { subst. rewrite Nat.add_0_r in Hhi. split; [lia|by split]. }
  pose proof (Nat.lt_div2 len ltac:(lia)) as Hh. set (half := Nat.div2 len) in *.
  destruct (lookup_lt_is_Some_2 data (first + half)) as [m Hm]; [lia|]. rewrite Hm.
  destruct (comp m value) eqn:Hc.
  - apply IH; [lia|lia| |].
    + intros j x Hj Hx. destruct (decide (j = first + half)) as [->|]; [congruence|].
      destruct (comp x value) eqn:E; [done|].
      assert (comp m x = false) as Hmx by (apply (Hs j (first + half)); [lia|done|done]).
      by rewrite (swo_incomp _ _ _ Hmx E) in Hc.
    + intros j x Hj. apply Hhi. lia.
  - apply IH; [lia|lia|done|]. intros j x Hj Hx.
    destruct (decide (j = first + half)) as [->|]; [congruence|].
    assert (comp x m = false) as Hxm by (apply (Hs (first + half) j); [lia|done|done]).
    by apply (swo_incomp _ _ _ Hxm).
Qed.

Lemma lower_bound_split data value : ordered data -> split_at data value (lower_bound comp data value).
Proof.
  intros. apply lower_bound_loop_split; try done.
  - intros; lia.
  - intros j x Hj Hx. apply lookup_lt_Some in Hx. lia.
Qed.

Lemma split_at_take data value r x : split_at data value r -> x ∈ take r data -> comp x value = true.
Proof.
  intros (_ & H & _) [j Hj]%list_elem_of_lookup. pose proof (lookup_lt_Some _ _ _ Hj) as Hl.
  rewrite length_take in Hl. rewrite lookup_take_lt in Hj by lia. apply (H j); [lia|done].
Qed.

Lemma split_at_drop data value r x : split_at data value r -> x ∈ drop r data -> comp x value = false.
Proof.
  intros (_ & _ & H) [j Hj]%list_elem_of_lookup. rewrite lookup_drop in Hj. apply (H (r + j)); [lia|done].
Qed.

(** Inserting at the split point keeps any order in which the value fits there. *)
Lemma insert_sorted (R : relation T) data r value :
  (forall x, x ∈ take r data -> R x value) -> (forall x, x ∈ drop r data -> R value x) ->
  StronglySorted R data -> StronglySorted R (vector_insert r value data).
Proof.
  intros Hlo Hhi Hs. rewrite <- (take_drop r data) in Hs. apply StronglySorted_app in Hs as (Hc & H1 & H2).
  unfold vector_insert. apply StronglySorted_app. split; [|split; [done|]].
  - intros x y Hx [->|Hy]%elem_of_cons; auto.
  - constructor; [done|]. by apply Forall_forall.
Qed.

Lemma split_at_equivalent data value r :
  ordered data -> split_at data value r ->
  (exists x, x ∈ data /\ equivalent comp x value = true)
  <-> (exists x, data !! r = Some x /\ equivalent comp x value = true).
Proof.
  intros Hs (Hr & Hlo & Hhi). split; [|intros (x & Hx & He); exists x; split; [by eapply list_elem_of_lookup_2|done]].
  intros (x & [j Hj]%list_elem_of_lookup & [E1 E2]%equivalent_iff).
  assert (r <= j) as Hrj.
  { destruct (decide (r <= j)); [done|]. rewrite (Hlo j x) in E1 by (done || lia). done. }
  destruct (lookup_lt_is_Some_2 data r) as [m Hm]; [apply lookup_lt_Some in Hj; lia|].
  exists m. split; [done|]. apply equivalent_iff. split; [by apply (Hhi r)|].
  destruct (decide (j = r)) as [->|]; [congruence|].
  unfold ordered in Hs; rewrite StronglySorted_lookup in Hs.
  assert (comp x m = false) as Hxm by (apply (Hs r j); [lia|done|done]).
  by apply (swo_incomp _ _ _ E2).
Qed.

Definition present l value : Prop := exists x, x ∈ data_ l /\ equivalent comp x value = true.

Lemma find_split l value :
  ordered (data_ l) ->
  (present l value /\ find comp l value = lower_bound comp (data_ l) value
     /\ exists x, data_ l !! find comp l value = Some x /\ equivalent comp x value = true)
  \/ (~ present l value /\ find comp l value = length (data_ l)).
Proof.
  intros Hs. pose proof (split_at_equivalent _ value _ Hs (lower_bound_split _ value Hs)) as Hiff.
  unfold find, present. destruct (data_ l !! lower_bound comp (data_ l) value) as [x|] eqn:E.
  - destruct (equivalent comp x value) eqn:Eq.
    + left. split; [apply Hiff; eauto|]. split; [done|]. eauto.
    + right. split; [|done]. rewrite Hiff. intros (y & Hy & Hy2). congruence.
  - right. split; [|done]. rewrite Hiff. intros (y & Hy & _). congruence.
Qed.
End facts.

(** ** Histories of operations *)

(** A call on the list.  The mutable references and iterators that [at], [operator[]] and [begin] hand
    out are not calls: a store through them is [at_store]. *)
Inductive op (T : Type) : Type :=
  | OpAdd (value : T)
  | OpRemove (value : T)
  | OpRemoveAt (index : nat)
  | OpClear
  | OpSetUnique (unique : bool).
Arguments OpAdd {T}. Arguments OpRemove {T}. Arguments OpRemoveAt {T}. Arguments OpClear {T}. Arguments OpSetUnique {T}.

Inductive step {T} (comp : T -> T -> bool) : op T -> sorted_list T -> sorted_list T -> Prop :=
  | step_add l v : step comp (OpAdd v) l (fst (add comp l v))
  | step_remove l v : step comp (OpRemove v) l (fst (remove comp l v))
  | step_remove_at l i l' : remove_at l i = Ret l' -> step comp (OpRemoveAt i) l l'
  | step_remove_at_throws l i e : remove_at l i = Throw e -> step comp (OpRemoveAt i) l l
  | step_clear l : step comp OpClear l (clear l)
  | step_set_unique l u : step comp (OpSetUnique u) l (set_unique l u).

Inductive steps {T} (comp : T -> T -> bool) : list (op T) -> sorted_list T -> sorted_list T -> Prop :=
  | steps_nil l : steps comp [] l l
  | steps_cons o os l l' l'' : step comp o l l' -> steps comp os l' l'' -> steps comp (o :: os) l l''.

Lemma remove_at_spec {T} (l : sorted_list T) i :
  remove_at l i = (if decide (i < length (data_ l)) then Ret (mk_list (vector_erase i (data_ l)) (unique_ l))
    else Throw (OutOfRange (W "SortedList::remove_at" ++ W ": Index " ++ decimal (Z.of_nat i)
      ++ W " out of bounds for size " ++ decimal (Z.of_nat (length (data_ l)))))).
Proof. unfold remove_at, validate_index. repeat case_decide; try lia; done. Qed.

Section properties.
Context {T : Type} (comp : T -> T -> bool) `{!StrictWeakOrder comp}.
Implicit Types (l : sorted_list T) (value : T).

(** The two orders [add] has to keep. *)
Lemma add_ordered l value : ordered comp (data_ l) -> ordered comp (data_ (fst (add comp l value))).
Proof.
  intros Hs. unfold add. case_match; [done|]. apply insert_sorted; [|..|done]; intros x Hx.
  - apply comp_asym; [done|]. by eapply split_at_take; [apply lower_bound_split|].
  - by eapply split_at_drop; [apply lower_bound_split|].
Qed.

Lemma add_present l value :
  ordered comp (data_ l) ->
  match data_ l !! lower_bound comp (data_ l) value with Some x => equivalent comp x value | None => false end = true
  <-> present comp l value.
Proof.
  intros Hs. unfold present. rewrite (split_at_equivalent comp _ _ _ Hs (lower_bound_split comp _ value Hs)).
  destruct (_ !! _); naive_solver.
Qed.

Lemma add_strict l value :
  unique_ l = true -> strictly_ordered comp (data_ l) -> strictly_ordered comp (data_ (fst (add comp l value))).
Proof.
  intros Hu Hs. pose proof (strictly_ordered_ordered comp _ Hs) as Ho.
  pose proof (add_present l value Ho) as Hp. unfold add. rewrite Hu. simpl.
  destruct (match _ with Some _ => _ | None => _ end) eqn:Ep; [done|].
  apply insert_sorted; [|..|done]; intros x Hx.
  - by eapply split_at_take; [apply lower_bound_split|].
  - pose proof (split_at_drop comp _ _ _ x (lower_bound_split comp _ value Ho) Hx) as Hx2.
    destruct (comp value x) eqn:E; [done|]. assert (false = true); [|done]. apply Hp.
    exists x. split; [|by apply equivalent_iff]. eapply elem_of_sublist; [exact Hx|apply sublist_drop].
Qed.

Lemma step_ordered o l l' : step comp o l l' -> ordered comp (data_ l) -> ordered comp (data_ l').
Proof.
  destruct 1; intros Hs; try done.
  - by apply add_ordered.
  - unfold remove. case_decide; [done|]. by eapply StronglySorted_sublist; [apply vector_erase_sublist|].
  - rewrite remove_at_spec in H. case_decide; simplify_eq/=.
    by eapply StronglySorted_sublist; [apply vector_erase_sublist|].
  - constructor.
Qed.

Lemma steps_ordered os l l' : steps comp os l l' -> ordered comp (data_ l) -> ordered comp (data_ l').
Proof. induction 1; eauto using step_ordered. Qed.

Lemma step_strict o l l' :
  step comp o l l' -> (forall u, o <> OpSetUnique u) ->
  unique_ l = true -> strictly_ordered comp (data_ l) ->
  unique_ l' = true /\ strictly_ordered comp (data_ l').
Proof.
  assert (Her : forall i d, strictly_ordered comp d -> strictly_ordered comp (vector_erase i d)).
  { intros i d. apply StronglySorted_sublist, vector_erase_sublist. }
  destruct 1; intros Hn Hu Hs; try done.
  - split; [|by apply add_strict]. unfold add. by case_match.
  - unfold remove. case_decide; [done|]. split; [done|]. by apply Her.
  - rewrite remove_at_spec in H. case_decide; simplify_eq/=. split; [done|]. by apply Her.
  - split; [done|constructor].
  - by destruct (Hn u).
Qed.

Lemma steps_strict os l l' :
  steps comp os l l' -> (forall u, OpSetUnique u ∉ os) ->
  unique_ l = true -> strictly_ordered comp (data_ l) ->
  unique_ l' = true /\ strictly_ordered comp (data_ l').
Proof.
  induction 1 as [|o os l l' l'' Hst _ IH]; intros Hn Hu Hs; [done|].
  destruct (step_strict _ _ _ Hst) as [Hu' Hs']; [|done..|].
  - intros u ->. apply (Hn u). by left.
  - apply IH; [|done..]. intros u Hin. apply (Hn u). by right.
Qed.

(** C1. Every history of calls keeps the vector in the order of the comparator, and a history without
    [set_unique] that starts from an empty unique list leaves no two equivalent elements in it. *)
Theorem sorted_list_invariant (os : list (op T)) (unique : bool) (l : sorted_list T)
    (Hrun : steps comp os (new_list unique) l) :
  ordered comp (data_ l)
  /\ (unique = true -> (forall u, OpSetUnique u ∉ os) -> strictly_ordered comp (data_ l)).
Proof.
  split.
  - eapply steps_ordered; [done|constructor].
  - intros -> Hn. eapply (steps_strict os); [done|done|done|constructor].
Qed.

Lemma insert_split data value :
  ordered comp data ->
  true = true -> exists lo hi, data = lo ++ hi /\ vector_insert (lower_bound comp data value) value data = lo ++ value :: hi
    /\ Forall (fun x => comp x value = true) lo /\ Forall (fun x => comp x value = false) hi.
Proof.
  intros Hs _. pose proof (lower_bound_split comp _ value Hs) as Hb.
  exists (take (lower_bound comp data value) data), (drop (lower_bound comp data value) data).
  rewrite take_drop. split; [done|]. split; [done|]. split; apply Forall_forall; intros x Hx.
  - by eapply split_at_take.
  - by eapply split_at_drop.
Qed.

(** C2. [add] inserts at the lower bound: it is refused, leaving the list as it was, exactly when the
    list is unique and holds an equivalent element; otherwise the element goes after every smaller
    element and before every other, and nothing else changes. *)
Theorem add_spec l value (Hs : ordered comp (data_ l)) :
  let (l', added) := add comp l value in
  (added = false <-> unique_ l = true /\ present comp l value)
  /\ (added = false -> l' = l) /\ unique_ l' = unique_ l
  /\ (added = true -> exists lo hi, data_ l = lo ++ hi /\ data_ l' = lo ++ value :: hi
        /\ Forall (fun x => comp x value = true) lo /\ Forall (fun x => comp x value = false) hi)
  /\ ordered comp (data_ l').
Proof.
  pose proof (add_ordered l value Hs) as Ho. pose proof (add_present l value Hs) as Hp.
  pose proof (insert_split _ value Hs) as Hi.
  unfold add in *. destruct (match data_ l !! _ with Some _ => _ | None => _ end) eqn:Ep, (unique_ l) eqn:Eu;
    simpl in *; (split; [|split; [|split; [|split; [|done]]]]); try done.
  - tauto.
  - by split; [|intros [? _]].
  - by split; [|intros [_ ?%Hp]].
  - by split; [|intros [? _]].
Qed.

(** [contains], [find] and [remove] against the contents: [find] returns the first element
    equivalent to the argument, or [end()] when there is none; [remove] erases exactly that element and
    reports whether there was one. *)
Theorem find_remove_spec l value (Hs : ordered comp (data_ l)) :
  (contains comp l value = true <-> present comp l value)
  /\ (forall i x, i < find comp l value -> data_ l !! i = Some x -> equivalent comp x value = false)
  /\ (if snd (remove comp l value) then
        exists x, data_ l !! find comp l value = Some x /\ equivalent comp x value = true
          /\ data_ (fst (remove comp l value)) = take (find comp l value) (data_ l) ++ drop (S (find comp l value)) (data_ l)
          /\ x :: data_ (fst (remove comp l value)) ≡ₚ data_ l
      else fst (remove comp l value) = l /\ ~ present comp l value)
  /\ ordered comp (data_ (fst (remove comp l value))).
Proof.
  pose proof (lower_bound_split comp _ value Hs) as (Hr & Hlo & Hhi).
  assert (Ho : ordered comp (data_ (fst (remove comp l value)))).
  { apply (step_ordered (OpRemove value) l); [constructor|done]. }
  destruct (find_split comp l value Hs) as [(Hp & Hf & x & Hx & Hxe)|(Hn & Hf)].
  - pose proof (lookup_lt_Some _ _ _ Hx) as Hlt.
    unfold contains, remove in *. rewrite decide_False in * by lia. simpl in *.
    split; [|split; [|split; [|done]]].
    + rewrite bool_decide_eq_false_2 by lia. tauto.
    + intros i y Hi Hy. rewrite Hf in Hi. apply not_true_iff_false. intros [E _]%equivalent_iff.
      rewrite (Hlo i y) in E; done.
    + exists x. repeat split; try done. by apply vector_erase_Permutation.
  - unfold contains, remove in *. rewrite Hf in *. rewrite decide_True in * by done. simpl in *.
    split; [|split; [|split; [|done]]].
    + rewrite bool_decide_eq_true_2 by done. split; [done|]. by intros ?%Hn.
    + intros i y Hi Hy. apply not_true_iff_false. intros E. apply Hn. exists y.
      split; [by eapply list_elem_of_lookup_2|done].
    + done.
Qed.

Lemma adds_steps items l : steps comp (OpAdd <$> items) l (fold_left (fun l item => fst (add comp l item)) items l).
Proof. revert l. induction items as [|a items IH]; intros l; [constructor|]. econstructor; [constructor|apply IH]. Qed.

Lemma of_range_fold items l :
  ordered comp (data_ l) ->
  let r := fold_left (fun l item => fst (add comp l item)) items l in
  ordered comp (data_ r) /\ unique_ r = unique_ l
  /\ (unique_ l = false -> data_ r ≡ₚ items ++ data_ l)
  /\ (forall v, present comp r v <-> present comp l v \/ exists x, x ∈ items /\ equivalent comp x v = true).
Proof.
  revert l. induction items as [|a items IH]; intros l Hs; simpl.
  - split; [done|]. split; [done|]. split; [done|]. intros v. split; [tauto|].
    intros [?|(x & Hx & _)]; [done|]. by apply elem_of_nil in Hx.
  - pose proof (add_spec l a Hs) as Ha. destruct (add comp l a) as [l' added] eqn:E. simpl.
    destruct Ha as (Hfalse & Heq & Hu & Htrue & Ho). destruct (IH l' Ho) as (H1 & H2 & H3 & H4).
    destruct added.
    + destruct (Htrue eq_refl) as (lo & hi & Hd & Hd' & _). split; [done|]. split; [congruence|]. split.
      * intros Hu'. rewrite H3 by congruence. rewrite Hd', Hd. solve_Permutation.
      * intros v. rewrite H4. unfold present. rewrite Hd, Hd'. clear.
        set_unfold. firstorder (subst; eauto 8).
    + rewrite (Heq eq_refl) in *. split; [done|]. split; [done|]. split.
      * intros Hu'. destruct Hfalse as [Hf _]. destruct (Hf eq_refl). congruence.
      * intros v. rewrite H4. destruct Hfalse as [Hf _]. destruct (Hf eq_refl) as (_ & y & Hy & Hye).
        split; [|intros [?|(x & [->|Hx]%elem_of_cons & Hxe)]]; try tauto.
        -- intros [?|(x & Hx & Hxe)]; [tauto|]. right. exists x. split; [by right|done].
        -- left. exists y. split; [done|]. apply equivalent_iff in Hxe as [E1 E2]. apply equivalent_iff.
           rewrite (comp_equivalent_l comp y a v Hye). split; [done|].
           apply equivalent_iff in Hye as [G1 G2]. by apply (swo_incomp v a y).
        -- right. exists x. tauto.
Qed.

(** Building a list from a range is a sort: in the multi-element mode the result is an ordered
    permutation of the range; in the unique mode it is strictly ordered and holds an element
    equivalent to a value exactly when the range does. *)
Theorem of_range_sorts (items : list T) :
  ordered comp (data_ (of_range comp items false)) /\ data_ (of_range comp items false) ≡ₚ items
  /\ strictly_ordered comp (data_ (of_range comp items true))
  /\ (forall v, contains comp (of_range comp items true) v = true <-> exists x, x ∈ items /\ equivalent comp x v = true).
Proof.
  assert (H0 : forall u, ordered comp (data_ (@new_list T u))) by constructor.
  destruct (of_range_fold items _ (H0 false)) as (H1 & _ & H2 & _).
  destruct (of_range_fold items _ (H0 true)) as (H3 & _ & _ & H4).
  split; [done|]. split; [by rewrite H2, app_nil_r by done|]. split.
  - eapply (steps_strict (map OpAdd items)); [apply adds_steps| |done|constructor].
    intros u (x & ? & _)%list_elem_of_fmap. done.
  - intros v. destruct (find_remove_spec (of_range comp items true) v H3) as [Hc _]. rewrite Hc, H4.
    split; [intros [(x & Hx & _)|]; [by apply elem_of_nil in Hx|done]|tauto].
Qed.
End properties.

(** ** Witnesses: integers in increasing order *)

#[export] Instance Zltb_swo : StrictWeakOrder Z.ltb.
Proof.
  split; intros.
  - apply Z.ltb_irrefl.
  - rewrite !Z.ltb_lt in *. lia.
  - rewrite !Z.ltb_ge in *. lia.
Qed.

Lemma sorted_list_invariant_witness :
  exists l, steps Z.ltb [OpAdd 3%Z; OpAdd 1%Z; OpAdd 3%Z; OpRemove 1%Z] (new_list true) l /\ data_ l = [3%Z]
    /\ ordered Z.ltb (data_ l).
Proof.
  assert (steps Z.ltb [OpAdd 3%Z; OpAdd 1%Z; OpAdd 3%Z; OpRemove 1%Z] (new_list true) (mk_list [3%Z] true)) as H.
  { repeat (eapply steps_cons; [constructor|]). vm_compute. constructor. }
  exists (mk_list [3%Z] true). split; [exact H|]. split; [reflexivity|].
  exact (proj1 (sorted_list_invariant Z.ltb _ true _ H)).
Defined.

Lemma add_spec_witness :
  ordered Z.ltb [1%Z; 4%Z] /\ fst (add Z.ltb (mk_list [1%Z; 4%Z] true) 2%Z) = mk_list [1%Z; 2%Z; 4%Z] true
  /\ ordered Z.ltb (data_ (fst (add Z.ltb (mk_list [1%Z; 4%Z] true) 2%Z))).
Proof.
  assert (ordered Z.ltb [1%Z; 4%Z]) as H by (repeat constructor).
  split; [exact H|]. split; [reflexivity|].
  pose proof (add_spec Z.ltb (mk_list [1%Z; 4%Z] true) 2%Z H) as A.
  destruct A as (_ & _ & _ & _ & A). exact A.
Defined.

Lemma find_remove_spec_witness :
  ordered Z.ltb [1%Z; 4%Z] /\ contains Z.ltb (mk_list [1%Z; 4%Z] false) 4%Z = true
  /\ present Z.ltb (mk_list [1%Z; 4%Z] false) 4%Z.
Proof.
  assert (ordered Z.ltb [1%Z; 4%Z]) as H by (repeat constructor).
  split; [exact H|]. split; [reflexivity|].
  apply (proj1 (find_remove_spec Z.ltb (mk_list [1%Z; 4%Z] false) 4%Z H)). reflexivity.
Defined.

(** Indexed access on every branch: [at] and [remove_at] return the element and erase it when the
    index is in range and throw [out_of_range] otherwise, so never read outside the vector; but [at] also
    returns a mutable reference, and a store through it can take the list out of order. *)
Theorem indexed_access {T} (l : sorted_list T) (index : nat) :
  (forall x, data_ l !! index = Some x ->
     at_ l index = Ret x /\ subscript l index = Ret x /\ exists l', remove_at l index = Ret l' /\ x :: data_ l' ≡ₚ data_ l)
  /\ (data_ l !! index = None ->
     (exists msg, at_ l index = Throw (OutOfRange msg)) /\ (exists msg, subscript l index = Throw (OutOfRange msg))
     /\ exists msg, remove_at l index = Throw (OutOfRange msg))
  /\ exists l0 l1 : sorted_list Z, ordered Z.ltb (data_ l0) /\ at_store l0 0 9%Z = Ret l1 /\ ~ ordered Z.ltb (data_ l1).
Proof.
  split; [|split].
  - intros x Hx. pose proof (lookup_lt_Some _ _ _ Hx). rewrite remove_at_spec, decide_True by done.
    unfold at_, subscript, validate_index. rewrite !decide_False by lia. unfold load_at. rewrite Hx.
    repeat split; try done. eexists. split; [done|]. by apply vector_erase_Permutation.
  - intros Hx%lookup_ge_None. rewrite remove_at_spec. rewrite decide_False by lia.
    unfold at_, subscript, validate_index. rewrite !decide_True by lia. eauto 6.
  - exists (mk_list [1%Z; 4%Z] false), (mk_list [9%Z; 4%Z] false). split; [repeat constructor|].
    split; [reflexivity|]. intros H. inversion H as [|? ? _ Hf]. inversion Hf. done.
Qed.

Lemma of_range_sorts_witness :
  StrictWeakOrder Z.ltb /\ data_ (of_range Z.ltb [3%Z; 1%Z; 3%Z] false) ≡ₚ [3%Z; 1%Z; 3%Z]
  /\ data_ (of_range Z.ltb [3%Z; 1%Z; 3%Z] true) = [1%Z; 3%Z].
Proof.
  split; [exact Zltb_swo|]. split; [|reflexivity].
  exact (proj1 (proj2 (of_range_sorts Z.ltb [3%Z; 1%Z; 3%Z]))).
Defined.

(** A store through a mutable iterator keeps the order exactly when no earlier element comes after the value and no later one before it;
    reading backwards gives the elements in the opposite order. *)
Theorem iterator_store_spec {T} (comp : T -> T -> bool) (l : sorted_list T) (i : nat) (v : T)
    (Hs : ordered comp (data_ l)) (Hi : i < length (data_ l)) :
  exists l', iter_store l i v = Ret l' /\ unique_ l' = unique_ l /\ length (data_ l') = length (data_ l) /\ iter_read l' i = Ret v
  /\ (ordered comp (data_ l') <->
        forall j x, data_ l !! j = Some x -> (j < i -> comp v x = false) /\ (i < j -> comp x v = false))
  /\ (forall k, reverse_read l' k = match rev (data_ l') !! k with Some x => Ret x | None => Undef OutOfBounds end).
Proof.
  unfold iter_store, store_at. rewrite decide_True by done. eexists. split; [reflexivity|]. cbn [data_ unique_].
  split; [done|]. split; [by rewrite length_insert|]. split; [|split].
  - unfold iter_read, load_at. cbn [data_]. by rewrite list_lookup_insert_eq.
  - unfold ordered in *. rewrite !StronglySorted_lookup in *. split.
    + intros H j x Hj. split; intros Hlt.
      * apply (H j i); [done|by rewrite list_lookup_insert_ne by lia|by apply list_lookup_insert_eq].
      * apply (H i j); [done|by apply list_lookup_insert_eq|by rewrite list_lookup_insert_ne by lia].
    + intros H a b x y Hab Hx Hy. destruct (decide (a = i)) as [->|Ha], (decide (b = i)) as [->|Hb]; try lia.
      * rewrite list_lookup_insert_eq in Hx by done. rewrite list_lookup_insert_ne in Hy by done. injection Hx as <-. by apply (H b y Hy).
      * rewrite list_lookup_insert_ne in Hx by done. rewrite list_lookup_insert_eq in Hy by done. injection Hy as <-. by apply (H a x Hx).
      * rewrite list_lookup_insert_ne in Hx, Hy by done. by apply (Hs a b).
  - intros k. unfold reverse_read. cbn [data_]. set (d := <[i:=v]> (data_ l)). case_decide as Hk.
    + rewrite rev_alt. fold (reverse d). rewrite reverse_lookup by done. unfold load_at. replace (length d - S k) with (length d - 1 - k) by lia. done.
    + rewrite lookup_ge_None_2; [done|]. rewrite length_rev. lia.
Qed.

Lemma iterator_store_spec_witness :
  ordered Z.ltb [1%Z; 4%Z] /\ 0 < length [1%Z; 4%Z]
  /\ exists l', iter_store (mk_list [1%Z; 4%Z] false) 0 9%Z = Ret l' /\ ~ ordered Z.ltb (data_ l').
Proof.
  assert (ordered Z.ltb [1%Z; 4%Z]) as H by (repeat constructor). assert (0 < length [1%Z; 4%Z]) as L by (simpl; lia).
  split; [exact H|split; [exact L|]]. destruct (iterator_store_spec Z.ltb (mk_list [1%Z; 4%Z] false) 0 9%Z H L) as (l' & E & _ & _ & _ & O & _).
  exists l'. split; [exact E|]. intros C. destruct (proj1 O C 1 4%Z eq_refl) as [_ X]. discriminate X. simpl. lia.
Defined.
