(* ===== verification/Distance.v ===== *)
(** * Edit distance (cpp/src/distance.hpp)

    [distance] and [icu_distance] are one algorithm on two alphabets, [char] and Unicode code points:
    three rows of a table, rotated after each source character.  [rows_distance] is that loop for any
    alphabet.  [edits] says what the result should be: the least cost of an alignment by insertions, deletions,
    substitutions and transpositions of adjacent characters in which no part is edited twice; [edit] is one edit anywhere, for
    comparison; [osa] is the recurrence that connects the loop and the alignments. *)
From S2P Require Import Prelude.

(** ** The loops (lines 21-102) *)
Section rows.
Context {A : Type} `{EqDecision A} (source target : list A).

(* src: cpp/src/distance.hpp:40-49 distance *)
Definition cell (row1 row2 row3 : list nat) (i j : nat) : nat :=
  let s_i := source !! (i - 1) in
  let t_j := target !! (j - 1) in
  let cost := if decide (s_i = t_j) then 0 else 1 in
  let v := Nat.min (Nat.min (row3 !!! (j - 1) + 1) (row2 !!! j + 1)) (row2 !!! (j - 1) + cost) in
  if decide (1 < i /\ 1 < j /\ s_i = target !! (j - 2) /\ t_j = source !! (i - 2))
  then Nat.min v (row1 !!! (j - 2) + 1) else v.

(* src: cpp/src/distance.hpp:37-50 distance *)
Definition next_row (row1 row2 row3 : list nat) (i : nat) : list nat :=
  fold_left (fun row3 j => <[j := cell row1 row2 row3 i j]> row3) (seq 1 (length target)) (<[0 := i]> row3).

(* src: cpp/src/distance.hpp:36-55 distance *)
Definition row_step (rows : list nat * list nat * list nat) (i : nat) : list nat * list nat * list nat :=
  let '(row1, row2, row3) := rows in
  let row3 := next_row row1 row2 row3 i in (row2, row3, row3).

(* src: cpp/src/distance.hpp:21-58 distance *)
Definition rows_distance : nat :=
  let n := length source in
  let m := length target in
  if decide (n = 0) then m else
  if decide (m = 0) then n else
  let zeros := replicate (m + 1) 0 in
  let row2 := fold_left (fun r j => <[j := j]> r) (seq 0 (m + 1)) zeros in
  let '(_, row2, _) := fold_left row_step (seq 1 n) (zeros, row2, zeros) in
  row2 !!! m.

End rows.

(* src: cpp/src/distance.hpp:21-58 distance *)
Definition distance (source target : str) : nat := rows_distance source target.

(** [to_codepoints] decodes UTF-8 with ICU. *)
(* src: cpp/src/distance.hpp:60-102 icu_distance *)
Definition icu_distance (to_codepoints : str -> list Z) (source target : str) : nat :=
  rows_distance (to_codepoints source) (to_codepoints target).

(** ** Selection by distance (lines 106-190) *)

(** [int min_dist = pd::distance(...)] narrows [size_t] to [int]. *)
Definition int_distance (s t : str) : Z := signed_wrap 32 (Z.of_nat (distance s t)).

(* src: cpp/src/distance.hpp:106-117 LessDistance *)
Definition LessDistance (reference left right : str) : bool := distance left reference <? distance right reference.

(** The file and line that [INVALID_ARGUMENT] puts before the message are left out. *)
Definition empty_container : exn := InvalidArgument (W "c.size () = 0").

(* src: cpp/src/distance.hpp:120-139 min_distance *)
Definition min_distance (s : str) (c : list str) : outcome str :=
  match c with
  | [] => Throw empty_container
  | first :: _ =>
      Ret (fst (fold_left (fun '(min, min_dist) it =>
        let dist := int_distance it s in
        if (dist <? min_dist)%Z then (it, dist) else (min, min_dist)) c (first, int_distance first s)))
  end.

(** Of a character pointer: its characters up to the terminator. *)
(* src: cpp/src/distance.hpp:141-145 min_distance *)
Definition min_distance_cstr (s : str) (c : list str) : outcome str := min_distance (take (cstr_length s) s) c.

(** The map is its entries in key order. *)
(* src: cpp/src/distance.hpp:147-167 min_distance_map_key *)
Definition min_distance_map_key (s : str) (c : list (str * str)) (max_distance : Z) : outcome (str * str) :=
  match c with
  | [] => Throw empty_container
  | first :: _ =>
      let '(minimum, min_dist) := fold_left (fun '(minimum, min_dist) (it : str * str) =>
        let dist := int_distance (fst it) s in
        if (dist <? min_dist)%Z then (it, dist) else (minimum, min_dist)) c (first, int_distance (fst first) s) in
      Ret (if (min_dist <=? max_distance)%Z then minimum else ([], []))
  end.

(** The loop that should copy [c] into the ordered set runs over the set itself, which is empty; a
    positive [max_elements] then advances its end iterator. *)
(* src: cpp/src/distance.hpp:169-190 min_distance *)
Definition min_distance_out (s : str) (c out : list str) (max_elements : nat) : outcome (list str) :=
  match c with
  | [] => Throw empty_container
  | _ =>
      let mset : list str := [] in
      let mset := fold_left (fun acc it => acc ++ [it]) mset mset in
      if decide (max_elements = 0) then Ret (out ++ mset)
      else if decide (length mset < max_elements) then Undef InvalidIterator
      else Ret (out ++ take max_elements mset)
  end.

(* src: cpp/src/distance.hpp:193-197 min_distance *)
Definition min_distance_out_cstr (s : str) (c out : list str) (max_elements : nat) : outcome (list str) :=
  min_distance_out (take (cstr_length s) s) c out max_elements.

(** ** The specification *)

Inductive edits {A : Type} : list A -> list A -> nat -> Prop :=
  | edits_nil : edits [] [] 0
  | edits_keep s t n c : edits s t n -> edits (s ++ [c]) (t ++ [c]) n
  | edits_subst s t n c d : edits s t n -> edits (s ++ [c]) (t ++ [d]) (S n)
  | edits_delete s t n c : edits s t n -> edits (s ++ [c]) t (S n)
  | edits_insert s t n d : edits s t n -> edits s (t ++ [d]) (S n)
  | edits_swap s t n c d : edits s t n -> edits ((s ++ [c]) ++ [d]) ((t ++ [d]) ++ [c]) (S n).

(** The recurrence on prefixes: [osa i j] relates the first [i] and the first [j] characters. *)
Section osa.
Context {A : Type} `{EqDecision A} (source target : list A).

Definition cost (i j : nat) : nat := if decide (source !! i = target !! j) then 0 else 1.
Definition swappable (i j : nat) : bool := bool_decide (source !! S i = target !! j /\ target !! S j = source !! i).

Fixpoint osa (i : nat) : nat -> nat :=
  match i with
  | O => fun j => j
  | S i' => fix row (j : nat) : nat :=
      match j with
      | O => S i'
      | S j' =>
          let v := Nat.min (Nat.min (row j' + 1) (osa i' (S j') + 1)) (osa i' j' + cost i' j') in
          match i', j' with
          | S i'', S j'' => if swappable i'' j'' then Nat.min v (osa i'' j'' + 1) else v
          | _, _ => v
          end
      end
  end.

Lemma osa_0_l j : osa 0 j = j.
Proof. done. Qed.
Lemma osa_0_r i : osa i 0 = i.
Proof. by destruct i. Qed.

Lemma osa_S i j :
  osa (S i) (S j) =
  let v := Nat.min (Nat.min (osa (S i) j + 1) (osa i (S j) + 1)) (osa i j + cost i j) in
  match i, j with
  | S i', S j' => if swappable i' j' then Nat.min v (osa i' j' + 1) else v
  | _, _ => v
  end.
Proof. by destruct i, j. Qed.

Lemma osa_base i j :
  osa (S i) (S j) <= Nat.min (Nat.min (osa (S i) j + 1) (osa i (S j) + 1)) (osa i j + cost i j).
Proof. rewrite osa_S. destruct i, j; cbn zeta; try case_match; lia. Qed.

Lemma osa_delete i j : osa (S i) j <= S (osa i j).
Proof. destruct j; [rewrite !osa_0_r; lia|]. pose proof (osa_base i j). lia. Qed.
Lemma osa_insert i j : osa i (S j) <= S (osa i j).
Proof. destruct i; [rewrite !osa_0_l; lia|]. pose proof (osa_base i j). lia. Qed.
Lemma osa_subst i j : osa (S i) (S j) <= S (osa i j).
Proof. pose proof (osa_base i j). unfold cost in *. case_decide; lia. Qed.
Lemma osa_keep i j : source !! i = target !! j -> osa (S i) (S j) <= osa i j.
Proof. intros H. pose proof (osa_base i j). unfold cost in *. rewrite decide_True in * by done. lia. Qed.
Lemma osa_swap i j : swappable i j = true -> osa (S (S i)) (S (S j)) <= S (osa i j).
Proof. intros H. rewrite osa_S. cbn zeta. rewrite H. lia. Qed.

Lemma prefix_snoc_lookup (l k : list A) x : l ++ [x] `prefix_of` k -> k !! length l = Some x /\ l `prefix_of` k.
Proof.
  intros [r ->]. split.
  - rewrite <- app_assoc. by apply list_lookup_middle.
  - rewrite <- app_assoc. by apply prefix_app_r.
Qed.

(** No edit script is cheaper than the recurrence. *)
Lemma osa_lower s t n :
  edits s t n -> s `prefix_of` source -> t `prefix_of` target -> osa (length s) (length t) <= n.
Proof.
  induction 1 as [|s t n c _ IH|s t n c d _ IH|s t n c _ IH|s t n d _ IH|s t n c d _ IH]; intros Hs Ht; try done.
  all: repeat match goal with H : _ ++ [_] `prefix_of` _ |- _ => apply prefix_snoc_lookup in H as [? ?] end.
  all: specialize (IH ltac:(done) ltac:(done)).
  all: repeat rewrite length_app; cbn [length]; rewrite ?Nat.add_1_r.
  - etrans; [apply osa_keep; congruence|done].
  - etrans; [apply osa_subst|lia].
  - etrans; [apply osa_delete|lia].
  - etrans; [apply osa_insert|lia].
  - rewrite length_app, Nat.add_1_r in *. etrans; [apply osa_swap|lia].
    unfold swappable. apply bool_decide_eq_true_2. split; congruence.
Qed.

(** The recurrence is the cost of a script. *)
Lemma osa_script i j :
  i <= length source -> j <= length target -> edits (take i source) (take j target) (osa i j).
Proof.
  remember (i + j) as k eqn:Hk. revert i j Hk. induction (lt_wf k) as [k _ IH]. intros i j -> Hi Hj.
  destruct i as [|i], j as [|j].
  - constructor.
  - destruct (lookup_lt_is_Some_2 target j) as [d Hd]; [lia|]. rewrite (take_S_r _ _ d Hd).
    apply edits_insert. apply (IH (0 + j)); lia.
  - destruct (lookup_lt_is_Some_2 source i) as [c Hc]; [lia|]. rewrite (take_S_r _ _ c Hc). rewrite osa_0_r.
    apply edits_delete. rewrite <- (osa_0_r i) at 2. apply (IH (i + 0)); lia.
  - destruct (lookup_lt_is_Some_2 target j) as [d Hd]; [lia|].
    destruct (lookup_lt_is_Some_2 source i) as [c Hc]; [lia|].
    assert (Hv : edits (take (S i) source) (take (S j) target)
      (Nat.min (Nat.min (osa (S i) j + 1) (osa i (S j) + 1)) (osa i j + cost i j))).
    { destruct (Nat.min_spec (Nat.min (osa (S i) j + 1) (osa i (S j) + 1)) (osa i j + cost i j)) as [[_ ->]|[_ ->]].
      - destruct (Nat.min_spec (osa (S i) j + 1) (osa i (S j) + 1)) as [[_ ->]|[_ ->]]; rewrite Nat.add_1_r.
        + rewrite (take_S_r _ j d Hd). apply edits_insert. apply (IH (S i + j)); lia.
        + rewrite (take_S_r _ i c Hc). apply edits_delete. apply (IH (i + S j)); lia.
      - rewrite (take_S_r _ j d Hd), (take_S_r _ i c Hc). unfold cost. case_decide as E.
        + rewrite Nat.add_0_r. assert (c = d) as -> by congruence. apply edits_keep. apply (IH (i + j)); lia.
        + rewrite Nat.add_1_r. apply edits_subst. apply (IH (i + j)); lia. }
    rewrite osa_S. destruct i as [|i], j as [|j]; try exact Hv. cbn zeta. destruct (swappable i j) eqn:Hsw; [|exact Hv].
    match goal with |- context [Nat.min ?v _] => destruct (Nat.min_spec v (osa i j + 1)) as [[_ ->]|[_ ->]] end; [exact Hv|].
    apply bool_decide_eq_true_1 in Hsw as [H1 H2].
    destruct (lookup_lt_is_Some_2 source i) as [c' Hc']; [lia|].
    destruct (lookup_lt_is_Some_2 target j) as [d' Hd']; [lia|].
    rewrite (take_S_r _ (S j) d Hd), (take_S_r _ (S i) c Hc), (take_S_r _ j d' Hd'), (take_S_r _ i c' Hc').
    assert (c = d') as -> by congruence. assert (d = c') as -> by congruence.
    rewrite Nat.add_1_r. apply edits_swap. apply (IH (i + j)); lia.
Qed.

(** ** The rows hold the recurrence *)

Definition row_is (i k : nat) (r : list nat) : Prop :=
  length r = length target + 1 /\ forall j, j <= k -> r !!! j = osa i j.

Lemma cell_osa i j row1 row2 row3 :
  row_is i (length target) row2 -> (0 < i -> row_is (i - 1) (length target) row1) ->
  row_is (S i) j row3 -> j < length target ->
  cell source target row1 row2 row3 (S i) (S j) = osa (S i) (S j).
Proof.
  intros [_ H2] H1 [_ H3] Hj. unfold cell. rewrite osa_S. unfold cost.
  replace (S i - 1) with i by lia. replace (S j - 1) with j by lia.
  rewrite (H2 (S j)), (H2 j), (H3 j) by lia. cbn zeta.
  destruct i as [|i], j as [|j]; try (rewrite decide_False by lia; done).
  replace (S (S i) - 2) with i by lia. replace (S (S j) - 2) with j by lia.
  destruct (H1 ltac:(lia)) as [_ H1']. replace (S i - 1) with i in H1' by lia.
  rewrite (H1' j) by lia. unfold swappable. case_decide as E; case_bool_decide as E'; try done; exfalso; naive_solver lia.
Qed.

Lemma row_is_step i k r :
  row_is i k r -> S k <= length target -> row_is i (S k) (<[S k := osa i (S k)]> r).
Proof.
  intros [Hl Hr] Hk. split; [by rewrite length_insert|]. intros j Hj.
  destruct (decide (j = S k)) as [->|].
  - apply list_lookup_total_insert_eq. lia.
  - rewrite list_lookup_total_insert_ne by done. apply Hr. lia.
Qed.

Lemma next_row_osa i row1 row2 row3 :
  row_is i (length target) row2 -> (0 < i -> row_is (i - 1) (length target) row1) ->
  length row3 = length target + 1 ->
  row_is (S i) (length target) (next_row source target row1 row2 row3 (S i)).
Proof.
  intros H2 H1 Hl. unfold next_row.
  pose proof (fold_left_seq_inv (fun k r => row_is (S i) (k - 1) r)
    (fun row3 j => <[j := cell source target row1 row2 row3 (S i) j]> row3) 1 (length target) (<[0 := S i]> row3)) as Inv.
  cbv beta in Inv. replace (1 + length target - 1) with (length target) in Inv by lia. apply Inv.
  - split; [by rewrite length_insert|]. intros j Hj. assert (j = 0) as -> by lia.
    rewrite list_lookup_total_insert_eq by lia. by rewrite osa_0_r.
  - intros j r Hj Hr. destruct j as [|j]; [lia|]. replace (S j - 1) with j in Hr by lia.
    replace (S (S j) - 1) with (S j) by lia. rewrite (cell_osa i j) by (done || lia).
    apply row_is_step; [done|lia].
Qed.

Lemma first_row_osa :
  row_is 0 (length target) (fold_left (fun r j => <[j := j]> r) (seq 0 (length target + 1)) (replicate (length target + 1) 0)).
Proof.
  assert (H : length (fold_left (fun r j => <[j := j]> r) (seq 0 (length target + 1)) (replicate (length target + 1) 0)) = length target + 1
    /\ forall j, j < 0 + (length target + 1) -> fold_left (fun r j => <[j := j]> r) (seq 0 (length target + 1)) (replicate (length target + 1) 0) !!! j = j).
  { apply (fold_left_seq_inv (fun k r => length r = length target + 1 /\ forall j, j < k -> r !!! j = j)).
    - split; [by rewrite length_replicate|]. lia.
    - intros k r Hk [Hl Hr]. split; [by rewrite length_insert|]. intros j Hj. destruct (decide (j = k)) as [->|].
      + apply list_lookup_total_insert_eq. lia.
      + rewrite list_lookup_total_insert_ne by done. apply Hr. lia. }
  destruct H as [H1 H2]. split; [done|]. intros j Hj. rewrite osa_0_l. apply H2. lia.
Qed.

Lemma rows_distance_osa : rows_distance source target = osa (length source) (length target).
Proof.
  unfold rows_distance. case_decide as Hn; [by rewrite Hn|]. case_decide as Hm; [by rewrite Hm, osa_0_r|].
  set (init := (_, _, _)).
  assert (H : let '(row1, row2, row3) := fold_left (row_step source target) (seq 1 (length source)) init in
     row_is (length source) (length target) row2).
  { pose proof (fold_left_seq_inv (fun k '(row1, row2, row3) => row_is (k - 1) (length target) row2
      /\ (1 < k -> row_is (k - 1 - 1) (length target) row1) /\ length row3 = length target + 1)
      (row_step source target) 1 (length source) init) as Inv.
    destruct (fold_left (row_step source target) (seq 1 (length source)) init) as [[row1 row2] row3]. cbv beta iota in Inv.
    destruct Inv as [H _].
    - split; [apply first_row_osa|]. split; [lia|by rewrite length_replicate].
    - intros i [[r1 r2] r3] Hi (H2 & H1 & H3). destruct i as [|i]; [lia|]. unfold row_step.
      replace (S i - 1) with i in * by lia. replace (S (S i) - 1) with (S i) by lia.
      assert (Hn' : row_is (S i) (length target) (next_row source target r1 r2 r3 (S i))).
      { apply next_row_osa; [done|intros; apply H1; lia|done]. }
      split; [done|]. split; [|apply Hn']. intros _. by replace (S i - 1) with i by lia.
    - replace (1 + length source - 1) with (length source) in H by lia. exact H. }
  destruct (fold_left (row_step source target) (seq 1 (length source)) init) as [[row1 row2] row3]. destruct H as [_ H]. apply H. lia.
Qed.
End osa.

(** ** Laws of the specification *)

Section edits.
Context {A : Type}.
Implicit Types s t : list A.

Lemma edits_symmetric s t n : edits s t n -> edits t s n.
Proof. induction 1; by constructor. Qed.

Lemma edits_refl s : edits s s 0.
Proof. induction s using rev_ind; by constructor. Qed.

Lemma edits_0_eq s t n : edits s t n -> n = 0 -> s = t.
Proof. induction 1; intros; try done. by rewrite IHedits. Qed.

Lemma edits_length s t n : edits s t n -> length s <= length t + n /\ length t <= length s + n.
Proof. induction 1; rewrite ?length_app in *; simpl in *; lia. Qed.

Lemma edits_app_l s t u n : edits t u n -> edits (s ++ t) (s ++ u) n.
Proof.
  induction 1; rewrite ?app_nil_r, ?(app_assoc s); try by constructor. apply edits_refl.
Qed.

Lemma edits_drop_all s : edits s [] (length s).
Proof. induction s using rev_ind; [constructor|]. rewrite length_app, Nat.add_1_r. by constructor. Qed.

(** Replacing everything costs the longer length. *)
Lemma edits_replace s t : edits s t (Nat.max (length s) (length t)).
Proof.
  revert t. induction s as [|c s IH] using rev_ind; intros t.
  - apply edits_symmetric, edits_drop_all.
  - destruct t as [|d t _] using rev_ind; [rewrite Nat.max_0_r; apply edits_drop_all|].
    rewrite !length_app, !Nat.add_1_r, <- Nat.succ_max_distr. by apply edits_subst.
Qed.
End edits.

(** One edit anywhere in a string, and sequences of them: here what one edit leaves may be edited again. *)
Inductive edit {A : Type} : list A -> list A -> Prop :=
  | edit_subst u v c d : edit (u ++ c :: v) (u ++ d :: v)
  | edit_delete u v c : edit (u ++ c :: v) (u ++ v)
  | edit_insert u v d : edit (u ++ v) (u ++ d :: v)
  | edit_swap u v c d : edit (u ++ c :: d :: v) (u ++ d :: c :: v).

Lemma edit_snoc {A} (s t : list A) c : edit s t -> edit (s ++ [c]) (t ++ [c]).
Proof. destruct 1; rewrite <- ?app_assoc; cbn; rewrite <- ?app_comm_cons; constructor. Qed.
Lemma nsteps_snoc {A} n (s t : list A) c : nsteps edit n s t -> nsteps edit n (s ++ [c]) (t ++ [c]).
Proof. induction 1; [constructor|]. econstructor; [by apply edit_snoc|done]. Qed.

Lemma edits_nsteps {A} (s t : list A) n : edits s t n -> nsteps edit n s t.
Proof.
  induction 1 as [|s t n c _ IH|s t n c d _ IH|s t n c _ IH|s t n d _ IH|s t n c d _ IH].
  - constructor.
  - by apply nsteps_snoc.
  - eapply nsteps_r; [by apply nsteps_snoc|]. apply (edit_subst t []).
  - econstructor; [|exact IH]. pose proof (edit_delete s [] c) as H. by rewrite app_nil_r in H.
  - eapply nsteps_r; [exact IH|]. pose proof (edit_insert t [] d) as H. by rewrite app_nil_r in H.
  - econstructor; [|by apply nsteps_snoc, nsteps_snoc]. rewrite <- !app_assoc. apply (edit_swap s []).
Qed.

(** C17. The distance is the least cost of an alignment of the two strings, read from left to right, in which every character is kept,
    substituted, deleted or inserted, or swapped with its neighbour, and no part is edited twice (the optimal string alignment
    distance): an alignment of that cost exists and none is cheaper.  An alignment is also a sequence of as many single edits; but
    sequences that edit a part again, which alignments do not, may be shorter: CA becomes ABC through AC in two edits, and the distance
    is three.  The same holds of [icu_distance] on the code points of the two strings, so the three-row loop with its rotation computes the
    table it replaces. *)
Theorem distance_optimal (s t : str) (to_codepoints : str -> list Z) :
  edits s t (distance s t) /\ (forall n, edits s t n -> distance s t <= n)
  /\ edits (to_codepoints s) (to_codepoints t) (icu_distance to_codepoints s t)
  /\ (forall n, edits (to_codepoints s) (to_codepoints t) n -> icu_distance to_codepoints s t <= n)
  /\ nsteps edit (distance s t) s t
  /\ nsteps edit 2 (W "CA") (W "ABC") /\ distance (W "CA") (W "ABC") = 3.
Proof.
  unfold icu_distance, distance at 1 2 3. rewrite !rows_distance_osa.
  pose proof (osa_script s t (length s) (length t) ltac:(lia) ltac:(lia)) as H. rewrite !firstn_all in H.
  pose proof (osa_script (to_codepoints s) (to_codepoints t) _ _ (Nat.le_refl _) (Nat.le_refl _)) as H'. rewrite !firstn_all in H'.
  split; [done|]. split; [intros n Hn; by apply osa_lower|]. split; [done|]. split; [intros n Hn; by apply osa_lower|].
  split; [by apply edits_nsteps|]. split; [|by vm_compute].
  econstructor; [apply (edit_swap [] [] "C"%char "A"%char)|]. econstructor; [apply (edit_insert ["A"%char] ["C"%char] "B"%char)|]. constructor.
Qed.

Lemma distance_script s t : edits s t (distance s t).
Proof.
  unfold distance. rewrite rows_distance_osa.
  pose proof (osa_script s t (length s) (length t) ltac:(lia) ltac:(lia)) as H. by rewrite !firstn_all in H.
Qed.
Lemma distance_least s t n : edits s t n -> distance s t <= n.
Proof. intros. unfold distance. rewrite rows_distance_osa. by apply osa_lower. Qed.

Lemma distance_sym s t : distance s t = distance t s.
Proof. apply Nat.le_antisymm; apply distance_least, edits_symmetric, distance_script. Qed.
Lemma distance_max s t : distance s t <= Nat.max (length s) (length t).
Proof. apply distance_least, edits_replace. Qed.

(** The distance is symmetric, zero exactly between equal strings, at least the difference of the
    lengths and at most the longer length, and a common prefix does not increase it.  It is not a metric:
    no substring is edited twice, so CA to ABC costs three although CA to AC and AC to ABC cost one each. *)
Theorem distance_laws (s t u : str) :
  distance s t = distance t s
  /\ (distance s t = 0 <-> s = t)
  /\ length s <= length t + distance s t
  /\ distance s t <= Nat.max (length s) (length t)
  /\ distance (u ++ s) (u ++ t) <= distance s t
  /\ distance (W "CA") (W "ABC") = 3 /\ distance (W "CA") (W "AC") = 1 /\ distance (W "AC") (W "ABC") = 1.
Proof.
  split; [apply distance_sym|]. split.
  { split; [by apply edits_0_eq, distance_script|]. intros ->. pose proof (distance_least t t 0 (edits_refl t)). lia. }
  split; [apply (edits_length s t), distance_script|]. split; [apply distance_max|].
  split; [apply distance_least, edits_app_l, distance_script|]. by vm_compute.
Qed.

(** ** Selection *)

(** The first minimum of a list, as the two selection loops compute it. *)
Section argmin.
Context {B : Type} (f : B -> Z).

Definition argmin_step (acc : B * Z) (it : B) : B * Z := if (f it <? snd acc)%Z then (it, f it) else acc.

Lemma argmin_spec (c : list B) (b : B) :
  let r := fold_left argmin_step c (b, f b) in
  snd r = f (fst r) /\ (f (fst r) <= f b)%Z
  /\ (fst r = b \/ exists i, c !! i = Some (fst r) /\ (f (fst r) < f b)%Z
      /\ forall j y, j < i -> c !! j = Some y -> (f (fst r) < f y)%Z)
  /\ forall y, y ∈ c -> (f (fst r) <= f y)%Z.
Proof.
  revert b. induction c as [|a c IH]; intros b; simpl.
  - repeat split; [lia|by left|]. intros y Hy. by apply elem_of_nil in Hy.
  - change (argmin_step (b, f b) a) with (if (f a <? f b)%Z then (a, f a) else (b, f b)). destruct (Z.ltb_spec (f a) (f b)) as [Hlt|Hge].
    + destruct (IH a) as (H1 & H2 & H3 & H4). repeat split; [done|lia| |].
      * right. destruct H3 as [H3|(i & Hi & Hlt' & Hj)].
        -- exists 0. rewrite H3. repeat split; [lia|]. lia.
        -- exists (S i). repeat split; [done|lia|]. intros [|j] y Hji Hy; simplify_eq/=; [done|]. apply (Hj j); [lia|done].
      * intros y [->|Hy]%elem_of_cons; [done|by apply H4].
    + destruct (IH b) as (H1 & H2 & H3 & H4). repeat split; [done|lia| |].
      * destruct H3 as [H3|(i & Hi & Hlt' & Hj)]; [by left|]. right. exists (S i). repeat split; [done|lia|].
        intros [|j] y Hji Hy; simplify_eq/=; [lia|]. apply (Hj j); [lia|done].
      * intros y [->|Hy]%elem_of_cons; [lia|by apply H4].
Qed.
End argmin.

Lemma int_distance_exact s t : (Z.of_nat (Nat.max (length s) (length t)) < 2 ^ 31)%Z -> int_distance s t = Z.of_nat (distance s t).
Proof.
  intros H. pose proof (distance_max s t). unfold int_distance, signed_wrap. rewrite Z.mod_small by lia. lia.
Qed.

(** [m] is the first of the elements of [c] whose key is closest to [s]. *)
Definition first_closest {B} (key : B -> str) (s : str) (c : list B) (m : B) : Prop :=
  exists i, c !! i = Some m
  /\ (forall j y, c !! j = Some y -> distance (key m) s <= distance (key y) s)
  /\ (forall j y, j < i -> c !! j = Some y -> distance (key m) s < distance (key y) s).

(** Every distance to [s] fits the [int] that the loops keep. *)
Definition fits_int (s : str) (keys : list str) : Prop :=
  forall k, k ∈ keys -> (Z.of_nat (Nat.max (length k) (length s)) < 2 ^ 31)%Z.

Lemma argmin_first_closest {B} (key : B -> str) (s : str) (first : B) (rest : list B) :
  fits_int s (key <$> first :: rest) ->
  let f := fun b => int_distance (key b) s in
  let r := fold_left (argmin_step f) (first :: rest) (first, f first) in
  first_closest key s (first :: rest) (fst r) /\ snd r = Z.of_nat (distance (key (fst r)) s).
Proof.
  intros Hfit f r. destruct (argmin_spec f (first :: rest) first) as (H1 & H2 & H3 & H4). fold r in H1, H2, H3, H4.
  assert (Hex : forall y, y ∈ first :: rest -> f y = Z.of_nat (distance (key y) s)).
  { intros y Hy. apply int_distance_exact, Hfit. by apply list_elem_of_fmap_2. }
  assert (Hi : exists i, (first :: rest) !! i = Some (fst r)
    /\ forall j y, j < i -> (first :: rest) !! j = Some y -> (f (fst r) < f y)%Z).
  { destruct H3 as [->|(i & Hi & _ & Hj)]; [|by exists i]. exists 0. split; [done|]. lia. }
  destruct Hi as (i & Hi & Hj). assert (Hm : fst r ∈ first :: rest) by by eapply list_elem_of_lookup_2.
  split; [|by rewrite H1, Hex]. exists i. split; [done|]. split.
  - intros j y Hy%list_elem_of_lookup_2. specialize (H4 y Hy). rewrite !Hex in H4 by done. lia.
  - intros j y Hji Hy. specialize (Hj j y Hji Hy). apply list_elem_of_lookup_2 in Hy. rewrite !Hex in Hj by done. lia.
Qed.

Lemma fold_left_step_ext {St B} (f g : St -> B -> St) l st :
  (forall st b, f st b = g st b) -> fold_left f l st = fold_left g l st.
Proof. intros H. revert st. induction l as [|b l IH]; intros st; simpl; [done|]. by rewrite H, IH. Qed.

(** [min_distance] throws [invalid_argument] for an empty container and otherwise returns the first
    of the closest elements; [min_distance_map_key] returns the entry with the first closest key, or the
    pair of empty strings when that key is further away than [max_distance]. *)
Theorem min_distance_closest (s : str) (c : list str) (entries : list (str * str)) (max_distance : Z)
    (Hc : fits_int s c) (He : fits_int s (fst <$> entries)) :
  match c with
  | [] => min_distance s c = Throw empty_container
  | _ => exists m, min_distance s c = Ret m /\ first_closest id s c m
  end
  /\ match entries with
     | [] => min_distance_map_key s entries max_distance = Throw empty_container
     | _ => exists m, first_closest fst s entries m /\ min_distance_map_key s entries max_distance =
         Ret (if (Z.of_nat (distance (fst m) s) <=? max_distance)%Z then m else ([], []))
     end.
Proof.
  split.
  - destruct c as [|first rest]; [done|]. rewrite <- (list_fmap_id (first :: rest)) in Hc.
    destruct (argmin_first_closest id s first rest Hc) as [Hm _]. eexists. split; [|exact Hm].
    unfold min_distance. do 2 f_equal. apply fold_left_step_ext. intros [m d] it. done.
  - destruct entries as [|first rest]; [done|].
    destruct (argmin_first_closest fst s first rest He) as [Hm Hd]. eexists. split; [exact Hm|].
    rewrite <- Hd. unfold min_distance_map_key. cbv zeta.
    rewrite (fold_left_step_ext _ (argmin_step (fun b => int_distance (fst b) s))) by (by intros [m d] it).
    by destruct (fold_left _ _ _) as [m d].
Qed.

Lemma min_distance_closest_witness :
  fits_int (W "cat") [W "dog"; W "cart"; W "at"] /\ min_distance (W "cat") [W "dog"; W "cart"; W "at"] = Ret (W "cart")
  /\ exists m, first_closest fst (W "cat") [(W "dog", W "1"); (W "act", W "2")] m.
Proof.
  assert (Hb : forall ks, forallb (fun k => (Z.of_nat (Nat.max (length k) 3) <? 2 ^ 31)%Z) ks = true -> fits_int (W "cat") ks).
  { intros ks H k Hk. rewrite forallb_forall in H. apply Z.ltb_lt, H. by apply list_elem_of_In. }
  split; [apply Hb; vm_compute; reflexivity|]. split; [vm_compute; reflexivity|].
  destruct (min_distance_closest (W "cat") [W "cart"] [(W "dog", W "1"); (W "act", W "2")] 3
    ltac:(apply Hb; vm_compute; reflexivity) ltac:(apply Hb; vm_compute; reflexivity)) as [_ (m & Hm & _)].
  exists m. exact Hm.
Defined.

(** The overload that should return the closest elements in order never inserts any: on every
    non-empty container it leaves the output unchanged when the number of elements is not limited, and
    moves an iterator past the end of an empty set when it is. *)
Theorem min_distance_out_empty (s : str) (c out : list str) (max_elements : nat) (Hc : c <> []) :
  min_distance_out s c out 0 = Ret out
  /\ (0 < max_elements -> min_distance_out s c out max_elements = Undef InvalidIterator).
Proof.
  destruct c as [|a c]; [done|]. unfold min_distance_out. cbn. rewrite app_nil_r. split; [done|].
  intros. rewrite decide_False by lia. by rewrite decide_True by lia.
Qed.

Lemma min_distance_out_empty_witness :
  [W "a"] <> [] /\ min_distance_out (W "a") [W "a"] [] 0 = Ret [] /\ min_distance_out (W "a") [W "a"] [] 1 = Undef InvalidIterator.
Proof.
  assert (H : [W "a"] <> []) by done. split; [exact H|].
  destruct (min_distance_out_empty (W "a") [W "a"] [] 1 H) as [H1 H2]. split; [exact H1|]. apply H2. lia.
Defined.
