(* ===== verification/Bytes.v ===== *)
(** * Byte order (cpp/src/byte_order.hpp, endian.hpp)

    [ByteOrder] describes how a block of bytes lays out its words; [convert] rewrites a block of
    fixed-size words from one order to another, in place.  The platform's own order,
    [std::endian::native], is the parameter [native].  The file also holds the bytes of an integer in
    memory, which the wire integers and the serialized objects share. *)
From S2P Require Import Prelude.

(** [std::endian]; the platforms the code distinguishes are the two below. *)
Inductive endian : Type := little_endian | big_endian.
#[export] Instance endian_eq_dec : EqDecision endian.
Proof. solve_decision. Defined.

(* src: cpp/src/byte_order.hpp:15-15 Invariance *)
Inductive Invariance : Type := DATA_INVARIANCE | ADDRESS_INVARIANCE.
#[export] Instance Invariance_eq_dec : EqDecision Invariance.
Proof. solve_decision. Defined.

(** ** ByteOrder (lines 28-60) *)

(** [Word] is [int_fast8_t], one byte. *)
(* src: cpp/src/byte_order.hpp:28-37 ByteOrder *)
Record ByteOrder := mk_order { mendian : endian; minvariance : Invariance; maddress_size : Z }.

(* src: cpp/src/byte_order.hpp:39-39 ByteOrder::is_address_invariant *)
Definition is_address_invariant (o : ByteOrder) : bool := bool_decide (minvariance o = ADDRESS_INVARIANCE).
(* src: cpp/src/byte_order.hpp:40-40 ByteOrder::is_data_invariant *)
Definition is_data_invariant (o : ByteOrder) : bool := bool_decide (minvariance o = DATA_INVARIANCE).
(* src: cpp/src/byte_order.hpp:41-41 ByteOrder::is_little_endian *)
Definition is_little_endian (o : ByteOrder) : bool := bool_decide (mendian o = little_endian).
(* src: cpp/src/byte_order.hpp:42-42 ByteOrder::is_big_endian *)
Definition is_big_endian (o : ByteOrder) : bool := bool_decide (mendian o = big_endian).
(* src: cpp/src/byte_order.hpp:43-43 ByteOrder::is_native_endian *)
Definition is_native_endian (native : endian) (o : ByteOrder) : bool := bool_decide (mendian o = native).
(* src: cpp/src/byte_order.hpp:45-45 ByteOrder::equals_invariance *)
Definition equals_invariance (o other : ByteOrder) : bool := bool_decide (minvariance o = minvariance other).
(* src: cpp/src/byte_order.hpp:46-46 ByteOrder::equals_endian *)
Definition equals_endian (o other : ByteOrder) : bool := bool_decide (mendian o = mendian other).
(* src: cpp/src/byte_order.hpp:47-47 ByteOrder::equals_address_size *)
Definition equals_address_size (o other : ByteOrder) : bool := bool_decide (maddress_size o = maddress_size other).
(* src: cpp/src/byte_order.hpp:48-48 ByteOrder::only_endian_differs *)
Definition only_endian_differs (o other : ByteOrder) : bool :=
  negb (equals_endian o other) && (equals_invariance o other && equals_address_size o other).
(* src: cpp/src/byte_order.hpp:50-56 ByteOrder::equals *)
Definition order_equals (o other : ByteOrder) : bool :=
  equals_invariance o other && equals_endian o other && equals_address_size o other.
(* src: cpp/src/byte_order.hpp:58-58 little_address_8_byte_order *)
Definition little_address_8_byte_order : ByteOrder := mk_order little_endian ADDRESS_INVARIANCE 8.
(* src: cpp/src/byte_order.hpp:59-59 big_address_8_byte_order *)
Definition big_address_8_byte_order : ByteOrder := mk_order big_endian ADDRESS_INVARIANCE 8.
(* src: cpp/src/byte_order.hpp:60-60 native_byte_order *)
Definition native_byte_order (native : endian) : ByteOrder := mk_order native ADDRESS_INVARIANCE 8.

(** ** convert (lines 20-83)

    The positions are [size_t]; an index past the block is undefined.  The fuel of the outer loop is one
    more than the number of bytes: a word has at least two, so the loop ends before it runs out. *)

(* src: cpp/src/byte_order.hpp:20-26 swap *)
Definition swap_at (a b : nat) (data : list byte) : outcome (list byte) :=
  x ← load_at data a; y ← load_at data b; Ret (<[b := x]> (<[a := y]> data)).

(* src: cpp/src/byte_order.hpp:70-74 convert *)
Definition reverse_word (original_data_size i : nat) (data : list byte) : outcome (list byte) :=
  fold_left (fun acc j => data ← acc; swap_at (i + j) (i + original_data_size - 1 - j) data)
    (seq 0 (original_data_size / 2)) (Ret data).

(* src: cpp/src/byte_order.hpp:67-75 convert *)
Fixpoint convert_loop (fuel : nat) (e : Z) (original_data_size i : nat) (data : list byte) : outcome (list byte) :=
  match fuel with
  | O => Undef NoProgress
  | S fuel =>
      if (Z.of_nat i <=? e)%Z then
        data ← reverse_word original_data_size i data;
        convert_loop fuel e original_data_size (i + original_data_size) data
      else Ret data
  end.

(** [data.size() - original_data_size] is a [size_t] difference and wraps. *)
(* src: cpp/src/byte_order.hpp:62-78 convert *)
Definition convert (data : list byte) (original_data_size : nat) (from to : ByteOrder) : outcome (list byte) :=
  if negb (order_equals from to) && (1 <? length data) && only_endian_differs from to && (1 <? original_data_size) then
    let e := wrap64 (Z.of_nat (length data) - Z.of_nat original_data_size) in
    convert_loop (S (length data)) e original_data_size 0 data
  else Ret data.

(** The overload between two blocks does nothing. *)
(* src: cpp/src/byte_order.hpp:80-83 convert *)
Definition convert_between (from_data to_data : list byte) (from to : ByteOrder) : list byte := to_data.

(** ** What convert computes *)

(** Whether the first condition implies the third: two orders that differ only in endianness differ. *)
Lemma only_endian_differs_neq from to : only_endian_differs from to = true -> order_equals from to = false.
Proof. unfold only_endian_differs, order_equals. destruct (equals_endian from to), (equals_invariance from to), (equals_address_size from to); done. Qed.

Lemma only_endian_differs_sym from to : only_endian_differs from to = only_endian_differs to from.
Proof.
  unfold only_endian_differs, equals_endian, equals_invariance, equals_address_size.
  f_equal; [f_equal|f_equal]; apply bool_decide_ext; split; congruence.
Qed.

(** The position a byte comes from: mirrored inside its word, for whole words only. *)
Definition mirror (ods size idx : nat) : nat :=
  if decide (idx < size / ods * ods) then idx / ods * ods + (ods - 1 - idx mod ods) else idx.

Section reverse.
Context (ods : nat) (Hods : 1 < ods).

(** The position after [j] swaps of the word that starts at [i]. *)
Definition swapped (i j idx : nat) : nat :=
  if decide (i <= idx < i + ods /\ (idx - i < j \/ ods <= idx - i + j)) then i + (ods - 1 - (idx - i)) else idx.

Lemma swap_at_lookup a b (data : list byte) :
  a < length data -> b < length data ->
  exists r, swap_at a b data = Ret r /\ length r = length data
    /\ forall idx, r !! idx = data !! (if decide (idx = a) then b else if decide (idx = b) then a else idx).
Proof.
  intros Ha Hb. destruct (lookup_lt_is_Some_2 data a Ha) as [x Hx], (lookup_lt_is_Some_2 data b Hb) as [y Hy].
  unfold swap_at, load_at. rewrite Hx; cbn. rewrite Hy; cbn. eexists. split; [done|].
  split; [by rewrite !length_insert|]. intros idx. destruct (decide (idx = b)) as [->|Hib].
  - rewrite list_lookup_insert_eq by (rewrite length_insert; lia). case_decide; [subst; congruence|done].
  - rewrite list_lookup_insert_ne by done. case_decide as Hia.
    + subst. rewrite list_lookup_insert_eq by lia. by rewrite Hy.
    + by rewrite list_lookup_insert_ne by done.
Qed.

Lemma reverse_word_spec i (data : list byte) :
  i + ods <= length data ->
  exists r, reverse_word ods i data = Ret r /\ length r = length data
    /\ forall idx, r !! idx = data !! swapped i (ods / 2) idx.
Proof.
  intros Hi. pose proof (Nat.div_mod ods 2 ltac:(lia)) as Hdm. pose proof (Nat.mod_upper_bound ods 2 ltac:(lia)) as Hm.
  apply (fold_left_seq_inv (fun j acc => exists r, acc = Ret r /\ length r = length data
    /\ forall idx, r !! idx = data !! swapped i j idx)
    (fun acc j => data ← acc; swap_at (i + j) (i + ods - 1 - j) data) 0 (ods / 2) (Ret data)).
  - exists data. repeat split; try done. intros idx. unfold swapped. by rewrite decide_False by lia.
  - intros j acc Hj (r & -> & Hl & Hr). cbn.
    destruct (swap_at_lookup (i + j) (i + ods - 1 - j) r) as (r' & Hs & Hl' & Hr'); [lia|lia|].
    exists r'. split; [done|]. split; [congruence|]. intros idx. rewrite Hr', Hr. f_equal. unfold swapped.
    repeat case_decide; lia.
Qed.

(** Every byte of the words before [k] has been mirrored. *)
Lemma convert_loop_spec (data0 : list byte) (k n fuel : nat) (data : list byte) :
  k + n = length data0 / ods -> n < fuel -> length data = length data0 ->
  (forall idx, data !! idx = data0 !! (if decide (idx < k * ods) then mirror ods (length data0) idx else idx)) ->
  exists r, convert_loop fuel (Z.of_nat (length data0) - Z.of_nat ods) ods (k * ods) data = Ret r
    /\ length r = length data0 /\ forall idx, r !! idx = data0 !! mirror ods (length data0) idx.
Proof.
  revert k fuel data. pose proof (Nat.div_mod (length data0) ods ltac:(lia)) as Hdm.
  pose proof (Nat.mod_upper_bound (length data0) ods ltac:(lia)) as Hmod.
  induction n as [|n IH]; intros k fuel data Hk Hf Hl Hd; (destruct fuel as [|fuel]; [lia|]); cbn [convert_loop].
  - assert (k = length data0 / ods) as -> by lia.
    destruct (Z.leb_spec (Z.of_nat (length data0 / ods * ods)) (Z.of_nat (length data0) - Z.of_nat ods)) as [H|H]; [nia|].
    exists data. split; [done|]. split; [done|]. intros idx. rewrite Hd. f_equal. case_decide; [done|].
    unfold mirror. by rewrite decide_False by lia.
  - assert (Hb : (k + 1) * ods <= length data0) by nia.
    destruct (Z.leb_spec (Z.of_nat (k * ods)) (Z.of_nat (length data0) - Z.of_nat ods)) as [H|H]; [|lia].
    destruct (reverse_word_spec (k * ods) data ltac:(lia)) as (r & -> & Hl' & Hr). cbn.
    replace (k * ods + ods) with (S k * ods) by lia. apply IH; [lia|lia|congruence|].
    intros idx. rewrite Hr, Hd. f_equal.
    pose proof (Nat.div_mod ods 2 ltac:(lia)) as Hdm2. pose proof (Nat.mod_upper_bound ods 2 ltac:(lia)) as Hm2.
    destruct (decide (k * ods <= idx < S k * ods)) as [Hin|Hout].
    + assert (Hq : idx / ods = k). { symmetry. apply (Nat.div_unique _ _ _ (idx - k * ods)); lia. }
      pose proof (Nat.div_mod idx ods ltac:(lia)) as Hix. rewrite Hq in Hix.
      assert (Hsw : swapped (k * ods) (ods / 2) idx = k * ods + (ods - 1 - (idx - k * ods))).
      { unfold swapped. case_decide; lia. }
      rewrite Hsw. rewrite decide_False by lia. rewrite decide_True by lia.
      unfold mirror. rewrite decide_True by nia. rewrite Hq. lia.
    + assert (swapped (k * ods) (ods / 2) idx = idx) as ->. { unfold swapped. rewrite decide_False; lia. }
      case_decide; case_decide; try done; lia.
Qed.

Lemma mirror_involutive size idx : mirror ods size (mirror ods size idx) = idx.
Proof.
  unfold mirror at 2. case_decide as H; [|unfold mirror; by rewrite decide_False].
  pose proof (Nat.div_mod idx ods ltac:(lia)) as Hix. pose proof (Nat.mod_upper_bound idx ods ltac:(lia)) as Hm.
  set (q := idx / ods) in *. set (m := idx mod ods) in *.
  assert (Hq : q < size / ods) by nia.
  assert (Hd : (q * ods + (ods - 1 - m)) / ods = q). { symmetry. apply (Nat.div_unique _ _ _ (ods - 1 - m)); lia. }
  assert (Hr : (q * ods + (ods - 1 - m)) mod ods = ods - 1 - m). { symmetry. apply (Nat.mod_unique _ _ q); lia. }
  unfold mirror. rewrite decide_True by nia. rewrite Hd, Hr. lia.
Qed.
End reverse.

Lemma convert_mirror (data : list byte) (ods : nat) (from to : ByteOrder) :
  only_endian_differs from to = true -> 1 < ods <= length data -> (Z.of_nat (length data) < two64)%Z ->
  exists r, convert data ods from to = Ret r /\ length r = length data
    /\ forall idx, r !! idx = data !! mirror ods (length data) idx.
Proof.
  intros Ho Hods Hsz. unfold convert. rewrite (only_endian_differs_neq _ _ Ho), Ho.
  rewrite (proj2 (Nat.ltb_lt 1 (length data))) by lia. rewrite (proj2 (Nat.ltb_lt 1 ods)) by lia. cbn -[convert_loop].
  unfold wrap64. rewrite Z.mod_small by lia.
  pose proof (Nat.div_le_upper_bound (length data) ods (length data) ltac:(lia) ltac:(nia)).
  apply (convert_loop_spec ods ltac:(lia) data 0 (length data / ods) (S (length data)) data); [lia|lia|done|].
  intros idx. by rewrite decide_False by lia.
Qed.

Lemma fold_bind_undef {A B} (f : A -> B -> outcome A) l u :
  fold_left (fun acc j => a ← acc; f a j) l (Undef u) = Undef u.
Proof. by induction l. Qed.

Lemma reverse_word_out (data : list byte) ods :
  1 < ods -> 0 < length data < ods -> reverse_word ods 0 data = Undef OutOfBounds.
Proof.
  intros Ho Hl. unfold reverse_word. pose proof (Nat.div_le_lower_bound ods 2 1 ltac:(lia) ltac:(lia)).
  destruct (ods / 2) as [|m]; [lia|]. cbn [seq fold_left]. rewrite outcome_bind_ret.
  assert (swap_at (0 + 0) (0 + ods - 1 - 0) data = Undef OutOfBounds) as ->.
  { unfold swap_at, load_at. destruct (lookup_lt_is_Some_2 data 0) as [x Hx]; [lia|]. cbn [Nat.add]. rewrite Hx.
    by rewrite (lookup_ge_None_2 data) by lia. }
  by rewrite (fold_bind_undef (fun data j => swap_at (0 + j) (0 + ods - 1 - j) data)).
Qed.

(** C28. Between two orders that differ only in endianness, [convert] reverses the bytes of every whole word
    and leaves a partial word at the end alone; converting back restores the block.  With equal orders, or
    orders that differ in anything else, or words or a block of fewer than two bytes, the block is unchanged.
    A word larger than the block of two bytes or more is not one of these guards: the subtraction of the sizes wraps and the
    first swap leaves the block. *)
Theorem convert_reverses_words (data : list byte) (ods : nat) (from to : ByteOrder)
    (Hsize : (Z.of_nat (Nat.max ods (length data)) < two64)%Z) :
  (only_endian_differs from to = true -> 1 < ods <= length data ->
    exists r, convert data ods from to = Ret r /\ length r = length data
      /\ (forall w i, w < length data / ods -> i < ods -> r !! (w * ods + i) = data !! (w * ods + (ods - 1 - i)))
      /\ (forall idx, length data / ods * ods <= idx -> r !! idx = data !! idx)
      /\ convert r ods to from = Ret data)
  /\ (only_endian_differs from to = false \/ ods < 2 \/ length data < 2 -> convert data ods from to = Ret data)
  /\ (only_endian_differs from to = true -> 1 < length data < ods -> convert data ods from to = Undef OutOfBounds).
Proof.
  split; [|split].
  - intros Ho Hle. destruct (convert_mirror data ods from to Ho ltac:(lia) ltac:(lia)) as (r & Hr & Hl & Hm).
    exists r. split; [done|]. split; [done|]. split; [|split].
    + intros w i Hw Hi. rewrite Hm. f_equal. unfold mirror. rewrite decide_True by nia.
      rewrite <- (Nat.div_unique (w * ods + i) ods w i) by lia. by rewrite <- (Nat.mod_unique (w * ods + i) ods w i) by lia.
    + intros idx Hidx. rewrite Hm. unfold mirror. by rewrite decide_False by lia.
    + rewrite only_endian_differs_sym in Ho.
      destruct (convert_mirror r ods to from Ho ltac:(lia) ltac:(lia)) as (r' & Hr' & Hl' & Hm').
      rewrite Hr'. f_equal. apply list_eq. intros idx. rewrite Hm', Hm, Hl. by rewrite mirror_involutive by lia.
  - intros Hg. unfold convert. destruct (_ && _) eqn:E; [|done]. rewrite !andb_true_iff, !Nat.ltb_lt in E. destruct Hg as [Hg|Hg]; [|lia].
    rewrite Hg in E. naive_solver.
  - intros Ho [Hlen Hlt]. unfold convert. rewrite (only_endian_differs_neq _ _ Ho), Ho.
    rewrite (proj2 (Nat.ltb_lt 1 (length data))) by lia. rewrite (proj2 (Nat.ltb_lt 1 ods)) by lia.
    cbn -[reverse_word wrap64].
    unfold wrap64. pose proof (Z.mod_pos_bound (Z.of_nat (length data) - Z.of_nat ods) two64 ltac:(done)) as Hb.
    rewrite (proj2 (Z.leb_le _ _)) by lia. by rewrite reverse_word_out by lia.
Qed.

Lemma convert_reverses_words_witness :
  convert (W "abcde") 2 little_address_8_byte_order big_address_8_byte_order = Ret (W "badce")
  /\ convert (W "a") 4 little_address_8_byte_order big_address_8_byte_order = Ret (W "a")
  /\ convert (W "ab") 4 little_address_8_byte_order big_address_8_byte_order = Undef OutOfBounds.
Proof.
  split; [vm_compute; reflexivity|].
  split; [apply (convert_reverses_words (W "a") 4); [vm_compute; reflexivity|right; right; simpl; lia]|].
  apply (convert_reverses_words (W "ab") 4 little_address_8_byte_order big_address_8_byte_order);
    [vm_compute; reflexivity|vm_compute; reflexivity|simpl; lia].
Defined.

(** ** Endian (endian.hpp) *)

(** The [int8_t] values that the library stores. *)
(* src: cpp/src/endian.hpp:10-15 Endian *)
Record Endian := mk_endian { value : Z }.
(* src: cpp/src/endian.hpp:17-17 Endian::NOT_APPLICABLE *)
Definition NOT_APPLICABLE : Z := -2.
(* src: cpp/src/endian.hpp:18-18 Endian::UNKNOWN *)
Definition UNKNOWN : Z := -1.
(* src: cpp/src/endian.hpp:19-19 Endian::LITTLE *)
Definition LITTLE : Z := 0.
(* src: cpp/src/endian.hpp:20-20 Endian::BIG *)
Definition BIG : Z := 1.
(* src: cpp/src/endian.hpp:21-24 Endian::NATIVE *)
Definition NATIVE (native : endian) : Z := match native with little_endian => LITTLE | big_endian => BIG end.
(* src: cpp/src/endian.hpp:26-27 Endian::Endian *)
Definition Endian_default : Endian := mk_endian UNKNOWN.
(* src: cpp/src/endian.hpp:30-31 Endian::little *)
Definition Endian_little : Endian := mk_endian LITTLE.
(* src: cpp/src/endian.hpp:31-31 Endian::big *)
Definition Endian_big : Endian := mk_endian BIG.
(* src: cpp/src/endian.hpp:32-33 Endian::native *)
Definition Endian_native (native : endian) : Endian := mk_endian (NATIVE native).
(* src: cpp/src/endian.hpp:36-38 Endian::is_native *)
Definition Endian_is_native (native : endian) (e : Endian) : bool := (value e =? NATIVE native)%Z.
(* src: cpp/src/endian.hpp:39-39 Endian::known *)
Definition known (e : Endian) : bool := (0 <=? value e)%Z.
(* src: cpp/src/endian.hpp:42-47 Endian::to_std *)
Definition to_std (native : endian) (e : Endian) : endian :=
  if (value e =? LITTLE)%Z then little_endian else if (value e =? BIG)%Z then big_endian else native.
(* src: cpp/src/endian.hpp:50-53 Endian::operator== *)
Definition Endian_eq (a b : Endian) : bool := (value a =? value b)%Z.

(** ** Integers in memory *)

(** The [n] bytes of the unsigned integer [v], least significant first. *)
Fixpoint le_bytes (n : nat) (v : Z) : list byte :=
  match n with O => [] | S n => byte_of_Z v :: le_bytes n (v / 256) end.
Fixpoint le_val (bs : list byte) : Z :=
  match bs with [] => 0 | b :: bs => byte_val b + 256 * le_val bs end.

Lemma le_bytes_length n v : length (le_bytes n v) = n.
Proof. revert v. induction n as [|n IH]; intros v; simpl; [done|]. by rewrite IH. Qed.

Lemma le_val_range bs : (0 <= le_val bs < 256 ^ Z.of_nat (length bs))%Z.
Proof.
  induction bs as [|b bs IH]; simpl; [done|]. pose proof (byte_val_range b).
  rewrite Nat2Z.inj_succ, Z.pow_succ_r by lia. lia.
Qed.

Lemma le_val_bytes n v : le_val (le_bytes n v) = (v mod 256 ^ Z.of_nat n)%Z.
Proof.
  revert v. induction n as [|n IH]; intros v; simpl; [by rewrite Z.mod_1_r|].
  rewrite byte_val_of, IH, Nat2Z.inj_succ, Z.pow_succ_r by lia.
  rewrite Z.rem_mul_r by lia. done.
Qed.

Lemma le_bytes_val bs : le_bytes (length bs) (le_val bs) = bs.
Proof.
  induction bs as [|b bs IH]; simpl; [done|]. f_equal.
  - unfold byte_of_Z. rewrite Z.mul_comm, Z_mod_plus_full. fold (byte_of_Z (byte_val b)). apply byte_of_val.
  - rewrite Z.mul_comm, Z.div_add, Z.div_small by (pose proof (byte_val_range b); lia). done.
Qed.

(** The bytes at increasing addresses. *)
Definition memory_bytes (e : endian) (n : nat) (v : Z) : list byte :=
  match e with little_endian => le_bytes n v | big_endian => rev (le_bytes n v) end.
Definition memory_value (e : endian) (bs : list byte) : Z :=
  match e with little_endian => le_val bs | big_endian => le_val (rev bs) end.

Lemma memory_bytes_length e n v : length (memory_bytes e n v) = n.
Proof. destruct e; simpl; rewrite ?length_rev; apply le_bytes_length. Qed.
Lemma memory_value_bytes e n v : (0 <= v < 256 ^ Z.of_nat n)%Z -> memory_value e (memory_bytes e n v) = v.
Proof. intros. destruct e; simpl; rewrite ?rev_involutive, le_val_bytes; by apply Z.mod_small. Qed.
Lemma memory_bytes_value e bs : memory_bytes e (length bs) (memory_value e bs) = bs.
Proof. destruct e; simpl; [apply le_bytes_val|]. by rewrite <- length_rev, le_bytes_val, rev_involutive. Qed.
