(* ===== verification/Wire.v ===== *)
(** * Wire numbers (cpp/src/wire_int.hpp, wire_double.hpp)

    [Int<T, E>] and [Double<T, E>] hold a number in memory in the byte order [E], whatever the platform.
    [std::byteswap] reverses the object representation.  Floating-point values are bit patterns; their
    arithmetic is that of IEEE 754 through the Standard Library's [SpecFloat]. *)
From S2P Require Import Prelude Bytes.
From Stdlib Require Import Floats.SpecFloat.

(** An [IntegerLike] type: its size in bytes and its signedness. *)
Record int_type := mk_int_type { size_of : nat; is_signed : bool }.
Definition uint32 : int_type := mk_int_type 4 false.
Definition uint64 : int_type := mk_int_type 8 false.
Definition int32 : int_type := mk_int_type 4 true.

Definition modulus (T : int_type) : Z := (256 ^ Z.of_nat (size_of T))%Z.
(** The unsigned integer with the bits of [v], and back. *)
Definition to_bits (T : int_type) (v : Z) : Z := (v mod modulus T)%Z.
Definition of_bits (T : int_type) (u : Z) : Z :=
  if is_signed T && (modulus T / 2 <=? u)%Z then (u - modulus T)%Z else u.
Definition in_type (T : int_type) (v : Z) : Prop :=
  if is_signed T then (- (modulus T / 2) <= v < modulus T / 2)%Z else (0 <= v < modulus T)%Z.

(** [std::byteswap]. *)
Definition byteswap_bits (n : nat) (u : Z) : Z := le_val (rev (le_bytes n u)).
Definition byteswap (T : int_type) (v : Z) : Z := of_bits T (byteswap_bits (size_of T) (to_bits T v)).

(** ** Int *)

(* src: cpp/src/wire_int.hpp:79-81 Int::need_swap *)
Definition need_swap (native : endian) (E : Endian) : bool :=
  ((value E =? LITTLE)%Z && bool_decide (native = big_endian))
  || ((value E =? BIG)%Z && bool_decide (native = little_endian)).

Section Int.
Context (native : endian) (T : int_type) (E : Endian).

(* src: cpp/src/wire_int.hpp:83-89 Int::encode *)
Definition encode (v : Z) : Z := if need_swap native E then byteswap T v else v.
(* src: cpp/src/wire_int.hpp:91-97 Int::decode *)
Definition decode (v : Z) : Z := if need_swap native E then byteswap T v else v.
(* src: cpp/src/wire_int.hpp:22-34 Int *)
Record Int := mk_Int { storage : Z }.
(* src: cpp/src/wire_int.hpp:34-34 Int::Int *)
Definition Int_default : Int := mk_Int 0.
(* src: cpp/src/wire_int.hpp:37-38 Int::Int *)
Definition Int_of (v : Z) : Int := mk_Int (encode v).
(* src: cpp/src/wire_int.hpp:44-52 Int::value *)
Definition Int_value (i : Int) : Z := decode (storage i).
(* src: cpp/src/wire_int.hpp:58-62 Int::operator= *)
Definition Int_assign (i : Int) (v : Z) : Int := mk_Int (encode v).
(* src: cpp/src/wire_int.hpp:68-71 Int::operator== *)
Definition Int_eq (a b : Int) : bool := (Int_value a =? Int_value b)%Z.
(* src: cpp/src/wire_int.hpp:73-76 Int::operator<=> *)
Definition Int_compare (a b : Int) : comparison := (Int_value a ?= Int_value b)%Z.
(** The object's bytes in memory, which is what a serializer copies. *)
Definition Int_memory (i : Int) : list byte := memory_bytes native (size_of T) (to_bits T (storage i)).
End Int.

Lemma modulus_pos T : (0 < modulus T)%Z.
Proof. unfold modulus. apply Z.pow_pos_nonneg; lia. Qed.
Lemma modulus_even T : 0 < size_of T -> modulus T = (2 * (modulus T / 2))%Z.
Proof.
  intros. unfold modulus. replace (Z.of_nat (size_of T)) with (Z.succ (Z.of_nat (pred (size_of T)))) by lia.
  rewrite Z.pow_succ_r by lia. replace (256 * 256 ^ Z.of_nat (pred (size_of T)))%Z
    with (2 * (128 * 256 ^ Z.of_nat (pred (size_of T))))%Z by lia.
  rewrite (Z.mul_comm 2), Z.div_mul by lia. lia.
Qed.

Lemma to_bits_range T v : (0 <= to_bits T v < modulus T)%Z.
Proof. apply Z.mod_pos_bound, modulus_pos. Qed.
Lemma to_of_bits T u : (0 <= u < modulus T)%Z -> to_bits T (of_bits T u) = u.
Proof.
  intros H. unfold to_bits, of_bits. destruct (_ && _); [|by apply Z.mod_small].
  rewrite <- (Z_mod_plus_full _ 1). rewrite Z.mod_small; lia.
Qed.
Lemma of_to_bits T v : 0 < size_of T -> in_type T v -> of_bits T (to_bits T v) = v.
Proof.
  intros Hs Hv. unfold of_bits, to_bits, in_type in *. pose proof (modulus_pos T). pose proof (modulus_even T Hs).
  destruct (is_signed T); cbn [andb]; [|by apply Z.mod_small].
  destruct (decide (0 <= v)%Z).
  - rewrite Z.mod_small by lia. destruct (Z.leb_spec (modulus T / 2) v); lia.
  - rewrite <- (Z_mod_plus_full _ 1), Z.mod_small by lia. destruct (Z.leb_spec (modulus T / 2) (v + 1 * modulus T)); lia.
Qed.
Lemma of_bits_in_type T u : 0 < size_of T -> (0 <= u < modulus T)%Z -> in_type T (of_bits T u).
Proof.
  intros Hs Hu. pose proof (modulus_even T Hs). unfold of_bits, in_type. destruct (is_signed T); cbn [andb]; [|done].
  destruct (Z.leb_spec (modulus T / 2) u); lia.
Qed.

Lemma byteswap_bits_range n u : (0 <= byteswap_bits n u < 256 ^ Z.of_nat n)%Z.
Proof. unfold byteswap_bits. pose proof (le_val_range (rev (le_bytes n u))) as H. by rewrite length_rev, le_bytes_length in H. Qed.
Lemma le_bytes_byteswap n u : le_bytes n (byteswap_bits n u) = rev (le_bytes n u).
Proof. unfold byteswap_bits. rewrite <- (le_bytes_length n u) at 1. rewrite <- length_rev. apply le_bytes_val. Qed.
Lemma byteswap_bits_involutive n u : (0 <= u < 256 ^ Z.of_nat n)%Z -> byteswap_bits n (byteswap_bits n u) = u.
Proof. intros. unfold byteswap_bits at 1. rewrite le_bytes_byteswap, rev_involutive, le_val_bytes. by apply Z.mod_small. Qed.

Lemma byteswap_involutive T v : 0 < size_of T -> in_type T v -> byteswap T (byteswap T v) = v.
Proof.
  intros. unfold byteswap. rewrite to_of_bits by apply byteswap_bits_range.
  rewrite byteswap_bits_involutive by apply to_bits_range. by apply of_to_bits.
Qed.

(** The bytes of [v] in the order that [E] names; for an order that is neither little nor big, native. *)
Definition wire_bytes (native : endian) (E : Endian) (n : nat) (u : Z) : list byte :=
  memory_bytes (to_std native E) n u.

Lemma swapped_memory native E n u :
  memory_bytes native n (if need_swap native E then byteswap_bits n u else u) = wire_bytes native E n u.
Proof.
  unfold wire_bytes, to_std, need_swap, LITTLE, BIG. destruct E as [e]; simpl.
  destruct (Z.eqb_spec e 0) as [->|]; [destruct native; simpl; by rewrite ?le_bytes_byteswap, ?rev_involutive|].
  destruct (Z.eqb_spec e 1) as [->|]; destruct native; simpl; by rewrite ?le_bytes_byteswap, ?rev_involutive.
Qed.

Lemma Int_value_of native T E v : 0 < size_of T -> in_type T v -> Int_value native T E (Int_of native T E v) = v.
Proof.
  intros. unfold Int_value, Int_of, decode, encode; simpl. destruct (need_swap native E); [|done]. by apply byteswap_involutive.
Qed.

Lemma Int_value_spec native T E i :
  0 < size_of T -> in_type T (storage i) -> in_type T (Int_value native T E i) /\ Int_of native T E (Int_value native T E i) = i.
Proof.
  intros Hs Hi. unfold Int_value, Int_of, decode, encode. destruct i as [s]; simpl in *. destruct (need_swap native E); [|done].
  rewrite byteswap_involutive by done. split; [|done]. apply of_bits_in_type; [done|]. apply byteswap_bits_range.
Qed.

(** A wire integer gives back every value of its type, on a platform of either endianness and for any
    byte order, a construction and an assignment alike; its bytes in memory are those of the value in the
    order [E], so two platforms exchange them by copying; and equality and order are those of the values. *)
Theorem wire_int_portable (native : endian) (T : int_type) (E : Endian) (v w : Z) (i : Int)
    (Hs : 0 < size_of T) (Hv : in_type T v) (Hw : in_type T w) :
  Int_value native T E (Int_of native T E v) = v
  /\ Int_value native T E (Int_assign native T E i v) = v
  /\ Int_memory native T (Int_of native T E v) = wire_bytes native E (size_of T) (to_bits T v)
  /\ (Int_eq native T E (Int_of native T E v) (Int_of native T E w) = true <-> v = w)
  /\ Int_compare native T E (Int_of native T E v) (Int_of native T E w) = (v ?= w)%Z
  /\ (in_type T (storage i) -> Int_of native T E (Int_value native T E i) = i).
Proof.
  split; [by apply Int_value_of|]. split; [by apply Int_value_of|]. split.
  { rewrite <- swapped_memory. unfold Int_memory, Int_of, encode; simpl. f_equal.
    destruct (need_swap native E); [|done]. apply to_of_bits, byteswap_bits_range. }
  unfold Int_eq, Int_compare. rewrite !Int_value_of by done. split; [apply Z.eqb_eq|]. split; [done|].
  intros Hi. by apply Int_value_spec.
Qed.

Lemma wire_int_portable_witness :
  in_type int32 (-2) /\ Int_memory little_endian int32 (Int_of little_endian int32 Endian_big (-2))
    = map byte_of_Z [255; 255; 255; 254]%Z
  /\ Int_value little_endian int32 Endian_big (Int_of little_endian int32 Endian_big (-2)) = (-2)%Z.
Proof.
  assert (in_type int32 (-2)) as H by (vm_compute; split; congruence). split; [exact H|]. split; [reflexivity|].
  exact (proj1 (wire_int_portable little_endian int32 Endian_big (-2) (-2) Int_default ltac:(simpl; lia) H H)).
Defined.

(** ** Double *)

(** An [IEEE754Binary] type: precision, exponent bits and size in bytes. *)
Record float_type := mk_float_type { prec : Z; exp_bits : Z; float_size : nat }.
Definition float32 : float_type := mk_float_type 24 8 4.
Definition float64 : float_type := mk_float_type 53 11 8.
Definition emax (T : float_type) : Z := (2 ^ (exp_bits T - 1))%Z.

(** The value of a bit pattern, and the bit pattern of a value.  An operation that makes a NaN gives the
    quiet NaN with no payload; the standard leaves its sign and payload open. *)
Definition float_of_bits (T : float_type) (b : Z) : spec_float :=
  let m := (b mod 2 ^ (prec T - 1))%Z in
  let e := ((b / 2 ^ (prec T - 1)) mod 2 ^ exp_bits T)%Z in
  let s := (2 ^ (prec T - 1 + exp_bits T) <=? b)%Z in
  if (e =? 2 ^ exp_bits T - 1)%Z then (if (m =? 0)%Z then S754_infinity s else S754_nan)
  else if (e =? 0)%Z then
    match m with Zpos p => S754_finite s p (emin (prec T) (emax T)) | _ => S754_zero s end
  else
    match (m + 2 ^ (prec T - 1))%Z with
    | Zpos p => S754_finite s p (e + emin (prec T) (emax T) - 1)
    | _ => S754_nan
    end.

Definition float_bits (T : float_type) (s : bool) (e m : Z) : Z :=
  ((if s then 2 ^ (prec T - 1 + exp_bits T) else 0) + e * 2 ^ (prec T - 1) + m)%Z.
Definition bits_of_float (T : float_type) (f : spec_float) : Z :=
  (match f with
  | S754_zero s => float_bits T s 0 0
  | S754_infinity s => float_bits T s (2 ^ exp_bits T - 1) 0
  | S754_nan => float_bits T false (2 ^ exp_bits T - 1) (2 ^ (prec T - 2))
  | S754_finite s p e =>
      if (Zpos p <? 2 ^ (prec T - 1))%Z then float_bits T s 0 (Zpos p)
      else float_bits T s (e - emin (prec T) (emax T) + 1) (Zpos p - 2 ^ (prec T - 1))
  end mod 256 ^ Z.of_nat (float_size T))%Z.

(** The arithmetic of the type [T] on its bit patterns. *)
Definition float_op (T : float_type) (op : Z -> Z -> spec_float -> spec_float -> spec_float) (x y : Z) : Z :=
  bits_of_float T (op (prec T) (emax T) (float_of_bits T x) (float_of_bits T y)).
Definition float_eq (T : float_type) (x y : Z) : bool := SFeqb (float_of_bits T x) (float_of_bits T y).

Section Double.
Context (native : endian) (T : float_type) (E : Endian).

(* src: cpp/src/wire_double.hpp:125-131 Double::encode *)
Definition encode_bits (v : Z) : Z := if need_swap native E then byteswap_bits (float_size T) v else v.
(* src: cpp/src/wire_double.hpp:133-139 Double::decode *)
Definition decode_bits (v : Z) : Z := if need_swap native E then byteswap_bits (float_size T) v else v.
(* src: cpp/src/wire_double.hpp:31-39 Double *)
Record Double := mk_Double { bits : Z }.
(* src: cpp/src/wire_double.hpp:39-45 Double::Double *)
Definition Double_default : Double := mk_Double 0.
(** [std::bit_cast] is the identity on bit patterns, so the constructor from a value and the one from raw
    bits are one function. *)
(* src: cpp/src/wire_double.hpp:47-51 Double::Double *)
Definition Double_of (v : Z) : Double := mk_Double (encode_bits v).
(* src: cpp/src/wire_double.hpp:57-65 Double::value *)
Definition Double_value (d : Double) : Z := decode_bits (bits d).
(* src: cpp/src/wire_double.hpp:71-75 Double::operator= *)
Definition Double_assign (d : Double) (v : Z) : Double := mk_Double (encode_bits v).
(* src: cpp/src/wire_double.hpp:81-101 Double::operator+= *)
Definition Double_add (a b : Double) : Double := Double_of (float_op T SFadd (Double_value a) (Double_value b)).
(* src: cpp/src/wire_double.hpp:86-102 Double::operator-= *)
Definition Double_sub (a b : Double) : Double := Double_of (float_op T SFsub (Double_value a) (Double_value b)).
(* src: cpp/src/wire_double.hpp:91-103 Double::operator*= *)
Definition Double_mul (a b : Double) : Double := Double_of (float_op T SFmul (Double_value a) (Double_value b)).
(* src: cpp/src/wire_double.hpp:96-104 Double::operator/= *)
Definition Double_div (a b : Double) : Double := Double_of (float_op T SFdiv (Double_value a) (Double_value b)).
(* src: cpp/src/wire_double.hpp:110-113 Double::operator== *)
Definition Double_eq (a b : Double) : bool := float_eq T (Double_value a) (Double_value b).
(** The comparison of floating-point values is a [partial_ordering]: [None] is unordered. *)
(* src: cpp/src/wire_double.hpp:115-118 Double::operator<=> *)
Definition Double_compare (a b : Double) : option comparison :=
  SFcompare (float_of_bits T (Double_value a)) (float_of_bits T (Double_value b)).
Definition Double_memory (d : Double) : list byte := memory_bytes native (float_size T) (bits d).
End Double.

(** [std::hash<Double>] is [std::hash] of the stored bits. *)
(* src: cpp/src/wire_double.hpp:185-191 hash::operator() *)
Definition Double_hash (hash_bits : Z -> Z) (d : Double) : Z := hash_bits (bits d).

(** The sizes of the parts of a bit pattern add up. *)
Definition float_type_ok (T : float_type) : Prop :=
  (1 < prec T)%Z /\ (1 < exp_bits T)%Z /\ (256 ^ Z.of_nat (float_size T) = 2 * 2 ^ (prec T - 1 + exp_bits T))%Z.
Definition in_float (T : float_type) (b : Z) : Prop := (0 <= b < 256 ^ Z.of_nat (float_size T))%Z.

Lemma float_parts T b :
  float_type_ok T -> in_float T b ->
  let m := (b mod 2 ^ (prec T - 1))%Z in
  let e := ((b / 2 ^ (prec T - 1)) mod 2 ^ exp_bits T)%Z in
  let s := (2 ^ (prec T - 1 + exp_bits T) <=? b)%Z in
  (0 <= m < 2 ^ (prec T - 1))%Z /\ (0 <= e < 2 ^ exp_bits T)%Z /\ float_bits T s e m = b.
Proof.
  intros (Hp & He & Hsz) [H0 Hb]. cbv zeta. rewrite Hsz in Hb.
  assert (HM : (0 < 2 ^ (prec T - 1))%Z) by (apply Z.pow_pos_nonneg; lia).
  assert (HE : (0 < 2 ^ exp_bits T)%Z) by (apply Z.pow_pos_nonneg; lia).
  assert (Hadd : (2 ^ (prec T - 1 + exp_bits T) = 2 ^ (prec T - 1) * 2 ^ exp_bits T)%Z) by (apply Z.pow_add_r; lia).
  pose proof (Z.mod_pos_bound b _ HM) as Hm. pose proof (Z.mod_pos_bound (b / 2 ^ (prec T - 1)) _ HE) as He'.
  split; [done|]. split; [done|]. unfold float_bits.
  pose proof (Z.div_mod b (2 ^ (prec T - 1)) ltac:(lia)) as D1.
  pose proof (Z.div_mod (b / 2 ^ (prec T - 1)) (2 ^ exp_bits T) ltac:(lia)) as D2.
  set (q := (b / 2 ^ (prec T - 1))%Z) in *. set (M := (2 ^ (prec T - 1))%Z) in *. set (X := (2 ^ exp_bits T)%Z) in *.
  assert (Hq : (0 <= q)%Z) by (apply Z.div_pos; lia).
  assert (Hq2 : (q / X = if M * X <=? b then 1 else 0)%Z).
  { destruct (Z.leb_spec (M * X) b) as [Hge|Hlt].
    - symmetry. apply (Z.div_unique _ _ _ (q - X)); [left|lia]. nia.
    - apply Z.div_small. nia. }
  rewrite Hadd. destruct (Z.leb_spec (M * X) b); nia.
Qed.

(** Decoding a bit pattern loses nothing, NaN payloads apart. *)
Lemma bits_of_float_of_bits T b :
  float_type_ok T -> in_float T b -> float_of_bits T b <> S754_nan -> bits_of_float T (float_of_bits T b) = b.
Proof.
  intros HT Hb. destruct (float_parts T b HT Hb) as (Hm & He & Hf). revert Hm He Hf. unfold float_of_bits. cbv zeta.
  set (m := (b mod 2 ^ (prec T - 1))%Z). set (e := ((b / 2 ^ (prec T - 1)) mod 2 ^ exp_bits T)%Z).
  set (s := (2 ^ (prec T - 1 + exp_bits T) <=? b)%Z). intros Hm He Hf Hnan.
  pose proof (Z.mod_small b _ Hb) as Hsmall.
  destruct (Z.eqb_spec e (2 ^ exp_bits T - 1)) as [E1|E1].
  { destruct (Z.eqb_spec m 0) as [E2|]; [|done]. unfold bits_of_float. rewrite E1, E2 in Hf. by rewrite Hf. }
  destruct (Z.eqb_spec e 0) as [E2|E2].
  { rewrite E2 in Hf. destruct m as [|p|p] eqn:Em; [| |lia]; unfold bits_of_float.
    - by rewrite Hf.
    - rewrite (proj2 (Z.ltb_lt _ _)) by lia. by rewrite Hf. }
  destruct (m + 2 ^ (prec T - 1))%Z as [|p|p] eqn:Ep; [lia| |lia]. unfold bits_of_float.
  rewrite (proj2 (Z.ltb_ge _ _)) by lia. rewrite <- Ep.
  replace (e + emin (prec T) (emax T) - 1 - emin (prec T) (emax T) + 1)%Z with e by lia.
  replace (m + 2 ^ (prec T - 1) - 2 ^ (prec T - 1))%Z with m by lia. by rewrite Hf.
Qed.

Lemma bits_of_float_range T f : in_float T (bits_of_float T f).
Proof. unfold in_float, bits_of_float. apply Z.mod_pos_bound, Z.pow_pos_nonneg; lia. Qed.

Lemma Double_value_of native T E x : in_float T x -> Double_value native T E (Double_of native T E x) = x.
Proof.
  intros H. unfold Double_value, Double_of, decode_bits, encode_bits; simpl. destruct (need_swap native E); [|done].
  by apply byteswap_bits_involutive.
Qed.

(** C29. A wire floating-point number gives back every bit pattern, NaN payloads included, whatever the byte
    order and the platform, and its bytes in memory are those of the pattern in the order [E].  Arithmetic
    and comparison act on the values, so they do not depend on the byte order. *)
Theorem wire_double_portable (native : endian) (T : float_type) (E : Endian) (x y : Z)
    (Hx : in_float T x) (Hy : in_float T y) :
  let D := Double_of native T E in let V := Double_value native T E in
  V (D x) = x /\ V (Double_assign native T E (D y) x) = x
  /\ Double_memory native T (D x) = wire_bytes native E (float_size T) x
  /\ V (Double_add native T E (D x) (D y)) = float_op T SFadd x y
  /\ V (Double_sub native T E (D x) (D y)) = float_op T SFsub x y
  /\ V (Double_mul native T E (D x) (D y)) = float_op T SFmul x y
  /\ V (Double_div native T E (D x) (D y)) = float_op T SFdiv x y
  /\ Double_eq native T E (D x) (D y) = float_eq T x y
  /\ Double_compare native T E (D x) (D y) = SFcompare (float_of_bits T x) (float_of_bits T y).
Proof.
  cbv zeta. unfold Double_add, Double_sub, Double_mul, Double_div, Double_eq, Double_compare.
  rewrite !Double_value_of by (done || apply bits_of_float_range). repeat split.
  - by apply Double_value_of.
  - apply swapped_memory.
Qed.

(** One and a half, minus two and their sum. *)
Definition d_1_5 : Z := 0x3FF8000000000000.
Definition d_m2 : Z := 0xC000000000000000.

Lemma wire_double_portable_witness :
  in_float float64 d_1_5 /\ in_float float64 d_m2 /\ float_type_ok float64
  /\ Double_value little_endian float64 Endian_big
       (Double_add little_endian float64 Endian_big (Double_of little_endian float64 Endian_big d_1_5)
          (Double_of little_endian float64 Endian_big d_m2)) = 0xBFE0000000000000%Z.
Proof.
  assert (in_float float64 d_1_5) as H1 by (vm_compute; split; congruence).
  assert (in_float float64 d_m2) as H2 by (vm_compute; split; congruence).
  split; [exact H1|]. split; [exact H2|]. split; [vm_compute; repeat split; congruence|].
  destruct (wire_double_portable little_endian float64 Endian_big d_1_5 d_m2 H1 H2) as (_ & _ & _ & Ha & _).
  rewrite Ha. vm_compute. reflexivity.
Defined.

(** The hash does not respect equality: zero and minus zero compare equal in both formats and every byte
    order, and hash alike only when [std::hash] happens to collide on their bits, which differ. *)
Theorem double_hash_not_congruent (native : endian) (E : Endian) (hash_bits : Z -> Z) :
  let z := Double_of native float64 E 0 in let mz := Double_of native float64 E (2 ^ 63) in
  Double_eq native float64 E z mz = true
  /\ (Double_hash hash_bits z = Double_hash hash_bits mz <->
       hash_bits 0%Z = hash_bits (if need_swap native E then 128 else 2 ^ 63)%Z).
Proof.
  cbv zeta. unfold Double_eq, Double_hash, Double_of, encode_bits, Double_value, decode_bits. simpl bits.
  destruct (need_swap native E); by vm_compute.
Qed.
