(* ===== verification/Arrays.v ===== *)
(** * Arrays (cpp/src/array.hpp)

    [CArray<Size, T>] is an array of [Size] elements that is compared by [memcmp] and copied by [memcpy].
    [Repr] is what the code asks of the element type: an object representation of [sizeof(T)] bytes. *)
From S2P Require Import Prelude CS CodeUtil.

(** The object representation of the elements. *)
Class Repr (T : Type) := { sizeof : nat; repr : T -> list byte }.
Class ReprOk (T : Type) `{Repr T} := {
  repr_length : forall x : T, length (repr x) = sizeof;
  repr_inj : forall x y : T, repr x = repr y -> x = y;
  sizeof_pos : 0 < sizeof;
}.

(** [memcmp(a, b, n) == 0]; reading past a block is undefined. *)
Definition memcmp_eq (a b : list byte) (n : Z) : outcome bool :=
  if decide (n <= Z.of_nat (length a) /\ n <= Z.of_nat (length b))%Z
  then Ret (bool_decide (take (Z.to_nat n) a = take (Z.to_nat n) b)) else Undef OutOfBounds.

Section CArray.
Context {T : Type} `{Repr T} (Size : nat) (zero : T).

(** [_array]. *)
(* src: cpp/src/array.hpp:44-48 CArray *)
Definition CArray : Type := list T.
(* src: cpp/src/array.hpp:48-54 CArray::CArray *)
Definition carray_default : CArray := replicate Size zero.
(* src: cpp/src/array.hpp:57-59 CArray::CArray *)
Definition carray_of_list (init : list T) : CArray :=
  overlay 0 (take (Nat.min (length init) Size) init) carray_default.
(** Only declared for at most [Size] arguments. *)
(* src: cpp/src/array.hpp:62-64 CArray::CArray *)
Definition carray_of_args (args : list T) : CArray := overlay 0 args carray_default.
(* src: cpp/src/array.hpp:67-73 CArray::operator[] *)
Definition carray_index (a : CArray) (index : nat) : outcome T := load_at a index.
(* src: cpp/src/array.hpp:76-92 CArray::at *)
Definition carray_at (a : CArray) (index : nat) : outcome T :=
  if decide (Size <= index) then Throw (OutOfRange (W "CArray::at: index out of bounds")) else load_at a index.

(** The memory of an array, and of the elements that follow a position. *)
Definition carray_memory (a : list T) : list byte := flat_map repr a.

(* src: cpp/src/array.hpp:99-105 CArray::operator== *)
Definition carray_eq (a other : CArray) : outcome bool :=
  memcmp_eq (carray_memory a) (carray_memory other) (Z.of_nat (Size * sizeof)).
(** [count * sizeof(T)] and [start + count] are [size_t] and wrap; [other] may be any block, which covers the
    overload for a raw pointer. *)
(* src: cpp/src/array.hpp:108-124 CArray::compare_range *)
Definition compare_range_count (a other : list T) (count : Z) : outcome bool :=
  let count := if (Z.of_nat Size <? count)%Z then Z.of_nat Size else count in
  memcmp_eq (carray_memory a) (carray_memory other) (wrap64 (count * Z.of_nat sizeof)).
(* src: cpp/src/array.hpp:114-118 CArray::compare_range *)
Definition compare_range (a other : CArray) (start count : Z) : outcome bool :=
  if (Z.of_nat Size <=? start)%Z then Ret false
  else if (Z.of_nat Size <? wrap64 (start + count))%Z then Ret false
  else memcmp_eq (carray_memory (drop (Z.to_nat start) a)) (carray_memory (drop (Z.to_nat start) other))
         (wrap64 (count * Z.of_nat sizeof)).

Definition not_found_message : str := W "Element not found in array.".
(* src: cpp/src/array.hpp:127-135 CArray::contains *)
Definition carray_contains (teq : T -> T -> bool) (a : CArray) (element : T) : outcome (Result Z) :=
  fold_right (fun i rest => x ← load_at a i;
      if teq x element then Ret (mk_Result (Z.of_nat i) Bool_T EMPTY_MESSAGE) else rest)
    (msg ← cs_of_cstr 0 256 not_found_message; Ret (mk_Result 0xffffffff%Z Bool_F msg)) (seq 0 Size).
(* src: cpp/src/array.hpp:138-140 CArray::starts_with *)
Definition carray_starts_with (a pattern : CArray) (pattern_len : Z) : outcome bool :=
  compare_range_count a pattern pattern_len.
(* src: cpp/src/array.hpp:143-146 CArray::starts_with *)
Definition carray_starts_with_list (a : CArray) (pattern : list T) : outcome bool :=
  if decide (Size < length pattern) then Ret false
  else memcmp_eq (carray_memory a) (carray_memory pattern) (Z.of_nat (length pattern * sizeof)).
(* src: cpp/src/array.hpp:149-151 CArray::fill *)
Definition carray_fill (value : T) : CArray := replicate Size value.
(* src: cpp/src/array.hpp:154-157 CArray::fill *)
Definition carray_fill_count (a : CArray) (value : T) (count : nat) : CArray :=
  let count := if decide (Size < count) then Size else count in overlay 0 (replicate count value) a.
(** [memset] to zero: the elements whose representation is zero bytes, [zero] being the one. *)
(* src: cpp/src/array.hpp:160-162 CArray::clear *)
Definition carray_clear (a : CArray) : CArray := carray_fill zero.
(* src: cpp/src/array.hpp:96-96 CArray::size *)
Definition carray_size (a : CArray) : nat := Size.
(** What a loop from [begin()] to [end()] sees. *)
(* src: cpp/src/array.hpp:165-168 CArray::begin, CArray::end *)
Definition carray_elements (a : CArray) : list T := take Size a.
End CArray.

(** ** Comparison is comparison of elements *)

Section laws.
Context {T : Type} `{ReprOk T}.
Implicit Types (a b : list T).

Lemma carray_memory_length a : length (carray_memory a) = length a * sizeof.
Proof.
  unfold carray_memory. induction a as [|x a IH]; simpl; [done|]. rewrite length_app, IH, repr_length. done.
Qed.

Lemma carray_memory_take n a : take (n * sizeof) (carray_memory a) = carray_memory (take n a).
Proof.
  revert n. induction a as [|x a IH]; intros [|n]; simpl; try done; [by rewrite take_nil|].
  unfold carray_memory in *; simpl. pose proof (repr_length x). rewrite take_app, H1.
  replace (sizeof + n * sizeof - sizeof) with (n * sizeof) by lia. rewrite IH.
  by rewrite take_ge by (rewrite H1; lia).
Qed.

Lemma carray_memory_inj a b : length a = length b -> carray_memory a = carray_memory b -> a = b.
Proof.
  revert b. induction a as [|x a IH]; intros [|y b] Hl E; simplify_eq/=; [done|].
  unfold carray_memory in *; simpl in E. apply app_inj_1 in E as [E1 E2]; [|by rewrite !repr_length].
  apply repr_inj in E1. by rewrite E1, (IH b).
Qed.

(** [memcmp] over [n] elements compares the first [n] elements. *)
Lemma memcmp_elements a b n :
  n <= length a -> n <= length b ->
  memcmp_eq (carray_memory a) (carray_memory b) (Z.of_nat (n * sizeof)) = Ret (bool_decide (carray_memory (take n a) = carray_memory (take n b))).
Proof.
  intros Ha Hb. unfold memcmp_eq. rewrite !carray_memory_length. rewrite decide_True by nia.
  by rewrite Nat2Z.id, !carray_memory_take.
Qed.

Lemma memcmp_elements_iff a b n :
  n <= length a -> n <= length b ->
  exists r, memcmp_eq (carray_memory a) (carray_memory b) (Z.of_nat (n * sizeof)) = Ret r /\ (r = true <-> take n a = take n b).
Proof.
  intros Ha Hb. eexists. split; [by apply memcmp_elements|]. rewrite bool_decide_eq_true. split; [|by intros ->].
  apply carray_memory_inj. rewrite !length_take. lia.
Qed.

Lemma memcmp_out a b n : length a < n \/ length b < n -> memcmp_eq (carray_memory a) (carray_memory b) (Z.of_nat (n * sizeof)) = Undef OutOfBounds.
Proof. intros Hn. unfold memcmp_eq. rewrite !carray_memory_length. pose proof sizeof_pos. rewrite decide_False; [done|]. nia. Qed.

Context (Size : nat) (HSize : (Z.of_nat (Size * sizeof) < two64)%Z).

(** Comparison by bytes is comparison by elements: [==] holds exactly between equal arrays, a comparison
    of a prefix or of a range inside the array exactly when those elements are equal, and a range that leaves
    the array is refused - unless the [size_t] sum of its ends wraps, when the guard passes and the
    comparison reads past the array. *)
Theorem carray_compare a b (start count : nat) (Ha : length a = Size) (Hb : length b = Size) :
  (exists r, carray_eq Size a b = Ret r /\ (r = true <-> a = b))
  /\ (exists r, compare_range_count Size a b (Z.of_nat count) = Ret r /\ (r = true <-> take count a = take count b))
  /\ (start + count <= Size -> start < Size -> exists r, compare_range Size a b (Z.of_nat start) (Z.of_nat count) = Ret r
       /\ (r = true <-> take count (drop start a) = take count (drop start b)))
  /\ (Size < start + count -> (Z.of_nat (start + count) < two64)%Z ->
       compare_range Size a b (Z.of_nat start) (Z.of_nat count) = Ret false)
  /\ (0 < start < Size -> compare_range Size a b (Z.of_nat start) (two64 - Z.of_nat start) = Undef OutOfBounds \/ (two64 <= Z.of_nat (start * sizeof + Size * sizeof))%Z).
Proof.
  split; [|split; [|split; [|split]]].
  - unfold carray_eq. destruct (memcmp_elements_iff a b Size) as (r & Hr & Hi); [lia|lia|].
    exists r. split; [done|]. rewrite Hi. by rewrite !take_ge by lia.
  - unfold compare_range_count. destruct (Z.ltb_spec (Z.of_nat Size) (Z.of_nat count)).
    + destruct (memcmp_elements_iff a b Size) as (r & Hr & Hi); [lia|lia|]. exists r.
      unfold wrap64. rewrite Z.mod_small by nia. rewrite <- Nat2Z.inj_mul. split; [done|]. rewrite Hi. by rewrite !take_ge by lia.
    + destruct (memcmp_elements_iff a b count) as (r & Hr & Hi); [lia|lia|]. exists r.
      unfold wrap64. rewrite Z.mod_small by nia. by rewrite <- Nat2Z.inj_mul.
  - intros Hle Hlt. unfold compare_range. rewrite (proj2 (Z.leb_gt _ _)) by lia. unfold wrap64.
    pose proof sizeof_pos. rewrite (Z.mod_small (_ + _)) by nia. rewrite (proj2 (Z.ltb_ge _ _)) by lia.
    rewrite Z.mod_small by nia. rewrite <- Nat2Z.inj_mul, Nat2Z.id.
    apply memcmp_elements_iff; rewrite length_drop; lia.
  - intros Hgt Hsmall. unfold compare_range. destruct (Z.leb_spec (Z.of_nat Size) (Z.of_nat start)); [done|].
    unfold wrap64. rewrite Z.mod_small by lia. by rewrite (proj2 (Z.ltb_lt _ _)) by lia.
  - intros Hst. destruct (decide (Z.of_nat (start * sizeof + Size * sizeof) < two64)%Z) as [Hw|]; [left|right; lia].
    unfold compare_range. rewrite (proj2 (Z.leb_gt _ _)) by lia.
    replace (Z.of_nat start + (two64 - Z.of_nat start))%Z with two64 by lia. unfold wrap64. rewrite Z.mod_same by done.
    rewrite (proj2 (Z.ltb_ge _ _)) by lia. pose proof sizeof_pos as Hpos.
    assert (((two64 - Z.of_nat start) * Z.of_nat sizeof) mod two64 = two64 - Z.of_nat (start * sizeof))%Z as ->.
    { rewrite Nat2Z.inj_mul. symmetry. apply (Z.mod_unique _ _ (Z.of_nat sizeof - 1)); [left; nia|lia]. }
    unfold memcmp_eq. rewrite decide_False; [done|]. rewrite !carray_memory_length, !length_drop, Nat2Z.id. nia.
Qed.

(** [at] returns the element of every index of the array and throws [out_of_range] for every other;
    [contains] returns the index of the first equal element, or an error result whose message names the
    miss; filling a prefix changes that prefix only. *)
Theorem carray_access (teq : T -> T -> bool) a (index count : nat) (element : T)
    (Hteq : forall x y, teq x y = true <-> x = y) (Ha : length a = Size) :
  (forall x, a !! index = Some x -> carray_at Size a index = Ret x)
  /\ (Size <= index -> exists msg, carray_at Size a index = Throw (OutOfRange msg))
  /\ (exists r, carray_contains Size teq a element = Ret r
        /\ if result_bool r then exists i, mresult r = Z.of_nat i /\ a !! i = Some element /\ element ∉ take i a
           else element ∉ a /\ mresult r = 0xffffffff%Z /\ cs_str (merror_message r) = Ret not_found_message)
  /\ length (carray_fill_count Size a element count) = Size
  /\ take count (carray_fill_count Size a element count) = replicate (Nat.min count Size) element
  /\ drop count (carray_fill_count Size a element count) = drop count a.
Proof.
  clear HSize. split; [|split; [|split]].
  - intros x Hx. pose proof (lookup_lt_Some _ _ _ Hx). unfold carray_at. rewrite decide_False by lia. unfold load_at. by rewrite Hx.
  - intros Hi. unfold carray_at. rewrite decide_True by done. eauto.
  - destruct (result_of_cstr_ok not_found_message 0xffffffff%Z) as (r0 & Hr0 & Hm & Hs).
    { by apply nul_index_None. } { simpl. lia. }
    unfold result_of_cstr in Hr0. apply outcome_bind_Ret_inv in Hr0 as (msg & Hmsg & Hr0). injection Hr0 as <-.
    unfold carray_contains. rewrite Hmsg. rewrite outcome_bind_ret. subst Size.
    assert (Hgen : forall a0 l k, a0 = drop k a -> l = length a0 -> k + l = length a -> element ∉ take k a ->
      exists r, fold_right (fun i rest => x ← load_at a i;
        if teq x element then Ret (mk_Result (Z.of_nat i) Bool_T EMPTY_MESSAGE) else rest)
        (Ret (mk_Result 0xffffffff%Z Bool_F msg)) (seq k l) = Ret r
        /\ if result_bool r then exists i, mresult r = Z.of_nat i /\ a !! i = Some element /\ element ∉ take i a
           else element ∉ a /\ mresult r = 0xffffffff%Z /\ cs_str (merror_message r) = Ret not_found_message).
    { induction a0 as [|x a0 IH]; intros l k Hd -> Hk Hn; simpl.
      - eexists. split; [done|]. simpl. split; [|done]. rewrite take_ge in Hn by (simpl in Hk; lia). done.
      - assert (Hx : a !! k = Some x). { rewrite <- (Nat.add_0_r k), <- lookup_drop, <- Hd. done. }
        rewrite (load_at_Some _ _ _ Hx). cbn. destruct (teq x element) eqn:E.
        + apply Hteq in E as ->. eexists. split; [done|]. simpl. eauto.
        + apply (IH _ (S k)); [by rewrite (drop_S a x k Hx) in Hd; injection Hd|done|simpl in Hk; lia|].
          rewrite (take_S_r _ _ _ Hx). rewrite elem_of_app, list_elem_of_singleton. intros [?| ->]; [done|].
          assert (teq x x = true) by by apply Hteq. congruence. }
    apply (Hgen a (length a) 0); try done. by rewrite take_0; apply not_elem_of_nil.
  - set (src := replicate (Nat.min count Size) element).
    assert (Hn : length src = Nat.min count Size) by apply length_replicate.
    assert (carray_fill_count Size a element count = overlay 0 src a) as ->.
    { unfold carray_fill_count, src. do 2 f_equal. case_decide; lia. }
    pose proof (overlay_length 0 src a ltac:(lia)) as Hl. pose proof (overlay_take 0 src a ltac:(lia)) as Ht.
    pose proof (overlay_drop 0 src a ltac:(lia)) as Hd. rewrite Hn in Ht, Hd. simpl in Ht, Hd.
    split; [lia|]. destruct (decide (count <= Size)).
    + replace (Nat.min count Size) with count in Ht, Hd by lia. by rewrite Ht, Hd.
    + replace (Nat.min count Size) with Size in Ht by lia. rewrite !drop_ge by lia.
      rewrite take_ge in Ht |- * by lia. by rewrite Ht.
Qed.
End laws.

(** ** Witnesses: an array of bytes *)
#[export] Instance byte_repr : Repr byte := {| sizeof := 1; repr := fun b => [b] |}.
#[export] Instance byte_repr_ok : ReprOk byte.
Proof. split; [done| |simpl; lia]. intros x y E. by injection E. Qed.

Lemma carray_compare_witness :
  ReprOk byte /\ (Z.of_nat (3 * 1) < two64)%Z
  /\ compare_range 3 (W "abc") (W "xbc") 1 2 = Ret true
  /\ exists r, carray_eq 3 (W "abc") (W "abc") = Ret r /\ (r = true <-> W "abc" = W "abc").
Proof.
  split; [exact byte_repr_ok|]. assert (HS : (Z.of_nat (3 * @sizeof byte _) < two64)%Z) by (vm_compute; reflexivity).
  split; [exact HS|]. split; [vm_compute; reflexivity|].
  exact (proj1 (carray_compare (T := byte) 3 HS (W "abc") (W "abc") 1 2 eq_refl eq_refl)).
Defined.

Lemma carray_access_witness :
  ReprOk byte /\ (forall x y : byte, bool_decide (x = y) = true <-> x = y)
  /\ carray_at 3 (W "abc") 1 = Ret ("b"%char)
  /\ drop 2 (carray_fill_count 3 (W "abc") "z"%char 2) = W "c".
Proof.
  split; [exact byte_repr_ok|].
  assert (Hq : forall x y : byte, bool_decide (x = y) = true <-> x = y) by (intros; apply bool_decide_eq_true).
  split; [exact Hq|]. destruct (carray_access (T := byte) 3 (fun x y => bool_decide (x = y)) (W "abc") 1 2 "z"%char Hq eq_refl)
    as (H1 & _ & _ & _ & _ & H2).
  split; [apply H1; reflexivity|rewrite H2; reflexivity].
Defined.
