(* ===== verification/Buffers.v ===== *)
(** * BinaryBuffer (cpp/src/binary_buffer.hpp)

    A vector of bytes with a write position and a read position.  The contract is a queue of bytes:
    [queue_step].  Sizes are far below 2^64 (a [std::vector] cannot be larger), so positions are [nat]. *)
From S2P Require Import Prelude CS CodeUtil.

(** ** The buffer (lines 42-191) *)

(* src: cpp/src/binary_buffer.hpp:42-51 BinaryBuffer *)
Record BinaryBuffer := mk_bb { buffer : list byte; write_pos : nat; read_pos : nat }.

(* src: cpp/src/binary_buffer.hpp:49-51 BinaryBuffer::BinaryBuffer *)
Definition new_bb : BinaryBuffer := mk_bb [] 0 0.
(** The span [buffer.data(), write_pos]; using it past the vector is undefined. *)
(* src: cpp/src/binary_buffer.hpp:55-57 BinaryBuffer::data *)
Definition bb_data (b : BinaryBuffer) : outcome (list byte) :=
  if decide (write_pos b <= length (buffer b)) then Ret (take (write_pos b) (buffer b)) else Undef OutOfBounds.
(* src: cpp/src/binary_buffer.hpp:59-59 BinaryBuffer::size *)
Definition bb_size (b : BinaryBuffer) : nat := write_pos b.
(* src: cpp/src/binary_buffer.hpp:61-64 BinaryBuffer::clear *)
Definition bb_clear (b : BinaryBuffer) : BinaryBuffer := mk_bb (buffer b) 0 0.

(** [std::vector::resize]: new bytes are zero. *)
Definition resize (n : nat) (l : list byte) : list byte := take n l ++ replicate (n - length l) NULL_CHAR.

(* src: cpp/src/binary_buffer.hpp:71-105 BinaryBuffer::write *)
Definition bb_write (b : BinaryBuffer) (src : list byte) : BinaryBuffer :=
  let required := write_pos b + length src in
  let buf := if decide (length (buffer b) < required) then resize required (buffer b) else buffer b in
  mk_bb (overlay (write_pos b) src buf) (write_pos b + length src) (read_pos b).

(** [read] into a span of the given contents: on an underflow the span and the buffer keep theirs. *)
(* src: cpp/src/binary_buffer.hpp:159-190 BinaryBuffer::read *)
Definition bb_read (b : BinaryBuffer) (dest : list byte) : BinaryBuffer * list byte :=
  if decide (length (buffer b) < read_pos b + length dest) then (b, dest)
  else (mk_bb (buffer b) (write_pos b) (read_pos b + length dest), take (length dest) (drop (read_pos b) (buffer b))).

Definition open_write_message : str := W "Failed to open file for writing".
Definition short_write_message : str := W "Failed to write all bytes to disk".
Definition open_read_message : str := W "Failed to open file for reading".
Definition size_message : str := W "Could not determine file size".
Definition short_read_message : str := W "Read mismatch: read less bytes than expected".

(** The C file functions: [fopen] succeeds when [opened]; [fwrite] reports [written] bytes. *)
(* src: cpp/src/binary_buffer.hpp:108-120 BinaryBuffer::save_to_file *)
Definition save_to_file (opened : bool) (written : nat) (b : BinaryBuffer) : outcome (Result Bool) :=
  if negb opened then result_of_cstr open_write_message Bool_UNKNOWN
  else if decide (written = write_pos b) then Ret (result_of Bool_T)
  else result_of_cstr short_write_message Bool_UNKNOWN.

(** [ftell] reports [file_size] and [fread] delivers [contents], at most [file_size] bytes. *)
(* src: cpp/src/binary_buffer.hpp:127-156 BinaryBuffer::load_from_file *)
Definition load_from_file (opened : bool) (file_size : Z) (contents : list byte) (b : BinaryBuffer) : outcome (BinaryBuffer * Result Bool) :=
  if negb opened then r ← result_of_cstr open_read_message Bool_UNKNOWN; Ret (b, r)
  else if (file_size <? 0)%Z then r ← result_of_cstr size_message Bool_UNKNOWN; Ret (b, r)
  else
    let buf := overlay 0 contents (resize (Z.to_nat file_size) (buffer b)) in
    if decide (length contents <> Z.to_nat file_size) then
      r ← result_of_cstr short_read_message Bool_UNKNOWN; Ret (mk_bb buf (write_pos b) (read_pos b), r)
    else Ret (mk_bb buf (Z.to_nat file_size) 0, result_of Bool_T).

(** ** The contract: a queue of bytes *)

Inductive op : Type := OpWrite (src : list byte) | OpRead (dest : list byte) | OpClear.

Definition bb_step (b : BinaryBuffer) (o : op) : BinaryBuffer * list byte :=
  match o with
  | OpWrite src => (bb_write b src, [])
  | OpRead dest => bb_read b dest
  | OpClear => (bb_clear b, [])
  end.

Definition queue_step (q : list byte) (o : op) : list byte * list byte :=
  match o with
  | OpWrite src => (q ++ src, [])
  | OpRead dest => if decide (length q < length dest) then (q, dest) else (drop (length dest) q, take (length dest) q)
  | OpClear => ([], [])
  end.

(** Run a history, collecting what each operation leaves in its destination. *)
Fixpoint run {S} (step : S -> op -> S * list byte) (s : S) (ops : list op) : S * list (list byte) :=
  match ops with
  | [] => (s, [])
  | o :: ops => let '(s, out) := step s o in let '(s, outs) := run step s ops in (s, out :: outs)
  end.

(** The client reads no more than it has written since the last [clear]. *)
Fixpoint reads_fit (q : list byte) (ops : list op) : Prop :=
  match ops with
  | [] => True
  | o :: ops => (match o with OpRead dest => length dest <= length q | _ => True end) /\ reads_fit (fst (queue_step q o)) ops
  end.

(** The queue a buffer represents. *)
Definition contents_of (b : BinaryBuffer) : list byte := drop (read_pos b) (take (write_pos b) (buffer b)).
Definition bb_inv (b : BinaryBuffer) : Prop := read_pos b <= write_pos b <= length (buffer b).
(** No bytes of an earlier use are left behind the write position. *)
Definition exact (b : BinaryBuffer) : Prop := write_pos b = length (buffer b).

Lemma resize_length n l : length (resize n l) = n.
Proof. unfold resize. rewrite length_app, length_take, length_replicate. lia. Qed.

Lemma take_resize k n l : k <= length l -> k <= n -> take k (resize n l) = take k l.
Proof. intros. unfold resize. rewrite take_app_le by (rewrite length_take; lia). rewrite take_take. f_equal. lia. Qed.

Lemma contents_length b : bb_inv b -> length (contents_of b) = write_pos b - read_pos b.
Proof. intros [? ?]. unfold contents_of. rewrite length_drop, length_take. lia. Qed.

Lemma bb_write_spec b src :
  bb_inv b -> bb_inv (bb_write b src) /\ contents_of (bb_write b src) = contents_of b ++ src
  /\ (exact b -> exact (bb_write b src)) /\ read_pos (bb_write b src) = read_pos b
  /\ take (write_pos (bb_write b src)) (buffer (bb_write b src)) = take (write_pos b) (buffer b) ++ src.
Proof.
  intros [Hr Hw]. unfold bb_write. set (buf := if decide _ then _ else _).
  assert (Hbuf : write_pos b + length src <= length buf /\ take (write_pos b) buf = take (write_pos b) (buffer b)
    /\ (exact b -> length buf = write_pos b + length src)).
  { unfold buf, exact. case_decide.
    - rewrite resize_length, take_resize by lia. repeat split; lia.
    - repeat split; lia. }
  destruct Hbuf as (Hl & Ht & He). unfold bb_inv, contents_of, exact; simpl.
  rewrite overlay_length, overlay_take, Ht by done. split; [lia|]. split.
  - rewrite drop_app_le; [done|]. rewrite length_take. lia.
  - split; [|done]. intros Hx. rewrite He by done. lia.
Qed.

(** A read within the queue. *)
Lemma bb_read_spec b dest :
  bb_inv b -> length dest <= length (contents_of b) ->
  let '(b', out) := bb_read b dest in
  bb_inv b' /\ contents_of b' = drop (length dest) (contents_of b) /\ out = take (length dest) (contents_of b) /\ (exact b -> exact b').
Proof.
  intros Hi Hd. pose proof (contents_length b Hi) as Hc. destruct Hi as [Hr Hw]. unfold bb_read. rewrite decide_False by lia.
  unfold bb_inv, contents_of, exact; simpl. split; [lia|]. split; [by rewrite drop_drop|]. split; [|done].
  rewrite <- (take_drop (write_pos b) (buffer b)) at 1.
  rewrite drop_app_le by (rewrite length_take; lia). rewrite take_app_le; [done|]. unfold contents_of in Hd. lia.
Qed.

Lemma bb_step_refines b o :
  bb_inv b -> (match o with OpRead dest => length dest <= length (contents_of b) \/ exact b | _ => True end) ->
  bb_inv (fst (bb_step b o)) /\ (contents_of (fst (bb_step b o)), snd (bb_step b o)) = queue_step (contents_of b) o
  /\ (o <> OpClear -> exact b -> exact (fst (bb_step b o))).
Proof.
  intros Hi Ho. destruct o as [src|dest|]; simpl.
  - destruct (bb_write_spec b src Hi) as (H1 & H2 & H3 & _). rewrite H2. auto.
  - destruct (decide (length dest <= length (contents_of b))) as [Hd|Hd].
    + rewrite decide_False by lia. pose proof (bb_read_spec b dest Hi Hd) as H. destruct (bb_read b dest) as [b' out]; simpl.
      destruct H as (H1 & H2 & H3 & H4). split; [done|]. split; [congruence|auto].
    + destruct Ho as [|He]; [done|]. rewrite decide_True by lia. rewrite (contents_length b Hi) in Hd. unfold exact in He.
      destruct Hi as [Hr Hw]. unfold bb_read. rewrite decide_True by lia. done.
  - unfold bb_inv, contents_of; simpl. split; [lia|]. by split.
Qed.

Lemma run_refines b ops :
  bb_inv b -> reads_fit (contents_of b) ops \/ (exact b /\ OpClear ∉ ops) ->
  bb_inv (fst (run bb_step b ops))
  /\ (contents_of (fst (run bb_step b ops)), snd (run bb_step b ops)) = run queue_step (contents_of b) ops.
Proof.
  revert b. induction ops as [|o ops IH]; intros b Hi Hc; [done|]. cbn [run].
  destruct (bb_step_refines b o Hi) as (H1 & H2 & H3).
  { destruct o; try done. destruct Hc as [[Hc _]|[Hc _]]; tauto. }
  destruct (bb_step b o) as [b' out]; simpl in *. rewrite <- H2.
  destruct (IH b' H1) as [G1 G2].
  { destruct Hc as [[_ Hc]|[He Hc]]; [left; by rewrite <- H2 in Hc|right].
    apply not_elem_of_cons in Hc as [Hno Hc]. split; [by apply H3|done]. }
  destruct (run bb_step b' ops) as [b'' outs]; simpl in *. by rewrite <- G2.
Qed.

(** C3. The buffer is a queue of bytes.  A history of writes and reads, from a fresh buffer, delivers to every
    destination exactly what a queue delivers, reads that ask for too much being refused without a change;
    with [clear] in the history the same holds as long as the client reads no more than it has written. *)
Theorem buffer_refines_queue (ops : list op) (Hops : OpClear ∉ ops \/ reads_fit [] ops) :
  snd (run bb_step new_bb ops) = snd (run queue_step [] ops)
  /\ bb_data (fst (run bb_step new_bb ops)) = Ret (take (bb_size (fst (run bb_step new_bb ops))) (buffer (fst (run bb_step new_bb ops))))
  /\ contents_of (fst (run bb_step new_bb ops)) = fst (run queue_step [] ops).
Proof.
  destruct (run_refines new_bb ops) as [[H1 H2] H3].
  { by unfold bb_inv. } { destruct Hops; [by right|by left]. }
  change (contents_of new_bb) with (@nil byte) in H3. rewrite <- H3. split; [done|]. split; [|done].
  unfold bb_data. by rewrite decide_True by done.
Qed.

Lemma buffer_refines_queue_witness :
  (OpClear ∉ [OpWrite (W "abc"); OpRead (W "xx"); OpRead (W "yy"); OpRead (W "z")] \/ False)
  /\ snd (run bb_step new_bb [OpWrite (W "abc"); OpRead (W "xx"); OpRead (W "yy"); OpRead (W "z")]) = [[]; W "ab"; W "yy"; W "c"].
Proof.
  assert (H : OpClear ∉ [OpWrite (W "abc"); OpRead (W "xx"); OpRead (W "yy"); OpRead (W "z")]).
  { rewrite !not_elem_of_cons. repeat split; try done. apply not_elem_of_nil. }
  split; [by left|]. rewrite (proj1 (buffer_refines_queue _ (or_introl H))). reflexivity.
Defined.

(** The read check is against the size of the vector, not the write position, and [clear] keeps the vector:
    after it, reads deliver the bytes of the earlier use, and the buffer then reports fewer bytes than it
    has read.  A load that reads too little has already resized the vector but keeps the write position, so
    the view of the data can extend past the vector. *)
Theorem buffer_stale_bytes (src dest : list byte) (Hne : 0 < length dest <= length src) :
  let b := bb_clear (bb_write new_bb src) in
  bb_size b = 0 /\ bb_read b dest = (mk_bb src 0 (length dest), take (length dest) src)
  /\ (exists b' r, load_from_file true 1 [] (bb_write new_bb (src ++ dest)) = Ret (b', r) /\ result_bool r = false
       /\ bb_size b' = length (src ++ dest) /\ bb_data b' = Undef OutOfBounds).
Proof.
  cbv zeta. assert (Hw : forall s, bb_write new_bb s = mk_bb s (length s) 0).
  { intros s. unfold bb_write; cbn [write_pos buffer read_pos new_bb Nat.add length]. destruct s as [|c s]; [done|].
    rewrite decide_True by (simpl; lia). f_equal. rewrite overlay_0, drop_ge by (rewrite resize_length; lia). apply app_nil_r. }
  rewrite !Hw. split; [done|]. split.
  - unfold bb_read; simpl. by rewrite decide_False by lia.
  - unfold load_from_file. cbn [negb]. change (1 <? 0)%Z with false. rewrite decide_True by (simpl; lia).
    destruct (result_of_cstr_ok short_read_message Bool_UNKNOWN) as (r & -> & Hr & _); [by apply nul_index_None|simpl; lia|].
    cbn [mbind outcome_bind]. eexists _, r. split; [done|]. split; [unfold result_bool; by rewrite Hr|]. split; [done|].
    unfold bb_data. cbn [write_pos buffer]. rewrite overlay_0. cbn [app length]. rewrite drop_0, decide_False; [done|].
    rewrite resize_length, length_app. change (Z.to_nat 1) with 1. lia.
Qed.

Lemma buffer_stale_bytes_witness :
  0 < length (W "ab") <= length (W "old")
  /\ snd (bb_read (bb_clear (bb_write new_bb (W "old"))) (W "ab")) = W "ol".
Proof.
  assert (H : 0 < length (W "ab") <= length (W "old")) by (simpl; lia). split; [exact H|].
  destruct (buffer_stale_bytes (W "old") (W "ab") H) as (_ & -> & _). reflexivity.
Defined.

(** Saving and loading: when the file functions do their work, the saved buffer is loaded back with the
    same bytes and both calls report success; every failure is reported as an error result, and only a load
    that has read the whole file moves the positions. *)
Theorem save_load_roundtrip (b b0 : BinaryBuffer) (opened : bool) (file_size : Z) (contents : list byte) (written : nat)
    (Hb : bb_inv b) (Hc : (0 <= file_size)%Z -> length contents <= Z.to_nat file_size) :
  (exists data b' r, bb_data b = Ret data
     /\ save_to_file true (length data) b = Ret (result_of Bool_T)
     /\ load_from_file true (Z.of_nat (length data)) data b0 = Ret (b', r) /\ result_bool r = true
     /\ bb_data b' = Ret data /\ read_pos b' = 0)
  /\ (exists r, save_to_file opened written b = Ret r /\ (result_bool r = true <-> opened = true /\ written = write_pos b))
  /\ (exists b' r, load_from_file opened file_size contents b0 = Ret (b', r)
       /\ (result_bool r = true <-> opened = true /\ Z.of_nat (length contents) = file_size)
       /\ (result_bool r = false -> write_pos b' = write_pos b0 /\ read_pos b' = read_pos b0)).
Proof.
  assert (Hmsg : forall m, nul_index m = None -> length m < 256 -> exists r, result_of_cstr m Bool_UNKNOWN = Ret r /\ result_bool r = false).
  { intros m Hm Hl. destruct (result_of_cstr_ok m Bool_UNKNOWN) as (r & -> & Hr & _); [by apply nul_index_None|done|].
    exists r. split; [done|]. unfold result_bool. by rewrite Hr. }
  assert (Hload : forall contents, length contents = length contents ->
    load_from_file true (Z.of_nat (length contents)) contents b0 = Ret (mk_bb contents (length contents) 0, result_of Bool_T)).
  { intros c _. unfold load_from_file; cbn -[resize]. rewrite (proj2 (Z.ltb_ge _ _)) by lia. rewrite Nat2Z.id.
    rewrite decide_False by tauto. by rewrite overlay_0, drop_ge, app_nil_r by (rewrite resize_length; lia). }
  split; [|split].
  - destruct Hb as [Hr Hw]. exists (take (write_pos b) (buffer b)). unfold bb_data at 1. rewrite decide_True by done.
    unfold save_to_file. cbn [negb]. rewrite decide_True by (rewrite length_take; lia). rewrite Hload by done.
    eexists _, _. repeat split; try done. unfold bb_data; simpl. rewrite decide_True by done. by rewrite firstn_all.
  - unfold save_to_file. destruct opened; cbn [negb].
    + case_decide; [eexists; by split|]. destruct (Hmsg short_write_message) as (r & -> & Hr); [done|simpl; lia|].
      exists r. split; [done|]. rewrite Hr. naive_solver.
    + destruct (Hmsg open_write_message) as (r & -> & Hr); [done|simpl; lia|]. exists r. split; [done|]. rewrite Hr. naive_solver.
  - unfold load_from_file. destruct opened; cbn [negb].
    + destruct (Z.ltb_spec file_size 0).
      * destruct (Hmsg size_message) as (r & -> & Hr); [done|simpl; lia|]. eexists _, r. split; [done|]. rewrite Hr.
        split; [|done]. split; [done|]. lia.
      * case_decide as Hd.
        -- destruct (Hmsg short_read_message) as (r & -> & Hr); [done|simpl; lia|]. eexists _, r. split; [done|]. rewrite Hr.
           split; [|done]. split; [done|]. lia.
        -- eexists _, _. split; [done|]. split; [|done]. split; [|done]. intros _. split; [done|]. lia.
    + destruct (Hmsg open_read_message) as (r & -> & Hr); [done|simpl; lia|]. eexists _, r. split; [done|]. rewrite Hr. naive_solver.
Qed.

Lemma save_load_roundtrip_witness :
  bb_inv (mk_bb (W "abc") 2 1)
  /\ exists r, save_to_file true 1 (mk_bb (W "abc") 2 1) = Ret r /\ (result_bool r = true <-> true = true /\ 1 = 2).
Proof.
  assert (H : bb_inv (mk_bb (W "abc") 2 1)) by (unfold bb_inv; simpl; lia). split; [exact H|].
  exact (proj1 (proj2 (save_load_roundtrip (mk_bb (W "abc") 2 1) new_bb true 3 [] 1 H ltac:(simpl; lia)))).
Defined.
