(* ===== verification/Streams.v ===== *)
(** * Formatted streams

    What the classes use of [std::istream] and [std::ostream] in the "C" locale: an output stream is the
    text written so far, an input stream the text left and whether it is still good.  [operator>>] skips
    leading blanks; on a stream that has failed it does nothing. *)
From S2P Require Import Prelude.

Record istream := mk_is { is_rest : str; is_good : bool }.
(* src: cpp/src/string_def.hpp:23-23 SPACE *)
Definition SPACE : ascii := " "%char.

(** [is >> n] for a signed integer of [w] bits that holds [old]: at the end of the stream nothing is stored,
    no digits store zero, a value out of range the nearest bound, and all three set the fail bit. *)
Definition extract_int (w : Z) (i : istream) (old : Z) : istream * Z :=
  if negb (is_good i) then (i, old)
  else
    let s := drop_while is_space (is_rest i) in
    if decide (s = []) then (mk_is [] false, old) else
    let '(neg, s) := match s with
      | c :: s' => if decide (c = "-"%char) then (true, s') else if decide (c = "+"%char) then (false, s') else (false, s)
      | [] => (false, s) end in
    let ds := take_while is_digit s in
    let rest := drop_while is_digit s in
    let v := if neg : bool then (- digits_val ds)%Z else digits_val ds in
    if decide (ds = []) then (mk_is rest false, 0%Z)
    else if in_signed w v then (mk_is rest true, v)
    else (mk_is rest false, if neg : bool then (- 2 ^ (w - 1))%Z else (2 ^ (w - 1) - 1)%Z).

(** [is >> s] for a string that holds [old]. *)
Definition extract_word (i : istream) (old : str) : istream * str :=
  if negb (is_good i) then (i, old)
  else match drop_while is_space (is_rest i) with
  | [] => (mk_is [] false, old)
  | _ => let '(t, rest) := read_token (is_rest i) in (mk_is rest true, t)
  end.

(** [is.peek() == c] and [is.ignore()]. *)
Definition peek_is (c : ascii) (i : istream) : bool :=
  is_good i && match is_rest i with x :: _ => bool_decide (x = c) | [] => false end.
Definition ignore (i : istream) : istream :=
  if is_good i then match is_rest i with _ :: r => mk_is r true | [] => i end else i.

Definition no_space (s : str) : Prop := Forall (fun c => is_space c = false) s.
Definition not_digit_head (s : str) : Prop := match s with c :: _ => is_digit c = false | [] => True end.

Lemma take_while_digits ds rest :
  Forall (fun c => is_digit c = true) ds -> not_digit_head rest -> take_while is_digit (ds ++ rest) = ds /\ drop_while is_digit (ds ++ rest) = rest.
Proof.
  intros Hd Hr. rewrite take_while_app, drop_while_app by done. destruct rest as [|c r]; simpl; [by rewrite app_nil_r|].
  simpl in Hr. rewrite Hr. by rewrite app_nil_r.
Qed.

Lemma digit_not_special c : is_digit c = true -> is_space c = false /\ c <> "-"%char /\ c <> "+"%char.
Proof.
  unfold is_digit, is_space. rewrite bool_decide_eq_true, bool_decide_eq_false. intros H. split; [lia|].
  split; intros ->; vm_compute in H; intuition congruence.
Qed.

(** A run of digits, not necessarily without leading zeros. *)
Lemma extract_int_run w ds rest old :
  ds <> [] -> Forall (fun c => is_digit c = true) ds -> in_signed w (digits_val ds) = true -> not_digit_head rest ->
  extract_int w (mk_is (ds ++ rest) true) old = (mk_is rest true, digits_val ds).
Proof.
  intros Hne Hd Hw Hr. destruct (take_while_digits _ rest Hd Hr) as [Ht Hdr].
  unfold extract_int. cbn [is_good negb is_rest]. destruct ds as [|c ds]; [done|].
  assert (Hc : is_digit c = true) by (by inversion Hd). destruct (digit_not_special c Hc) as (Hs & Hm & Hp).
  cbn [drop_while app]. rewrite Hs. cbv zeta. rewrite (decide_False (P := c :: ds ++ rest = [])) by done. rewrite !decide_False by done.
  change (c :: ds ++ rest) with ((c :: ds) ++ rest). rewrite Ht, Hdr. rewrite decide_False by done. by rewrite Hw.
Qed.

Lemma extract_int_digits w n rest old :
  (0 <= n)%Z -> in_signed w n = true -> not_digit_head rest ->
  extract_int w (mk_is (digits n ++ rest) true) old = (mk_is rest true, n).
Proof.
  intros Hn Hw Hr. destruct (digits_spec n Hn) as (Hv & Hne & Hd & _).
  rewrite extract_int_run by (done || by rewrite Hv). by rewrite Hv.
Qed.

Lemma extract_int_decimal w n rest old :
  in_signed w n = true -> not_digit_head rest ->
  extract_int w (mk_is (decimal n ++ rest) true) old = (mk_is rest true, n).
Proof.
  intros Hw Hr. unfold decimal. destruct (Z.ltb_spec n 0) as [Hn|Hn]; [|by apply extract_int_digits].
  destruct (digits_spec (- n) ltac:(lia)) as (Hv & Hne & Hd & _). destruct (take_while_digits _ rest Hd Hr) as [Ht Hdr].
  unfold extract_int. cbn [is_good negb is_rest drop_while app].
  change (is_space "-") with false. cbv iota zeta. rewrite (decide_False (P := "-"%char :: digits (- n) ++ rest = [])) by done. rewrite decide_True by done. rewrite Ht, Hdr, Hv. rewrite decide_False by done.
  by rewrite Z.opp_involutive, Hw.
Qed.

Lemma extract_int_space w s old : extract_int w (mk_is (SPACE :: s) true) old = extract_int w (mk_is s true) old.
Proof. unfold extract_int. cbn [is_good negb is_rest drop_while]. by change (is_space SPACE) with true. Qed.

Lemma extract_int_failed w s old : extract_int w (mk_is s false) old = (mk_is s false, old).
Proof. done. Qed.

Lemma extract_int_empty w old : extract_int w (mk_is [] true) old = (mk_is [] false, old).
Proof. done. Qed.

Lemma read_token_word (t rest : str) :
  t <> [] -> no_space t -> (match rest with c :: _ => is_space c = true | [] => True end) -> read_token (t ++ rest) = (t, rest).
Proof.
  intros Hne Ht Hr. unfold read_token.
  assert (E : drop_while is_space (t ++ rest) = t ++ rest).
  { destruct t as [|c t]; [done|]. simpl. inversion Ht as [|? ? Hc _]. by rewrite Hc. }
  assert (Ht' : Forall (fun c => negb (is_space c) = true) t) by (eapply Forall_impl; [exact Ht|]; intros c Hc; simpl in *; by rewrite Hc).
  rewrite E, take_while_app, drop_while_app by done. destruct rest as [|c r]; simpl; [by rewrite app_nil_r|].
  simpl in Hr. rewrite Hr. simpl. by rewrite app_nil_r.
Qed.

Lemma decimal_no_space n : no_space (decimal n).
Proof.
  assert (H : forall m, (0 <= m)%Z -> no_space (digits m)).
  { intros m Hm. destruct (digits_spec m Hm) as (_ & _ & Hd & _). eapply Forall_impl; [exact Hd|]. intros c Hc. by apply digit_not_special. }
  unfold decimal. destruct (Z.ltb_spec n 0); [|by apply H]. constructor; [done|]. apply H. lia.
Qed.

Lemma decimal_head n : match decimal n with c :: _ => is_digit c = true \/ c = "-"%char | [] => False end.
Proof.
  unfold decimal. destruct (Z.ltb_spec n 0); [by right|]. destruct (digits_spec n) as (_ & Hne & Hd & _); [lia|].
  destruct (digits n) as [|c ds]; [done|]. left. by inversion Hd.
Qed.
