(* ===== verification/Factory.v ===== *)
(** * Factories (cpp/src/factory.hpp)

    Objects live in a heap of reference-counted cells; a [shared_ptr] is the number of its cell and the
    count is in the cell.  [init] is the constructor of the class and [reinit] its [initialize]. *)
From S2P Require Import Prelude.

Section Factory.
Context {T Args : Type} (make : Args -> T) (reinit : Args -> T -> T).

(** The heap of [shared_ptr]-managed objects: each cell has its object and its use count. *)
Record cell := mk_cell { obj : T; use_count : nat }.

Definition make_shared (h : list cell) (args : Args) : list cell * nat := (h ++ [mk_cell (make args) 1], length h).
Definition count_of (h : list cell) (p : nat) : nat := from_option use_count 0 (h !! p).
Definition adjust (f : cell -> cell) (h : list cell) (p : nat) : list cell := match h !! p with Some c => <[p := f c]> h | None => h end.
Definition incr (h : list cell) (p : nat) : list cell := adjust (fun c => mk_cell (obj c) (S (use_count c))) h p.
Definition decr (h : list cell) (p : nat) : list cell := adjust (fun c => mk_cell (obj c) (pred (use_count c))) h p.

(** ** NewFactory, SingletonFactory (lines 16-41, 124-136) *)

(* src: cpp/src/factory.hpp:16-27 NewFactory *)
Definition new_factory_get (h : list cell) (args : Args) : list cell * nat := make_shared h args.

(* src: cpp/src/factory.hpp:124-136 SingletonFactory *)
Record singleton_factory := mk_singleton { singleton : nat }.
(* src: cpp/src/factory.hpp:131-131 SingletonFactory::SingletonFactory *)
Definition new_singleton_factory (h : list cell) (args : Args) : list cell * singleton_factory :=
  let '(h, p) := make_shared h args in (h, mk_singleton p).
(* src: cpp/src/factory.hpp:133-133 SingletonFactory::get *)
Definition singleton_get (f : singleton_factory) (h : list cell) (args : Args) : list cell * nat := (incr h (singleton f), singleton f).

(** ** MockupFactory *)
(** A new [shared_ptr] from the raw pointer has a control block of its own, so a second one deletes the
    object again when it goes; the cell of a mock counts the control blocks that own it. *)
(* src: cpp/src/factory.hpp:30-41 MockupFactory *)
Record mockup_factory := mk_mockup { mockup_pointer : nat }.
(* src: cpp/src/factory.hpp:37-37 MockupFactory::get *)
Definition mockup_get (f : mockup_factory) (h : list cell) (args : Args) : list cell * nat :=
  (incr h (mockup_pointer f), mockup_pointer f).

(** ** PoolFactory (lines 43-122) *)

(** [available_count] is a [size_t]: it wraps below zero. *)
(* src: cpp/src/factory.hpp:118-122 PoolFactory *)
Record pool_factory := mk_pool { pool : list nat; available_count : Z; refill_size : nat }.

(* src: cpp/src/factory.hpp:56-60 PoolFactory::fill_pool *)
Definition add_objects (count : nat) (args : Args) (hp : list cell * list nat) : list cell * list nat :=
  fold_left (fun '(h, pool) _ => let '(h, p) := make_shared h args in (h, pool ++ [p])) (seq 0 count) hp.

(* src: cpp/src/factory.hpp:54-62 PoolFactory::fill_pool *)
Definition fill_pool (pool_size : nat) (args : Args) (h : list cell) (f : pool_factory) : list cell * pool_factory :=
  let '(h, pool) := add_objects pool_size args (h, pool f) in
  (h, mk_pool pool (Z.of_nat pool_size) (refill_size f)).

(** [add] holds each new object twice while it runs; both counts are as for [fill_pool] afterwards. *)
(* src: cpp/src/factory.hpp:63-71 PoolFactory::add *)
Definition add (count : nat) (args : Args) (h : list cell) (f : pool_factory) : list cell * pool_factory :=
  let '(h, pool) := add_objects count args (h, pool f) in
  (h, mk_pool pool (wrap64 (available_count f + Z.of_nat count)) (refill_size f)).

(* src: cpp/src/factory.hpp:74-81 PoolFactory::PoolFactory *)
Definition new_pool_factory (initial_pool_size a_refill_size : nat) (args : Args) (h : list cell) : list cell * pool_factory :=
  fill_pool initial_pool_size args h (mk_pool [] 0 a_refill_size).

(** The pointer that [get] returns is a copy of a copy that is allocated and never freed: the count of the
    cell goes up by two, and one of the two can never go down. *)
(* src: cpp/src/factory.hpp:88-98 PoolFactory::get *)
Fixpoint find_available (h : list cell) (pool : list nat) : option nat :=
  match pool with
  | [] => None
  | p :: pool => if decide (count_of h p < 2) then Some p else find_available h pool
  end.

(** [asserts] is whether assertions are compiled in.  The recursion of the source is as deep as the number
    of times the pool has to grow; [fuel] bounds it. *)
(* src: cpp/src/factory.hpp:85-102 PoolFactory::get *)
Fixpoint pool_get (asserts : bool) (fuel : nat) (args : Args) (h : list cell) (f : pool_factory) : outcome (list cell * pool_factory * nat) :=
  match fuel with
  | O => Undef NoProgress
  | S fuel =>
    match find_available h (pool f) with
    | Some p =>
        let h := adjust (fun c => mk_cell (reinit args (obj c)) (use_count c)) h p in
        Ret (incr (incr h p) p, mk_pool (pool f) (wrap64 (available_count f - 1)) (refill_size f), p)
    | None =>
        if asserts && bool_decide (available_count f <> 0%Z) then Undef AssertFailed
        else let '(h, f) := add (refill_size f) args h f in pool_get asserts fuel args h f
    end
  end.

(* src: cpp/src/factory.hpp:103-107 PoolFactory::get_available_count *)
Definition get_available_count (f : pool_factory) : Z := available_count f.
(* src: cpp/src/factory.hpp:105-105 PoolFactory::get_pool_size *)
Definition get_pool_size (f : pool_factory) : nat := length (pool f).
(* src: cpp/src/factory.hpp:109-109 PoolFactory::set_refill_size *)
Definition set_refill_size (value : nat) (f : pool_factory) : pool_factory := mk_pool (pool f) (available_count f) value.
(* src: cpp/src/factory.hpp:111-117 PoolFactory::reset *)
Definition reset (initial_pool_size a_refill_size : nat) (args : Args) (h : list cell) (f : pool_factory) : list cell * pool_factory :=
  let h := fold_left decr (pool f) h in
  let '(h, f) := fill_pool initial_pool_size args h (mk_pool [] (available_count f) (refill_size f)) in
  (h, mk_pool (pool f) (Z.of_nat initial_pool_size) a_refill_size).

(** ** Factory (lines 139-159) *)

(** [mfactory_ptr] is a pointer to [NewFactory].  [NewFactory::get] is [const]; [PoolFactory::get] is not, so
    it hides the base function and does not override it, and a call through the pointer runs the base. *)
(* src: cpp/src/factory.hpp:139-149 Factory *)
Record factory := mk_factory { mfactory_ptr : pool_factory }.
(* src: cpp/src/factory.hpp:146-149 Factory::Factory *)
Definition new_factory (pool_size refill_size : nat) (args : Args) (h : list cell) : list cell * factory :=
  let '(h, f) := new_pool_factory pool_size refill_size args h in (h, mk_factory f).
(* src: cpp/src/factory.hpp:153-153 Factory::get *)
Definition factory_get (f : factory) (h : list cell) (args : Args) : list cell * nat := new_factory_get h args.

(** A client drops a pointer it was given. *)
Definition release (h : list cell) (p : nat) : list cell := decr h p.
End Factory.
Arguments cell : clear implicits.

(** ** Histories of a pool *)
Section history.
Context {T Args : Type} (make : Args -> T) (reinit : Args -> T -> T).
Implicit Types (h : list (cell T)) (f : pool_factory).

Lemma adjust_length g h p : length (adjust g h p) = length h.
Proof. unfold adjust. destruct (h !! p); [apply length_insert|done]. Qed.

Lemma count_adjust g h p q (d : nat -> nat) :
  (forall c, use_count (g c) = d (use_count c)) -> p < length h ->
  count_of (adjust g h p) q = if decide (p = q) then d (count_of h p) else count_of h q.
Proof.
  intros Hg Hp. unfold count_of, adjust. destruct (lookup_lt_is_Some_2 h p Hp) as [c Hc]. rewrite Hc. case_decide as E.
  - subst. rewrite list_lookup_insert_eq by done. simpl. by rewrite Hg.
  - by rewrite list_lookup_insert_ne.
Qed.

Lemma count_app_l h h' p : p < length h -> count_of (h ++ h') p = count_of h p.
Proof. intros. unfold count_of. by rewrite lookup_app_l. Qed.

(** The fresh cells are the pool's new entries, each with one reference. *)
Lemma add_objects_spec count args h pl :
  add_objects make count args (h, pl) = (h ++ replicate count (mk_cell (make args) 1), pl ++ seq (length h) count).
Proof.
  unfold add_objects. generalize 0 at 1. induction count as [|count IH] in h, pl |- *; intros s; simpl.
  - by rewrite !app_nil_r.
  - rewrite IH. rewrite length_app; simpl. rewrite Nat.add_1_r. by rewrite <- !app_assoc.
Qed.

(** The client's moves: get an object, drop a pointer it holds, change the refill size.  The number counts the
    calls of [get] so far. *)
Record state := mk_state { st_heap : list (cell T); st_pool : pool_factory; st_owned : list nat; st_gets : nat }.

Inductive step (asserts : bool) : state -> state -> Prop :=
  | step_get s args fuel h f p :
      pool_get make reinit asserts fuel args (st_heap s) (st_pool s) = Ret (h, f, p) ->
      step asserts s (mk_state h f (p :: st_owned s) (S (st_gets s)))
  | step_release s p o1 o2 :
      st_owned s = o1 ++ p :: o2 ->
      step asserts s (mk_state (release (st_heap s) p) (st_pool s) (o1 ++ o2) (st_gets s))
  | step_refill s n : step asserts s (mk_state (st_heap s) (set_refill_size n (st_pool s)) (st_owned s) (st_gets s)).

Definition initial (n r : nat) (args : Args) : state :=
  let '(h, f) := new_pool_factory make n r args [] in mk_state h f [] 0.

Record inv (s : state) : Prop := {
  inv_pool : pool (st_pool s) = seq 0 (length (st_heap s));
  inv_gets : st_gets s <= length (st_heap s);
  inv_available : available_count (st_pool s) = Z.of_nat (length (st_heap s) - st_gets s);
  inv_fresh : forall p, st_gets s <= p < length (st_heap s) -> count_of (st_heap s) p = 1;
  inv_used : forall p, p < st_gets s -> count_of (st_heap s) p = if decide (p ∈ st_owned s) then 3 else 2;
  inv_owned : NoDup (st_owned s) /\ forall p, p ∈ st_owned s -> p < st_gets s;
}.

Lemma find_available_seq h k n :
  (forall p, k <= p < k + n -> 2 <= count_of h p) -> find_available h (seq k n) = None.
Proof.
  revert k. induction n as [|n IH]; intros k Hc; simpl; [done|]. pose proof (Hc k ltac:(lia)).
  rewrite decide_False by lia. apply IH. intros p Hp. apply Hc. lia.
Qed.

Lemma find_available_first h k i n :
  (forall p, k <= p < k + i -> 2 <= count_of h p) -> count_of h (k + i) < 2 -> i < n -> find_available h (seq k n) = Some (k + i).
Proof.
  revert k i. induction n as [|n IH]; intros k i Hc Hi Hn; [lia|]. simpl. destruct i as [|i].
  - rewrite Nat.add_0_r in *. by rewrite decide_True.
  - pose proof (Hc k ltac:(lia)). rewrite decide_False by lia. replace (k + S i) with (S k + i) in * by lia.
    apply IH; [|done|lia]. intros p Hp. apply Hc. lia.
Qed.

Lemma used_count s : inv s -> forall p, p < st_gets s -> 2 <= count_of (st_heap s) p.
Proof. intros Hi p Hp. rewrite (inv_used s Hi p Hp). case_decide; lia. Qed.

Lemma inv_find s : inv s -> find_available (st_heap s) (pool (st_pool s)) = if decide (st_gets s < length (st_heap s)) then Some (st_gets s) else None.
Proof.
  intros Hi. rewrite (inv_pool s Hi). pose proof (inv_gets s Hi). case_decide.
  - apply (find_available_first _ 0 (st_gets s)); [|rewrite (inv_fresh s Hi); simpl; lia|done].
    intros p Hp. apply (used_count s Hi). lia.
  - apply find_available_seq. intros p Hp. apply (used_count s Hi). lia.
Qed.

(** Growing an exhausted pool keeps the invariant. *)
Lemma inv_add s args r :
  inv s -> st_gets s = length (st_heap s) -> (Z.of_nat (length (st_heap s) + r) < two64)%Z ->
  let '(h, f) := add make r args (st_heap s) (st_pool s) in inv (mk_state h f (st_owned s) (st_gets s)).
Proof.
  intros Hi Hg Hb. unfold add. rewrite add_objects_spec. rewrite (inv_pool s Hi), (inv_available s Hi).
  constructor; simpl; rewrite ?length_app, ?length_replicate.
  - by rewrite seq_app.
  - lia.
  - unfold wrap64. rewrite Z.mod_small; lia.
  - intros p Hp. unfold count_of. rewrite lookup_app_r by lia. by rewrite lookup_replicate_2 by lia.
  - intros p Hp. rewrite count_app_l by lia. by apply (inv_used s Hi).
  - apply (inv_owned s Hi).
Qed.

Definition handed_out (args : Args) (h : list (cell T)) (k : nat) : list (cell T) :=
  incr (incr (adjust (fun c => mk_cell (reinit args (obj c)) (use_count c)) h k) k) k.

Lemma handed_out_length args h k : length (handed_out args h k) = length h.
Proof. unfold handed_out, incr. by rewrite !adjust_length. Qed.

Lemma handed_out_count args h k p :
  k < length h -> count_of (handed_out args h k) p = if decide (k = p) then S (S (count_of h k)) else count_of h p.
Proof.
  intros Hk. unfold handed_out, incr.
  rewrite (count_adjust _ _ _ _ S), !(count_adjust _ (adjust _ _ _) _ _ S) by (done || rewrite ?adjust_length; done).
  rewrite !(count_adjust _ h _ _ id) by done. repeat case_decide; done.
Qed.

Lemma inv_get s args f' :
  inv s -> st_gets s < length (st_heap s) -> (Z.of_nat (length (st_heap s)) < two64)%Z ->
  f' = mk_pool (pool (st_pool s)) (wrap64 (available_count (st_pool s) - 1)) (refill_size (st_pool s)) ->
  inv (mk_state (handed_out args (st_heap s) (st_gets s)) f' (st_gets s :: st_owned s) (S (st_gets s))).
Proof.
  intros Hi Hlt Hb ->. constructor; simpl; rewrite ?handed_out_length.
  - apply (inv_pool s Hi).
  - lia.
  - rewrite (inv_available s Hi). unfold wrap64. rewrite Z.mod_small; lia.
  - intros p Hp. rewrite handed_out_count, decide_False by lia. apply (inv_fresh s Hi). lia.
  - intros p Hp. rewrite handed_out_count by done. destruct (decide (st_gets s = p)) as [<-|Hne].
    + rewrite (inv_fresh s Hi) by lia. rewrite decide_True; [done|]. by left.
    + rewrite (inv_used s Hi) by lia. repeat case_decide; set_solver.
  - destruct (inv_owned s Hi) as [Hn Ho]. split.
    + constructor; [|done]. intros Hin%Ho. lia.
    + intros p [->|Hp]%elem_of_cons; [lia|]. apply Ho in Hp. lia.
Qed.

(** What [get] does in a state of the invariant, whether the pool has a free object or has to grow. *)
Lemma pool_get_spec asserts s args fuel :
  inv s -> (Z.of_nat (length (st_heap s) + refill_size (st_pool s)) < two64)%Z -> 2 <= fuel ->
  0 < refill_size (st_pool s) \/ st_gets s < length (st_heap s) ->
  exists h f, pool_get make reinit asserts fuel args (st_heap s) (st_pool s) = Ret (h, f, st_gets s)
    /\ inv (mk_state h f (st_gets s :: st_owned s) (S (st_gets s))) /\ refill_size f = refill_size (st_pool s)
    /\ length h = if decide (st_gets s < length (st_heap s)) then length (st_heap s) else length (st_heap s) + refill_size (st_pool s).
Proof.
  intros Hi Hb Hf Hr. destruct fuel as [|[|fuel]]; [lia|lia|]. cbn [pool_get]. rewrite (inv_find s Hi).
  destruct (decide (st_gets s < length (st_heap s))) as [Hlt|Hge].
  - eexists _, _. split; [done|]. split; [apply (inv_get s); [done|done|lia|done]|]. split; [done|]. apply handed_out_length.
  - pose proof (inv_gets s Hi). assert (Hg : st_gets s = length (st_heap s)) by lia.
    rewrite (inv_available s Hi). rewrite bool_decide_eq_false_2 by (intros Hn; apply Hn; lia). rewrite andb_false_r.
    pose proof (inv_add s args (refill_size (st_pool s)) Hi Hg ltac:(lia)) as Hi'.
    assert (Hlen : length (fst (add make (refill_size (st_pool s)) args (st_heap s) (st_pool s))) = length (st_heap s) + refill_size (st_pool s)).
    { unfold add. rewrite add_objects_spec. simpl. by rewrite length_app, length_replicate. }
    assert (Hrf : refill_size (snd (add make (refill_size (st_pool s)) args (st_heap s) (st_pool s))) = refill_size (st_pool s)).
    { unfold add. by rewrite add_objects_spec. }
    destruct (add make (refill_size (st_pool s)) args (st_heap s) (st_pool s)) as [h f]. simpl in Hlen, Hrf.
    pose proof (inv_find _ Hi') as Hfind. simpl in Hfind. rewrite Hfind, Hlen. rewrite decide_True by lia.
    eexists _, _. split; [done|]. split.
    + apply (inv_get (mk_state h f (st_owned s) (st_gets s)) args); [done|simpl; lia|simpl; lia|done].
    + split; [done|]. etrans; [apply (handed_out_length args)|done].
Qed.

Lemma inv_release s p o1 o2 :
  inv s -> st_owned s = o1 ++ p :: o2 -> inv (mk_state (release (st_heap s) p) (st_pool s) (o1 ++ o2) (st_gets s)).
Proof.
  intros Hi Ho. destruct (inv_owned s Hi) as [Hn Hlt]. rewrite Ho in Hn, Hlt.
  assert (Hp : p < st_gets s) by (apply Hlt; set_solver). pose proof (inv_gets s Hi) as Hg.
  apply NoDup_app in Hn as (Hn1 & Hn2 & Hn3). apply NoDup_cons in Hn3 as [Hn4 Hn5].
  assert (Hpn : p ∉ o1 ++ o2). { rewrite elem_of_app. intros [Hin|Hin]; [apply (Hn2 p); [done|by left]|done]. }
  assert (Hc : forall q, count_of (release (st_heap s) p) q = if decide (p = q) then pred (count_of (st_heap s) p) else count_of (st_heap s) q).
  { intros q. unfold release, decr. apply (count_adjust _ _ _ _ pred); [done|lia]. }
  constructor; simpl; unfold release, decr; rewrite ?adjust_length; fold (decr (st_heap s) p); fold (release (st_heap s) p).
  - apply (inv_pool s Hi).
  - done.
  - apply (inv_available s Hi).
  - intros q Hq. rewrite Hc, decide_False by lia. by apply (inv_fresh s Hi).
  - intros q Hq. rewrite Hc. destruct (decide (p = q)) as [<-|Hne].
    + rewrite (inv_used s Hi), Ho by done. rewrite decide_True by set_solver. by rewrite decide_False.
    + rewrite (inv_used s Hi), Ho by done. repeat case_decide; set_solver.
  - split.
    + apply NoDup_app. split; [done|]. split; [|done]. intros x Hx Hx2. apply (Hn2 x); [done|by right].
    + intros q Hq. apply Hlt. set_solver.
Qed.

Lemma initial_inv n r args : inv (initial n r args).
Proof.
  unfold initial, new_pool_factory, fill_pool. rewrite add_objects_spec. simpl.
  constructor; simpl; rewrite ?length_replicate; try done; try lia.
  - intros p Hp. unfold count_of. by rewrite lookup_replicate_2 by lia.
  - split; [constructor|]. intros p Hp. by apply elem_of_nil in Hp.
Qed.

(** The pool never grows past the address space. *)
Definition small (s : state) : Prop := (Z.of_nat (length (st_heap s) + refill_size (st_pool s)) < two64)%Z.

Lemma pool_get_no_fuel asserts args s fuel :
  inv s -> refill_size (st_pool s) = 0 -> st_gets s = length (st_heap s) ->
  pool_get make reinit asserts fuel args (st_heap s) (st_pool s) = Undef NoProgress.
Proof.
  revert s. induction fuel as [|fuel IH]; intros s Hi Hr Hg; [done|]. cbn [pool_get]. rewrite (inv_find s Hi).
  rewrite decide_False by lia. rewrite (inv_available s Hi).
  rewrite bool_decide_eq_false_2 by (intros Hn; apply Hn; lia). rewrite andb_false_r.
  assert (Ha : add make (refill_size (st_pool s)) args (st_heap s) (st_pool s) = (st_heap s, st_pool s)).
  { rewrite Hr. unfold add. rewrite add_objects_spec. simpl. rewrite !app_nil_r. f_equal.
    pose proof (inv_available s Hi) as Hav. destruct (st_pool s) as [pl av rf]; simpl in *. f_equal. subst av.
    replace (length (st_heap s) - st_gets s) with 0 by lia. done. }
  rewrite Ha. by apply IH.
Qed.

Lemma step_inv asserts s s' : step asserts s s' -> inv s -> small s -> inv s'.
Proof.
  intros Hs Hi Hb. destruct Hs as [s args fuel h f p Hg|s p o1 o2 Ho|s n].
  - assert (Hdec : 0 < refill_size (st_pool s) \/ st_gets s < length (st_heap s) \/ (refill_size (st_pool s) = 0 /\ st_gets s = length (st_heap s))).
    { pose proof (inv_gets s Hi). lia. }
    destruct fuel as [|[|fuel]]; [done| |].
    + destruct (decide (st_gets s < length (st_heap s))) as [Hlt|Hge].
      * cbn [pool_get] in Hg. rewrite (inv_find s Hi), decide_True in Hg by done. injection Hg as <- <- <-.
        apply (inv_get s); [done|done|unfold small in Hb; lia|done].
      * cbn [pool_get] in Hg. rewrite (inv_find s Hi), decide_False in Hg by done.
        destruct (asserts && _); [done|]. by destruct (add _ _ _ _ _).
    + destruct Hdec as [Hd|[Hd|[Hd1 Hd2]]]; [| |by rewrite pool_get_no_fuel in Hg].
      all: destruct (pool_get_spec asserts s args (S (S fuel)) Hi Hb ltac:(lia) ltac:(auto)) as (h' & f' & Hg' & Hi' & _).
      all: rewrite Hg' in Hg; injection Hg as <- <- <-; exact Hi'.
  - by apply inv_release.
  - destruct Hi. by constructor.
Qed.

(** A history whose states stay small. *)
Inductive history (asserts : bool) : state -> state -> Prop :=
  | history_nil s : history asserts s s
  | history_cons s s' s'' : step asserts s s' -> small s -> history asserts s' s'' -> history asserts s s''.

Lemma history_inv asserts s s' : history asserts s s' -> inv s -> inv s'.
Proof. induction 1; intros Hi; [done|]. apply IHhistory. by eapply step_inv. Qed.

(** C27. No object of the pool is ever handed out twice.  Whatever the client gets, drops and keeps, the call
    number k of [get] returns object number k of the pool: the copy of the pointer that [get] allocates and
    never frees keeps every object in use for ever.  The available count is the pool size less the calls
    made, so the assertion never fails; the pool grows by the refill size each time it is used up, and
    with a refill size of zero the call then recurses without end. *)
Theorem pool_never_reuses (asserts : bool) (n r : nat) (args args0 : Args) (s : state) (fuel : nat)
    (Hs : history asserts (initial n r args0) s) (Hb : small s) :
  (0 < refill_size (st_pool s) \/ st_gets s < get_pool_size (st_pool s) -> 2 <= fuel ->
     exists h f, pool_get make reinit asserts fuel args (st_heap s) (st_pool s) = Ret (h, f, st_gets s)
       /\ get_pool_size f = get_pool_size (st_pool s) + (if decide (st_gets s < get_pool_size (st_pool s)) then 0 else refill_size (st_pool s)))
  /\ get_available_count (st_pool s) = Z.of_nat (get_pool_size (st_pool s) - st_gets s)
  /\ (forall p, p < st_gets s -> p ∉ st_owned s -> count_of (st_heap s) p = 2)
  /\ (refill_size (st_pool s) = 0 -> st_gets s = get_pool_size (st_pool s) ->
     pool_get make reinit asserts fuel args (st_heap s) (st_pool s) = Undef NoProgress).
Proof.
  apply history_inv in Hs as Hi; [|apply initial_inv].
  assert (Hsz : get_pool_size (st_pool s) = length (st_heap s)) by (unfold get_pool_size; by rewrite (inv_pool s Hi), length_seq).
  rewrite Hsz. split; [|split; [|split]].
  - intros Hr Hf. destruct (pool_get_spec asserts s args fuel Hi Hb Hf Hr) as (h & f & Hg & Hi' & Hrf & Hl).
    exists h, f. split; [done|]. pose proof (inv_pool _ Hi') as Hp. simpl in Hp.
    unfold get_pool_size. rewrite Hp, length_seq, Hl. case_decide; lia.
  - apply (inv_available s Hi).
  - intros p Hp Hno. rewrite (inv_used s Hi p Hp). by rewrite decide_False.
  - intros Hr Hg. by apply pool_get_no_fuel.
Qed.
End history.

Lemma pool_never_reuses_witness :
  exists s, history (fun a : Z => a) (fun a _ => a) true (initial (fun a : Z => a) 1 1 5%Z) s /\ small s /\ st_gets s = 1 /\ st_owned s = []
  /\ exists h f, pool_get (fun a : Z => a) (fun a _ => a) true 2 7%Z (st_heap s) (st_pool s) = Ret (h, f, 1).
Proof.
  set (m := fun a : Z => a). set (ri := fun a (_ : Z) => a).
  assert (H : exists s, history m ri true (initial m 1 1 5%Z) s /\ small s /\ st_gets s = 1 /\ st_owned s = [] /\ refill_size (st_pool s) = 1).
  { eexists. split.
    - eapply history_cons; [apply (step_get m ri true _ 6%Z 1); vm_compute; reflexivity|vm_compute; reflexivity|].
      eapply history_cons; [apply (step_release m ri true _ 0 [] []); reflexivity|vm_compute; reflexivity|]. apply history_nil.
    - repeat split; vm_compute; reflexivity. }
  destruct H as (s & Hh & Hb & Hg & Ho & Hr). exists s. split; [exact Hh|]. split; [exact Hb|]. split; [exact Hg|]. split; [exact Ho|].
  destruct (proj1 (pool_never_reuses m ri true 1 1 7%Z 5%Z s 2 Hh Hb) ltac:(left; lia) ltac:(lia)) as (h & f & Hget & _).
  exists h, f. rewrite Hg in Hget. exact Hget.
Defined.

(** A [Factory] never uses its pool: [PoolFactory::get] does not override the [const] function that the
    factory calls, so every call makes a new object with one reference, and the pool that the constructor
    filled keeps all its objects free. *)
Theorem factory_bypasses_pool {T Args} (make : Args -> T) (n r : nat) (args0 : Args) (h0 : list (cell T)) (calls : list Args) :
  let '(h, f) := new_factory make n r args0 h0 in
  let '(h', ps) := fold_left (fun '(h, ps) a => let '(h, p) := factory_get make f h a in (h, ps ++ [p])) calls (h, []) in
  get_pool_size (mfactory_ptr f) = n /\ get_available_count (mfactory_ptr f) = Z.of_nat n
  /\ ps = seq (length h0 + n) (length calls)
  /\ h' = h0 ++ replicate n (mk_cell (make args0) 1) ++ map (fun a => mk_cell (make a) 1) calls
  /\ (forall p, p ∈ pool (mfactory_ptr f) -> count_of h' p = 1 /\ p ∉ ps).
Proof.
  unfold new_factory, new_pool_factory, fill_pool. rewrite add_objects_spec. cbn [mfactory_ptr].
  assert (Hf : forall calls h ps, fold_left (fun '(h, ps) a => let '(h, p) := new_factory_get make h a in (h, ps ++ [p])) calls (h, ps)
    = (h ++ map (fun a => mk_cell (make a) 1) calls, ps ++ seq (length h) (length calls))).
  { clear. induction calls as [|a calls IH]; intros h ps; simpl; [by rewrite !app_nil_r|].
    unfold make_shared. rewrite IH, length_app; simpl. by rewrite <- !app_assoc, Nat.add_1_r. }
  unfold factory_get. rewrite Hf. simpl. rewrite length_app, length_replicate, <- app_assoc.
  unfold get_pool_size; simpl. rewrite length_seq. repeat split; try done.
  - apply elem_of_seq in H. unfold count_of. rewrite lookup_app_r by lia.
    rewrite lookup_app_l by (rewrite length_replicate; lia). by rewrite lookup_replicate_2 by lia.
  - apply elem_of_seq in H. rewrite elem_of_seq. lia.
Qed.
