(* ===== verification/Objects.v ===== *)
(** * Objects (cpp/src/class_info.hpp, equal.hpp, object.hpp, generator.hpp, error.hpp)

    An [Object] has an id and, in a derived class, a block of plain data that [data()] and [data_size()]
    expose; copying, comparison and binary serialization all go through these virtual functions.  [obj]
    is an object of any class: the id in [Object::mdata] and the bytes of the derived class's [mdata]
    ([None] for a plain [Object], whose data is the id).  [native] is the platform's byte order. *)
From S2P Require Import Prelude CS Bytes Buffers Streams.

(** ** ClassInfo *)

(* src: cpp/src/class_info.hpp:10-20 ClassInfo *)
Record ClassInfo := mk_info {
  mnamespace : str; mclass_name : str;
  mpublic_interface_version : Z; mprotected_interface_version : Z; mprivate_interface_version : Z }.

(* src: cpp/src/class_info.hpp:12-13 ClassInfo::Identifier *)
Definition MAX_IDENTIFIER_SIZE : nat := 100.
(* src: cpp/src/constant.hpp:90-90 CPPLIB_NAMESPACE *)
Definition CPPLIB_NAMESPACE : str := W "pensar_digital::cpplib".

(* src: cpp/src/class_info.hpp:22-28 ClassInfo::ClassInfo *)
Definition class_info (ns cn : str) (pub pro pri : Z) : outcome ClassInfo :=
  noexcept (ns ← cs_of_S 0 MAX_IDENTIFIER_SIZE ns; cn ← cs_of_S 0 MAX_IDENTIFIER_SIZE cn; Ret (mk_info ns cn pub pro pri)).

(* src: cpp/src/class_info.hpp:40-45 ClassInfo::full_class_name *)
Definition full_class_name (i : ClassInfo) : outcome str :=
  noexcept (ss ← cs_write (mnamespace i) []; cs_write (mclass_name i) (ss ++ W "::")).
(* src: cpp/src/class_info.hpp:47-55 ClassInfo::to_s *)
Definition to_s (i : ClassInfo) : outcome str :=
  noexcept (ss ← cs_write (mnamespace i) []; ss ← cs_write (mclass_name i) (ss ++ W "::");
    Ret (ss ++ W " v" ++ decimal (mpublic_interface_version i) ++ W "." ++ decimal (mprotected_interface_version i)
            ++ W "." ++ decimal (mprivate_interface_version i))).

Section objects.
Context (native : endian).

(** A signed integer of [n] bytes in memory. *)
Definition int_bytes (n : nat) (v : Z) : list byte := memory_bytes native n (v mod 256 ^ Z.of_nat n).
Definition int_of_bytes (bs : list byte) : Z := signed_wrap (8 * Z.of_nat (length bs)) (memory_value native bs).

(* src: cpp/src/class_info.hpp:63-72 ClassInfo::bytes *)
Definition info_bytes (i : ClassInfo) : list byte :=
  mnamespace i ++ mclass_name i ++ int_bytes 2 (mpublic_interface_version i)
    ++ int_bytes 2 (mprotected_interface_version i) ++ int_bytes 2 (mprivate_interface_version i).
Definition info_size : nat := 206.

(** [equal<ClassInfo>] compares the bytes: the class has no hash and no data. *)
(* src: cpp/src/equal.hpp:64-70 equal_impl *)
Definition info_equal (a b : list byte) : bool := bool_decide (a = b).

(* src: cpp/src/class_info.hpp:30-33 ClassInfo::operator== *)
Definition info_eq (a b : ClassInfo) : bool := info_equal (info_bytes a) (info_bytes b).
(* src: cpp/src/class_info.hpp:35-38 ClassInfo::operator!= *)
Definition info_neq (a b : ClassInfo) : bool := negb (info_equal (info_bytes a) (info_bytes b)).
(* src: cpp/src/class_info.hpp:58-61 ClassInfo::operator S *)
Definition info_string (i : ClassInfo) : outcome str := noexcept (full_class_name i).

(** [ClassInfo info;] before the stored one is read over it. *)
Definition blank_info : ClassInfo := mk_info (cs_null 100) (cs_null 100) (-1) (-1) (-1).

(** ** Object (object.hpp) *)

(** The description a class declares; the names of the program's classes fit. *)
Definition info_or_blank (o : outcome ClassInfo) : ClassInfo := match o with Ret i => i | _ => blank_info end.

(* src: cpp/src/object.hpp:103-122 Object *)
Record obj := mk_obj { mid : Z; mdata : option (list byte) }.

(* src: cpp/src/constant.hpp:63-63 NULL_ID *)
Definition NULL_ID : Z := -1.
(* src: cpp/src/object.hpp:133-138 Object::SIZE *)
Definition OBJECT_SIZE : nat := 8 + info_size.
(* src: cpp/src/object.hpp:154-157 Object::Object *)
Definition new_Object (id : Z) : obj := mk_obj id None.
(* src: cpp/src/object.hpp:136-136 Object::data *)
Definition obj_data (o : obj) : list byte := match mdata o with Some d => d | None => int_bytes 8 (mid o) end.
(* src: cpp/src/object.hpp:137-137 Object::data_size *)
Definition data_size (o : obj) : nat := length (obj_data o).
(* src: cpp/src/object.hpp:240-240 Object::hash *)
Definition hash (o : obj) : Z := mid o.
(* src: cpp/src/object.hpp:142-142 Object::set_id *)
Definition set_id (value : Z) (o : obj) : obj := mk_obj value (mdata o).

(** [Object::assign] outside a constructor: [data()] and [data_size()] are those of the class of [this], so
    an object of a derived class copies its own block and keeps its id. *)
(* src: cpp/src/object.hpp:143-144 Object::assign *)
Definition obj_assign (this o : obj) : outcome obj :=
  if decide (data_size this <= data_size o) then
    let block := take (data_size this) (obj_data o) in
    Ret match mdata this with
        | Some _ => mk_obj (mid this) (Some block)
        | None => mk_obj (int_of_bytes block) None
        end
  else Undef OutOfBounds.

(** The copy constructor of [Object]: in it [data()] is [Object]'s own id, eight bytes, but [o.data()] is the
    block of the class of [o].  A derived class's implicit copy constructor then copies its own [mdata]. *)
(* src: cpp/src/object.hpp:161-164 Object::Object *)
Definition obj_copy (o : obj) : outcome obj :=
  if decide (8 <= data_size o) then Ret (mk_obj (int_of_bytes (take 8 (obj_data o))) (mdata o)) else Undef OutOfBounds.

(** [equal<Object>] finds a hash and data: the ids are compared and then the blocks, for the size of the left
    one.  [same] is whether the two are one object. *)
(* src: cpp/src/equal.hpp:40-55 equal_impl *)
Definition obj_equal (same : bool) (l r : obj) : outcome bool :=
  if negb (hash l =? hash r)%Z then Ret false
  else if same then Ret true
  else if decide (data_size l <= data_size r) then Ret (bool_decide (obj_data l = take (data_size l) (obj_data r)))
  else Undef OutOfBounds.
(* src: cpp/src/object.hpp:227-230 Object::equals *)
Definition obj_equals (same : bool) (this o : obj) : outcome bool := obj_equal same this o.

(* src: cpp/src/object.hpp:313-321 operator==, operator!= *)
Definition obj_eq (same : bool) (a b : obj) : outcome bool := obj_equals same a b.
(* src: cpp/src/object.hpp:318-321 operator!= *)
Definition obj_neq (same : bool) (a b : obj) : outcome bool := negb <$> obj_equals same a b.
(* src: cpp/src/object.hpp:235-235 Object::id *)
Definition obj_id (o : obj) : Z := mid o.
(** What [typeid] calls the class, without the word that one compiler puts before it. *)
(* src: cpp/src/object.hpp:206-222 Object::sclass_name, Object::class_name *)
Definition sclass_name (typeid_name : str) : str := if decide (take 6 typeid_name = W "class ") then drop 6 typeid_name else typeid_name.
(** [assigns] and [moves] copy the block of one object of a class over that of another. *)
(* src: cpp/src/object.hpp:44-59 assigns, moves *)
Definition assigns (l r : obj) : outcome obj :=
  if decide (data_size l <= data_size r) then Ret (mk_obj (mid l) (Some (take (data_size l) (obj_data r)))) else Undef OutOfBounds.

(** [clone] makes a new [Object] with the id. *)
(* src: cpp/src/object.hpp:225-225 Object::clone *)
Definition obj_clone (o : obj) : obj := new_Object (mid o).
(* src: cpp/src/object.hpp:243-248 Object::initialize *)
Definition obj_initialize (id : Z) (o : obj) : obj := mk_obj id (mdata o).
(* src: cpp/src/object.hpp:260-266 Object::debug_string *)
Definition debug_string (to_string : Z -> str) (o : obj) : str := W "id = " ++ to_string (mid o).
(* src: cpp/src/object.hpp:286-286 Object::read *)
Definition obj_read_text (i : istream) (o : obj) : istream * obj :=
  let '(i, v) := extract_int 64 i (mid o) in (i, set_id v o).
(* src: cpp/src/object.hpp:287-287 Object::write *)
Definition obj_write_text (os : str) (o : obj) : str := os ++ decimal (mid o).

(** The members of [Object] and the functions of that name: [o << os] and [os << o], [o >> is] and [is >> o]. *)
(* src: cpp/src/object.hpp:289-292 Object::operator>> *)
Definition obj_shift_in (o : obj) (i : istream) : istream * obj := obj_read_text i o.
(* src: cpp/src/object.hpp:294-297 Object::operator<< *)
Definition obj_shift_out (o : obj) (os : str) : str := obj_write_text os o.
(** Both assignment operators copy. *)
(* src: cpp/src/object.hpp:271-271 Object::operator= *)
Definition obj_assign_operator (this o : obj) : outcome obj := noexcept (obj_assign this o).
(* src: cpp/src/object.hpp:274-274 Object::operator= *)
Definition obj_move_operator (this o : obj) : outcome obj := noexcept (obj_assign this o).

(** Binary form: the class description, then the id. *)
(* src: cpp/src/object.hpp:183-189 Object::write *)
Definition obj_write (INFO : ClassInfo) (o : obj) (bb : BinaryBuffer) : BinaryBuffer :=
  bb_write (bb_write bb (info_bytes INFO)) (int_bytes 8 (mid o)).
(* src: cpp/src/object.hpp:191-204 Object::read *)
Definition obj_read (INFO : ClassInfo) (o : obj) (bb : BinaryBuffer) : BinaryBuffer * obj :=
  let '(bb, info) := bb_read bb (info_bytes blank_info) in
  if negb (info_equal info (info_bytes INFO)) then (bb, o)
  else let '(bb, d) := bb_read bb (int_bytes 8 (mid o)) in (bb, set_id (int_of_bytes d) o).

(** ** A derived class: [Generator] and [Person] have the same two functions *)

(* src: cpp/src/generator.hpp:107-115 Generator::write *)
Definition derived_write (OBJECT_INFO INFO : ClassInfo) (o : obj) (bb : BinaryBuffer) : BinaryBuffer :=
  bb_write (bb_write (obj_write OBJECT_INFO o bb) (info_bytes INFO)) (obj_data o).
(* src: cpp/src/generator.hpp:117-132 Generator::read *)
Definition derived_read (OBJECT_INFO INFO : ClassInfo) (o : obj) (bb : BinaryBuffer) : BinaryBuffer * obj :=
  let '(bb, o) := obj_read OBJECT_INFO o bb in
  let '(bb, info) := bb_read bb (info_bytes blank_info) in
  if negb (info_equal info (info_bytes INFO)) then (bb, o)
  else let '(bb, d) := bb_read bb (obj_data o) in (bb, mk_obj (mid o) (Some d)).
End objects.

(** ** Facts *)

Definition info_ok (i : ClassInfo) : Prop :=
  length (mnamespace i) = MAX_IDENTIFIER_SIZE /\ length (mclass_name i) = MAX_IDENTIFIER_SIZE.

(* src: cpp/src/object.hpp:106-106 Object::INFO *)
Definition OBJECT_INFO : ClassInfo := default blank_info (match class_info CPPLIB_NAMESPACE (W "Object") 1 1 1 with Ret i => Some i | _ => None end).
(* src: cpp/src/generator.hpp:63-63 Generator::INFO *)
Definition GENERATOR_INFO : ClassInfo := default blank_info (match class_info CPPLIB_NAMESPACE (W "Generator") 2 1 1 with Ret i => Some i | _ => None end).

Lemma static_infos :
  class_info CPPLIB_NAMESPACE (W "Object") 1 1 1 = Ret OBJECT_INFO
  /\ class_info CPPLIB_NAMESPACE (W "Generator") 2 1 1 = Ret GENERATOR_INFO /\ info_ok OBJECT_INFO /\ info_ok GENERATOR_INFO.
Proof. by vm_compute. Qed.
Opaque OBJECT_INFO GENERATOR_INFO.

Section facts.
Context (native : endian).

Lemma int_bytes_length n v : length (int_bytes native n v) = n.
Proof. apply memory_bytes_length. Qed.

Lemma info_bytes_length i : info_ok i -> length (info_bytes native i) = info_size.
Proof. intros [H1 H2]. unfold info_bytes. by rewrite !length_app, H1, H2, !int_bytes_length. Qed.

Lemma blank_info_length : length (info_bytes native blank_info) = info_size.
Proof. by apply info_bytes_length. Qed.

Lemma int_of_int_bytes n v : 0 < n -> in_signed (8 * Z.of_nat n) v = true -> int_of_bytes native (int_bytes native n v) = v.
Proof.
  intros Hn Hv. apply bool_decide_eq_true_1 in Hv. unfold int_of_bytes. rewrite int_bytes_length. unfold int_bytes.
  assert (H256 : (256 ^ Z.of_nat n = 2 ^ (8 * Z.of_nat n))%Z) by (rewrite Z.pow_mul_r by lia; done).
  rewrite memory_value_bytes by (apply Z.mod_pos_bound; apply Z.pow_pos_nonneg; lia). rewrite H256.
  unfold signed_wrap. rewrite Zplus_mod_idemp_l. rewrite Z.mod_small; [lia|].
  replace (8 * Z.of_nat n)%Z with (Z.succ (8 * Z.of_nat n - 1)) at 3 by lia. rewrite Z.pow_succ_r by lia. lia.
Qed.

Lemma int_bytes_of_bytes bs : int_bytes native (length bs) (int_of_bytes native bs) = bs.
Proof.
  unfold int_bytes, int_of_bytes, signed_wrap.
  assert (H256 : (256 ^ Z.of_nat (length bs) = 2 ^ (8 * Z.of_nat (length bs)))%Z) by (rewrite Z.pow_mul_r by lia; done).
  rewrite H256. rewrite Zminus_mod_idemp_l, Z.add_simpl_r. rewrite Z.mod_small; [apply memory_bytes_value|].
  rewrite <- H256. destruct native; simpl; [apply le_val_range|]. rewrite <- length_rev. apply le_val_range.
Qed.

(** [b'] is [b] with the bytes [bs] appended to its contents, and back. *)
Definition holds (b : BinaryBuffer) (bs : list byte) : Prop := bb_inv b /\ contents_of b = bs.

Lemma holds_write b q src : holds b q -> holds (bb_write b src) (q ++ src).
Proof. intros [Hi <-]. destruct (bb_write_spec b src Hi) as (H1 & H2 & _). by split. Qed.

Lemma holds_read b q bs dest :
  holds b (bs ++ q) -> length dest = length bs -> exists b', bb_read b dest = (b', bs) /\ holds b' q.
Proof.
  intros [Hi Hc] Hl. pose proof (bb_read_spec b dest Hi) as H. rewrite Hc in H.
  specialize (H ltac:(rewrite length_app; lia)). destruct (bb_read b dest) as [b' out]. destruct H as (H1 & H2 & H3 & _).
  rewrite Hl in H2, H3. rewrite take_app_length in H3. rewrite drop_app_length in H2. exists b'. by rewrite H3.
Qed.

(** The bytes of an object: its class descriptions, id and data. *)
Definition obj_encoding (OI : ClassInfo) (o : obj) : list byte := info_bytes native OI ++ int_bytes native 8 (mid o).
Definition derived_encoding (OI INFO : ClassInfo) (o : obj) : list byte :=
  obj_encoding OI o ++ info_bytes native INFO ++ obj_data native o.

Lemma obj_write_holds OI o b q : holds b q -> holds (obj_write native OI o b) (q ++ obj_encoding OI o).
Proof. intros H. unfold obj_write, obj_encoding. rewrite app_assoc. by apply holds_write, holds_write. Qed.

Lemma derived_write_holds OI INFO o b q : holds b q -> holds (derived_write native OI INFO o b) (q ++ derived_encoding OI INFO o).
Proof. intros H. unfold derived_write, derived_encoding. rewrite !app_assoc. by apply holds_write, holds_write, obj_write_holds. Qed.

Lemma info_equal_refl bs : info_equal bs bs = true.
Proof. by apply bool_decide_eq_true. Qed.

Lemma obj_read_holds OI o o' b q :
  info_ok OI -> in_signed 64 (mid o) = true -> holds b (obj_encoding OI o ++ q) ->
  exists b', obj_read native OI o' b = (b', set_id (mid o) o') /\ holds b' q.
Proof.
  intros Hok Hid Hh. unfold obj_encoding in Hh. rewrite <- app_assoc in Hh. unfold obj_read.
  destruct (holds_read _ _ _ (info_bytes native blank_info) Hh) as (b1 & -> & H1); [by rewrite blank_info_length, info_bytes_length|].
  rewrite info_equal_refl. cbn [negb].
  destruct (holds_read _ _ _ (int_bytes native 8 (mid o')) H1) as (b2 & -> & H2); [by rewrite !int_bytes_length|].
  exists b2. split; [|done]. do 2 f_equal. by apply (int_of_int_bytes 8); [lia|].
Qed.

Lemma derived_read_holds OI INFO o o' b q :
  info_ok OI -> info_ok INFO -> in_signed 64 (mid o) = true -> is_Some (mdata o) -> data_size native o' = data_size native o ->
  is_Some (mdata o') -> holds b (derived_encoding OI INFO o ++ q) ->
  exists b', derived_read native OI INFO o' b = (b', o) /\ holds b' q.
Proof.
  intros Hok Hok' Hid [d Hd] Hsz [d' Hd'] Hh. unfold derived_encoding in Hh. rewrite <- !app_assoc in Hh.
  unfold derived_read. destruct (obj_read_holds OI o o' b _ Hok Hid Hh) as (b1 & -> & H1).
  destruct (holds_read _ _ _ (info_bytes native blank_info) H1) as (b2 & -> & H2); [by rewrite blank_info_length, info_bytes_length|].
  rewrite info_equal_refl. cbn [negb].
  assert (Hl : length (obj_data native (set_id (mid o) o')) = length (obj_data native o)).
  { unfold data_size, obj_data in *; simpl. rewrite Hd, Hd' in *. done. }
  destruct (holds_read _ _ _ (obj_data native (set_id (mid o) o')) H2 Hl) as (b3 & -> & H3).
  exists b3. split; [|done]. f_equal. unfold obj_data. rewrite Hd. destruct o as [id dd]; simpl in *. by rewrite Hd.
Qed.
End facts.

(** ** Serializable classes

    What [BinaryBuffer] asks of a class (the concept [BinaryBufferIO]) and what a class promises: [write]
    appends an encoding, and [read] takes the same bytes back into an object of the same shape. *)
(* src: cpp/src/binary_buffer.hpp:28-34 BinaryBufferIO *)
Class BinaryBufferIO (A : Type) := { io_write : A -> BinaryBuffer -> BinaryBuffer; io_read : A -> BinaryBuffer -> BinaryBuffer * A }.

Class BinaryRoundTrip (A : Type) `{BinaryBufferIO A} := {
  io_encoding : A -> list byte;
  io_valid : A -> Prop;
  io_write_holds : forall a b q, holds b q -> holds (io_write a b) (q ++ io_encoding a);
  io_read_holds : forall a a' b q, io_valid a -> io_valid a' -> holds b (io_encoding a ++ q) ->
    exists b', io_read a' b = (b', a) /\ holds b' q;
}.

Section serializable.
Context {A : Type} `{BinaryRoundTrip A}.

Definition write_all (xs : list A) (b : BinaryBuffer) : BinaryBuffer := fold_left (fun b a => io_write a b) xs b.
Definition read_all (blanks : list A) (b : BinaryBuffer) : BinaryBuffer * list A :=
  fold_left (fun '(b, xs) a => let '(b, x) := io_read a b in (b, xs ++ [x])) blanks (b, []).

Lemma write_all_holds xs b q : holds b q -> holds (write_all xs b) (q ++ flat_map io_encoding xs).
Proof.
  revert b q. induction xs as [|a xs IH]; intros b q Hb; simpl; [by rewrite app_nil_r|].
  rewrite app_assoc. apply IH. by apply io_write_holds.
Qed.

Lemma read_all_holds xs blanks b q acc :
  Forall io_valid xs -> Forall io_valid blanks -> length blanks = length xs -> holds b (flat_map io_encoding xs ++ q) ->
  exists b', fold_left (fun '(b, xs) a => let '(b, x) := io_read a b in (b, xs ++ [x])) blanks (b, acc) = (b', acc ++ xs) /\ holds b' q.
Proof.
  revert blanks b acc. induction xs as [|a xs IH]; intros [|a' blanks] b acc Hx Hbl Hl Hb; try done; simpl.
  - exists b. by rewrite app_nil_r.
  - inversion Hx; inversion Hbl; subst. simpl in Hb. rewrite <- app_assoc in Hb.
    destruct (io_read_holds a a' b _ ltac:(done) ltac:(done) Hb) as (b1 & -> & H1).
    destruct (IH blanks b1 (acc ++ [a])) as (b' & -> & H2); [done|done|by injection Hl|done|].
    exists b'. by rewrite <- app_assoc.
Qed.

Lemma read_write_all xs blanks b :
  Forall io_valid xs -> Forall io_valid blanks -> length blanks = length xs -> holds b [] ->
  exists b', read_all blanks (write_all xs b) = (b', xs) /\ holds b' [].
Proof.
  intros Hx Hb Hl Hn. apply (read_all_holds xs blanks _ [] []); [done|done|done|].
  rewrite app_nil_r. by apply (write_all_holds xs b []).
Qed.
End serializable.

Lemma holds_new : holds new_bb [].
Proof. unfold holds, bb_inv; simpl. split; [lia|done]. Qed.

(** ** Generator (generator.hpp) *)
Section Generator.
Context (native : endian).

(* src: cpp/src/generator.hpp:52-58 Generator::Data *)
Record Generator := mk_generator { g_id : Z; minitial_value : Z; mvalue : Z; mstep : Z }.
#[export] Instance Generator_eq_dec : EqDecision Generator.
Proof. solve_decision. Defined.

(* src: cpp/src/generator.hpp:79-79 Generator::Generator *)
Definition new_Generator (aid initial_value step : Z) : Generator :=
  mk_generator (if (aid =? NULL_ID)%Z then 0 else aid) initial_value initial_value step.
(** [T] is [int_fast64_t]: leaving its range is undefined. *)
Definition id_value (v : Z) : outcome Z := if in_signed 64 v then Ret v else Undef SignedOverflow.
(* src: cpp/src/generator.hpp:85-85 Generator::get_id *)
Definition get_id (g : Generator) : outcome (Generator * Z) :=
  v ← id_value (mvalue g + mstep g); Ret (mk_generator (g_id g) (minitial_value g) v (mstep g), v).
(* src: cpp/src/generator.hpp:89-89 Generator::next *)
Definition next (g : Generator) : outcome Z := id_value (mvalue g + mstep g).
(* src: cpp/src/generator.hpp:93-93 Generator::current *)
Definition current (g : Generator) : Z := mvalue g.
(* src: cpp/src/generator.hpp:98-105 Generator::initialize *)
Definition initialize (aid initial_value step : Z) (g : Generator) : Generator * bool :=
  (mk_generator (if (aid =? NULL_ID)%Z then 0 else aid) initial_value initial_value step, true).
(* src: cpp/src/generator.hpp:138-138 Generator::set_value *)
Definition set_value (val : Z) (g : Generator) : Generator := mk_generator (g_id g) (minitial_value g) val (mstep g).
(* src: cpp/src/generator.hpp:148-151 Generator::clone *)
Definition generator_clone (g : Generator) : outcome (Generator * Generator) :=
  '(g, i) ← get_id g; Ret (g, new_Generator i (minitial_value g) (mstep g)).

(** The block behind [mdata]: three integers of eight bytes. *)
(* src: cpp/src/generator.hpp:69-71 Generator::data *)
Definition generator_obj (g : Generator) : obj :=
  mk_obj (g_id g) (Some (int_bytes native 8 (minitial_value g) ++ int_bytes native 8 (mvalue g) ++ int_bytes native 8 (mstep g))).
Definition obj_generator (o : obj) : Generator :=
  let d := default [] (mdata o) in
  mk_generator (mid o) (int_of_bytes native (take 8 d)) (int_of_bytes native (take 8 (drop 8 d))) (int_of_bytes native (drop 16 d)).

(* src: cpp/src/generator.hpp:107-115 Generator::write *)
Definition generator_write (g : Generator) (bb : BinaryBuffer) : BinaryBuffer :=
  derived_write native OBJECT_INFO GENERATOR_INFO (generator_obj g) bb.
(* src: cpp/src/generator.hpp:117-132 Generator::read *)
Definition generator_read (g : Generator) (bb : BinaryBuffer) : BinaryBuffer * Generator :=
  let '(bb, o) := derived_read native OBJECT_INFO GENERATOR_INFO (generator_obj g) bb in (bb, obj_generator o).
(** The implicit copy constructor and assignment: the [Object] part, then [mdata]. *)
Definition generator_copy (g : Generator) : outcome Generator := obj_generator <$> obj_copy native (generator_obj g).
Definition generator_assign (this g : Generator) : outcome Generator := obj_generator <$> obj_assign native (generator_obj this) (generator_obj g).

(* src: cpp/src/generator.hpp:153-160 Generator::read *)
Definition generator_read_text (i : istream) (g : Generator) : istream * Generator :=
  let '(i, a) := extract_int 64 i (g_id g) in
  let '(i, b) := extract_int 64 i (minitial_value g) in
  let '(i, c) := extract_int 64 i (mstep g) in
  let '(i, d) := extract_int 64 i (mvalue g) in
  (i, mk_generator a b d c).
(* src: cpp/src/generator.hpp:162-164 Generator::write *)
Definition generator_write_text (os : str) (g : Generator) : str :=
  os ++ decimal (g_id g) ++ decimal (minitial_value g) ++ decimal (mstep g) ++ [SPACE] ++ decimal (mvalue g).

(* src: cpp/src/generator.hpp:168-168 operator<< *)
Definition generator_out (os : str) (g : Generator) : str := generator_write_text os g.
(* src: cpp/src/generator.hpp:169-169 operator>> *)
Definition generator_in (i : istream) (g : Generator) : istream * Generator := generator_read_text i g.

(** The null value of a number: zero without a sign, minus one with. *)
(* src: cpp/src/constant.hpp:69-73 null_value *)
Definition null_value (is_signed : bool) : Z := if is_signed then -1 else 0.
(** The second value of the list is the step: the current value is the initial one. *)
(* src: cpp/src/generator.hpp:74-75 Generator::NULL_DATA *)
Definition GENERATOR_NULL_DATA (is_signed : bool) : Z * Z * Z := (null_value is_signed, null_value is_signed, null_value is_signed).

Definition generator_ok (g : Generator) : Prop :=
  in_signed 64 (g_id g) = true /\ in_signed 64 (minitial_value g) = true /\ in_signed 64 (mvalue g) = true /\ in_signed 64 (mstep g) = true.

Lemma generator_obj_data g : length (obj_data native (generator_obj g)) = 24.
Proof. unfold obj_data; simpl. by rewrite !length_app, !int_bytes_length. Qed.

Lemma obj_generator_obj g : generator_ok g -> obj_generator (generator_obj g) = g.
Proof.
  intros (H1 & H2 & H3 & H4). destruct g as [a b c d]; simpl in *. unfold obj_generator, generator_obj.
  cbn [mdata mid id g_id minitial_value mvalue mstep from_option].
  rewrite take_app_length', drop_app_length' by by rewrite int_bytes_length.
  rewrite take_app_length' by by rewrite int_bytes_length.
  rewrite app_assoc, drop_app_length' by by rewrite length_app, !int_bytes_length.
  by rewrite !(int_of_int_bytes native 8) by (lia || done).
Qed.
End Generator.

#[export] Instance generator_io {native : endian} : BinaryBufferIO Generator | 10 :=
  {| io_write := generator_write native; io_read := generator_read native |}.

#[export] Instance generator_roundtrip_io {native : endian} : BinaryRoundTrip Generator (H := @generator_io native).
Proof.
  unshelve refine {| io_encoding := fun g => derived_encoding native OBJECT_INFO GENERATOR_INFO (generator_obj native g); io_valid := generator_ok |}.
  - intros g b q Hb. exact (derived_write_holds native _ _ _ _ _ Hb).
  - intros g g' b q Hg Hg' Hb. simpl. unfold generator_read. destruct static_infos as (_ & _ & H1 & H2).
    destruct (derived_read_holds native OBJECT_INFO GENERATOR_INFO (generator_obj native g) (generator_obj native g') b q H1 H2) as (b' & -> & Hb').
    + apply Hg.
    + by eexists.
    + unfold data_size. by rewrite !generator_obj_data.
    + by eexists.
    + done.
    + exists b'. by rewrite obj_generator_obj.
Defined.

#[export] Instance object_io {native : endian} : BinaryBufferIO obj | 10 :=
  {| io_write := obj_write native OBJECT_INFO; io_read := obj_read native OBJECT_INFO |}.

#[export] Instance object_roundtrip_io {native : endian} : BinaryRoundTrip obj (H := @object_io native).
Proof.
  unshelve refine {| io_encoding := fun o => obj_encoding native OBJECT_INFO o; io_valid := fun o => in_signed 64 (mid o) = true /\ mdata o = None |}.
  - intros o b q Hb. exact (obj_write_holds native _ _ _ _ Hb).
  - intros o o' b q [Hi Hd] [_ Hd'] Hb. simpl. destruct static_infos as (_ & _ & H1 & _).
    destruct (obj_read_holds native OBJECT_INFO o o' b q H1 Hi Hb) as (b' & -> & Hb'). exists b'. split; [|done].
    unfold set_id. destruct o, o'; simpl in *. by subst.
Defined.

(** C14. Binary serialization is a round trip: objects, and generators, written one after another to a fresh
    buffer are read back in order with the same id and data, on a platform of either byte order, and nothing
    is left in the buffer. *)
Theorem objects_binary_roundtrip (native : endian) (os os' : list obj) (gs gs' : list Generator)
    (Ho : Forall (fun o => in_signed 64 (mid o) = true /\ mdata o = None) os)
    (Ho' : Forall (fun o => in_signed 64 (mid o) = true /\ mdata o = None) os') (Hlo : length os' = length os)
    (Hg : Forall generator_ok gs) (Hg' : Forall generator_ok gs') (Hlg : length gs' = length gs) :
  (exists b, read_all (H := @object_io native) os' (write_all (H := @object_io native) os new_bb) = (b, os) /\ contents_of b = [])
  /\ (exists b, read_all (H := @generator_io native) gs' (write_all (H := @generator_io native) gs new_bb) = (b, gs) /\ contents_of b = []).
Proof.
  split.
  - destruct (read_write_all (H0 := @object_roundtrip_io native) os os' new_bb Ho Ho' Hlo holds_new) as (b & Hr & _ & Hb). by exists b.
  - destruct (read_write_all (H0 := @generator_roundtrip_io native) gs gs' new_bb Hg Hg' Hlg holds_new) as (b & Hr & _ & Hb). by exists b.
Qed.

Lemma objects_binary_roundtrip_witness :
  generator_ok (mk_generator 7 0 3 1)
  /\ exists b, read_all (H := @generator_io big_endian) [mk_generator 0 0 0 0] (write_all (H := @generator_io big_endian) [mk_generator 7 0 3 1] new_bb)
     = (b, [mk_generator 7 0 3 1]) /\ contents_of b = [].
Proof.
  assert (generator_ok (mk_generator 7 0 3 1)) as H by (vm_compute; auto).
  assert (generator_ok (mk_generator 0 0 0 0)) as H' by (vm_compute; auto).
  split; [exact H|]. apply (objects_binary_roundtrip big_endian [] [] [mk_generator 7 0 3 1] [mk_generator 0 0 0 0]); try reflexivity.
  - constructor.
  - constructor.
  - constructor; [exact H|constructor].
  - constructor; [exact H'|constructor].
Defined.

(** Reading a class from the bytes of another: the object takes the id, its own data stay, and the reader
    has consumed the two class descriptions but not the data, which the next read will meet; a stream that
    does not even start with an object's description changes nothing in the object. *)
Theorem class_mismatch (native : endian) (INFO INFO' OTHER : ClassInfo) (o o' : obj) (b : BinaryBuffer) (q : list byte)
    (Hi : info_ok INFO) (Hi' : info_ok INFO') (Ht : info_ok OTHER) (Hid : in_signed 64 (mid o) = true)
    (Hdiff : info_bytes native INFO <> info_bytes native INFO') :
  (holds b (derived_encoding native OTHER INFO o ++ q) ->
   exists b', derived_read native OTHER INFO' o' b = (b', set_id (mid o) o') /\ holds b' (obj_data native o ++ q))
  /\ (holds b (info_bytes native INFO ++ q) ->
   exists b', obj_read native INFO' o' b = (b', o') /\ holds b' q).
Proof.
  assert (Hne : info_equal (info_bytes native INFO) (info_bytes native INFO') = false) by (by apply bool_decide_eq_false).
  split.
  - intros Hb. unfold derived_encoding in Hb. rewrite <- !app_assoc in Hb. unfold derived_read.
    destruct (obj_read_holds native OTHER o o' b _ Ht Hid Hb) as (b1 & -> & H1).
    destruct (holds_read _ _ _ (info_bytes native blank_info) H1) as (b2 & -> & H2); [by rewrite blank_info_length, info_bytes_length|].
    rewrite Hne. simpl. by exists b2.
  - intros Hb. unfold obj_read.
    destruct (holds_read _ _ _ (info_bytes native blank_info) Hb) as (b2 & -> & H2); [by rewrite blank_info_length, info_bytes_length|].
    rewrite Hne. simpl. by exists b2.
Qed.

Lemma class_mismatch_witness :
  let A := mk_info (W "n" ++ replicate 99 NULL_CHAR) (W "A" ++ replicate 99 NULL_CHAR) 1 1 1 in
  let B := mk_info (W "n" ++ replicate 99 NULL_CHAR) (W "B" ++ replicate 99 NULL_CHAR) 1 1 1 in
  info_ok A /\ info_ok B /\ info_bytes little_endian A <> info_bytes little_endian B
  /\ exists b', derived_read little_endian A B (mk_obj 0 (Some (W "old"))) (derived_write little_endian A A (mk_obj 5 (Some (W "new"))) new_bb)
     = (b', mk_obj 5 (Some (W "old"))) /\ holds b' (W "new").
Proof.
  intros A B. assert (HA : info_ok A) by (split; reflexivity). assert (HB : info_ok B) by (split; reflexivity).
  assert (Hd : info_bytes little_endian A <> info_bytes little_endian B).
  { intros H. apply (f_equal (fun l => l !! 100)) in H. vm_compute in H. discriminate H. }
  split; [exact HA|]. split; [exact HB|]. split; [exact Hd|].
  pose proof (proj1 (class_mismatch little_endian A B A (mk_obj 5 (Some (W "new"))) (mk_obj 0 (Some (W "old")))
    (derived_write little_endian A A (mk_obj 5 (Some (W "new"))) new_bb) [] HA HB HA eq_refl Hd)) as H.
  rewrite app_nil_r in H. apply H. exact (derived_write_holds little_endian A A _ new_bb [] holds_new).
Defined.

Lemma int_bytes_data_take native i v s : take 8 (int_bytes native 8 i ++ int_bytes native 8 v ++ int_bytes native 8 s) = int_bytes native 8 i.
Proof. apply take_app_length'. by rewrite int_bytes_length. Qed.

(** What copying does to a generator.  The copy constructor reads [Object]'s eight bytes through the virtual
    [data()] of the source, so the copy's id is the source's initial value; assignment copies the data and
    keeps the id, so an assigned generator still differs from its source; a plain object is copied and
    assigned whole.  [equals] compares the ids and then all of the data, and is reflexive. *)
Theorem object_copy_semantics (native : endian) (g h : Generator) (o p : obj)
    (Hg : generator_ok g) (Hh : generator_ok h) (Ho : in_signed 64 (mid o) = true /\ mdata o = None) (Hp : mdata p = None) :
  generator_copy native g = Ret (mk_generator (minitial_value g) (minitial_value g) (mvalue g) (mstep g))
  /\ generator_assign native h g = Ret (mk_generator (g_id h) (minitial_value g) (mvalue g) (mstep g))
  /\ obj_copy native o = Ret o /\ obj_assign native p o = Ret o
  /\ (obj_equals native false (generator_obj native g) (generator_obj native h) = Ret (bool_decide (g = h)))
  /\ mid (obj_clone o) = mid o.
Proof.
  destruct Ho as [Hi Hd]. assert (Hdo : obj_data native o = int_bytes native 8 (mid o)) by (unfold obj_data; by rewrite Hd).
  assert (Hdp : obj_data native p = int_bytes native 8 (mid p)) by (unfold obj_data; by rewrite Hp).
  pose proof (obj_generator_obj native) as Hrt. destruct Hg as (G1 & G2 & G3 & G4) eqn:EG. clear EG.
  split; [|split; [|split; [|split; [|split]]]].
  - unfold generator_copy, obj_copy. unfold data_size. rewrite generator_obj_data, decide_True by lia. simpl fmap. unfold obj_data.
    cbn [generator_obj mdata]. rewrite int_bytes_data_take. rewrite (int_of_int_bytes native 8) by (lia || done).
    rewrite <- (Hrt (mk_generator (minitial_value g) (minitial_value g) (mvalue g) (mstep g))) by done. done.
  - unfold generator_assign, obj_assign, data_size. rewrite !generator_obj_data, decide_True by lia. cbn [generator_obj mdata].
    rewrite <- (generator_obj_data native g), firstn_all. simpl fmap.
    rewrite <- (Hrt (mk_generator (g_id h) (minitial_value g) (mvalue g) (mstep g))) by (split; [apply Hh|done]). done.
  - unfold obj_copy, data_size. rewrite Hdo, int_bytes_length, decide_True by lia.
    rewrite take_ge by (rewrite int_bytes_length; lia). rewrite (int_of_int_bytes native 8) by (lia || done). by destruct o.
  - unfold obj_assign, data_size. rewrite Hdo, Hdp, !int_bytes_length, decide_True by lia. rewrite Hp.
    rewrite take_ge by (rewrite int_bytes_length; lia). rewrite (int_of_int_bytes native 8) by (lia || done).
    destruct o as [i d]; simpl in *. by subst.
  - unfold obj_equals, obj_equal, hash. cbn [generator_obj mid]. destruct (Z.eqb_spec (g_id g) (g_id h)) as [E|E]; cbn [negb].
    + unfold data_size. rewrite !generator_obj_data, decide_True by lia. f_equal. apply bool_decide_ext.
      rewrite take_ge by (rewrite generator_obj_data; lia). split; [|by intros ->]. intros Heq.
      rewrite <- (Hrt g), <- (Hrt h) by done. unfold generator_obj, obj_data in *; simpl in *. by rewrite Heq, E.
    + f_equal. symmetry. apply bool_decide_eq_false_2. congruence.
  - done.
Qed.

Lemma object_copy_semantics_witness :
  generator_ok (mk_generator 7 0 3 1) /\ generator_copy little_endian (mk_generator 7 0 3 1) = Ret (mk_generator 0 0 3 1).
Proof.
  assert (generator_ok (mk_generator 7 0 3 1)) as H by (vm_compute; auto). split; [exact H|].
  apply (object_copy_semantics little_endian (mk_generator 7 0 3 1) (mk_generator 7 0 3 1) (mk_obj 0 None) (mk_obj 0 None) H H);
    [split; reflexivity|reflexivity].
Defined.

(** ** Identifiers *)

(** [n] calls of [get_id], with the identifiers they return. *)
Fixpoint get_ids (n : nat) (g : Generator) : outcome (Generator * list Z) :=
  match n with
  | O => Ret (g, [])
  | S n => '(g, i) ← get_id g; '(g, ids) ← get_ids n g; Ret (g, i :: ids)
  end.

Lemma get_ids_spec n g :
  (forall k, (1 <= k <= n)%nat -> in_signed 64 (mvalue g + Z.of_nat k * mstep g) = true) ->
  get_ids n g = Ret (mk_generator (g_id g) (minitial_value g) (mvalue g + Z.of_nat n * mstep g) (mstep g),
                     map (fun k => mvalue g + Z.of_nat k * mstep g)%Z (seq 1 n)).
Proof.
  revert g. induction n as [|n IH]; intros g Hk; simpl.
  - rewrite Z.mul_0_l, Z.add_0_r. by destruct g.
  - unfold get_id, id_value. pose proof (Hk 1 ltac:(lia)) as H1. rewrite Z.mul_1_l in H1. rewrite H1. cbn.
    rewrite IH.
    + cbn -[Z.of_nat]. rewrite <- (seq_shift n 1), map_map.
      assert (forall k, mvalue g + mstep g + Z.of_nat k * mstep g = mvalue g + Z.of_nat (S k) * mstep g)%Z as E by (intros k; lia).
      rewrite E. rewrite (map_ext _ _ E). by replace (mvalue g + Z.of_nat 1 * mstep g)%Z with (mvalue g + mstep g)%Z by lia.
    + intros k Hkn. simpl. rewrite <- Z.add_assoc. rewrite <- (Hk (S k)) by lia. f_equal. lia.
Qed.

(** A generator counts by its step: [n] calls return the next [n] multiples, all different when the step
    is not zero, as long as they fit the type; the call that would leave it is undefined.  [next] announces
    the coming identifier, and [clone] spends one on the copy, which starts again at the initial value. *)
Theorem generator_counts (n : nat) (g : Generator)
    (Hfit : forall k, (1 <= k <= n)%nat -> in_signed 64 (mvalue g + Z.of_nat k * mstep g) = true) :
  exists ids, get_ids n g = Ret (mk_generator (g_id g) (minitial_value g) (mvalue g + Z.of_nat n * mstep g) (mstep g), ids)
  /\ length ids = n /\ (mstep g <> 0%Z -> NoDup ids)
  /\ (forall k i, ids !! k = Some i -> i = (mvalue g + Z.of_nat (S k) * mstep g)%Z)
  /\ (next g = snd <$> get_id g)
  /\ (in_signed 64 (mvalue g + mstep g) = false -> get_id g = Undef SignedOverflow)
  /\ (forall g' c, generator_clone g = Ret (g', c) ->
        g_id c = (if (mvalue g + mstep g =? -1)%Z then 0 else mvalue g + mstep g)%Z /\ current c = minitial_value g /\ current g' = (mvalue g + mstep g)%Z).
Proof.
  eexists. split; [by apply get_ids_spec|]. split; [by rewrite length_map, length_seq|]. split; [|split; [|split; [|split]]].
  - intros Hs. apply (NoDup_fmap_2_strong (fun k => mvalue g + Z.of_nat k * mstep g)%Z); [|apply NoDup_seq]. intros x y _ _ E. nia.
  - intros k i Hk. rewrite list_lookup_fmap in Hk. destruct (seq 1 n !! k) eqn:E; [|done]. apply lookup_seq in E as [-> _].
    simpl in Hk. injection Hk as <-. lia.
  - unfold next, get_id, id_value. by destruct (in_signed 64 _).
  - intros Ho. unfold get_id, id_value. by rewrite Ho.
  - intros g' c. unfold generator_clone, get_id, id_value. destruct (in_signed 64 _); [|done]. cbn. intros E. injection E as <- <-.
    unfold new_Generator, current; simpl. done.
Qed.

Lemma generator_counts_witness :
  (forall k, (1 <= k <= 3)%nat -> in_signed 64 (0 + Z.of_nat k * 5) = true)
  /\ exists ids, get_ids 3 (mk_generator 0 0 0 5) = Ret (mk_generator 0 0 (0 + Z.of_nat 3 * 5) 5, ids) /\ length ids = 3.
Proof.
  assert (H : forall k, (1 <= k <= 3)%nat -> in_signed 64 (0 + Z.of_nat k * 5) = true).
  { intros k Hk. apply bool_decide_eq_true_2. change (2 ^ (64 - 1))%Z with 9223372036854775808%Z. lia. }
  split; [exact H|]. destruct (generator_counts 3 (mk_generator 0 0 0 5) H) as (ids & H1 & H2 & _). exists ids. split; [exact H1|exact H2].
Defined.

(** ** Text forms *)

(** The text form of a generator is not read back: the id, the initial value and the step are written
    without a separator, so they are read as one number, the current value is taken for the initial one, and
    the stream has failed before the step and the value.  The text of a plain object is read back. *)
Theorem generator_text_form (g g' : Generator) (o o' : obj)
    (Hid : (0 <= g_id g)%Z) (Hi : (0 <= minitial_value g)%Z) (Hs : (0 <= mstep g)%Z) (Hv : in_signed 64 (mvalue g) = true)
    (Hcat : in_signed 64 (digits_val (decimal (g_id g) ++ decimal (minitial_value g) ++ decimal (mstep g))) = true)
    (Ho : in_signed 64 (mid o) = true) :
  generator_read_text (mk_is (generator_write_text [] g) true) g'
    = (mk_is [] false, mk_generator (digits_val (decimal (g_id g) ++ decimal (minitial_value g) ++ decimal (mstep g))) (mvalue g) (mvalue g') (mstep g'))
  /\ obj_read_text (mk_is (obj_write_text [] o) true) o' = (mk_is [] true, set_id (mid o) o').
Proof.
  split.
  - unfold generator_write_text, generator_read_text. rewrite app_nil_l, !app_assoc, <- (app_assoc _ [SPACE]).
    rewrite <- (app_assoc (decimal (g_id g))). set (ds := decimal (g_id g) ++ decimal (minitial_value g) ++ decimal (mstep g)) in *.
    assert (Hd : Forall (fun c => is_digit c = true) ds).
    { unfold ds, decimal. repeat (rewrite (proj2 (Z.ltb_ge _ _)) by lia). rewrite !Forall_app. repeat split; by apply digits_spec. }
    assert (Hne : ds <> []).
    { unfold ds. pose proof (decimal_head (g_id g)). destruct (decimal (g_id g)); [done|]. by destruct (decimal (minitial_value g)). }
    rewrite extract_int_run by done. simpl. rewrite extract_int_space.
    rewrite <- (app_nil_r (decimal (mvalue g))), extract_int_decimal by done. by rewrite extract_int_empty.
  - unfold obj_write_text, obj_read_text. rewrite app_nil_l, <- (app_nil_r (decimal (mid o))), extract_int_decimal by done. done.
Qed.

Lemma generator_text_form_witness :
  generator_write_text [] (mk_generator 0 0 2 1) = W "001 2"
  /\ generator_read_text (mk_is (generator_write_text [] (mk_generator 0 0 2 1)) true) (mk_generator 9 9 9 9) = (mk_is [] false, mk_generator 1 2 9 9).
Proof.
  split; [reflexivity|].
  exact (proj1 (generator_text_form (mk_generator 0 0 2 1) (mk_generator 9 9 9 9) (mk_obj 0 None) (mk_obj 0 None)
    ltac:(simpl; lia) ltac:(simpl; lia) ltac:(simpl; lia) eq_refl eq_refl eq_refl)).
Defined.

(** ** Error (error.hpp) *)

(* src: cpp/src/error.hpp:55-59 Error *)
Record Error := mk_Error { e_id : Z; error_message : str }.
(* src: cpp/src/error.hpp:63-64 Error::append_error_message *)
Definition append_error_message (error_msg : str) (e : Error) : Error := mk_Error (e_id e) (error_message e ++ error_msg).
(* src: cpp/src/error.hpp:81-85 Error::operator+ *)
Definition error_plus (e : Error) (msg : str) : Error := append_error_message msg e.
(* src: cpp/src/error.hpp:66-72 Error::read *)
Definition error_read (uninit : Z) (i : istream) (e : Error) : istream * Error :=
  let '(i, v) := extract_int 64 i uninit in
  let '(i, m) := extract_word i (error_message e) in (i, mk_Error v m).
(* src: cpp/src/error.hpp:74-78 Error::write *)
Definition error_write (os : str) (e : Error) : str := os ++ error_message e ++ decimal (e_id e).
(** The message goes to the log and the exception carries it. *)
(* src: cpp/src/error.hpp:94-99 log_and_throw *)
Definition log_and_throw {A} (error_msg : str) : outcome A := Throw (ErrorObject error_msg).
(* src: cpp/src/error.hpp:35-43 INVALID_ARGUMENT *)
Definition invalid_argument (condition : bool) (message : str) : outcome unit :=
  if condition then Throw (InvalidArgument message) else Ret tt.

(** An error is written message first and read id first: the text of an error whose message does not start
    with a number is refused, the id becomes zero and the message stays what it was; and a message that is a
    number swallows the id. *)
Theorem error_text_form (uninit : Z) (e e' : Error) (c : ascii) (m : str) (n : Z)
    (Hm : error_message e = c :: m) (Hc : is_digit c = false /\ is_space c = false /\ c <> "-"%char /\ c <> "+"%char)
    (Hn : (0 <= n)%Z) (He : (0 <= e_id e)%Z) (Hcat : in_signed 64 (digits_val (digits n ++ digits (e_id e))) = true) :
  error_read uninit (mk_is (error_write [] e) true) e' = (mk_is (error_write [] e) false, mk_Error 0 (error_message e'))
  /\ error_read uninit (mk_is (error_write [] (mk_Error (e_id e) (decimal n))) true) e'
     = (mk_is [] false, mk_Error (digits_val (digits n ++ digits (e_id e))) (error_message e')).
Proof.
  destruct Hc as (H1 & H2 & H3 & H4). split.
  - unfold error_read, error_write, extract_int. rewrite Hm. cbn [is_good negb is_rest app drop_while]. rewrite H2. cbv zeta.
    rewrite (decide_False (P := c :: m ++ decimal (e_id e) = [])) by done. rewrite !decide_False by done.
    cbn [take_while drop_while]. rewrite H1. by rewrite decide_True.
  - unfold error_read, error_write. cbn [error_message e_id app]. unfold decimal. rewrite !(proj2 (Z.ltb_ge _ _)) by lia.
    rewrite <- (app_nil_r (digits n ++ digits (e_id e))) at 1. destruct (digits_spec n Hn) as (_ & Hne & Hd & _). destruct (digits_spec (e_id e) He) as (_ & _ & Hd' & _).
    rewrite extract_int_run by (done || (by apply Forall_app) || (intros E; by apply app_eq_nil in E as [? _])). done.
Qed.

Lemma error_text_form_witness :
  error_message (mk_Error 5 (W "bad")) = "b"%char :: W "ad"
  /\ error_read 0 (mk_is (error_write [] (mk_Error 5 (W "bad"))) true) (mk_Error 0 []) = (mk_is (W "bad5") false, mk_Error 0 []).
Proof.
  split; [reflexivity|].
  exact (proj1 (error_text_form 0 (mk_Error 5 (W "bad")) (mk_Error 0 []) "b"%char (W "ad") 0 eq_refl
    ltac:(vm_compute; repeat split; congruence) ltac:(lia) ltac:(simpl; lia) eq_refl)).
Defined.
