(* ===== verification/Commands.v ===== *)
(** * Commands (cpp/src/command.hpp)

    A command acts on a world [Wd] that the library does not know; a leaf command of class [A] changes it by
    [leaf_run], which may end with an exception after having changed it, and [leaf_undo].  A composite owns
    up to ten commands in an array of pointers; a slot is null, live, or left dangling by [clone]. *)
From S2P Require Import Prelude CS CodeUtil Bytes Buffers Objects.

(** How a call that changes the world ends. *)
Inductive status : Type := Done | Threw (e : exn) | Undefined (u : undefined).
#[export] Instance status_eq_dec : EqDecision status.
Proof. solve_decision. Defined.

Section Commands.
Context {Wd A : Type} (leaf_run : A -> Wd -> Wd * option exn) (leaf_undo : A -> Wd -> Wd).

(* src: cpp/src/command.hpp:262-288 CompositeCommand::Data *)
Inductive command : Type :=
  | Leaf (id : Z) (mok : Bool) (a : A)
  | Composite (id : Z) (mok : Bool) (mcommands : list slot) (mindex : nat)
with slot : Type := Null | Live (c : command) | Dangling.

(* src: cpp/src/command.hpp:258-258 CompositeCommand::MAX_COMMANDS *)
Definition MAX_COMMANDS : nat := 10.

Definition cmd_id (c : command) : Z := match c with Leaf i _ _ | Composite i _ _ _ => i end.
Definition cmd_mok (c : command) : Bool := match c with Leaf _ m _ | Composite _ m _ _ => m end.
Definition set_mok (c : command) : command :=
  match c with Leaf i _ a => Leaf i Bool_T a | Composite i _ s n => Composite i Bool_T s n end.

(* src: cpp/src/command.hpp:101-101 Command::Command *)
Definition new_Leaf (id : Z) (a : A) : command := Leaf id Bool_UNKNOWN a.
(* src: cpp/src/command.hpp:315-318 CompositeCommand::CompositeCommand *)
Definition new_Composite (id : Z) : command := Composite id Bool_UNKNOWN (replicate MAX_COMMANDS Null) 0.
(* src: cpp/src/command.hpp:180-180 Command::ok *)
Definition cmd_ok (c : command) : bool := Bool_to_bool (cmd_mok c).

Definition too_many : str := W "CompositeCommand::Data::add(Command* cmd) : Maximum number of commands reached.".
(* src: cpp/src/command.hpp:268-275 CompositeCommand::Data::add *)
Definition slots_add (s : list slot) (n : nat) (c : slot) : outcome (list slot * nat) :=
  if decide (MAX_COMMANDS <= n) then log_and_throw too_many else s ← store_at s n c; Ret (s, S n).
(* src: cpp/src/command.hpp:268-275 CompositeCommand::Data::add *)
Definition cmd_add (c cmd : command) : outcome command :=
  match c with
  | Composite i m s n => '(s, n) ← slots_add s n (Live cmd); Ret (Composite i m s n)
  | Leaf _ _ _ => Undef InvalidIterator
  end.

(** [run] calls the virtual [_run] and then records the success; an exception leaves the record as it was.
    The commands of a composite run in the order they were added, up to the first that throws. *)
(* src: cpp/src/command.hpp:166-170 Command::run *)
Fixpoint run (c : command) (w : Wd) {struct c} : command * Wd * status :=
  match c with
  | Leaf i m a =>
      match leaf_run a w with
      | (w, None) => (set_mok c, w, Done)
      | (w, Some e) => (c, w, Threw e)
      end
  | Composite i m s n =>
      let fix run_slots (s : list slot) (n : nat) (w : Wd) : list slot * Wd * status :=
        match n with
        | O => (s, w, Done)
        | S n =>
            match s with
            | [] => (s, w, Undefined OutOfBounds)
            | x :: s =>
                match run_slot x w with
                | (x, w, Done) => let '(s, w, st) := run_slots s n w in (x :: s, w, st)
                | (x, w, st) => (x :: s, w, st)
                end
            end
        end in
      let '(s, w, st) := run_slots s n w in
      match st with Done => (Composite i Bool_T s n, w, Done) | _ => (Composite i m s n, w, st) end
  end
with run_slot (x : slot) (w : Wd) {struct x} : slot * Wd * status :=
  match x with
  | Null => (x, w, Undefined NullDereference)
  | Dangling => (x, w, Undefined UseAfterFree)
  | Live c => let '(c, w, st) := run c w in (Live c, w, st)
  end.

(* src: cpp/src/command.hpp:343-349 CompositeCommand::_run *)
Fixpoint run_slots (s : list slot) (n : nat) (w : Wd) : list slot * Wd * status :=
  match n with
  | O => (s, w, Done)
  | S n =>
      match s with
      | [] => (s, w, Undefined OutOfBounds)
      | x :: s =>
          match run_slot x w with
          | (x, w, Done) => let '(s, w, st) := run_slots s n w in (x :: s, w, st)
          | (x, w, st) => (x :: s, w, st)
          end
      end
  end.

(** [undo] does nothing unless the last [run] succeeded; a composite undoes its commands in the same order. *)
(* src: cpp/src/command.hpp:172-178 Command::undo *)
Fixpoint undo (c : command) (w : Wd) {struct c} : Wd * status :=
  if Bool_to_bool (cmd_mok c) then
    match c with
    | Leaf _ _ a => (leaf_undo a w, Done)
    | Composite _ _ s n =>
        (fix undo_slots (s : list slot) (n : nat) (w : Wd) : Wd * status :=
          match n with
          | O => (w, Done)
          | S n =>
              match s with
              | [] => (w, Undefined OutOfBounds)
              | x :: s => match undo_slot x w with (w, Done) => undo_slots s n w | r => r end
              end
          end) s n w
    end
  else (w, Done)
with undo_slot (x : slot) (w : Wd) {struct x} : Wd * status :=
  match x with
  | Null => (w, Undefined NullDereference)
  | Dangling => (w, Undefined UseAfterFree)
  | Live c => undo c w
  end.

(* src: cpp/src/command.hpp:350-356 CompositeCommand::_undo *)
Fixpoint undo_slots (s : list slot) (n : nat) (w : Wd) : Wd * status :=
  match n with
  | O => (w, Done)
  | S n =>
      match s with
      | [] => (w, Undefined OutOfBounds)
      | x :: s => match undo_slot x w with (w, Done) => undo_slots s n w | r => r end
      end
  end.

(** The copy is given the count of commands first, and every clone is then added behind it; the pointer that
    is stored belongs to a temporary that is destroyed at once.  [noexcept] turns the exception of [add]
    into a termination.  Cloning a leaf makes a new object of its class, which draws an id of its own,
    [new_id], and has not been run; that of a [NullCommand] succeeds as long as ids can be drawn.  The
    constructor of the copy draws one too when the composite's own id is the null one. *)
(* src: cpp/src/command.hpp:101-101 Command::Command *)
Definition given_id (new_id id : Z) : Z := if (id =? NULL_ID)%Z then new_id else id.
(* src: cpp/src/command.hpp:365-378 CompositeCommand::clone *)
Definition composite_clone (new_id : Z) (c : command) : outcome command :=
  match c with
  | Leaf i m a => Ret (new_Leaf new_id a)
  | Composite i m s n =>
      noexcept ('(s', n') ← fold_left (fun acc k => '(s', n') ← acc; x ← load_at s k;
          match x with
          | Null => Undef NullDereference
          | Dangling => Undef UseAfterFree
          | Live _ => slots_add s' n' Dangling
          end) (seq 0 n) (Ret (replicate MAX_COMMANDS Null, n));
        Ret (Composite (given_id new_id i) Bool_UNKNOWN s' n'))
  end.

(** [equals] of a command that is no composite accepts any command: the ids are compared, and then the one byte of its
    record with the first byte of the other's data, which for a composite is a byte of its first pointer - zero
    for a null pointer, and [pointer_byte] otherwise. *)
(* src: cpp/src/command.hpp:128-134 Command::equals *)
Definition command_equals (id : Z) (m : Bool) (id' other_byte : Z) : bool := bool_decide (id = id') && bool_decide (bool_mvalue m = other_byte).
Definition first_byte (pointer_byte : slot -> Z) (s : list slot) : Z :=
  match s with [] | Null :: _ => 0 | x :: _ => pointer_byte x end.
(* src: cpp/src/command.hpp:380-393 CompositeCommand::equals *)
Fixpoint cmd_equals (pointer_byte : slot -> Z) (c o : command) {struct c} : outcome bool :=
  match c, o with
  | Leaf i m _, Leaf i' m' _ => Ret (command_equals i m i' (bool_mvalue m'))
  | Composite i _ s n, Composite i' _ s' _ =>
      if negb (i' =? i)%Z then Ret false
      else (fix go (s : list slot) (n : nat) (s' : list slot) : outcome bool :=
        match n with
        | O => Ret true
        | S n =>
            match s, s' with
            | x :: s, x' :: s' => b ← slot_equals pointer_byte x x'; if b : bool then go s n s' else Ret false
            | _, _ => Undef OutOfBounds
            end
        end) s n s'
  | Composite _ _ _ _, Leaf _ _ _ => Ret false
  | Leaf i m _, Composite i' _ s' _ => Ret (command_equals i m i' (first_byte pointer_byte s'))
  end
with slot_equals (pointer_byte : slot -> Z) (x x' : slot) {struct x} : outcome bool :=
  match x, x' with
  | Live c, Live c' => cmd_equals pointer_byte c c'
  | Live _, Null | Null, _ => Undef NullDereference
  | Live _, Dangling | Dangling, _ => Undef UseAfterFree
  end.

(** [size()] of a composite counts its counter, its class description and its commands, but not the part that it
    inherits; the one of a command that has no data of its own is the inherited one. *)
(* src: cpp/src/command.hpp:84-85 Command::size *)
Definition command_size : nat := 1 + info_size + OBJECT_SIZE.
(* src: cpp/src/command.hpp:305-313 CompositeCommand::size *)
Fixpoint cmd_size (c : command) {struct c} : outcome nat :=
  match c with
  | Leaf _ _ _ => Ret command_size
  | Composite _ _ s n =>
      (fix go (s : list slot) (n : nat) (size : nat) : outcome nat :=
        match n with
        | O => Ret size
        | S n =>
            match s with
            | [] => Undef OutOfBounds
            | x :: s => k ← slot_size x; go s n (size + k)
            end
        end) s n (8 + info_size)
  end
with slot_size (x : slot) {struct x} : outcome nat :=
  match x with Null => Undef NullDereference | Dangling => Undef UseAfterFree | Live c => cmd_size c end.

End Commands.
Arguments command : clear implicits.
Arguments slot : clear implicits.

(** ** What running does *)
Section behaviour.
Context {Wd A : Type} (leaf_run : A -> Wd -> Wd * option exn) (leaf_undo : A -> Wd -> Wd).

(** A composite whose first [n] slots are the given leaf commands. *)
Definition leaves (ls : list (Z * Bool * A)) : list (slot A) := map (fun '(i, m, a) => Live (Leaf i m a)) ls.
Definition composite_of (id : Z) (m : Bool) (ls : list (Z * Bool * A)) : command A :=
  Composite id m (leaves ls ++ replicate (MAX_COMMANDS - length ls) Null) (length ls).

(** The specification of a transaction: the actions in order, up to the first that throws. *)
Fixpoint run_actions (acts : list A) (w : Wd) : Wd * nat * option exn :=
  match acts with
  | [] => (w, 0, None)
  | a :: acts =>
      match leaf_run a w with
      | (w, None) => let '(w, k, e) := run_actions acts w in (w, S k, e)
      | (w, Some e) => (w, 0, Some e)
      end
  end.

Definition ok_leaf : Z * Bool * A -> Z * Bool * A := fun '(i, m, a) => (i, Bool_T, a).

Lemma run_slots_0 s w : run_slots leaf_run s 0 w = (s, w, Done).
Proof. by destruct s. Qed.
Lemma undo_slots_0 s w : undo_slots leaf_undo s 0 w = (w, Done).
Proof. by destruct s. Qed.

Lemma run_leaves ls rest w :
  run_slots leaf_run (leaves ls ++ rest) (length ls) w
  = let '(w', k, e) := run_actions (map snd ls) w in
    (leaves (map ok_leaf (take k ls) ++ drop k ls) ++ rest, w', match e with None => Done | Some e => Threw e end).
Proof.
  revert w. induction ls as [|[[i m] a] ls IH]; intros w; simpl; [by rewrite run_slots_0|].
  destruct (leaf_run a w) as [w1 [e|]]; simpl; [done|]. rewrite IH. destruct (run_actions (map snd ls) w1) as [[w2 k] e]. done.
Qed.

Lemma run_composite i m s n w :
  run leaf_run (Composite i m s n) w =
  let '(s, w, st) := run_slots leaf_run s n w in
  match st with Done => (Composite i Bool_T s n, w, Done) | _ => (Composite i m s n, w, st) end.
Proof.
  assert (H : forall s n w, (fix run_slots (s : list (slot A)) (n : nat) (w : Wd) : list (slot A) * Wd * status :=
        match n with
        | O => (s, w, Done)
        | S n =>
            match s with
            | [] => (s, w, Undefined OutOfBounds)
            | x :: s =>
                match run_slot leaf_run x w with
                | (x, w, Done) => let '(s, w, st) := run_slots s n w in (x :: s, w, st)
                | (x, w, st) => (x :: s, w, st)
                end
            end
        end) s n w = run_slots leaf_run s n w) by reflexivity.
  reflexivity.
Qed.

Lemma undo_composite i s n w : undo leaf_undo (Composite i Bool_T s n) w = undo_slots leaf_undo s n w.
Proof. reflexivity. Qed.

Lemma undo_leaves ls rest w :
  Forall (fun l => Bool_to_bool (snd (fst l)) = true) ls ->
  undo_slots leaf_undo (leaves ls ++ rest) (length ls) w = (fold_left (fun w a => leaf_undo a w) (map snd ls) w, Done).
Proof.
  revert w. induction ls as [|[[i m] a] ls IH]; intros w H; simpl; [apply undo_slots_0|]. inversion H as [|? ? Hm Hls]; simpl in Hm.
  cbn. rewrite Hm. by apply IH.
Qed.

Lemma run_actions_count acts w w' k e : run_actions acts w = (w', k, e) -> k <= length acts /\ (e = None -> k = length acts).
Proof.
  revert w w' k e. induction acts as [|a acts IH]; intros w w' k e; simpl; [intros [= <- <- <-]; lia|].
  destruct (leaf_run a w) as [w1 [x|]]; [intros [= <- <- <-]; split; [lia|done]|].
  destruct (run_actions acts w1) as [[w2 j] e2] eqn:E. intros [= <- <- <-]. destruct (IH _ _ _ _ E) as [H1 H2].
  split; [lia|]. intros He. rewrite H2 by done. done.
Qed.

(** C12. A composite of leaf commands runs them in the order they were added.  When all succeed, it and they
    record it, and [undo] undoes every one of them - in the same order.  When one throws, the earlier ones
    stay done, and nothing rolls them back: the composite has not recorded a success, so its [undo] does
    nothing, although the commands that ran have recorded theirs. *)
Theorem composite_transaction (id : Z) (m : Bool) (ls : list (Z * Bool * A)) (w w' : Wd) (k : nat) (e : option exn)
    (Hm : Bool_to_bool m = false) (Hls : length ls <= MAX_COMMANDS) (Hr : run_actions (map snd ls) w = (w', k, e)) :
  match e with
  | None => run leaf_run (composite_of id m ls) w = (composite_of id Bool_T (map ok_leaf ls), w', Done)
      /\ undo leaf_undo (composite_of id Bool_T (map ok_leaf ls)) w' = (fold_left (fun w a => leaf_undo a w) (map snd ls) w', Done)
  | Some x => let c' := composite_of id m (map ok_leaf (take k ls) ++ drop k ls) in
      run leaf_run (composite_of id m ls) w = (c', w', Threw x) /\ undo leaf_undo c' w' = (w', Done)
  end.
Proof.
  pose proof (run_actions_count _ _ _ _ _ Hr) as [Hk Hk']. rewrite length_map in *.
  assert (Hlen : length (map ok_leaf (take k ls) ++ drop k ls) = length ls).
  { rewrite length_app, length_map, length_take, length_drop. lia. }
  pose proof (run_composite id m (leaves ls ++ replicate (MAX_COMMANDS - length ls) Null) (length ls) w) as Hrun.
  rewrite run_leaves, Hr in Hrun. fold (composite_of id m ls) in Hrun. rewrite Hrun. destruct e as [x|]; unfold composite_of.
  - rewrite Hlen. split; [done|]. simpl. by rewrite Hm.
  - rewrite Hk' by done. rewrite firstn_all, drop_all, app_nil_r, length_map.
    split; [done|]. rewrite undo_composite. rewrite <- (length_map ok_leaf ls) at 2. rewrite undo_leaves.
    + rewrite map_map. do 2 f_equal. apply map_ext. by intros [[i b] a].
    + apply Forall_forall. intros x (y & -> & _)%list_elem_of_fmap. by destruct y as [[i b] a].
Qed.

(** Undoing in the order of running restores the world when the undo of a command does not see the later
    commands. *)
Theorem undo_restores (id : Z) (m : Bool) (ls : list (Z * Bool * A)) (w w' : Wd)
    (Hr : run leaf_run (composite_of id m ls) w = (composite_of id Bool_T (map ok_leaf ls), w', Done))
    (Hinv : forall a w w', leaf_run a w = (w', None) -> leaf_undo a w' = w)
    (Hcomm : forall a b w w', leaf_run b w = (w', None) -> leaf_run b (leaf_undo a w) = (leaf_undo a w', None)) :
  undo leaf_undo (composite_of id Bool_T (map ok_leaf ls)) w' = (w, Done).
Proof.
  unfold composite_of at 1 in Hr. rewrite run_composite, run_leaves in Hr.
  destruct (run_actions (map snd ls) w) as [[w1 k] e] eqn:E. destruct e as [x|]; [done|]. injection Hr as _ _ ->.
  unfold composite_of. rewrite undo_composite, undo_leaves.
  - f_equal. replace (map snd (map ok_leaf ls)) with (map snd ls) by (rewrite map_map; apply map_ext; by intros [[i b] a]).
    clear - E Hinv Hcomm. revert w w' k E. induction (map snd ls) as [|a acts IH]; intros w w' k E; simpl in *; [by injection E|].
    destruct (leaf_run a w) as [w1 [x|]] eqn:E1; [done|]. destruct (run_actions acts w1) as [[w2 j] [x|]] eqn:E2; [done|].
    injection E as -> _. assert (Hsw : run_actions acts (leaf_undo a w1) = (leaf_undo a w', j, None)).
    { clear - E2 Hcomm. revert w1 w' j E2. induction acts as [|b acts IH]; intros w1 w' j E; simpl in *; [by injection E as -> <-|].
      destruct (leaf_run b w1) as [w3 [x|]] eqn:E3; [done|]. rewrite (Hcomm a b w1 w3) by auto.
      destruct (run_actions acts w3) as [[w4 i] [x|]] eqn:E4; [done|]. injection E as -> <-. by rewrite (IH _ _ _ E4). }
    rewrite (Hinv a w w1 E1) in Hsw. by apply (IH w (leaf_undo a w') j).
  - apply Forall_forall. intros x (y & -> & _)%list_elem_of_fmap. by destruct y as [[i b] a].
Qed.
End behaviour.

(** *** Examples: a stack of numbers *)
Definition push (a : nat) (w : list nat) : list nat * option exn := if decide (a = 0) then (w, Some (RuntimeError (W "zero"))) else (a :: w, None).
Definition pop (a : nat) (w : list nat) : list nat := match w with x :: w' => if decide (x = a) then w' else w | [] => w end.

Lemma composite_transaction_witness :
  Bool_to_bool Bool_UNKNOWN = false
  /\ run push (composite_of 9 Bool_UNKNOWN [(1%Z, Bool_UNKNOWN, 5); (2%Z, Bool_UNKNOWN, 0); (3%Z, Bool_UNKNOWN, 7)]) []
    = (composite_of 9 Bool_UNKNOWN [(1%Z, Bool_T, 5); (2%Z, Bool_UNKNOWN, 0); (3%Z, Bool_UNKNOWN, 7)], [5], Threw (RuntimeError (W "zero")))
  /\ undo pop (composite_of 9 Bool_UNKNOWN [(1%Z, Bool_T, 5); (2%Z, Bool_UNKNOWN, 0); (3%Z, Bool_UNKNOWN, 7)]) [5] = ([5], Done).
Proof.
  split; [reflexivity|].
  exact (composite_transaction push pop 9 Bool_UNKNOWN [(1%Z, Bool_UNKNOWN, 5); (2%Z, Bool_UNKNOWN, 0); (3%Z, Bool_UNKNOWN, 7)] [] [5] 1
    (Some (RuntimeError (W "zero"))) eq_refl ltac:(vm_compute; lia) eq_refl).
Defined.

(** Two pushes are undone in the order they were done, which does not restore the stack. *)
Example undo_in_order : forall w1 c1, run push (composite_of 9 Bool_UNKNOWN [(1%Z, Bool_UNKNOWN, 5); (2%Z, Bool_UNKNOWN, 7)]) [] = (c1, w1, Done) ->
  undo pop c1 w1 = ([5], Done).
Proof. intros w1 c1 H. vm_compute in H. injection H as <- <-. reflexivity. Qed.

(** A command that adds to a counter. *)
Lemma undo_restores_witness :
  let add_ a w := ((w + a)%Z, @None exn) in let sub_ a w := (w - a)%Z in
  (forall a w w', add_ a w = (w', None) -> sub_ a w' = w)
  /\ undo sub_ (composite_of 9 Bool_T [(1%Z, Bool_T, 5%Z); (2%Z, Bool_T, 7%Z)]) 12%Z = (0%Z, Done).
Proof.
  intros add_ sub_. assert (H : forall a w w', add_ a w = (w', None) -> sub_ a w' = w) by (intros a w w' [= <-]; unfold sub_; lia).
  split; [exact H|].
  apply (undo_restores add_ sub_ 9 Bool_UNKNOWN [(1%Z, Bool_UNKNOWN, 5%Z); (2%Z, Bool_UNKNOWN, 7%Z)] 0%Z 12%Z); [reflexivity|exact H|].
  intros a b w w' [= <-]. unfold add_, sub_. do 2 f_equal. lia.
Defined.

(** ** Adding, cloning, comparing *)
Section structure.
Context {A : Type}.

Lemma composite_of_nil id : new_Composite id = composite_of (A := A) id Bool_UNKNOWN [].
Proof. reflexivity. Qed.

Lemma leaves_app (l k : list (Z * Bool * A)) : leaves (l ++ k) = leaves l ++ leaves k.
Proof. apply map_app. Qed.
Lemma leaves_length (l : list (Z * Bool * A)) : length (leaves l) = length l.
Proof. apply length_map. Qed.

Lemma cmd_add_leaf id m (ls : list (Z * Bool * A)) i b a :
  length ls < MAX_COMMANDS -> cmd_add (composite_of id m ls) (Leaf i b a) = Ret (composite_of id m (ls ++ [(i, b, a)])).
Proof.
  intros Hl. unfold cmd_add, composite_of, slots_add, store_at. rewrite decide_False by lia.
  rewrite length_app, leaves_length, length_replicate, decide_True by lia. cbn [mbind outcome_bind].
  rewrite leaves_app, length_app. cbn [length].
  rewrite insert_app_r_alt by (rewrite leaves_length; lia). rewrite leaves_length, Nat.sub_diag, <- app_assoc.
  replace (MAX_COMMANDS - length ls) with (S (MAX_COMMANDS - (length ls + 1))) by lia. by rewrite Nat.add_1_r.
Qed.

(** A composite takes ten commands and keeps them in order; the eleventh is refused with an exception and
    does not change it. *)
Theorem composite_capacity (id : Z) (ls : list (Z * Bool * A)) (cmd : command A) :
  fold_left (fun acc '(i, b, a) => c ← acc; cmd_add c (Leaf i b a)) ls (Ret (new_Composite id))
    = (if decide (length ls <= MAX_COMMANDS) then Ret (composite_of id Bool_UNKNOWN ls) else Throw (ErrorObject too_many))
  /\ (forall m, length ls = MAX_COMMANDS -> cmd_add (composite_of id m ls) cmd = Throw (ErrorObject too_many)).
Proof.
  assert (Hfull : forall m ls' cmd', length ls' = MAX_COMMANDS -> cmd_add (composite_of (A := A) id m ls') cmd' = Throw (ErrorObject too_many)).
  { intros m ls' cmd' Hl. unfold cmd_add, composite_of, slots_add. by rewrite decide_True by lia. }
  split; [|intros m; apply Hfull]. induction ls as [|[[i b] a] ls IH] using rev_ind; [done|].
  rewrite fold_left_app, IH, length_app. cbn [fold_left length]. destruct (decide (length ls <= MAX_COMMANDS)) as [Hl|Hl].
  - cbn [mbind outcome_bind]. destruct (decide (length ls < MAX_COMMANDS)).
    + rewrite decide_True by lia. by apply cmd_add_leaf.
    + rewrite decide_False by lia. apply Hfull. lia.
  - by rewrite decide_False by lia.
Qed.

(** [clone] of a composite only works when it is empty.  With one to five commands the copy claims twice
    as many: its first slots are null, the others dangle, and running it dereferences a null pointer at
    once; with more than five the array overflows inside a [noexcept] function and the program ends. *)
Theorem composite_clone_broken {Wd} (leaf_run : A -> Wd -> Wd * option exn) (new_id id : Z) (m : Bool) (ls : list (Z * Bool * A)) (w : Wd)
    (Hls : length ls <= MAX_COMMANDS) :
  (ls = [] -> composite_clone new_id (composite_of id m ls) = Ret (new_Composite (given_id new_id id)))
  /\ (0 < length ls <= 5 -> exists c, composite_clone new_id (composite_of id m ls)
        = Ret (Composite (given_id new_id id) Bool_UNKNOWN c (length ls + length ls))
      /\ c = replicate (length ls) Null ++ replicate (length ls) Dangling ++ replicate (MAX_COMMANDS - 2 * length ls) Null
      /\ run leaf_run (Composite id Bool_UNKNOWN c (length ls + length ls)) w
         = (Composite id Bool_UNKNOWN c (length ls + length ls), w, Undefined NullDereference))
  /\ (5 < length ls -> composite_clone new_id (composite_of id m ls) = Throw Terminate).
Proof.
  assert (Hgen : forall k, k <= length ls ->
    fold_left (fun acc k => '(s', n') ← acc; x ← load_at (leaves ls ++ replicate (MAX_COMMANDS - length ls) Null) k;
          match x with
          | Null => Undef NullDereference
          | Dangling => Undef UseAfterFree
          | Live _ => slots_add s' n' (@Dangling A)
          end) (seq 0 k) (Ret (replicate MAX_COMMANDS (@Null A), length ls))
    = if decide (length ls + k <= MAX_COMMANDS)
      then Ret (replicate (length ls) Null ++ replicate k Dangling ++ replicate (MAX_COMMANDS - (length ls + k)) Null, length ls + k)
      else Throw (ErrorObject too_many)).
  { induction k as [|k IH]; intros Hk.
    - rewrite Nat.add_0_r, decide_True by lia. cbn [seq fold_left replicate app]. rewrite <- replicate_add. do 3 f_equal. lia.
    - rewrite seq_S, fold_left_app, IH by lia. cbn [fold_left Nat.add]. destruct (decide (length ls + k <= MAX_COMMANDS)) as [Hle|Hgt].
      + cbn [mbind outcome_bind]. destruct (lookup_lt_is_Some_2 ls k ltac:(lia)) as [[[i b] a] Hx].
        assert (Hlk : (leaves ls ++ replicate (MAX_COMMANDS - length ls) Null) !! k = Some (Live (Leaf i b a))).
        { rewrite lookup_app_l by (rewrite leaves_length; lia). unfold leaves.
          pose proof (list_lookup_fmap (fun '(i, m, a) => Live (Leaf i m a)) ls k) as E. rewrite Hx in E. exact E. }
        rewrite (load_at_Some _ _ _ Hlk). cbn [mbind outcome_bind]. unfold slots_add, store_at.
        destruct (decide (MAX_COMMANDS <= length ls + k)); [by rewrite decide_False by lia|].
        rewrite (decide_True (P := length ls + S k <= MAX_COMMANDS)) by lia.
        rewrite !length_app, !length_replicate, decide_True by lia. cbn [mbind outcome_bind].
        do 2 f_equal; [|lia]. rewrite insert_app_r_alt by (rewrite length_replicate; lia). f_equal.
        rewrite length_replicate. rewrite insert_app_r_alt by (rewrite length_replicate; lia). rewrite length_replicate.
        replace (length ls + k - length ls - k) with 0 by lia.
        rewrite replicate_S_end, <- app_assoc. f_equal.
        by replace (MAX_COMMANDS - (length ls + k)) with (S (MAX_COMMANDS - (length ls + S k))) by lia.
      + by rewrite decide_False by lia. }
  specialize (Hgen (length ls) (Nat.le_refl _)). unfold composite_clone, composite_of. split; [|split].
  - intros ->. reflexivity.
  - intros Hn. rewrite Hgen. unfold MAX_COMMANDS in *. rewrite decide_True by lia. cbn [mbind outcome_bind noexcept]. eexists. split; [done|].
    split; [do 3 f_equal; lia|]. destruct ls as [|l ls']; [simpl in Hn; lia|]. done.
  - intros Hn. rewrite Hgen. unfold MAX_COMMANDS in *. rewrite decide_False by lia. done.
Qed.

Fixpoint leaf_eqs (ls ls' : list (Z * Bool * A)) : bool :=
  match ls, ls' with
  | (i, m, _) :: ls, (i', m', _) :: ls' => command_equals i m i' (bool_mvalue m') && leaf_eqs ls ls'
  | [], _ => true
  | _, _ => false
  end.

(** Equality of composites looks only at the commands of the left one: extra commands on the right are
    ignored, so it is not symmetric, and comparing a longer composite with an equal but shorter one
    dereferences a null pointer.  A leaf command can be equal to a composite: to an empty one of the same id when
    its record says that it failed. *)
Theorem composite_equality (pointer_byte : slot A -> Z) (id id' : Z) (m m' : Bool) (ls ls' more : list (Z * Bool * A))
    (Hl : length ls = length ls') (Hmax : length (ls' ++ more) <= MAX_COMMANDS) :
  cmd_equals pointer_byte (composite_of id m ls) (composite_of id' m' (ls' ++ more)) = Ret (bool_decide (id' = id) && leaf_eqs ls ls')
  /\ (id = id' -> leaf_eqs ls' ls = true -> more <> [] ->
      cmd_equals pointer_byte (composite_of id' m' (ls' ++ more)) (composite_of id m ls) = Undef NullDereference)
  /\ (forall i b a, cmd_equals pointer_byte (Leaf i b a) (composite_of id m []) = Ret (bool_decide (i = id) && bool_decide (bool_mvalue b = 0%Z))
      /\ cmd_equals pointer_byte (composite_of id m []) (Leaf i b a) = Ret false).
Proof.
  set (go := fix go (s : list (slot A)) (n : nat) (s' : list (slot A)) : outcome bool :=
        match n with
        | O => Ret true
        | S n =>
            match s, s' with
            | x :: s, x' :: s' => b ← slot_equals pointer_byte x x'; if b : bool then go s n s' else Ret false
            | _, _ => Undef OutOfBounds
            end
        end).
  assert (Hgo0 : forall s s', go s 0 s' = Ret true) by (by intros [] s').
  assert (Hgo : forall ls ls' r r', length ls = length ls' -> go (leaves ls ++ r) (length ls) (leaves ls' ++ r') = Ret (leaf_eqs ls ls')).
  { clear - Hgo0. induction ls as [|[[i b] a] ls IH]; intros [|[[i' b'] a'] ls'] r r' Hl; try done.
    simpl. destruct (command_equals i b i' (bool_mvalue b')); [|done]. apply IH. by injection Hl. }
  assert (Hgo2 : forall ls ls' more r r', length ls = length ls' -> more <> [] -> leaf_eqs ls' ls = true ->
    go (leaves (ls' ++ more) ++ r) (length (ls' ++ more)) (leaves ls ++ Null :: r') = Undef NullDereference).
  { clear. induction ls as [|[[i b] a] ls IH]; intros [|[[i' b'] a'] ls'] more r r' Hl Hm He; try done.
    - destruct more as [|[[i b] a] more]; done.
    - simpl in He. apply andb_prop in He as [He1 He2]. simpl. rewrite He1. cbn. apply IH; [by injection Hl|done|done]. }
  unfold composite_of. split; [|split; [|by intros i b a]].
  - cbn [cmd_equals]. fold go. destruct (Z.eqb_spec id' id) as [->|Hne]; cbn [negb].
    + rewrite bool_decide_eq_true_2 by done. rewrite leaves_app, <- app_assoc. by apply Hgo.
    + by rewrite bool_decide_eq_false_2.
  - intros <- He Hm. cbn [cmd_equals]. fold go. rewrite Z.eqb_refl. cbn [negb].
    replace (MAX_COMMANDS - length ls) with (S (MAX_COMMANDS - S (length ls))).
    + by apply Hgo2.
    + rewrite length_app in Hmax. destruct more; [done|]. simpl in Hmax. lia.
Qed.
End structure.

Lemma composite_clone_broken_witness :
  length [(1%Z, Bool_T, 5)] <= MAX_COMMANDS /\ exists c, composite_clone 4 (composite_of 9 Bool_T [(1%Z, Bool_T, 5)]) = Ret (Composite 9 Bool_UNKNOWN c 2)
  /\ run push (Composite 9 Bool_UNKNOWN c 2) [] = (Composite 9 Bool_UNKNOWN c 2, [], Undefined NullDereference).
Proof.
  assert (H : length [(1%Z, Bool_T, 5)] <= MAX_COMMANDS) by (vm_compute; lia). split; [exact H|].
  destruct (composite_clone_broken push 4 9 Bool_T [(1%Z, Bool_T, 5)] [] H) as (_ & H2 & _).
  destruct (H2 ltac:(simpl; lia)) as (c & Hc & _ & Hr). exists c. split; [exact Hc|exact Hr].
Defined.

Lemma composite_equality_witness :
  length [(1%Z, Bool_T, 5)] = length [(1%Z, Bool_T, 6)]
  /\ cmd_equals (fun _ => 7%Z) (composite_of 9 Bool_T [(1%Z, Bool_T, 5)]) (composite_of 9 Bool_T ([(1%Z, Bool_T, 6)] ++ [(2%Z, Bool_T, 7)])) = Ret true.
Proof.
  split; [reflexivity|].
  exact (proj1 (composite_equality (fun _ => 7%Z) 9 9 Bool_T Bool_T [(1%Z, Bool_T, 5)] [(1%Z, Bool_T, 6)] [(2%Z, Bool_T, 7)] eq_refl ltac:(vm_compute; lia))).
Defined.

(** ** Serialization (lines 136-158, 184-242, 395-437) *)

(* src: cpp/src/command.hpp:75-75 Command::INFO *)
Definition COMMAND_INFO : ClassInfo := info_or_blank (class_info CPPLIB_NAMESPACE (W "Command") 2 1 1).
(* src: cpp/src/command.hpp:214-214 NullCommand::INFO *)
Definition NULLCOMMAND_INFO : ClassInfo := info_or_blank (class_info CPPLIB_NAMESPACE (W "NullCommand") 2 1 1).
(* src: cpp/src/command.hpp:295-295 CompositeCommand::INFO *)
Definition COMPOSITE_INFO : ClassInfo := info_or_blank (class_info CPPLIB_NAMESPACE (W "CompositeCommand") 2 1 1).

Lemma command_infos :
  info_ok COMMAND_INFO /\ info_ok NULLCOMMAND_INFO /\ info_ok COMPOSITE_INFO
  /\ full_class_name COMMAND_INFO = Ret (W "pensar_digital::cpplib::Command")
  /\ full_class_name COMPOSITE_INFO = Ret (W "pensar_digital::cpplib::CompositeCommand")
  /\ mclass_name COMPOSITE_INFO <> mclass_name OBJECT_INFO /\ mclass_name OBJECT_INFO <> mclass_name COMMAND_INFO.
Proof. vm_compute. repeat split; congruence. Qed.
Opaque COMMAND_INFO NULLCOMMAND_INFO COMPOSITE_INFO.

Section serialization.
Context {A : Type} (native : endian) (leaf_info : A -> ClassInfo).

(** The registry: the creators by full class name, the last registration of a name first.  [new_id] is the
    identifier that a created command draws, until it is read over. *)
(* src: cpp/src/command.hpp:184-194 CommandRegistry::register_type *)
Definition register_type (registry : list (str * A)) (a : A) : outcome (list (str * A)) :=
  name ← full_class_name (leaf_info a); Ret ((name, a) :: registry).
(* src: cpp/src/command.hpp:196-202 CommandRegistry::create *)
Definition create (registry : list (str * A)) (info : ClassInfo) : outcome (option A) :=
  name ← full_class_name info; Ret (snd <$> List.find (fun r => bool_decide (fst r = name)) registry).

Definition command_obj (id : Z) (m : Bool) : obj := mk_obj id (Some (int_bytes native 1 (bool_mvalue m))).
Definition obj_command (o : obj) : Z * Bool := (mid o, mk_Bool (int_of_bytes native (default [] (mdata o)))).
(* src: cpp/src/command.hpp:136-142 Command::write *)
Definition command_write (id : Z) (m : Bool) (bb : BinaryBuffer) : BinaryBuffer :=
  derived_write native OBJECT_INFO COMMAND_INFO (command_obj id m) bb.
(* src: cpp/src/command.hpp:143-158 Command::read *)
Definition command_read (id : Z) (m : Bool) (bb : BinaryBuffer) : BinaryBuffer * (Z * Bool) :=
  let '(bb, o) := derived_read native OBJECT_INFO COMMAND_INFO (command_obj id m) bb in (bb, obj_command o).
(* src: cpp/src/command.hpp:219-226 NullCommand::write *)
Definition leaf_write (id : Z) (m : Bool) (a : A) (bb : BinaryBuffer) : BinaryBuffer :=
  command_write id m (bb_write bb (info_bytes native (leaf_info a))).

(** The class description has been taken by the caller. *)
(* src: cpp/src/command.hpp:228-234 NullCommand::read *)
Definition leaf_read (id : Z) (m : Bool) (bb : BinaryBuffer) : BinaryBuffer * (Z * Bool) := command_read id m bb.

(* src: cpp/src/command.hpp:395-409 CompositeCommand::write *)
Fixpoint cmd_write (c : command A) (bb : BinaryBuffer) {struct c} : outcome BinaryBuffer :=
  match c with
  | Leaf id m a => Ret (leaf_write id m a bb)
  | Composite id m s n =>
      let bb := command_write id m (bb_write bb (info_bytes native COMPOSITE_INFO)) in
      let bb := bb_write bb (int_bytes native 8 (Z.of_nat n)) in
      (fix go (s : list (slot A)) (n : nat) (bb : BinaryBuffer) : outcome BinaryBuffer :=
        match n with
        | O => Ret bb
        | S n =>
            match s with
            | [] => Undef OutOfBounds
            | x :: s => bb ← slot_write x bb; go s n bb
            end
        end) s n bb
  end
with slot_write (x : slot A) (bb : BinaryBuffer) {struct x} : outcome BinaryBuffer :=
  match x with Null => Undef NullDereference | Dangling => Undef UseAfterFree | Live c => cmd_write c bb end.

(** A [ClassInfo] read over bytes. *)
Definition info_of_bytes (bs : list byte) : ClassInfo :=
  mk_info (take 100 bs) (take 100 (drop 100 bs)) (int_of_bytes native (take 2 (drop 200 bs)))
    (int_of_bytes native (take 2 (drop 202 bs))) (int_of_bytes native (drop 204 bs)).

(** The loop stores into an array of ten, so eleven rounds are enough to see its end. *)
(* src: cpp/src/command.hpp:420-435 CompositeCommand::read *)
Fixpoint read_slots (fuel : nat) (registry : list (str * A)) (new_id count : Z) (i : nat) (s : list (slot A)) (bb : BinaryBuffer)
  : outcome (list (slot A) * BinaryBuffer) :=
  match fuel with
  | O => Undef NoProgress
  | S fuel =>
      if (Z.of_nat i <? count)%Z then
        let '(bb, ib) := bb_read bb (info_bytes native blank_info) in
        cmd ← create registry (info_of_bytes ib);
        match cmd with
        | None => Ret (s, bb)
        | Some a =>
            let '(bb, (id, m)) := leaf_read new_id Bool_UNKNOWN bb in
            s ← store_at s i (Live (Leaf id m a));
            read_slots fuel registry new_id count (S i) s bb
        end
      else Ret (s, bb)
  end.

(* src: cpp/src/command.hpp:411-437 CompositeCommand::read *)
Definition composite_read (registry : list (str * A)) (new_id : Z) (c : command A) (bb : BinaryBuffer) : outcome (command A * BinaryBuffer) :=
  match c with
  | Leaf id m a => let '(bb, (id, m)) := leaf_read id m bb in Ret (Leaf id m a, bb)
  | Composite id m s n =>
      let '(bb, (id, m)) := command_read id m bb in
      let '(bb, cb) := bb_read bb (int_bytes native 8 (Z.of_nat n)) in
      let count := memory_value native cb in
      '(s, bb) ← read_slots (S MAX_COMMANDS) registry new_id count 0 s bb;
      Ret (Composite id m s (Z.to_nat count), bb)
  end.

(** *** Facts *)

Lemma info_of_info_bytes i :
  info_ok i -> in_signed 16 (mpublic_interface_version i) = true -> in_signed 16 (mprotected_interface_version i) = true ->
  in_signed 16 (mprivate_interface_version i) = true -> info_of_bytes (info_bytes native i) = i.
Proof.
  intros [H1 H2] H3 H4 H5. unfold MAX_IDENTIFIER_SIZE in *. destruct i as [ns cn a b c]; simpl in *. unfold info_of_bytes, info_bytes; cbn [mnamespace mclass_name mpublic_interface_version mprotected_interface_version mprivate_interface_version].
  pose proof (int_bytes_length native 2 a) as La. pose proof (int_bytes_length native 2 b) as Lb.
  assert (D1 : forall r, drop 100 (ns ++ r) = r) by (intros r; by rewrite drop_app_length').
  assert (D2 : forall r, drop 200 (ns ++ cn ++ r) = r).
  { intros r. rewrite app_assoc, drop_app_length'; [done|]. rewrite length_app. lia. }
  assert (D3 : forall r, drop 202 (ns ++ cn ++ int_bytes native 2 a ++ r) = r).
  { intros r. rewrite !app_assoc, drop_app_length'; [done|]. rewrite !length_app. lia. }
  assert (D4 : forall r, drop 204 (ns ++ cn ++ int_bytes native 2 a ++ int_bytes native 2 b ++ r) = r).
  { intros r. rewrite !app_assoc, drop_app_length'; [done|]. rewrite !length_app. lia. }
  rewrite D1, D2, D3, D4. rewrite !take_app_length' by done.
  by rewrite !(int_of_int_bytes native 2) by (lia || done).
Qed.

Definition versions_ok (i : ClassInfo) : Prop :=
  info_ok i /\ in_signed 16 (mpublic_interface_version i) = true /\ in_signed 16 (mprotected_interface_version i) = true
  /\ in_signed 16 (mprivate_interface_version i) = true.

Definition command_ok (l : Z * Bool * A) : Prop :=
  in_signed 64 (fst (fst l)) = true /\ in_signed 8 (bool_mvalue (snd (fst l))) = true.

Lemma command_read_holds id m id' m' b q :
  in_signed 64 id = true -> in_signed 8 (bool_mvalue m) = true ->
  holds b (derived_encoding native OBJECT_INFO COMMAND_INFO (command_obj id m) ++ q) ->
  exists b', command_read id' m' b = (b', (id, m)) /\ holds b' q.
Proof.
  intros Hi Hm Hb. unfold command_read. destruct command_infos as (H1 & _). destruct static_infos as (_ & _ & H2 & _).
  destruct (derived_read_holds native OBJECT_INFO COMMAND_INFO (command_obj id m) (command_obj id' m') b q H2 H1 Hi) as (b' & -> & Hb').
  - by eexists.
  - unfold data_size, obj_data; simpl. by rewrite !int_bytes_length.
  - by eexists.
  - done.
  - exists b'. split; [|done]. f_equal. unfold obj_command, command_obj. cbn [mid mdata from_option Datatypes.id].
    rewrite (int_of_int_bytes native 1) by (lia || done). by destruct m.
Qed.

Definition leaf_encoding (l : Z * Bool * A) : list byte :=
  info_bytes native (leaf_info (snd l)) ++ derived_encoding native OBJECT_INFO COMMAND_INFO (command_obj (fst (fst l)) (snd (fst l))).

(** A registry that finds the class of each of the leaves. *)
Definition registered (registry : list (str * A)) (a : A) : Prop :=
  versions_ok (leaf_info a) /\ create registry (leaf_info a) = Ret (Some a).

Lemma read_slots_leaves registry new_id (todo : list (Z * Bool * A)) : forall (read : list (Z * Bool * A)) fuel b q,
  Forall (fun l => command_ok l /\ registered registry (snd l)) todo -> length todo < fuel -> length (read ++ todo) <= MAX_COMMANDS ->
  holds b (flat_map leaf_encoding todo ++ q) ->
  exists b', read_slots fuel registry new_id (Z.of_nat (length (read ++ todo))) (length read)
      (leaves read ++ replicate (MAX_COMMANDS - length read) Null) b
    = Ret (leaves (read ++ todo) ++ replicate (MAX_COMMANDS - length (read ++ todo)) Null, b') /\ holds b' q.
Proof.
  induction todo as [|[[id m] a] todo IH]; intros read fuel b q Hf Hfuel Hlen Hb; (destruct fuel as [|fuel]; [simpl in Hfuel; lia|]); cbn [read_slots].
  - rewrite app_nil_r, Z.ltb_irrefl. by exists b.
  - rewrite length_app in Hlen. simpl in Hlen, Hfuel. rewrite (proj2 (Z.ltb_lt _ _)) by (rewrite length_app; simpl; lia).
    inversion Hf as [|? ? [[Hid Hm] [(Hok & Hv) Hreg]] Hrest]; subst. simpl in Hb. unfold leaf_encoding at 1 in Hb. rewrite <- !app_assoc in Hb. cbn [fst snd] in *.
    destruct (holds_read _ _ _ (info_bytes native blank_info) Hb) as (b1 & -> & H1); [by rewrite blank_info_length, info_bytes_length|].
    rewrite info_of_info_bytes by (done || apply Hv). rewrite Hreg. cbn [mbind outcome_bind].
    unfold leaf_read. destruct (command_read_holds id m new_id Bool_UNKNOWN b1 _ Hid Hm H1) as (b2 & -> & H2).
    assert (Hst : store_at (leaves read ++ replicate (MAX_COMMANDS - length read) Null) (length read) (Live (Leaf id m a))
      = Ret (leaves (read ++ [(id, m, a)]) ++ replicate (MAX_COMMANDS - length (read ++ [(id, m, a)])) Null)).
    { unfold store_at. rewrite length_app, leaves_length, length_replicate, decide_True by lia. f_equal.
      rewrite leaves_app, length_app. cbn [length]. rewrite insert_app_r_alt by (rewrite leaves_length; lia).
      rewrite leaves_length, Nat.sub_diag, <- app_assoc.
      by replace (MAX_COMMANDS - length read) with (S (MAX_COMMANDS - (length read + 1))) by lia. }
    rewrite Hst. cbn [mbind outcome_bind].
    assert (E : read ++ (id, m, a) :: todo = (read ++ [(id, m, a)]) ++ todo) by (by rewrite <- app_assoc).
    destruct (IH (read ++ [(id, m, a)]) fuel b2 q Hrest) as (b' & Hr & Hb'); [lia|rewrite !length_app; simpl; lia|done|].
    exists b'. rewrite E, <- Hr. split; [|done].
    by replace (S (length read)) with (length (read ++ [(id, m, a)])) by (rewrite length_app; simpl; lia).
Qed.

Lemma cmd_write_composite (id : Z) (m : Bool) (ls : list (Z * Bool * A)) (b : BinaryBuffer) (q : list byte) :
  holds b q -> exists b', cmd_write (composite_of id m ls) b = Ret b' /\
    holds b' (q ++ info_bytes native COMPOSITE_INFO ++ derived_encoding native OBJECT_INFO COMMAND_INFO (command_obj id m)
                ++ int_bytes native 8 (Z.of_nat (length ls)) ++ flat_map leaf_encoding ls).
Proof.
  intros Hb. unfold composite_of. cbn [cmd_write].
  set (go := fix go (s : list (slot A)) (n : nat) (bb : BinaryBuffer) : outcome BinaryBuffer :=
        match n with
        | O => Ret bb
        | S n => match s with [] => Undef OutOfBounds | x :: s => bb ← slot_write x bb; go s n bb end
        end).
  assert (Hgo : forall ls rest b q, holds b q -> exists b', go (leaves ls ++ rest) (length ls) b = Ret b' /\ holds b' (q ++ flat_map leaf_encoding ls)).
  { clear. induction ls as [|[[i m] a] ls IH]; intros rest b q Hb; simpl.
    - exists b. rewrite app_nil_r. by destruct rest.
    - rewrite app_assoc. apply IH. unfold leaf_write, command_write, leaf_encoding. rewrite app_assoc.
      by apply derived_write_holds, holds_write. }
  destruct (Hgo ls (replicate (MAX_COMMANDS - length ls) Null) _ _ (holds_write _ _ (int_bytes native 8 (Z.of_nat (length ls)))
    (derived_write_holds native OBJECT_INFO COMMAND_INFO (command_obj id m) _ _ (holds_write _ _ (info_bytes native COMPOSITE_INFO) Hb)))) as (b' & Hw & Hb').
  exists b'. split; [exact Hw|]. by rewrite <- !app_assoc in Hb'.
Qed.

Lemma count_bytes n : (Z.of_nat n < two64)%Z -> memory_value native (int_bytes native 8 (Z.of_nat n)) = Z.of_nat n.
Proof.
  intros. unfold int_bytes. change (256 ^ Z.of_nat 8)%Z with two64. rewrite Z.mod_small by lia.
  apply memory_value_bytes. change (256 ^ Z.of_nat 8)%Z with two64. lia.
Qed.

(** [size()] of a composite of leaf commands is short of what [write] puts out: the class description that comes
    first and the inherited part of the composite are not counted, nor is the class description of each command. *)
Theorem sizes_written (id : Z) (m : Bool) (ls : list (Z * Bool * A)) (Hok : Forall (fun l => info_ok (leaf_info (snd l))) ls) :
  exists k b, cmd_size (composite_of id m ls) = Ret k /\ cmd_write (composite_of id m ls) new_bb = Ret b
  /\ length (contents_of b) = k + command_size + info_size * length ls.
Proof.
  destruct (cmd_write_composite id m ls new_bb [] holds_new) as (b & Hw & [_ Hc]). exists (8 + info_size + command_size * length ls), b.
  split; [|split; [done|]].
  - unfold composite_of. cbn [cmd_size]. generalize (replicate (MAX_COMMANDS - length ls) (@Null A)) as rest, (8 + info_size). clear.
    induction ls as [|[[i m] a] ls IH]; intros rest k; cbn [leaves map app length].
    + rewrite Nat.mul_0_r, Nat.add_0_r. by destruct rest.
    + cbn [slot_size cmd_size mbind outcome_bind]. rewrite IH. f_equal. lia.
  - destruct command_infos as (Hcm & _ & Hci & _). destruct static_infos as (_ & _ & Hob & _).
    assert (Hd : forall i b, length (derived_encoding native OBJECT_INFO COMMAND_INFO (command_obj i b)) = command_size).
    { intros i b'. unfold derived_encoding, obj_encoding, obj_data, command_obj. cbn [mdata mid from_option Datatypes.id].
      rewrite !length_app, !info_bytes_length, !int_bytes_length by done. reflexivity. }
    assert (Hl : length (flat_map leaf_encoding ls) = (info_size + command_size) * length ls).
    { clear - Hok Hd. induction Hok as [|l ls Hl _ IH]; [simpl; lia|]. cbn [flat_map length]. unfold leaf_encoding at 1.
      rewrite !length_app, Hd, info_bytes_length, IH by done. lia. }
    rewrite Hc, !length_app, Hl, Hd, info_bytes_length, int_bytes_length by done. cbn [length]. lia.
Qed.

(** C15. A composite of leaf commands whose classes are registered is read back from its bytes, with its id,
    its record and every command's class, id and record, provided that the reader has taken the class
    description that comes first, as the reader of a nested command does. *)
Theorem composite_binary_roundtrip (registry : list (str * A)) (new_id id id0 : Z) (m m0 : Bool) (ls : list (Z * Bool * A))
    (Hls : length ls <= MAX_COMMANDS) (Hid : in_signed 64 id = true) (Hm : in_signed 8 (bool_mvalue m) = true)
    (Hreg : Forall (fun l => command_ok l /\ registered registry (snd l)) ls) :
  exists b b1 b2, cmd_write (composite_of id m ls) new_bb = Ret b
  /\ bb_read b (info_bytes native blank_info) = (b1, info_bytes native COMPOSITE_INFO)
  /\ composite_read registry new_id (composite_of id0 m0 []) b1 = Ret (composite_of id m ls, b2)
  /\ contents_of b2 = [].
Proof.
  destruct (cmd_write_composite id m ls new_bb [] holds_new) as (b & Hw & Hb). cbn [app] in Hb.
  destruct command_infos as (_ & _ & Hci & _).
  destruct (holds_read _ _ _ (info_bytes native blank_info) Hb) as (b1 & Hr1 & H1); [by rewrite blank_info_length, info_bytes_length|].
  destruct (command_read_holds id m id0 m0 b1 _ Hid Hm H1) as (b2 & Hr2 & H2).
  destruct (holds_read _ _ _ (int_bytes native 8 (Z.of_nat 0)) H2) as (b3 & Hr3 & H3); [by rewrite !int_bytes_length|].
  rewrite <- (app_nil_r (flat_map _ _)) in H3.
  destruct (read_slots_leaves registry new_id ls [] (S MAX_COMMANDS) b3 [] Hreg) as (b4 & Hr4 & H4 & H5); [lia|done|done|].
  exists b, b1, b4. split; [done|]. split; [done|]. split; [|done].
  unfold composite_read, composite_of at 1. rewrite Hr2. cbn [length]. rewrite Hr3.
  rewrite count_bytes by (unfold MAX_COMMANDS, two64 in *; lia). cbn [app length] in Hr4.
  rewrite Hr4. cbn [mbind outcome_bind app]. by rewrite Nat2Z.id.
Qed.

(** Reading a composite straight from what [write] produced, without taking the class description first,
    goes wrong without an error: both class checks fail, the count of commands is read from the bytes of the
    id, and the composite is left with as many null commands as the number of its id says, so that running
    it dereferences a null pointer. *)
Theorem composite_read_mismatch (registry : list (str * A)) (new_id id id0 : Z) (m m0 : Bool) (ls : list (Z * Bool * A))
    {Wd} (leaf_run : A -> Wd -> Wd * option exn) (w : Wd)
    (Hid : (0 < id)%Z /\ in_signed 64 id = true) (Hm0 : in_signed 8 (bool_mvalue m0) = true) (Hreg : create registry COMMAND_INFO = Ret None) :
  exists b b', cmd_write (composite_of id m ls) new_bb = Ret b
  /\ composite_read registry new_id (composite_of id0 m0 []) b
      = Ret (Composite id0 m0 (replicate MAX_COMMANDS Null) (Z.to_nat id), b')
  /\ snd (run leaf_run (Composite id0 m0 (replicate MAX_COMMANDS Null) (Z.to_nat id)) w) = Undefined NullDereference.
Proof.
  destruct Hid as [Hpos Hid]. destruct (cmd_write_composite id m ls new_bb [] holds_new) as (b & Hw & Hb). cbn [app] in Hb.
  destruct command_infos as (Hcm & _ & Hci & _ & _ & Hne1 & Hne2). destruct static_infos as (_ & _ & Hok & _).
  assert (Hneq : forall i j, info_ok i -> info_ok j -> mclass_name i <> mclass_name j -> info_equal (info_bytes native i) (info_bytes native j) = false).
  { intros i j [Hi1 Hi2] [Hj1 Hj2] Hn. apply bool_decide_eq_false. intros E. unfold info_bytes in E.
    apply app_inj_1 in E as [_ E]; [|congruence]. apply app_inj_1 in E as [E _]; congruence. }
  destruct (holds_read _ _ _ (info_bytes native blank_info) Hb) as (b1 & Hr1 & H1); [by rewrite blank_info_length, info_bytes_length|].
  unfold derived_encoding, obj_encoding in H1. rewrite <- !app_assoc in H1.
  destruct (holds_read _ _ _ (info_bytes native blank_info) H1) as (b2 & Hr2 & H2); [by rewrite blank_info_length, info_bytes_length|].
  destruct (holds_read _ _ _ (int_bytes native 8 (Z.of_nat 0)) H2) as (b3 & Hr3 & H3); [by rewrite !int_bytes_length|].
  destruct (holds_read _ _ _ (info_bytes native blank_info) H3) as (b4 & Hr4 & H4); [by rewrite blank_info_length, info_bytes_length|].
  exists b, b4. split; [done|].
  assert (Hcr : command_read id0 m0 b = (b2, (id0, m0))).
  { unfold command_read, derived_read, obj_read. rewrite Hr1, Hneq by done. cbn [negb]. rewrite Hr2, Hneq by done. cbn [negb].
    f_equal. unfold obj_command, command_obj. cbn [mid mdata from_option Datatypes.id].
    rewrite (int_of_int_bytes native 1) by (lia || done). by destruct m0. }
  assert (Hcount : memory_value native (int_bytes native 8 (mid (command_obj id m))) = id).
  { apply bool_decide_eq_true_1 in Hid. cbn [command_obj mid]. rewrite <- (Z2Nat.id id) at 1 by lia.
    rewrite count_bytes; [lia|]. unfold two64. change (2 ^ (64 - 1))%Z with 9223372036854775808%Z in Hid. lia. }
  split.
  - unfold composite_read, composite_of at 1. rewrite Hcr. cbn [length]. rewrite Hr3, Hcount.
    cbn [read_slots]. rewrite (proj2 (Z.ltb_lt _ _)) by lia. rewrite Hr4.
    rewrite info_of_info_bytes by (done || (by vm_compute)). by rewrite Hreg.
  - rewrite run_composite. destruct (Z.to_nat id) as [|n] eqn:E; [lia|]. done.
Qed.
End serialization.

Lemma null_command_registered :
  exists r, register_type (fun _ : unit => NULLCOMMAND_INFO) [] tt = Ret r /\ registered (fun _ => NULLCOMMAND_INFO) r tt
  /\ create r COMMAND_INFO = Ret None.
Proof. eexists. split; [vm_compute; reflexivity|]. split; [|vm_compute; reflexivity]. split; vm_compute; auto. Qed.

Lemma composite_binary_roundtrip_witness :
  exists r b b1 b2, register_type (fun _ : unit => NULLCOMMAND_INFO) [] tt = Ret r
  /\ cmd_write little_endian (fun _ => NULLCOMMAND_INFO) (composite_of 9 Bool_T [(3%Z, Bool_T, tt); (4%Z, Bool_F, tt)]) new_bb = Ret b
  /\ bb_read b (info_bytes little_endian blank_info) = (b1, info_bytes little_endian COMPOSITE_INFO)
  /\ composite_read little_endian r 77 (composite_of 0 Bool_UNKNOWN []) b1 = Ret (composite_of 9 Bool_T [(3%Z, Bool_T, tt); (4%Z, Bool_F, tt)], b2).
Proof.
  destruct null_command_registered as (r & Hr & Hreg & _). exists r.
  destruct (composite_binary_roundtrip little_endian (fun _ => NULLCOMMAND_INFO) r 77 9 0 Bool_T Bool_UNKNOWN [(3%Z, Bool_T, tt); (4%Z, Bool_F, tt)]
    ltac:(vm_compute; lia) eq_refl eq_refl) as (b & b1 & b2 & H1 & H2 & H3 & _).
  - constructor; [split; [split; reflexivity|exact Hreg]|]. constructor; [split; [split; reflexivity|exact Hreg]|constructor].
  - exists b, b1, b2. split; [exact Hr|]. split; [exact H1|]. split; [exact H2|exact H3].
Defined.

Lemma composite_read_mismatch_witness :
  exists r b b', register_type (fun _ : unit => NULLCOMMAND_INFO) [] tt = Ret r
  /\ cmd_write little_endian (fun _ => NULLCOMMAND_INFO) (composite_of 2 Bool_T [(3%Z, Bool_T, tt)]) new_bb = Ret b
  /\ composite_read little_endian r 77 (composite_of 0 Bool_UNKNOWN []) b = Ret (Composite 0 Bool_UNKNOWN (replicate MAX_COMMANDS Null) 2, b').
Proof.
  destruct null_command_registered as (r & Hr & _ & Hreg). exists r.
  destruct (composite_read_mismatch little_endian (fun _ => NULLCOMMAND_INFO) r 77 2 0 Bool_T Bool_UNKNOWN [(3%Z, Bool_T, tt)]
    (fun (_ : unit) (w : nat) => (w, None)) 0 ltac:(split; [lia|reflexivity]) eq_refl Hreg) as (b & b' & H1 & H2 & _).
  exists b, b'. split; [exact Hr|]. split; [exact H1|exact H2].
Defined.
