(* ===== verification/Ownership.v ===== *)
(** * Who deletes a command (cpp/src/command.hpp)

    Commands sees a composite as a tree of slots.  Here the commands are objects in a store, a composite
    holds ten pointers, and [delete] runs destructors.  An object's lifetime ends when its destructor starts,
    so its cell is taken out first: deleting it again, or using it, is a use after free.  Addresses are not
    given out twice.  The theorems say when every command is deleted exactly once, and relate the store to
    the trees of Commands. *)
From stdpp Require Import gmap.
From S2P Require Import Prelude CS CodeUtil Bytes Buffers Objects Commands.

Section Ownership.
Context {A : Type}.
Implicit Types (a : A) (p q k : nat) (ks : list nat).

(** A command in memory; [None] is the null pointer. *)
(* src: cpp/src/command.hpp:262-266 CompositeCommand::Data *)
Inductive cell : Type :=
  | LeafCell (id : Z) (mok : Bool) (a : A)
  | CompositeCell (id : Z) (mok : Bool) (mcommands : list (option nat)) (mindex : nat).

(** The store, with the generator that all commands draw their ids from. *)
Record store : Type := mk_store { next_address : nat; cells : gmap nat cell; mgenerator : Generator }.
Implicit Types (s : store) (h : gmap nat cell) (cs : list (option nat)).

Definition with_cells s h : store := mk_store (next_address s) h (mgenerator s).
Definition allocate s (c : cell) : store * nat :=
  (mk_store (S (next_address s)) (<[next_address s := c]> (cells s)) (mgenerator s), next_address s).

(* src: cpp/src/command.hpp:101-101 Command::Command *)
Definition command_id (aid : Z) s : outcome (store * Z) :=
  if (aid =? NULL_ID)%Z then '(g, i) ← get_id (mgenerator s); Ret (mk_store (next_address s) (cells s) g, i) else Ret (s, aid).
(* src: cpp/src/command.hpp:210-210 NullCommand::NullCommand *)
Definition new_leaf a s : outcome (store * nat) := '(s, i) ← command_id NULL_ID s; Ret (allocate s (LeafCell i Bool_UNKNOWN a)).
(* src: cpp/src/command.hpp:315-318 CompositeCommand::CompositeCommand *)
Definition new_composite (aid : Z) s : outcome (store * nat) :=
  '(s, i) ← command_id aid s; Ret (allocate s (CompositeCell i Bool_UNKNOWN (replicate MAX_COMMANDS None) 0)).

(** [get] asks the factory, which makes a new composite (Factory). *)
(* src: cpp/src/command.hpp:339-342 CompositeCommand::get *)
Definition get_composite (aid : Z) s : outcome (store * nat) := new_composite aid s.
(* src: cpp/src/command.hpp:119-126 Command::initialize *)
Definition initialize_command (aid : Z) (data : Bool) s p : outcome (store * bool) :=
  '(s, i) ← command_id aid s;
  match cells s !! p with
  | Some (LeafCell _ _ a) => Ret (with_cells s (<[p := LeafCell i data a]> (cells s)), true)
  | Some (CompositeCell _ _ cs n) => Ret (with_cells s (<[p := CompositeCell i data cs n]> (cells s)), true)
  | None => Undef UseAfterFree
  end.
(* src: cpp/src/command.hpp:331-337 CompositeCommand::initialize *)
Definition initialize_composite (aid : Z) s p : outcome (store * bool) :=
  '(s, i) ← command_id aid s;
  match cells s !! p with
  | Some (LeafCell _ _ _) => Undef InvalidIterator
  | Some (CompositeCell _ m cs n) => Ret (with_cells s (<[p := CompositeCell i m cs n]> (cells s)), true)
  | None => Undef UseAfterFree
  end.

(* src: cpp/src/command.hpp:363-363 CompositeCommand::add *)
Definition add_command s p (cmd : option nat) : outcome store :=
  match cells s !! p with
  | None => Undef UseAfterFree
  | Some (LeafCell _ _ _) => Undef InvalidIterator
  | Some (CompositeCell i m cs n) =>
      if decide (MAX_COMMANDS <= n) then log_and_throw too_many
      else cs ← store_at cs n cmd; Ret (with_cells s (<[p := CompositeCell i m cs (S n)]> (cells s)))
  end.

(** The loop [for (i = 0; i < mindex; ++i)] over the pointers, shared by the destructor and by [clone]. *)
Fixpoint for_commands {St} (body : St -> option nat -> outcome St) cs (n : nat) (st : St) : outcome St :=
  match n with
  | O => Ret st
  | S n => match cs with [] => Undef OutOfBounds | p :: cs => st ← body st p; for_commands body cs n st end
  end.

(* src: cpp/src/command.hpp:277-284 CompositeCommand::Data::free_commands *)
Definition free_commands (del : gmap nat cell -> option nat -> outcome (gmap nat cell)) cs (n : nat) h : outcome (gmap nat cell) :=
  for_commands del cs n h.

(** [delete p].  Every level of the recursion takes a cell away, so one more than the cells is enough fuel. *)
(* src: cpp/src/command.hpp:320-323 CompositeCommand::~CompositeCommand *)
Fixpoint delete_command (fuel : nat) h (p : option nat) : outcome (gmap nat cell) :=
  match fuel, p with
  | O, _ => Undef NoProgress
  | S _, None => Ret h
  | S fuel, Some p =>
      match h !! p with
      | None => Undef UseAfterFree
      | Some (LeafCell _ _ _) => Ret (delete p h)
      | Some (CompositeCell _ _ cs n) => free_commands (delete_command fuel) cs n (delete p h)
      end
  end.
Definition destroy s (p : option nat) : outcome store :=
  h ← delete_command (S (size (cells s))) (cells s) p; Ret (with_cells s h).

(** [clone] of a leaf is [pd::clone], which asks a [NewFactory] for an object and does not look at the one
    to be copied.  [set_index] is the copying of [mindex] before the loop. *)
Definition set_index s p (n : nat) : store :=
  match cells s !! p with
  | Some (CompositeCell i m cs _) => with_cells s (<[p := CompositeCell i m cs n]> (cells s))
  | _ => s
  end.
(* src: cpp/src/clone_util.hpp:13-18 clone *)
Definition clone_leaf a s : outcome (store * nat) := new_leaf a s.

(** The pointer that [clone] returns dies at the end of the statement, after [add] has stored its value. *)
(* src: cpp/src/command.hpp:372-375 CompositeCommand::clone *)
Definition clone_into (cl : store -> nat -> outcome (store * nat)) (c : nat) s (p : option nat) : outcome store :=
  match p with
  | None => Undef NullDereference
  | Some p => '(s, q) ← cl s p; s ← add_command s c (Some q); destroy s (Some q)
  end.
(* src: cpp/src/command.hpp:365-378 CompositeCommand::clone *)
Fixpoint clone_command (fuel : nat) s p : outcome (store * nat) :=
  match fuel with
  | O => Undef NoProgress
  | S fuel =>
      match cells s !! p with
      | None => Undef UseAfterFree
      | Some (LeafCell _ _ a) => clone_leaf a s
      | Some (CompositeCell i m cs n) =>
          noexcept ('(s, c) ← new_composite i s;
            s ← for_commands (clone_into (clone_command fuel) c) cs n (set_index s c n); Ret (s, c))
      end
  end.

(** ** Ownership *)

(** [owns h p ks]: the commands that [delete p] will reach are [ks], in the order it reaches them. *)
Inductive owns h : nat -> list nat -> Prop :=
  | owns_leaf p i m a : h !! p = Some (LeafCell i m a) -> owns h p [p]
  | owns_composite p i m cs n ks :
      h !! p = Some (CompositeCell i m cs n) -> n <= length cs -> owns_all h (take n cs) ks -> owns h p (p :: ks)
with owns_all h : list (option nat) -> list nat -> Prop :=
  | owns_nil : owns_all h [] []
  | owns_null cs ks : owns_all h cs ks -> owns_all h (None :: cs) ks
  | owns_some p cs ks ks' : owns h p ks -> owns_all h cs ks' -> owns_all h (Some p :: cs) (ks ++ ks').
Scheme owns_mut := Induction for owns Sort Prop with owns_all_mut := Induction for owns_all Sort Prop.
Combined Scheme owns_ind2 from owns_mut, owns_all_mut.

(** Taking the cells [ks] away one after the other. *)
Fixpoint erase_all ks h : outcome (gmap nat cell) :=
  match ks with
  | [] => Ret h
  | k :: ks => match h !! k with Some _ => erase_all ks (delete k h) | None => Undef UseAfterFree end
  end.
Definition without ks h : gmap nat cell := filter (fun kv => kv.1 ∉ ks) h.

Lemma without_lookup ks h k : without ks h !! k = if decide (k ∈ ks) then None else h !! k.
Proof.
  unfold without. destruct (decide (k ∈ ks)) as [Hk|Hk].
  - apply map_lookup_filter_None. right. intros x _ Hn. by apply Hn.
  - destruct (h !! k) as [c|] eqn:E.
    + by apply map_lookup_filter_Some.
    + apply map_lookup_filter_None. by left.
Qed.

Lemma without_nil h : without [] h = h.
Proof. apply map_eq. intros k. rewrite without_lookup. case_decide; set_solver. Qed.

Lemma erase_all_app ks ks' h : erase_all (ks ++ ks') h = h ← erase_all ks h; erase_all ks' h.
Proof. revert h. induction ks as [|k ks IH]; intros h; simpl; [done|]. destruct (h !! k); [apply IH|done]. Qed.

Lemma size_delete_present h k c : h !! k = Some c -> size h = S (size (delete k h)).
Proof. intros E. rewrite <- (insert_delete_id h k c E) at 1. by rewrite map_size_insert_None by apply lookup_delete_eq. Qed.

Lemma erase_all_subseteq ks h h' : erase_all ks h = Ret h' -> h' ⊆ h /\ size h' <= size h.
Proof.
  revert h. induction ks as [|k ks IH]; intros h; simpl; [by intros [= <-]|].
  destruct (h !! k) as [c|] eqn:E; [|done]. intros [H1 H2]%IH. pose proof (size_delete_present _ _ _ E).
  split; [|lia]. etrans; [exact H1|]. apply delete_subseteq.
Qed.

Lemma erase_all_spec ks h :
  (forall k, k ∈ ks -> is_Some (h !! k)) -> erase_all ks h = if decide (NoDup ks) then Ret (without ks h) else Undef UseAfterFree.
Proof.
  enough (G : forall ks h, erase_all ks h = if decide (NoDup ks /\ Forall (fun k => k ∈ dom h) ks) then Ret (without ks h) else Undef UseAfterFree).
  { intros H. rewrite G. apply decide_ext. split; [tauto|]. intros Hn. split; [done|]. apply Forall_forall. intros k Hk. apply elem_of_dom. auto. }
  clear ks h. induction ks as [|k ks IH]; intros h; cbn [erase_all].
  - rewrite decide_True by (split; constructor). by rewrite without_nil.
  - destruct (h !! k) as [c|] eqn:E.
    + rewrite IH. assert (Hiff : (NoDup ks /\ Forall (fun j => j ∈ dom (delete k h)) ks) <-> (NoDup (k :: ks) /\ Forall (fun j => j ∈ dom h) (k :: ks))).
      { rewrite NoDup_cons, !Forall_forall. setoid_rewrite dom_delete. setoid_rewrite elem_of_difference. setoid_rewrite elem_of_cons.
        assert (k ∈ dom h) by (apply elem_of_dom; eauto). split.
        - intros [H1 H2]. repeat split; [|done|].
          + intros Hk. by apply H2 in Hk as [_ Hk%not_elem_of_singleton].
          + intros j [->|Hj]; [done|]. by apply H2.
        - intros [[H1 H2] H3]. split; [done|]. intros j Hj. split; [auto|]. intros ->%elem_of_singleton. done. }
      case_decide as D1; case_decide as D2; [|by rewrite Hiff in D1|by rewrite <- Hiff in D2|done].
      f_equal. apply map_eq. intros j. rewrite !without_lookup. destruct (decide (j = k)) as [->|Hne].
      * rewrite (decide_True (P := k ∈ k :: ks)) by set_solver. case_decide; [done|]. apply lookup_delete_eq.
      * rewrite lookup_delete_ne by done. repeat case_decide; set_solver.
    + rewrite decide_False; [done|]. intros [_ H]. apply Forall_cons in H as [H _]. by apply not_elem_of_dom in E.
Qed.

Lemma for_commands_take {St} (body : St -> option nat -> outcome St) cs n st :
  for_commands body cs n st = for_commands body (take n cs) n st.
Proof. revert cs st. induction n as [|n IH]; intros [|p cs] st; simpl; try done. destruct (body st p); [apply IH|done..]. Qed.

Lemma owned_present h :
  (forall p ks, owns h p ks -> forall k, k ∈ ks -> is_Some (h !! k)) /\ (forall cs ks, owns_all h cs ks -> forall k, k ∈ ks -> is_Some (h !! k)).
Proof. apply owns_ind2; intros; set_solver. Qed.

Lemma delete_null fuel h : 0 < fuel -> delete_command fuel h None = Ret h.
Proof. by destruct fuel; [lia|]. Qed.

(** [delete] reaches the commands it owns in order, and stops at the first that is gone. *)
Lemma delete_erases h0 :
  (forall p ks, owns h0 p ks -> forall h fuel, h ⊆ h0 -> size h < fuel -> delete_command fuel h (Some p) = erase_all ks h)
  /\ (forall cs ks, owns_all h0 cs ks -> forall h fuel, h ⊆ h0 -> size h < fuel ->
      for_commands (delete_command fuel) cs (length cs) h = erase_all ks h).
Proof.
  apply owns_ind2.
  - intros p i m a Hp h fuel Hh Hf. destruct fuel as [|fuel]; [lia|]. cbn [delete_command erase_all].
    destruct (h !! p) as [c|] eqn:E; [|done]. by rewrite (lookup_weaken_inv _ _ _ _ _ E Hh Hp).
  - intros p i m cs n ks Hp Hn _ IH h fuel Hh Hf. destruct fuel as [|fuel]; [lia|]. cbn [delete_command erase_all].
    destruct (h !! p) as [c|] eqn:E; [|done]. rewrite (lookup_weaken_inv _ _ _ _ _ E Hh Hp).
    unfold free_commands. rewrite for_commands_take. pose proof (size_delete_present _ _ _ E) as Hs.
    rewrite <- (length_take_le cs n) at 2 by done. apply IH; [|lia]. etrans; [apply delete_subseteq|done].
  - done.
  - intros cs ks _ IH h fuel Hh Hf. cbn [length for_commands]. rewrite delete_null by lia. cbn [mbind outcome_bind]. by apply IH.
  - intros p cs ks ks' _ IH1 _ IH2 h fuel Hh Hf. cbn [length for_commands]. rewrite IH1, erase_all_app by done.
    destruct (erase_all ks h) as [h'| |] eqn:E; [|done..]. cbn [mbind outcome_bind]. apply erase_all_subseteq in E as [E1 E2].
    apply IH2; [by etrans|lia].
Qed.

Lemma destroy_spec s p ks :
  owns (cells s) p ks -> destroy s (Some p) = if decide (NoDup ks) then Ret (with_cells s (without ks (cells s))) else Undef UseAfterFree.
Proof.
  intros Ho. unfold destroy. rewrite (proj1 (delete_erases _) _ _ Ho) by (done || lia).
  rewrite erase_all_spec by (apply (proj1 (owned_present _) _ _ Ho)). by case_decide.
Qed.

(** What a tree owns depends on its own cells only. *)
Lemma owns_frame h h' :
  (forall p ks, owns h p ks -> (forall k, k ∈ ks -> h' !! k = h !! k) -> owns h' p ks)
  /\ (forall cs ks, owns_all h cs ks -> (forall k, k ∈ ks -> h' !! k = h !! k) -> owns_all h' cs ks).
Proof.
  apply owns_ind2.
  - intros p i m a Hp Hk. eapply owns_leaf. rewrite Hk by set_solver. exact Hp.
  - intros p i m cs n ks Hp Hn _ IH Hk. eapply owns_composite; [rewrite Hk by set_solver; exact Hp|done|]. apply IH. set_solver.
  - constructor.
  - intros. constructor. auto.
  - intros. constructor; [apply H|apply H0]; set_solver.
Qed.

(** Nor does it depend on ids, records and actions: only on the pointers. *)
Definition links (c : cell) : option (list (option nat) * nat) :=
  match c with LeafCell _ _ _ => None | CompositeCell _ _ cs n => Some (cs, n) end.

Lemma owns_links h h' : (forall k, links <$> h' !! k = links <$> h !! k) ->
  (forall p ks, owns h p ks -> owns h' p ks) /\ (forall cs ks, owns_all h cs ks -> owns_all h' cs ks).
Proof.
  intros Hl. apply owns_ind2; try by constructor.
  - intros p i m a Hp. specialize (Hl p). rewrite Hp in Hl. destruct (h' !! p) as [[i' m' a'|]|] eqn:E; try discriminate Hl. by eapply owns_leaf.
  - intros p i m cs n ks Hp Hn _ IH. specialize (Hl p). rewrite Hp in Hl.
    destruct (h' !! p) as [[|i' m' cs' n']|] eqn:E; try discriminate Hl. injection Hl as -> ->. by eapply owns_composite.
Qed.

Lemma initialize_links aid data s p s' b : initialize_command aid data s p = Ret (s', b) ->
  (forall k, links <$> cells s' !! k = links <$> cells s !! k) /\ next_address s' = next_address s.
Proof.
  unfold initialize_command, command_id. intros H. apply outcome_bind_Ret_inv in H as ([s1 i] & H1 & H2).
  assert (Hs1 : cells s1 = cells s /\ next_address s1 = next_address s).
  { destruct (aid =? NULL_ID)%Z; [|by injection H1 as <- _]. apply outcome_bind_Ret_inv in H1 as ([g j] & _ & H1). by injection H1 as <- _. }
  destruct Hs1 as [E1 E2]. rewrite E1 in H2.
  destruct (cells s !! p) as [[i0 m0 a0|i0 m0 cs n]|] eqn:E; [| |done]; injection H2 as <- _; cbn; (split; [|done]);
    intros k; (destruct (decide (k = p)) as [->|Hne]; [by rewrite lookup_insert_eq, E|by rewrite lookup_insert_ne by done]).
Qed.

Lemma owns_all_snoc h cs ks q kq : owns_all h cs ks -> owns h q kq -> owns_all h (cs ++ [Some q]) (ks ++ kq).
Proof.
  intros H Hq. induction H as [|cs ks _ IH|p cs ks ks' Hp _ IH]; simpl.
  - rewrite <- (app_nil_r kq). constructor; [done|constructor].
  - by constructor.
  - rewrite <- app_assoc. by constructor.
Qed.

(** [add] gives the tree of the command to the composite. *)
Lemma add_owns_gen s p ks q kq s' :
  owns (cells s) p (p :: ks) -> owns (cells s) q kq -> p ∉ ks -> p ∉ kq -> add_command s p (Some q) = Ret s' ->
  owns (cells s') p (p :: ks ++ kq) /\ (forall k, k <> p -> cells s' !! k = cells s !! k) /\ dom (cells s') = dom (cells s)
  /\ next_address s' = next_address s.
Proof.
  intros Hp Hq H1 Hpq. unfold add_command. inversion Hp as [? i m a E|? i m cs n ? E Hn Hall]; subst; rewrite E; [done|].
  case_decide as Hmax; [done|]. unfold store_at. case_decide as Hlen; [|done]. cbn [mbind outcome_bind]. intros [= <-]. cbn.
  split; [|split; [|split]].
  - eapply owns_composite; [apply lookup_insert_eq|rewrite length_insert; lia|]. rewrite (take_S_r _ _ (Some q)) by by apply list_lookup_insert_eq.
    rewrite take_insert_ge by lia. apply owns_all_snoc.
    + apply (proj2 (owns_frame _ _) _ _ Hall). intros k Hk. apply lookup_insert_ne. by intros ->.
    + apply (proj1 (owns_frame _ _) _ _ Hq). intros k Hk. apply lookup_insert_ne. by intros ->.
  - intros k Hk. by apply lookup_insert_ne.
  - apply dom_insert_lookup_L. eauto.
  - done.
Qed.

Lemma owns_head h p ks : owns h p ks -> exists ks', ks = p :: ks'.
Proof. destruct 1; eauto. Qed.

Lemma add_owns s p kp q kq s' :
  owns (cells s) p kp -> owns (cells s) q kq -> NoDup (kp ++ kq) -> add_command s p (Some q) = Ret s' ->
  owns (cells s') p (kp ++ kq) /\ (forall k, k <> p -> cells s' !! k = cells s !! k) /\ dom (cells s') = dom (cells s)
  /\ next_address s' = next_address s.
Proof.
  intros Hp Hq Hnd Ha. destruct (owns_head _ _ _ Hp) as [ks ->]. apply NoDup_app in Hnd as (H1 & H2 & _).
  apply NoDup_cons in H1 as [H1 _]. apply (add_owns_gen s p ks q kq s'); [done..|apply H2; set_solver|done].
Qed.

(** A command that is given to a composite twice is deleted twice by it. *)
Theorem given_twice s p kp q kq s1 s2 (Hp : owns (cells s) p kp) (Hq : owns (cells s) q kq) (Hnd : NoDup (kp ++ kq))
    (H1 : add_command s p (Some q) = Ret s1) (H2 : add_command s1 p (Some q) = Ret s2) : destroy s2 (Some p) = Undef UseAfterFree.
Proof.
  destruct (add_owns _ _ _ _ _ _ Hp Hq Hnd H1) as (Hp1 & Hfr & _).
  destruct (owns_head _ _ _ Hp) as [ks ->]. destruct (owns_head _ _ _ Hq) as [ks' ->].
  pose proof Hnd as (Hks & Hkq & _)%NoDup_app. apply NoDup_cons in Hks as [Hks _].
  assert (Hpq : p ∉ q :: ks') by (apply Hkq; by left).
  assert (Hq1 : owns (cells s1) q (q :: ks')).
  { apply (proj1 (owns_frame _ _) _ _ Hq). intros k Hk. apply Hfr. by intros ->. }
  destruct (add_owns_gen s1 p (ks ++ q :: ks') q _ s2 Hp1 Hq1) as (Ho & _); [by rewrite elem_of_app; intros []|done..|].
  rewrite (destroy_spec _ _ _ Ho), decide_False; [done|]. intros Hn%NoDup_cons. destruct Hn as [_ Hn].
  apply NoDup_app in Hn as (_ & Hn & _). apply (Hn q); [rewrite elem_of_app; right|]; by left.
Qed.

(** ** A client that gives each command away at most once

    The client makes commands, initializes them again, gives one it holds to a composite it holds, and deletes what it holds. *)
Inductive client : store * list nat -> store * list nat -> Prop :=
  | client_leaf s rs s' a p : new_leaf a s = Ret (s', p) -> client (s, rs) (s', p :: rs)
  | client_composite s rs s' aid p : new_composite aid s = Ret (s', p) -> client (s, rs) (s', p :: rs)
  | client_give s rs s' p q rs' : rs ≡ₚ p :: q :: rs' -> add_command s p (Some q) = Ret s' -> client (s, rs) (s', p :: rs')
  | client_initialize s rs s' p aid data b : initialize_command aid data s p = Ret (s', b) -> client (s, rs) (s', rs)
  | client_delete s rs s' p rs' : rs ≡ₚ p :: rs' -> destroy s (Some p) = Ret s' -> client (s, rs) (s', rs').

(** The commands in the store are the disjoint trees of what the client holds. *)
Definition forest s (rs : list nat) : Prop :=
  exists trees : list (nat * list nat), rs = trees.*1 /\ Forall (fun t => owns (cells s) t.1 t.2) trees
  /\ NoDup (concat trees.*2) /\ (forall k, k ∈ dom (cells s) <-> k ∈ concat trees.*2) /\ (forall k, k ∈ dom (cells s) -> k < next_address s)
  /\ (forall p i m cs n, cells s !! p = Some (CompositeCell i m cs n) -> length cs = MAX_COMMANDS).

Lemma elem_of_trees (trees : list (nat * list nat)) t k : t ∈ trees -> k ∈ t.2 -> k ∈ concat trees.*2.
Proof.
  induction 1 as [t trees|t u trees Ht IH]; cbn; rewrite elem_of_app; [by left|]. right. auto.
Qed.

Lemma forest_perm s rs rs' : rs ≡ₚ rs' -> forest s rs -> forest s rs'.
Proof.
  intros Hp (trees & -> & H1 & H2 & H3 & H4 & H5). symmetry in Hp. apply Permutation_map_inv in Hp as (trees' & -> & Hp).
  exists trees'. assert (Hc : concat trees.*2 ≡ₚ concat trees'.*2) by (by rewrite Hp). split; [done|]. split; [by rewrite <- Hp|].
  split; [by rewrite <- Hc|]. split; [|done]. intros k. by rewrite H3, Hc.
Qed.

(** A new object makes a tree of its own. *)
Lemma forest_allocate s rs (c : cell) s' p :
  (forall h, h !! p = Some c -> owns h p [p]) -> (forall i m cs n, c = CompositeCell i m cs n -> length cs = MAX_COMMANDS) -> allocate s c = (s', p) -> forest s rs -> forest s' (p :: rs).
Proof.
  intros Hc Hm [= <- <-] (trees & -> & H1 & H2 & H3 & H4 & H5). set (p := next_address s) in *.
  assert (Hp : p ∉ dom (cells s)) by (intros Hp%H4; unfold p in Hp; lia). assert (Hp' : p ∉ concat trees.*2) by (by rewrite <- H3).
  exists ((p, [p]) :: trees). cbn. split; [done|]. split; [|split; [|split; [|split]]].
  - constructor; [apply Hc, lookup_insert_eq|]. rewrite Forall_forall in H1 |- *. intros t Ht.
    apply (proj1 (owns_frame _ _) _ _ (H1 t Ht)). intros k Hk. apply lookup_insert_ne. intros <-.
    apply Hp. apply elem_of_dom. by apply (proj1 (owned_present _) _ _ (H1 t Ht)).
  - by constructor.
  - intros k. rewrite dom_insert, elem_of_union, elem_of_singleton, H3. set_solver.
  - intros k. rewrite dom_insert, elem_of_union, elem_of_singleton. fold p. intros [->|Hk%H4]; [lia|]. fold p in Hk. lia.
  - intros q i m cs n [[<- ->]|[_ Hq]]%lookup_insert_Some; [by eapply Hm|by eapply H5].
Qed.

Lemma forest_new s s' rs aid i : command_id aid s = Ret (s', i) -> forest s rs -> forest s' rs.
Proof.
  unfold command_id. destruct (aid =? NULL_ID)%Z; [|by intros [= <- <-]]. destruct (get_id _) as [[g j]| |]; [|done..].
  by intros [= <- <-].
Qed.

Lemma add_length s p cmd s' i m cs n :
  (forall i m cs n, cells s !! p = Some (CompositeCell i m cs n) -> length cs = MAX_COMMANDS) ->
  add_command s p cmd = Ret s' -> cells s' !! p = Some (CompositeCell i m cs n) -> length cs = MAX_COMMANDS.
Proof.
  intros Hl. unfold add_command. destruct (cells s !! p) as [[|i0 m0 cs0 n0]|] eqn:E; [done| |done]. case_decide; [done|].
  unfold store_at. case_decide; [|done]. intros [= <-]. cbn. rewrite lookup_insert_eq. intros [= -> -> <- <-].
  rewrite length_insert. by eapply Hl.
Qed.

Lemma forest_give s rs s' p q : add_command s p (Some q) = Ret s' -> forest s (p :: q :: rs) -> forest s' (p :: rs).
Proof.
  intros Ha ([|[p' kp] [|[q' kq] trees]] & [= <- <- ->] & H1 & H2 & H3 & H4 & H5). cbn in *.
  apply Forall_cons in H1 as [Hp H1]. apply Forall_cons in H1 as [Hq H1]. rewrite app_assoc in H2. cbn in *.
  apply NoDup_app in H2 as Hnd. destruct Hnd as (Hnd & Hdis & _).
  destruct (add_owns _ _ _ _ _ _ Hp Hq Hnd Ha) as (Hp' & Hfr & Hdom & Hnext).
  exists ((p, kp ++ kq) :: trees). cbn. split; [done|]. split; [|split; [done|split; [|split]]].
  - constructor; [done|]. rewrite Forall_forall in H1 |- *. intros t Ht. apply (proj1 (owns_frame _ _) _ _ (H1 t Ht)).
    intros k Hk. apply Hfr. intros ->. apply (Hdis p).
    + apply elem_of_app. left. inversion Hp; subst; set_solver.
    + by apply (elem_of_trees trees t).
  - intros k. by rewrite Hdom, H3, app_assoc.
  - intros k. rewrite Hdom, Hnext. apply H4.
  - intros r i m cs n Hc. destruct (decide (r = p)) as [->|Hne]; [|rewrite Hfr in Hc by done; by eapply H5].
    exact (add_length _ _ _ _ _ _ _ _ (H5 p) Ha Hc).
Qed.

Lemma forest_destroy s rs p : forest s (p :: rs) ->
  exists ks s', owns (cells s) p ks /\ NoDup ks /\ destroy s (Some p) = Ret s' /\ cells s' = without ks (cells s) /\ forest s' rs.
Proof.
  intros ([|[p' ks] trees] & [= <- ->] & H1 & H2 & H3 & H4 & H5). apply Forall_cons in H1 as [Hp H1]. cbn in Hp, H2, H3.
  apply NoDup_app in H2 as (Hnd & Hdis & Hnd'). exists ks, (with_cells s (without ks (cells s))).
  split; [done|]. split; [done|]. split; [by rewrite (destroy_spec _ _ _ Hp), decide_True by done|]. split; [done|].
  exists trees. split; [done|]. cbn. assert (Hd : forall k, k ∈ dom (without ks (cells s)) <-> k ∈ concat trees.*2).
  { intros k. rewrite elem_of_dom, without_lookup. specialize (H3 k). rewrite elem_of_dom, elem_of_app in H3. case_decide as Hk.
    - split; [by intros []|]. intros Hk'. by destruct (Hdis k).
    - rewrite H3. tauto. }
  split; [|split; [done|split; [done|split]]].
  - rewrite Forall_forall in H1 |- *. intros t Ht. apply (proj1 (owns_frame _ _) _ _ (H1 t Ht)). intros k Hk.
    rewrite without_lookup, decide_False; [done|]. intros Hk'. apply (Hdis k Hk').
    by apply (elem_of_trees trees t).
  - intros k Hk%Hd. apply H4, H3. rewrite elem_of_app. by right.
  - intros q i m cs n. rewrite without_lookup. case_decide; [done|]. apply H5.
Qed.

Lemma forest_links s s' rs : (forall k, links <$> cells s' !! k = links <$> cells s !! k) -> next_address s' = next_address s ->
  forest s rs -> forest s' rs.
Proof.
  intros Hl Hn (trees & -> & H1 & H2 & H3 & H4 & H5). assert (Hd : dom (cells s') = dom (cells s)).
  { apply set_eq. intros k. rewrite !elem_of_dom. specialize (Hl k). destruct (cells s' !! k), (cells s !! k); by split; intros []. }
  exists trees. split; [done|]. split; [|split; [done|split; [by rewrite Hd|split]]].
  - rewrite Forall_forall in H1 |- *. intros t Ht. by apply (proj1 (owns_links _ _ Hl)), H1.
  - by rewrite Hd, Hn.
  - intros p i m cs n Hp. specialize (Hl p). rewrite Hp in Hl. destruct (cells s !! p) as [[|i' m' cs' n']|] eqn:E; try discriminate Hl.
    injection Hl as -> ->. by eapply H5.
Qed.

Lemma client_forest x y : client x y -> forest x.1 x.2 -> forest y.1 y.2.
Proof.
  intros Hc. destruct Hc as [s rs s' a p E|s rs s' aid p E|s rs s' p q rs' Hr Ha|s rs s' p aid data b Hi|s rs s' p rs' Hr Hd]; cbn; intros Hf.
  - unfold new_leaf in E. destruct (command_id NULL_ID s) as [[s1 i]| |] eqn:E1; [|done..].
    apply (forest_allocate s1 rs (LeafCell i Bool_UNKNOWN a)).
    + intros h. apply owns_leaf.
    + done.
    + cbn in E |- *. congruence.
    + by eapply forest_new.
  - unfold new_composite in E. destruct (command_id aid s) as [[s1 i]| |] eqn:E1; [|done..].
    apply (forest_allocate s1 rs (CompositeCell i Bool_UNKNOWN (replicate MAX_COMMANDS None) 0)).
    + intros h Hh. eapply owns_composite; [exact Hh|simpl; lia|constructor].
    + by intros ? ? ? ? [= _ _ <- _].
    + cbn in E |- *. congruence.
    + by eapply forest_new.
  - by apply (forest_give _ _ _ _ q Ha), (forest_perm _ _ _ Hr).
  - destruct (initialize_links _ _ _ _ _ _ Hi) as [Hl Hn]. by eapply forest_links.
  - destruct (forest_destroy _ _ _ (forest_perm _ _ _ Hr Hf)) as (ks & s1 & _ & _ & E & _ & Hf1). rewrite E in Hd. by injection Hd as <-.
Qed.

(** Deleting all that a client holds, one after the other. *)
Definition destroy_all s (rs : list nat) : outcome store := fold_left (fun acc p => s ← acc; destroy s (Some p)) rs (Ret s).

Lemma forest_destroy_all s rs : forest s rs -> exists s', destroy_all s rs = Ret s' /\ cells s' = ∅.
Proof.
  unfold destroy_all. revert s. induction rs as [|p rs IH]; intros s Hf.
  - exists s. split; [done|]. destruct Hf as (trees & Ht & _ & _ & H3 & _). destruct trees; [|done].
    apply dom_empty_inv_L. apply set_eq. intros k. rewrite H3. set_solver.
  - destruct (forest_destroy _ _ _ Hf) as (ks & s1 & _ & _ & E & _ & Hf1). cbn [fold_left mbind outcome_bind]. rewrite E. by apply IH.
Qed.

(** C13. Whatever such a client has done, deleting a command it holds ends well: the destructors delete that
    command and the ones below it, each exactly once, and leave every other object alone; giving one command
    it holds to a composite it holds is never undefined; and when it has deleted all that it holds, no
    object is left. *)
Theorem commands_deleted_once (n : nat) (g : Generator) s (rs : list nat) (Hr : rtc client (mk_store n ∅ g, []) (s, rs)) :
  (forall p, p ∈ rs -> exists ks s', owns (cells s) p ks /\ NoDup ks /\ destroy s (Some p) = Ret s' /\ cells s' = without ks (cells s))
  /\ (forall p cmd i m cs k, cells s !! p = Some (CompositeCell i m cs k) ->
      add_command s p cmd = (if decide (k < MAX_COMMANDS) then Ret (with_cells s (<[p := CompositeCell i m (<[k := cmd]> cs) (S k)]> (cells s)))
        else Throw (ErrorObject too_many)))
  /\ exists s', destroy_all s rs = Ret s' /\ cells s' = ∅.
Proof.
  assert (Hf : forest s rs).
  { remember (mk_store n ∅ g, []) as x eqn:Ex. remember (s, rs) as y eqn:Ey. change (forest (s, rs).1 (s, rs).2). rewrite <- Ey.
    assert (H0 : forest x.1 x.2) by (subst x; exists []; cbn; repeat split; try constructor; set_solver).
    clear Ex Ey. induction Hr as [|x z y Hc _ IH]; [done|]. by apply IH, (client_forest x z). }
  split; [|split; [|by apply forest_destroy_all]].
  - intros p Hp. apply elem_of_Permutation in Hp as [rs' Hp]. apply (forest_perm _ _ _ Hp) in Hf.
    destruct (forest_destroy _ _ _ Hf) as (ks & s' & ? & ? & ? & ? & _). eauto 10.
  - intros p cmd i m cs k E. destruct Hf as (_ & _ & _ & _ & _ & _ & H5). pose proof (H5 _ _ _ _ _ E) as Hl. unfold add_command, store_at. rewrite E. repeat case_decide; try lia; done.
Qed.

(** ** The store and the trees of Commands *)

(** What is seen of a pointer: [fuel] levels of the tree below it. *)
Fixpoint view (fuel : nat) h (p : option nat) : slot A :=
  match fuel, p with
  | O, _ => Dangling
  | S _, None => Null
  | S fuel, Some p =>
      match h !! p with
      | None => Dangling
      | Some (LeafCell i m a) => Live (Leaf i m a)
      | Some (CompositeCell i m cs n) => Live (Composite i m (map (view fuel h) cs) n)
      end
  end.

Lemma view_S fuel h p : view (S fuel) h (Some p) = match h !! p with
  | None => Dangling
  | Some (LeafCell i m a) => Live (Leaf i m a)
  | Some (CompositeCell i m cs n) => Live (Composite i m (map (view fuel h) cs) n)
  end.
Proof. reflexivity. Qed.

(** A composite of leaf commands in the store, with its first pointers. *)
Definition leaf_tree s p (i : Z) (m : Bool) (ks : list nat) (ls : list (Z * Bool * A)) : Prop :=
  cells s !! p = Some (CompositeCell i m (map Some ks ++ replicate (MAX_COMMANDS - length ks) None) (length ks))
  /\ Forall2 (fun k l => cells s !! k = Some (LeafCell l.1.1 l.1.2 l.2)) ks ls.

Lemma view_leaves h ks (ls : list (Z * Bool * A)) :
  Forall2 (fun k l => h !! k = Some (LeafCell l.1.1 l.1.2 l.2)) ks ls -> map (view 1 h) (map Some ks) = leaves ls.
Proof. induction 1 as [|k [[j b] a] ks ls Hk _ IH]; [done|]. cbn [map]. rewrite IH. cbn. by rewrite Hk. Qed.

Lemma view_nulls h n : map (view 1 h) (replicate n None) = replicate n Null.
Proof. induction n; simpl; f_equal; auto. Qed.

Lemma leaf_tree_view s p i m ks ls : leaf_tree s p i m ks ls -> view 2 (cells s) (Some p) = Live (composite_of i m ls).
Proof.
  intros [E H]. rewrite view_S, E. unfold composite_of. rewrite map_app, (view_leaves _ _ _ H), view_nulls.
  by rewrite (Forall2_length _ _ _ H).
Qed.

(** The copy in the making: [n] null slots, then the pointers of the [j] clones that are gone. *)
Definition half_clone (i : Z) (n j c : nat) : cell :=
  CompositeCell i Bool_UNKNOWN (replicate n None ++ map Some (seq (S c) j) ++ replicate (MAX_COMMANDS - (n + j)) None) (n + j).
Definition half_store s (i : Z) (n j : nat) (g : Generator) : store :=
  mk_store (S (next_address s) + j) (<[next_address s := half_clone i n j (next_address s)]> (cells s)) g.

(** One round: the clone is made, added, and deleted again, so that only its address is left. *)
Lemma clone_round s i n k j (b : Z) (m : Bool) a (g g1 : Generator) (i1 : Z) : (forall k, k ∈ dom (cells s) -> k < next_address s) ->
  cells s !! k = Some (LeafCell b m a) -> get_id g = Ret (g1, i1) ->
  clone_into (clone_command 1) (next_address s) (half_store s i n j g) (Some k)
  = if decide (n + S j <= MAX_COMMANDS) then Ret (half_store s i n (S j) g1) else Throw (ErrorObject too_many).
Proof.
  intros Hdom Hk Hg. set (c := next_address s) in *. assert (Hkc : k < c) by (apply Hdom, elem_of_dom; eauto).
  assert (Hq : cells s !! (S c + j) = None) by (apply not_elem_of_dom; intros Hq%Hdom; lia).
  unfold clone_into, clone_command. unfold half_store at 1. cbn [cells]. fold c. rewrite lookup_insert_ne by lia. rewrite Hk.
  unfold clone_leaf, new_leaf, command_id. change (NULL_ID =? NULL_ID)%Z with true. cbv iota. unfold half_store; cbn [mgenerator].
  rewrite Hg. cbn [mbind outcome_bind next_address cells allocate mgenerator]. fold c.
  unfold add_command. cbn [cells]. rewrite lookup_insert_ne, lookup_insert_eq by lia. unfold half_clone at 1.
  destruct (decide (MAX_COMMANDS <= n + j)) as [Hfull|Hroom]; [by rewrite decide_False by lia|]. rewrite (decide_True (P := n + S j <= _)) by lia.
  unfold store_at. rewrite decide_True by (rewrite !length_app, length_map, length_seq, !length_replicate; lia). cbn [mbind outcome_bind].
  assert (Hslots : <[n + j := Some (S c + j)]> (replicate n None ++ map Some (seq (S c) j) ++ replicate (MAX_COMMANDS - (n + j)) None)
    = replicate n None ++ map Some (seq (S c) (S j)) ++ replicate (MAX_COMMANDS - (n + S j)) None).
  { rewrite insert_app_r_alt by (rewrite length_replicate; lia). f_equal. rewrite length_replicate.
    rewrite insert_app_r_alt by (rewrite length_map, length_seq; lia). rewrite length_map, length_seq.
    replace (n + j - n - j) with 0 by lia. rewrite seq_S, map_app, <- app_assoc. f_equal.
    by replace (MAX_COMMANDS - (n + j)) with (S (MAX_COMMANDS - (n + S j))) by lia. }
  rewrite Hslots. unfold destroy. cbn [delete_command cells with_cells]. rewrite lookup_insert_ne, lookup_insert_eq by lia.
  cbn [mbind outcome_bind]. f_equal. unfold with_cells; cbn. f_equal; [lia|]. unfold half_clone. rewrite Nat.add_succ_r.
  rewrite delete_insert_ne by lia. rewrite delete_insert_eq, delete_insert_ne by lia.
  rewrite (delete_id (cells s)) by done. by rewrite insert_insert_eq.
Qed.

Lemma clone_loop s i n ks (ls : list (Z * Bool * A)) rest : (forall k, k ∈ dom (cells s) -> k < next_address s) ->
  Forall2 (fun k l => cells s !! k = Some (LeafCell l.1.1 l.1.2 l.2)) ks ls -> forall j g g' ids,
  get_ids (length ks) g = Ret (g', ids) -> n + j <= MAX_COMMANDS ->
  for_commands (clone_into (clone_command 1) (next_address s)) (map Some ks ++ rest) (length ks) (half_store s i n j g)
  = if decide (n + j + length ks <= MAX_COMMANDS) then Ret (half_store s i n (j + length ks) g') else Throw (ErrorObject too_many).
Proof.
  intros Hdom. induction 1 as [|k [[b m] a] ks ls Hk _ IH]; intros j g g' ids Hg Hj.
  - cbn in Hg. injection Hg as <- _. cbn [length]. rewrite !Nat.add_0_r, decide_True by lia. by destruct rest.
  - cbn [length get_ids] in Hg. apply outcome_bind_Ret_inv in Hg as ([g1 i1] & Hg1 & Hg).
    apply outcome_bind_Ret_inv in Hg as ([g2 ids2] & Hg2 & [= <- <-]).
    cbn [map app length for_commands]. rewrite (clone_round s i n k j b m a g g1 i1 Hdom Hk Hg1).
    case_decide as Hroom; cbn [mbind outcome_bind]; [|by rewrite decide_False by lia].
    rewrite (IH (S j) g1 g2 ids2 Hg2) by lia. replace (n + S j + length ks) with (n + j + S (length ks)) by lia.
    by replace (S j + length ks) with (j + S (length ks)) by lia.
Qed.

Lemma clone_command_S fuel s p : clone_command (S fuel) s p = match cells s !! p with
  | None => Undef UseAfterFree
  | Some (LeafCell _ _ a) => clone_leaf a s
  | Some (CompositeCell i m cs n) =>
      noexcept ('(s, c) ← new_composite i s;
        s ← for_commands (clone_into (clone_command fuel) c) cs n (set_index s c n); Ret (s, c))
  end.
Proof. reflexivity. Qed.

Lemma clone_leaf_tree s p i m ks ls g' ids :
  leaf_tree s p i m ks ls -> (forall k, k ∈ dom (cells s) -> k < next_address s) -> i <> NULL_ID -> length ks <= MAX_COMMANDS ->
  get_ids (length ks) (mgenerator s) = Ret (g', ids) ->
  clone_command 2 s p = if decide (length ks + length ks <= MAX_COMMANDS)
    then Ret (half_store s i (length ks) (length ks) g', next_address s) else Throw Terminate.
Proof.
  intros [E H] Hdom Hi Hn Hg. assert (Hkc : p < next_address s) by (apply Hdom, elem_of_dom; eauto).
  rewrite clone_command_S, E. assert (Hnew : new_composite i s = Ret (allocate s (CompositeCell i Bool_UNKNOWN (replicate MAX_COMMANDS None) 0))).
  { unfold new_composite, command_id. by rewrite (proj2 (Z.eqb_neq i NULL_ID) Hi). }
  rewrite Hnew. cbn [mbind outcome_bind allocate]. unfold set_index at 1. cbn [cells]. rewrite lookup_insert_eq.
  match goal with |- noexcept (for_commands _ _ _ ?st ≫= _) = _ => replace st with (half_store s i (length ks) 0 (mgenerator s)) end.
  - rewrite (clone_loop s i (length ks) ks ls _ Hdom H 0 _ g' ids Hg) by lia. rewrite Nat.add_0_r. by case_decide.
  - unfold half_store, with_cells; cbn. f_equal; [lia|]. rewrite insert_insert_eq. unfold half_clone. rewrite Nat.add_0_r. cbn [seq map app].
    rewrite <- replicate_add. by replace (length ks + (MAX_COMMANDS - length ks)) with MAX_COMMANDS by lia.
Qed.

Lemma view_dangling s i n j g : (forall k, k ∈ dom (cells s) -> k < next_address s) ->
  map (view 1 (cells (half_store s i n j g))) (map Some (seq (S (next_address s)) j)) = replicate j Dangling.
Proof.
  intros Hdom. rewrite map_map. set (f := fun x => _). assert (Hf : forall x, S (next_address s) <= x -> f x = Dangling).
  { intros x Hx. unfold f, half_store. rewrite view_S. cbn [cells]. rewrite lookup_insert_ne by lia.
    replace (cells s !! x) with (@None cell); [done|]. symmetry. apply not_elem_of_dom. intros Hk%Hdom. lia. }
  clearbody f. generalize (S (next_address s)) Hf. clear. induction j as [|j IH]; intros c Hf; [done|]. cbn [seq map replicate]. f_equal; [apply Hf; lia|].
  apply IH. intros x Hx. apply Hf. lia.
Qed.

Lemma view_half s i n g : (forall k, k ∈ dom (cells s) -> k < next_address s) ->
  view 2 (cells (half_store s i n n g)) (Some (next_address s))
  = Live (Composite i Bool_UNKNOWN (replicate n Null ++ replicate n Dangling ++ replicate (MAX_COMMANDS - (n + n)) Null) (n + n)).
Proof.
  intros Hdom. rewrite view_S. unfold half_store at 1. cbn [cells]. rewrite lookup_insert_eq. unfold half_clone.
  by rewrite !map_app, !view_nulls, view_dangling.
Qed.

(** C16. Cloning a composite of leaf commands in the store does what Commands says of its tree: the slots that it
    calls dangling are pointers to commands that are gone.  The composite itself is untouched, and so is
    every other object; but deleting a clone that is not empty deletes its commands a second time. *)
Theorem clone_owns_nothing s p i m ks ls g' ids (new_id : Z) (Ht : leaf_tree s p i m ks ls)
    (Hdom : forall k, k ∈ dom (cells s) -> k < next_address s) (Hi : i <> NULL_ID) (Hn : length ks <= MAX_COMMANDS)
    (Hg : get_ids (length ks) (mgenerator s) = Ret (g', ids)) :
  view 2 (cells s) (Some p) = Live (composite_of i m ls)
  /\ (fun r => view 2 (cells r.1) (Some r.2)) <$> clone_command 2 s p = Live <$> composite_clone new_id (composite_of i m ls)
  /\ (0 < length ks <= 5 -> exists s' c, clone_command 2 s p = Ret (s', c) /\ delete c (cells s') = cells s
       /\ destroy s' (Some c) = Undef UseAfterFree).
Proof.
  pose proof (clone_leaf_tree _ _ _ _ _ _ _ _ Ht Hdom Hi Hn Hg) as Hc. pose proof (Forall2_length _ _ _ (proj2 Ht)) as Hlen.
  destruct (composite_clone_broken (fun a (w : unit) => (w, None)) new_id i m ls tt ltac:(lia)) as (B0 & B1 & B2).
  unfold given_id in B0, B1. rewrite (proj2 (Z.eqb_neq _ _) Hi) in B0, B1.
  split; [by eapply leaf_tree_view|]. split.
  - rewrite Hc. case_decide as Hroom; cbn [fmap outcome_fmap fst snd].
    + rewrite view_half by done. destruct ls as [|l ls'].
      * rewrite B0 by done. by rewrite Hlen.
      * unfold MAX_COMMANDS in *. destruct B1 as (c & -> & -> & _); [simpl in *; lia|]. cbn [fmap outcome_fmap]. rewrite Hlen.
        do 5 f_equal. f_equal. lia.
    + unfold MAX_COMMANDS in *. by rewrite B2 by lia.
  - intros Hr. rewrite Hc, decide_True by (unfold MAX_COMMANDS; lia). eexists _, _. split; [done|]. cbn [half_store cells]. split.
    + rewrite delete_insert_eq, delete_id; [done|]. apply not_elem_of_dom. intros Hk%Hdom. lia.
    + unfold destroy. cbn [cells half_store]. set (h := insert _ _ _). set (f := size h). cbn [delete_command].
      unfold h at 1. rewrite lookup_insert_eq. unfold half_clone, free_commands.
      assert (Hf : 0 < f) by (unfold f, h; rewrite map_size_insert_None; [lia|]; apply not_elem_of_dom; intros Hk%Hdom; lia).
      assert (Hnull : forall n r k x, for_commands (delete_command f) (replicate n None ++ r) (n + k) x = for_commands (delete_command f) r k x).
      { clear - Hf. induction n as [|n IH]; intros r k x; [done|]. cbn [replicate app Nat.add for_commands]. rewrite delete_null by done. apply IH. }
      rewrite Hnull. destruct (length ks) as [|j] eqn:El; [lia|]. cbn [seq map app for_commands].
      destruct f as [|f']; [lia|]. cbn [delete_command]. unfold h. rewrite delete_insert_eq, delete_id
        by (apply not_elem_of_dom; intros Hk%Hdom; lia).
      replace (cells s !! S (next_address s)) with (@None cell); [done|]. symmetry. apply not_elem_of_dom. intros Hk%Hdom. lia.
Qed.
End Ownership.
Arguments cell : clear implicits.
Arguments store : clear implicits.

(** *** Examples: two null commands in a composite *)
Definition gen0 : Generator := mk_generator 0 0 0 1.
Definition two_in_one : store unit := mk_store 3
  {[ 0 := LeafCell 1 Bool_UNKNOWN tt; 1 := LeafCell 2 Bool_UNKNOWN tt;
     2 := CompositeCell 9 Bool_UNKNOWN (map Some [0; 1] ++ replicate 8 None) 2 ]} (mk_generator 0 0 2 1).

Lemma two_in_one_client : rtc client (mk_store 0 ∅ gen0, []) (two_in_one, [2]).
Proof.
  eapply rtc_l; [eapply (client_leaf _ _ _ tt); vm_compute; reflexivity|].
  eapply rtc_l; [eapply (client_leaf _ _ _ tt); vm_compute; reflexivity|].
  eapply rtc_l; [eapply (client_composite _ _ _ 9); vm_compute; reflexivity|].
  eapply rtc_l; [eapply (client_give _ _ _ 2 0 [1]); [apply Permutation_skip, perm_swap|vm_compute; reflexivity]|].
  eapply rtc_l; [eapply (client_give _ _ _ 2 1 []); [reflexivity|vm_compute; reflexivity]|].
  match goal with |- rtc _ ?x _ => replace x with (two_in_one, [2]) by (vm_compute; reflexivity) end. apply rtc_refl.
Qed.

Lemma commands_deleted_once_witness :
  rtc client (mk_store 0 ∅ gen0, []) (two_in_one, [2]) /\ exists s', destroy_all two_in_one [2] = Ret s' /\ cells s' = ∅.
Proof. split; [exact two_in_one_client|]. exact (proj2 (proj2 (commands_deleted_once 0 gen0 two_in_one [2] two_in_one_client))). Defined.

Lemma two_in_one_owns : owns (cells two_in_one) 2 [2; 0; 1].
Proof.
  eapply owns_composite; [vm_compute; reflexivity|simpl; lia|].
  apply (owns_some _ 0 _ [0] [1]); [eapply owns_leaf; vm_compute; reflexivity|].
  apply (owns_some _ 1 _ [1] []); [eapply owns_leaf; vm_compute; reflexivity|constructor].
Qed.

Lemma given_twice_witness : exists s1 s2 : store unit, let s := mk_store 4 (<[3 := LeafCell 5 Bool_UNKNOWN tt]> (cells two_in_one)) gen0 in
  add_command s 2 (Some 3) = Ret s1 /\ add_command s1 2 (Some 3) = Ret s2 /\ destroy s2 (Some 2) = Undef UseAfterFree.
Proof.
  set (s := mk_store 4 (<[3 := LeafCell 5 Bool_UNKNOWN tt]> (cells two_in_one)) gen0).
  assert (H1 : exists s1, add_command s 2 (Some 3) = Ret s1) by (eexists; vm_compute; reflexivity). destruct H1 as [s1 H1].
  assert (H2 : exists s2, add_command s1 2 (Some 3) = Ret s2) by (vm_compute in H1; injection H1 as <-; eexists; vm_compute; reflexivity).
  destruct H2 as [s2 H2]. exists s1, s2. split; [exact H1|]. split; [exact H2|].
  assert (Hp : owns (cells s) 2 [2; 0; 1]).
  { apply (proj1 (owns_frame _ _) _ _ two_in_one_owns). intros k Hk. apply lookup_insert_ne. intros <-. by repeat (apply elem_of_cons in Hk as [Hk|Hk]; [done|]); apply elem_of_nil in Hk. }
  assert (Hq : owns (cells s) 3 [3]) by (eapply owns_leaf; apply lookup_insert_eq).
  exact (given_twice s 2 [2; 0; 1] 3 [3] s1 s2 Hp Hq ltac:(apply (bool_decide_unpack _); vm_compute; exact Logic.I) H1 H2).
Defined.

Lemma clone_owns_nothing_witness :
  leaf_tree two_in_one 2 9 Bool_UNKNOWN [0; 1] [(1%Z, Bool_UNKNOWN, tt); (2%Z, Bool_UNKNOWN, tt)]
  /\ exists s' c, clone_command 2 two_in_one 2 = Ret (s', c) /\ destroy s' (Some c) = Undef UseAfterFree.
Proof.
  assert (Ht : leaf_tree two_in_one 2 9 Bool_UNKNOWN [0; 1] [(1%Z, Bool_UNKNOWN, tt); (2%Z, Bool_UNKNOWN, tt)])
    by (split; [reflexivity|repeat constructor]). split; [exact Ht|].
  assert (Hd : forall k, k ∈ dom (cells two_in_one) -> k < next_address two_in_one).
  { intros k Hk. change (k ∈ (list_to_set [0; 1; 2] : gset nat)) in Hk. apply elem_of_list_to_set in Hk.
    by repeat (apply elem_of_cons in Hk as [->|Hk]; [simpl; lia|]); apply elem_of_nil in Hk. }
  destruct (proj2 (proj2 (clone_owns_nothing two_in_one 2 9 Bool_UNKNOWN [0; 1] _ _ _ 7 Ht Hd ltac:(done) ltac:(unfold MAX_COMMANDS; simpl; lia)
    ltac:(vm_compute; reflexivity))) ltac:(simpl; lia)) as (s' & c & Hc & _ & Hdel). exists s', c. split; [exact Hc|exact Hdel].
Defined.
