(* ===== verification/Strings.v ===== *)
(** * String utilities (cpp/src/s.hpp)

    The free functions on [S] in the narrow build.  Positions are [size_t]; [find] gives [None] for [npos].
    A loop that the source does not bound has fuel; [None] means that it has not finished. *)
From S2P Require Import Prelude CS.

(** ** Searching *)

Fixpoint is_prefix (p s : str) : bool :=
  match p, s with
  | [], _ => true
  | a :: p, b :: s => bool_decide (a = b) && is_prefix p s
  | _, [] => false
  end.
(** [s.find(p)] and [s.find(ch, i)]. *)
Fixpoint find_str (p s : str) : option nat :=
  if is_prefix p s then Some 0 else match s with [] => None | _ :: s => S <$> find_str p s end.
Fixpoint find_char (ch : ascii) (s : str) : option nat :=
  match s with [] => None | c :: s => if decide (c = ch) then Some 0 else S <$> find_char ch s end.
Definition find_char_from (ch : ascii) (s : str) (i : nat) : option nat := (fun j => i + j) <$> find_char ch (drop i s).
(** [s.substr(i, n)] for [i] within the string. *)
Definition substr (s : str) (i n : nat) : str := take n (drop i s).

(** ** Functions *)

(* src: cpp/src/s.hpp:30-37 runtime_error *)
Definition runtime_error {A} (message : str) : outcome A := Throw (RuntimeError message).
(* src: cpp/src/s.hpp:52-58 read_all *)
Definition read_all (input s : str) : str * str := ([], fold_left (fun s c => s ++ [c]) input s).

(* src: cpp/src/s.hpp:60-68 rtrim *)
Definition rtrim (s : str) : str := rev (drop_while is_space (rev s)).
(* src: cpp/src/s.hpp:70-78 ltrim *)
Definition ltrim (s : str) : str := drop_while is_space s.
(* src: cpp/src/s.hpp:80-89 trim *)
Definition trim (s : str) : str := ltrim (rtrim s).

(* src: cpp/src/s.hpp:111-127 split *)
Definition add_field (trim_elements include_empty_fields : bool) (c : list str) (aux : str) : list str :=
  let aux := if trim_elements then trim aux else aux in
  if include_empty_fields || (0 <? length aux) then c ++ [aux] else c.
(** Each round moves past a separator, so the length of the string bounds the rounds. *)
(* src: cpp/src/s.hpp:109-127 split *)
Fixpoint split_loop (fuel : nat) (s : str) (ch : ascii) (c : list str) (trim_elements include_empty_fields : bool) (i j : nat) : option (list str) :=
  match fuel with
  | O => None
  | S fuel =>
      let c := add_field trim_elements include_empty_fields c (substr s i (j - i)) in
      let i := S j in
      match find_char_from ch s i with
      | None => Some (add_field trim_elements include_empty_fields c (substr s i (length s)))
      | Some j => split_loop fuel s ch c trim_elements include_empty_fields i j
      end
  end.
(* src: cpp/src/s.hpp:99-128 split *)
Definition split (s : str) (ch : ascii) (c : list str) (trim_elements include_empty_fields : bool) : option (list str) :=
  match find_char ch s with
  | None => Some (c ++ [s])
  | Some j => split_loop (S (length s)) s ch c trim_elements include_empty_fields 0 j
  end.

(** [static_cast<int>(n) > 0] is asserted. *)
(* src: cpp/src/s.hpp:211-230 pad *)
Definition pad (s : str) (c : ascii) (n : Z) (pad_right : bool) : outcome str :=
  if (n =? 0)%Z then Ret s
  else if (0 <? signed_wrap 32 n)%Z then
    let fill := replicate (Z.to_nat n - length s) c in
    Ret (if pad_right then s ++ fill else fill ++ s)
  else Undef AssertFailed.
(* src: cpp/src/constant.hpp:82-82 PAD_RIGHT *)
Definition PAD_RIGHT : bool := true.
(* src: cpp/src/constant.hpp:83-83 PAD_LEFT *)
Definition PAD_LEFT : bool := false.
(* src: cpp/src/s.hpp:234-250 pad_copy *)
Definition pad_copy (s : str) (c : ascii) (n : Z) (pad_right : bool) : outcome str := pad s c n pad_right.

(** [isdigit] and [isalnum] take an [int] that must be -1 or the value of an [unsigned char]: a [char] below
    -1 is out of the table. *)
Definition ctype (p : Z -> bool) (c : ascii) : outcome bool :=
  if (char_val c <? -1)%Z then Undef OutOfBounds else Ret (p (char_val c)).
Definition isdigit (v : Z) : bool := bool_decide (48 <= v <= 57)%Z.
Definition isalnum (v : Z) : bool := bool_decide (48 <= v <= 57 \/ 65 <= v <= 90 \/ 97 <= v <= 122)%Z.
Definition keep_if (p : Z -> bool) (s : str) : outcome str :=
  fold_left (fun acc ch => out ← acc; b ← ctype p ch; Ret (if b : bool then out ++ [ch] else out)) s (Ret []).
(* src: cpp/src/s.hpp:253-263 only_digits *)
Definition only_digits (s : str) : outcome str := keep_if isdigit s.
(* src: cpp/src/s.hpp:281-294 only_alpha_numeric *)
Definition only_alpha_numeric (s : str) : outcome str := keep_if isalnum s.
(* src: cpp/src/s.hpp:322-326 remove_blanks *)
Definition remove_blanks (s : str) : str := filter (fun c => is_space c = false) s.

(* src: cpp/src/s.hpp:381-393 replace_substr *)
Fixpoint replace_loop (fuel : nat) (s o r : str) (replaced : bool) : option (str * bool) :=
  match find_str o s with
  | None => Some (s, replaced)
  | Some i =>
      match fuel with
      | O => None
      | S fuel => replace_loop fuel (take i s ++ r ++ drop (i + length o) s) o r true
      end
  end.
(* src: cpp/src/s.hpp:381-398 replace_substr *)
Definition replace_substr (fuel : nat) (s o r : str) : option (str * bool) :=
  match s with [] => Some ([], false) | _ => replace_loop fuel s o r false end.
(** [remove], [copy_remove] and [remove_substr] are one loop: erase the first occurrence until there is none. *)
(* src: cpp/src/s.hpp:338-347 remove *)
Fixpoint remove (fuel : nat) (s target : str) : option str :=
  match find_str s target with
  | None => Some target
  | Some pos =>
      match fuel with
      | O => None
      | S fuel => remove fuel s (take pos target ++ drop (pos + length s) target)
      end
  end.
(* src: cpp/src/s.hpp:361-366 copy_remove *)
Definition copy_remove (fuel : nat) (s target : str) : option str := remove fuel s target.
(* src: cpp/src/s.hpp:370-376 remove_substr *)
Definition remove_substr (fuel : nat) (s p : str) : option str := remove fuel p s.
(* src: cpp/src/s.hpp:527-533 remove_double_spaces *)
Fixpoint remove_double_spaces (fuel : nat) (s : str) : option str :=
  match s, fuel with
  | [], _ => Some []
  | _, O => None
  | _, S fuel =>
      match replace_substr (S (length s)) s (W "  ") (W " ") with
      | None => None
      | Some (s, true) => remove_double_spaces fuel s
      | Some (s, false) => Some s
      end
  end.

(** [s[0]] of an empty string is the terminator; [erase] past the end throws. *)
(* src: cpp/src/s.hpp:350-358 remove_delimiters *)
Definition remove_delimiters (delimiter : ascii) (s : str) : outcome str :=
  if negb (bool_decide (nth 0 s NULL_CHAR = delimiter)) then Ret s
  else match s with
  | [] => Undef OutOfBounds
  | _ =>
      last ← load_at s (length s - 1);
      if bool_decide (last = delimiter) then
        let s := drop 1 s in
        if decide (length s = 0) then Throw (OutOfRange (W "basic_string::erase"))
        else Ret (take (length s - 1) s)
      else Ret s
  end.

(** The loop state: the text, the index of the character and the characters since the last separator. *)
(* src: cpp/src/s.hpp:400-421 insert_grouping_char *)
Definition insert_grouping_char (s : str) (grouping_char : ascii) : str :=
  let primeiro := length s mod 3 in
  let primeiro := (if decide (primeiro = 0) then 3 else primeiro) - 1 in
  fst (fst (fold_left (fun '((f, i), count) ch =>
    let f := f ++ [ch] in
    let last := bool_decide (S i = length s) in
    let count := if decide (i = primeiro) then count else S count in
    if bool_decide (i = primeiro \/ count = 3) && negb last then (f ++ [grouping_char], S i, 0)
    else (f, S i, count)) s ([], 0, 0))).

(* src: cpp/src/s.hpp:428-439 to_string *)
Definition to_string (use_grouping_char : bool) (number : Z) (grouping_char : ascii) : str :=
  let s := decimal number in
  let s := if (number <? 0)%Z then "-"%char :: s else s in
  if use_grouping_char then insert_grouping_char s grouping_char else s.
(** The overloads whose first template argument is the grouping; the argument is converted to the type of the number first.  The one for
    [unsigned int] names three arguments of a template that has two, and can not be called. *)
(* src: cpp/src/s.hpp:441-445 to_string *)
Definition to_string_size (use_grouping_char : bool) (number : Z) (grouping_char : ascii) : str :=
  to_string use_grouping_char (wrap64 number) grouping_char.
(* src: cpp/src/s.hpp:447-451 to_string *)
Definition to_string_int (use_grouping_char : bool) (number : Z) (grouping_char : ascii) : str :=
  to_string use_grouping_char (signed_wrap 32 number) grouping_char.
(* src: cpp/src/s.hpp:453-457 to_string *)
Definition to_string_long (use_grouping_char : bool) (number : Z) (grouping_char : ascii) : str :=
  to_string use_grouping_char (signed_wrap 64 number) grouping_char.
(* src: cpp/src/s.hpp:459-463 to_string *)
Definition to_string_long_long (use_grouping_char : bool) (number : Z) (grouping_char : ascii) : str :=
  to_string use_grouping_char (signed_wrap 64 number) grouping_char.
(* src: cpp/src/s.hpp:511-514 pad_left0 *)
Definition pad_left0 (number n : Z) : outcome str := pad_copy (to_string false number ","%char) "0"%char n PAD_LEFT.

(** A [double] as its integer part and the text of the stream in fixed notation, both from the library.  The separator that is
    looked for in the text is the caller's; it is a comma by default. *)
(* src: cpp/src/s.hpp:484-500 to_string *)
Definition to_string_double (integer_part : Z) (fixed : str) (num_decimals : nat) (decimal_separator : ascii) : outcome str :=
  let s := to_string false integer_part ","%char in
  let decimal_part :=
    match find_char decimal_separator fixed with
    | Some pos => let n := if decide (num_decimals + pos < length fixed) then num_decimals else length fixed in substr fixed pos (n + 1)
    | None => W ".00"
    end in
  d ← pad decimal_part "0"%char (Z.of_nat num_decimals) true; Ret (s ++ d).

(* src: cpp/src/s.hpp:517-524 remove_ext *)
Definition remove_ext (fname : str) : str :=
  match find_char "."%char (rev fname) with None => fname | Some k => take (length fname - 1 - k) fname end.
(* src: cpp/src/s.hpp:540-548 reverse *)
Definition reverse (s : str) : str := fold_left (fun out c => out ++ [c]) (rev s) [].
Definition toupper (v : Z) : Z := if bool_decide (97 <= v <= 122)%Z then (v - 32)%Z else v.
(* src: cpp/src/s.hpp:550-560 to_upper *)
Definition to_upper (s : str) : str := map (fun c => byte_of_Z (toupper (byte_val c))) s.
(* src: cpp/src/s.hpp:562-572 to_lower *)
Definition to_lower (s : str) : str := map (fun c => byte_of_Z (tolower (byte_val c))) s.
(* src: cpp/src/s.hpp:574-579 upper *)
Definition upper (s : str) : str := to_upper s.
(* src: cpp/src/s.hpp:581-586 lower *)
Definition lower (s : str) : str := to_lower s.

(** ** Facts about searching *)

Lemma is_prefix_spec p s : is_prefix p s = true <-> exists r, s = p ++ r.
Proof.
  revert s. induction p as [|a p IH]; intros s; simpl; [split; [by exists s|done]|].
  destruct s as [|b s]; [split; [done|by intros [r ?]]|]. rewrite andb_true_iff, bool_decide_eq_true, IH. split.
  - intros [-> [r ->]]. by exists r.
  - intros [r E]. simplify_eq/=. eauto.
Qed.

(** [p] occurs in [s]. *)
Definition occurs (p s : str) : Prop := exists a b, s = a ++ p ++ b.

Lemma find_str_Some p s i : find_str p s = Some i -> s = take i s ++ p ++ drop (i + length p) s /\ i + length p <= length s.
Proof.
  revert i. induction s as [|c s IH]; intros i; cbn [find_str].
  - destruct (is_prefix p []) eqn:E; [|done]. intros [= <-]. apply is_prefix_spec in E as [r E]. symmetry in E. apply app_eq_nil in E as [-> ->]. done.
  - destruct (is_prefix p (c :: s)) eqn:E.
    + intros [= <-]. apply is_prefix_spec in E as [r E]. rewrite E. simpl. rewrite drop_app_length, length_app. split; [done|lia].
    + destruct (find_str p s) as [j|] eqn:F; [|done]. intros [= <-]. destruct (IH j eq_refl) as [H1 H2]. simpl. split; [by rewrite <- H1|lia].
Qed.

Lemma find_str_None p s : find_str p s = None <-> ~ occurs p s.
Proof.
  induction s as [|c s IH]; cbn [find_str].
  - destruct (is_prefix p []) eqn:E; split; try done.
    + intros Hn. exfalso. apply Hn. apply is_prefix_spec in E as [r E]. exists [], r. done.
    + intros _ (a & b & Hab). symmetry in Hab. apply app_eq_nil in Hab as [-> Hab]. assert (is_prefix p [] = true); [|congruence].
      apply is_prefix_spec. exists b. by rewrite Hab.
  - destruct (is_prefix p (c :: s)) eqn:E; split; try done.
    + intros Hn. exfalso. apply Hn. apply is_prefix_spec in E as [r E]. exists [], r. done.
    + destruct (find_str p s) eqn:F; [done|]. intros _ (a & b & Hab). destruct a as [|x a].
      * assert (is_prefix p (c :: s) = true); [|congruence]. apply is_prefix_spec. by exists b.
      * apply IH; [done|]. injection Hab as -> ->. by exists a, b.
    + intros Hn. destruct (find_str p s) as [j|] eqn:F; [|done]. exfalso. apply Hn.
      destruct (find_str_Some p s j F) as [H1 _]. exists (c :: take j s), (drop (j + length p) s). simpl. by rewrite <- H1.
Qed.

Lemma find_char_Some ch s j : find_char ch s = Some j <-> s !! j = Some ch /\ ch ∉ take j s.
Proof.
  revert j. induction s as [|c s IH]; intros j; simpl; [split; [done|by intros [? _]]|]. case_decide as E.
  - subst. split; [intros [= <-]; split; [done|apply not_elem_of_nil]|]. intros [H1 H2]. destruct j as [|j]; [done|].
    exfalso. apply H2. simpl. by left.
  - destruct j as [|j]; simpl.
    + split; [by destruct (find_char ch s)|]. intros [[= ?] _]. congruence.
    + rewrite not_elem_of_cons. destruct (find_char ch s) as [k|] eqn:F; simpl.
      * split; [intros [= <-]; split; [by apply IH|split; [congruence|by apply IH]]|]. intros (H1 & _ & H2). f_equal.
        assert (Some k = Some j) by (apply IH; done). congruence.
      * split; [done|]. intros (H1 & _ & H2). assert (None = Some j) by (apply IH; done). done.
Qed.
Lemma find_char_None ch s : find_char ch s = None <-> ch ∉ s.
Proof.
  induction s as [|c s IH]; simpl; [split; [intros _; apply not_elem_of_nil|done]|]. rewrite not_elem_of_cons. case_decide as E.
  - split; [done|]. intros [H _]. congruence.
  - destruct (find_char ch s); simpl; split; intros H; try done.
    + destruct H as [_ H]. by apply IH in H.
    + split; [congruence|]. by apply IH.
Qed.

(** ** split and trim *)

(** The fields between the separators, at least one. *)
Fixpoint fields (ch : ascii) (s : str) : list str :=
  match s with
  | [] => [[]]
  | c :: s => if decide (c = ch) then [] :: fields ch s
              else match fields ch s with f :: fs => (c :: f) :: fs | [] => [[c]] end
  end.
Fixpoint join (ch : ascii) (fs : list str) : str :=
  match fs with [] => [] | [f] => f | f :: fs => f ++ ch :: join ch fs end.

Lemma fields_ne ch s : fields ch s <> [].
Proof. destruct s as [|c s]; simpl; [done|]. case_decide; [done|]. by destruct (fields ch s). Qed.

Lemma join_fields ch s : join ch (fields ch s) = s.
Proof.
  induction s as [|c s IH]; simpl; [done|]. pose proof (fields_ne ch s). case_decide as E.
  - subst. destruct (fields ch s) as [|f fs]; [done|]. simpl in *. by rewrite IH.
  - destruct (fields ch s) as [|f fs]; [done|]. destruct fs as [|g fs]; simpl in *; by rewrite <- IH.
Qed.

Lemma fields_no_sep ch s f : f ∈ fields ch s -> ch ∉ f.
Proof.
  revert f. induction s as [|c s IH]; intros f; simpl.
  - intros ->%list_elem_of_singleton. apply not_elem_of_nil.
  - case_decide as E.
    + intros [->|Hf]%elem_of_cons; [apply not_elem_of_nil|by apply IH].
    + pose proof (fields_ne ch s). destruct (fields ch s) as [|g fs]; [done|]. intros [->|Hf]%elem_of_cons.
      * rewrite not_elem_of_cons. split; [congruence|]. apply IH. by left.
      * apply IH. by right.
Qed.

Lemma fields_find ch s :
  fields ch s = match find_char ch s with Some j => take j s :: fields ch (drop (S j) s) | None => [s] end.
Proof.
  induction s as [|c s IH]; simpl; [done|]. case_decide; [done|]. rewrite IH. by destruct (find_char ch s).
Qed.

Lemma split_loop_fields s ch t e (fuel i j : nat) c :
  find_char_from ch s i = Some j -> length s < fuel + i ->
  split_loop fuel s ch c t e i j = Some (fold_left (add_field t e) (fields ch (drop i s)) c).
Proof.
  revert i j c. induction fuel as [|fuel IH]; intros i j c Hj Hf; unfold find_char_from in Hj.
  - rewrite drop_ge in Hj by lia. done.
  - destruct (find_char ch (drop i s)) as [k|] eqn:E; [|done]. injection Hj as <-. cbn [split_loop].
    rewrite (fields_find ch (drop i s)), E. cbn [fold_left]. unfold substr at 1. replace (i + k - i) with k by lia.
    rewrite drop_drop. replace (i + S k) with (S (i + k)) by lia.
    destruct (find_char_from ch s (S (i + k))) as [j'|] eqn:F.
    + apply IH; [done|lia].
    + unfold find_char_from in F. destruct (find_char ch (drop (S (i + k)) s)) eqn:G; [done|].
      rewrite fields_find, G. cbn [fold_left]. unfold substr.
      by rewrite (take_ge (drop (S (i + k)) s)) by (rewrite length_drop; lia).
Qed.

Lemma drop_while_split {A} (p : A -> bool) l : exists a, l = a ++ drop_while p l /\ Forall (fun x => p x = true) a.
Proof. exists (take_while p l). split; [by rewrite take_drop_while|apply take_while_all]. Qed.

Lemma trim_spec s :
  exists a b, s = a ++ trim s ++ b /\ Forall (fun x => is_space x = true) a /\ Forall (fun x => is_space x = true) b
  /\ (forall c, head (trim s) = Some c -> is_space c = false) /\ (forall c, last (trim s) = Some c -> is_space c = false).
Proof.
  unfold trim, ltrim, rtrim. destruct (drop_while_split is_space (rev s)) as (b & Eb & Hb).
  set (r := drop_while is_space (rev s)) in *. destruct (drop_while_split is_space (rev r)) as (a & Ea & Ha).
  exists a, (rev b). split; [|split; [done|split; [by apply Forall_rev|split]]].
  - rewrite app_assoc, <- Ea, <- rev_app_distr, <- Eb. by rewrite rev_involutive.
  - intros c Hc. pose proof (drop_while_head is_space (rev r)) as H. destruct (drop_while is_space (rev r)); [done|]. by injection Hc as ->.
  - intros c Hc. pose proof (drop_while_head is_space (rev s)) as H. fold r in H.
    assert (Hl : last (rev r) = Some c). { rewrite Ea. rewrite last_app, Hc. done. }
    destruct r as [|x r']; [done|]. simpl in Hl. rewrite last_snoc in Hl. by injection Hl as ->.
Qed.

(** [split] of a string that holds the separator appends its fields - those between separators, trimmed when
    asked, and without the empty ones unless they are wanted; a string without the separator is appended as
    it is, neither trimmed nor left out when empty.  Splitting without trimming and with the empty fields is
    inverted by joining; and a trimmed field is the field less the blanks at its two ends. *)
Theorem split_spec (s : str) (ch : ascii) (c : list str) (t e : bool) :
  (ch ∈ s -> split s ch c t e
     = Some (c ++ filter (fun f => e = true \/ f <> []) (map (fun f => if t then trim f else f) (fields ch s))))
  /\ (ch ∉ s -> split s ch c t e = Some (c ++ [s]))
  /\ (exists fs, split s ch [] false true = Some fs /\ join ch fs = s /\ forall f, f ∈ fs -> ch ∉ f)
  /\ (exists a b, s = a ++ trim s ++ b /\ Forall (fun x => is_space x = true) (a ++ b)
       /\ forall x, head (trim s) = Some x \/ last (trim s) = Some x -> is_space x = false).
Proof.
  assert (Hadd : forall t e fs c, fold_left (add_field t e) fs c
    = c ++ filter (fun f => e = true \/ f <> []) (map (fun f => if t then trim f else f) fs)).
  { clear. intros t e fs. induction fs as [|f fs IH]; intros c; simpl; [by rewrite app_nil_r|]. rewrite IH. unfold add_field at 1.
    set (g := if t then trim f else f). rewrite filter_cons. destruct (decide (e = true \/ g <> [])) as [D|D].
    - assert (e || (0 <? length g) = true) as ->. { destruct e; [done|]. destruct g; [|done]. exfalso. naive_solver. }
      by rewrite <- app_assoc.
    - assert (e || (0 <? length g) = false) as ->; [|done]. destruct e; [exfalso; apply D; by left|]. destruct g; [done|]. exfalso; apply D; by right. }
  assert (Hin : forall c t e, ch ∈ s -> split s ch c t e = Some (fold_left (add_field t e) (fields ch s) c)).
  { intros c' t' e' Hs. unfold split. destruct (find_char ch s) as [j|] eqn:E; [|by apply find_char_None in E].
    apply split_loop_fields; [unfold find_char_from; rewrite drop_0, E; done|lia]. }
  split; [|split; [|split]].
  - intros Hs. by rewrite Hin, Hadd.
  - intros Hs. unfold split. apply find_char_None in Hs. by rewrite Hs.
  - destruct (decide (ch ∈ s)) as [Hs|Hs].
    + exists (fields ch s). rewrite Hin, Hadd by done. split; [|split; [apply join_fields|apply fields_no_sep]].
      f_equal. rewrite app_nil_l, map_id. clear. induction (fields ch s) as [|f fs IH]; [done|]. rewrite filter_cons, IH. by rewrite decide_True by auto.
    + exists [s]. unfold split. rewrite (proj2 (find_char_None ch s)) by done. split; [done|]. split; [done|]. by intros f ->%list_elem_of_singleton.
  - destruct (trim_spec s) as (a & b & H1 & H2 & H3 & H4 & H5). exists a, b. split; [done|]. split; [by apply Forall_app|].
    intros x [Hx|Hx]; auto.
Qed.

(** ** Replacing *)

Lemma take_occurrence_length (s o r : str) i :
  i + length o <= length s -> length (take i s ++ r ++ drop (i + length o) s) + length o = length s + length r.
Proof. intros. rewrite !length_app, length_take, length_drop. lia. Qed.

Lemma replace_loop_shrinks (fuel : nat) (s o r : str) b :
  length r < length o -> length s <= fuel ->
  exists s' b', replace_loop fuel s o r b = Some (s', b') /\ ~ occurs o s' /\ length s' <= length s /\ (b' = true <-> b = true \/ occurs o s)
    /\ (b' = b \/ b' = true).
Proof.
  revert s b. induction fuel as [|fuel IH]; intros s b Hr Hs; cbn [replace_loop]; destruct (find_str o s) as [i|] eqn:E.
  - apply find_str_Some in E as [_ E]. lia.
  - exists s, b. apply find_str_None in E. repeat split; try done; [by left|tauto|by left].
  - pose proof (find_str_Some o s i E) as [Ho Hi]. pose proof (take_occurrence_length s o r i Hi).
    destruct (IH (take i s ++ r ++ drop (i + length o) s) true) as (s' & b' & H1 & H2 & H3 & H4 & H5); [done|lia|].
    exists s', b'. assert (b' = true) as -> by (destruct H5; congruence). repeat split; try done; [lia| |by right].
    intros _. right. by exists (take i s), (drop (i + length o) s).
  - exists s, b. apply find_str_None in E. repeat split; try done; [by left|tauto|by left].
Qed.

Lemma replace_loop_diverges (fuel : nat) (s o r : str) b : occurs o r -> occurs o s -> replace_loop fuel s o r b = None.
Proof.
  intros (a1 & b1 & Hr). revert s b. induction fuel as [|fuel IH]; intros s b Hs; cbn [replace_loop];
    (destruct (find_str o s) as [i|] eqn:E; [|by apply find_str_None in E]); [done|].
  apply IH. exists (take i s ++ a1), (b1 ++ drop (i + length o) s). rewrite Hr. by rewrite <- !app_assoc.
Qed.

(** Erasing keeps the characters that are left in order. *)
Lemma remove_loop_sublist (fuel : nat) (s o : str) b s' b' : replace_loop fuel s o [] b = Some (s', b') -> s' `sublist_of` s.
Proof.
  revert s b. induction fuel as [|fuel IH]; intros s b; cbn [replace_loop]; destruct (find_str o s) as [i|] eqn:E; try done; try (by intros [= <- <-]).
  intros Hr. etrans; [by eapply IH|]. cbn [app]. transitivity (take i s ++ drop i s); [|by rewrite take_drop].
  apply sublist_app; [done|]. rewrite <- drop_drop. apply sublist_drop.
Qed.

Lemma remove_replace fuel s target b : remove fuel s target = fst <$> replace_loop fuel target s [] b.
Proof.
  revert target b. induction fuel as [|fuel IH]; intros target b; simpl; destruct (find_str s target); auto.
Qed.

(** One round: the first occurrence of [o] in [s] gives way to [r], and what is before and after it stays. *)
Definition first_replaced (o r s s' : str) : Prop :=
  exists a b, s = a ++ o ++ b /\ s' = a ++ r ++ b /\ forall a' b', s = a' ++ o ++ b' -> length a <= length a'.

Lemma find_str_first p s i a b : find_str p s = Some i -> s = a ++ p ++ b -> i <= length a.
Proof.
  revert i a. induction s as [|c s IH]; intros i a; cbn [find_str].
  - destruct (is_prefix p []); [intros [= <-]; lia|done].
  - destruct (is_prefix p (c :: s)) eqn:E; [intros [= <-]; lia|]. destruct (find_str p s) as [j|]; [|done]. intros [= <-] Hs.
    destruct a as [|x a]; [|injection Hs as _ Hs; specialize (IH j a eq_refl Hs); simpl; lia].
    assert (is_prefix p (c :: s) = true) by (apply is_prefix_spec; by exists b). congruence.
Qed.
Lemma find_str_replaced o r s i : find_str o s = Some i -> first_replaced o r s (take i s ++ r ++ drop (i + length o) s).
Proof.
  intros E. destruct (find_str_Some o s i E) as [Ho Hi]. exists (take i s), (drop (i + length o) s). split; [done|]. split; [done|].
  intros a' b' Hs. rewrite length_take. pose proof (find_str_first o s i a' b' E Hs). lia.
Qed.
Lemma replace_loop_rounds fuel s o r b s' b' : replace_loop fuel s o r b = Some (s', b') ->
  rtc (first_replaced o r) s s' /\ ~ occurs o s' /\ (b' = true <-> b = true \/ occurs o s).
Proof.
  revert s b. induction fuel as [|fuel IH]; intros s b; cbn [replace_loop]; destruct (find_str o s) as [i|] eqn:E; try done.
  1, 3: intros [= <- <-]; apply find_str_None in E; split; [constructor|]; tauto.
  intros H. pose proof (find_str_replaced o r s i E) as Hr. destruct (IH _ _ H) as (H1 & H2 & H3). split; [by econstructor|]. split; [done|].
  rewrite H3. split; [|by left]. intros _. right. destruct Hr as (x & y & Hs & _). by exists x, y.
Qed.

(** C34. Replacing a substring by a shorter one ends, within as many rounds as the string has characters.  Whenever it ends, whatever the
    replacement, each round has put the replacement in the place of the first occurrence and kept what is before and after it, no
    occurrence is left, and it reports whether there was one.  [remove] is the case of the empty replacement, so it ends and keeps a
    subsequence.  When the original is empty, or occurs in the replacement, a string that holds it is never finished, whatever the
    number of rounds. *)
Theorem replace_substr_terminates (s o r : str) :
  (length r < length o -> is_Some (replace_substr (length s) s o r))
  /\ (s <> [] -> forall fuel s' b, replace_substr fuel s o r = Some (s', b) ->
       rtc (first_replaced o r) s s' /\ ~ occurs o s' /\ (b = true <-> occurs o s))
  /\ (forall fuel, replace_substr fuel [] o r = Some ([], false))
  /\ (s <> [] -> forall fuel, remove fuel o s = fst <$> replace_substr fuel s o [])
  /\ (o <> [] -> exists t, remove (length s) o s = Some t /\ ~ occurs o t /\ t `sublist_of` s /\ rtc (first_replaced o []) s t)
  /\ (occurs o r -> occurs o s -> s <> [] -> forall fuel, replace_substr fuel s o r = None)
  /\ (forall fuel, remove fuel [] s = None).
Proof.
  split; [|split; [|split; [|split; [|split; [|split]]]]].
  - intros Hr. unfold replace_substr. destruct s as [|c s]; [by eexists|].
    destruct (replace_loop_shrinks (length (c :: s)) (c :: s) o r false Hr) as (s' & b & H1 & _); [done|]. rewrite H1. by eexists.
  - intros Hs fuel s' b. unfold replace_substr. destruct s; [done|]. intros (H1 & H2 & H3)%replace_loop_rounds. split; [done|]. split; [done|].
    rewrite H3. intuition congruence.
  - done.
  - intros Hs fuel. rewrite (remove_replace _ _ _ false). by destruct s.
  - intros Ho. rewrite (remove_replace _ _ _ false). destruct (replace_loop_shrinks (length s) s o [] false) as (s' & b & H1 & H2 & _).
    { destruct o; [done|]. simpl. lia. } { done. }
    rewrite H1. exists s'. split; [done|]. split; [done|]. split; [by eapply remove_loop_sublist|]. by apply replace_loop_rounds in H1 as (? & _).
  - intros Hor Hos Hne fuel. unfold replace_substr. destruct s; [done|]. by apply replace_loop_diverges.
  - intros fuel. rewrite (remove_replace _ _ _ false), replace_loop_diverges; [done| |]; [by exists [], []|by exists [], s].
Qed.

(** One space for every run of spaces. *)
Fixpoint squeeze (s : str) : str :=
  match s with
  | [] => []
  | c :: s' => if decide (c = " "%char /\ head s' = Some " "%char) then squeeze s' else c :: squeeze s'
  end.

Lemma squeeze_head s : head (squeeze s) = head s.
Proof. induction s as [|c s IH]; simpl; [done|]. case_decide as E; [|done]. destruct E as [-> E]. by rewrite IH. Qed.

Lemma squeeze_pair a b : squeeze (a ++ (W "  ") ++ b) = squeeze (a ++ (W " ") ++ b).
Proof.
  induction a as [|c a IH]; [done|]. cbn [app squeeze]. rewrite IH.
  assert (head (a ++ W "  " ++ b) = head (a ++ W " " ++ b)) as -> by by destruct a. done.
Qed.

Lemma squeeze_fixed s : ~ occurs (W "  ") s -> squeeze s = s.
Proof.
  induction s as [|c s IH]; intros H; [done|]. cbn [squeeze]. rewrite decide_False.
  - rewrite IH; [done|]. intros (a & b & ->). apply H. by exists (c :: a), b.
  - intros [-> E]. destruct s as [|d s]; [done|]. injection E as ->. apply H. by exists [], s.
Qed.

Lemma replace_loop_squeeze fuel s b s' b' :
  replace_loop fuel s (W "  ") (W " ") b = Some (s', b') -> squeeze s' = squeeze s.
Proof.
  revert s b. induction fuel as [|fuel IH]; intros s b; cbn [replace_loop]; destruct (find_str (W "  ") s) as [i|] eqn:E; try done; try (by intros [= <- <-]).
  intros Hr. apply IH in Hr as ->. rewrite <- squeeze_pair. by destruct (find_str_Some _ _ _ E) as [<- _].
Qed.

(** [remove_double_spaces] ends and leaves one space of every run of spaces: two passes are enough, the
    first removes every pair and the second finds none. *)
Theorem remove_double_spaces_spec (s : str) : remove_double_spaces 2 s = Some (squeeze s) /\ ~ occurs (W "  ") (squeeze s).
Proof.
  assert (Hpass : forall s c, s = c :: tail s -> exists s' b, replace_substr (S (length s)) s (W "  ") (W " ") = Some (s', b)
    /\ s' = squeeze s /\ ~ occurs (W "  ") s' /\ (b = true -> occurs (W "  ") s)).
  { intros [|x s0] c Hc; [done|]. destruct (replace_loop_shrinks (S (length (x :: s0))) (x :: s0) (W "  ") (W " ") false) as (s' & b & H1 & H2 & _ & H4 & _); [simpl; lia|lia|].
    exists s', b. split; [exact H1|]. split; [|split; [done|]].
    - apply replace_loop_squeeze in H1. rewrite <- H1. symmetry. by apply squeeze_fixed.
    - intros Hb. apply H4 in Hb. destruct Hb; done. }
  destruct s as [|c s]; [split; [done|]; intros (a & b & H); by destruct a|].
  destruct (Hpass (c :: s) c eq_refl) as (s' & b & H1 & H2 & H3 & H4). rewrite <- H2. split; [|done].
  cbn [remove_double_spaces]. rewrite H1. destruct b; [|done]. destruct s' as [|d s']; [done|].
  destruct (Hpass (d :: s') d eq_refl) as (s2 & b2 & G1 & G2 & _ & G3). rewrite G1. rewrite (squeeze_fixed _ H3) in G2. subst s2.
  destruct b2; [|done]. exfalso. apply H3. by apply G3.
Qed.

(** ** Numbers *)

(** A separator before every later group of three, counted from the right. *)
Fixpoint grouped (g : ascii) (s : str) : str :=
  match s with
  | [] => []
  | c :: s' => c :: (if decide (length s' mod 3 = 0 /\ s' <> []) then g :: grouped g s' else grouped g s')
  end.

Lemma mod3_step (p k : nat) : p <= 2 -> (k + p) mod 3 = 0 -> p <> 0 -> k mod 3 <> 0.
Proof.
  intros Hp H Hp0 Hk. pose proof (Nat.div_mod k 3 ltac:(lia)). pose proof (Nat.div_mod (k + p) 3 ltac:(lia)). lia.
Qed.

Lemma insert_grouping_char_grouped (s : str) (g : ascii) : insert_grouping_char s g = grouped g s.
Proof.
  unfold insert_grouping_char. cbv zeta. set (m := length s mod 3). set (p := (if decide (m = 0) then 3 else m) - 1).
  pose proof (Nat.mod_upper_bound (length s) 3 ltac:(lia)) as Hm. pose proof (Nat.div_mod (length s) 3 ltac:(lia)) as Hd. fold m in Hm, Hd.
  assert (Hp : p <= 2) by (unfold p; case_decide; lia).
  assert (Hgen : forall l f i count, i + length l = length s ->
    (i <= p -> count = i) -> (p < i -> count <= 2 /\ exists q, i = p + 1 + 3 * q + count) ->
    fst (fst (fold_left (fun '((f, i), count) ch =>
      let f := f ++ [ch] in
      let last := bool_decide (S i = length s) in
      let count := if decide (i = p) then count else S count in
      if bool_decide (i = p \/ count = 3) && negb last then (f ++ [g], S i, 0) else (f, S i, count)) l ((f, i), count))) = f ++ grouped g l).
  2: { apply (Hgen s [] 0 0); [done|done|lia]. }
  induction l as [|c l IH]; intros f i count Hi H1 H2; [by rewrite app_nil_r|]. cbn [fold_left grouped length] in *.
  set (count' := if decide (i = p) then count else S count).
  assert (Hrest : (exists q, length s = p + 1 + 3 * q)).
  { destruct (length s / 3) as [|q] eqn:Eq.
    - unfold p. case_decide; [exists 0; lia|]. exists 0. lia.
    - unfold p. case_decide; [exists q; lia|exists (S q); lia]. }
  destruct Hrest as [Q HQ].
  assert (Hiff : (i = p \/ count' = 3) <-> length l mod 3 = 0).
  { unfold count'. assert (Hl : length l = p + 1 + 3 * Q - 1 - i) by lia. pose proof (Nat.div_mod (length l) 3 ltac:(lia)).
    pose proof (Nat.mod_upper_bound (length l) 3 ltac:(lia)). case_decide as E.
    - split; [intros _; lia|by left].
    - destruct (decide (i <= p)) as [Hle|Hgt]; [specialize (H1 Hle); lia|]. destruct (H2 ltac:(lia)) as (Hc & q & Hq). lia. }
  destruct (decide (length l mod 3 = 0 /\ l <> [])) as [[Hm0 Hne]|Hno].
  - rewrite bool_decide_eq_true_2 by (by apply Hiff).
    assert (length l <> 0) by (by destruct l). rewrite bool_decide_eq_false_2 by lia. cbn [andb negb].
    rewrite IH; [by rewrite <- !app_assoc|lia| |].
    + intros Hle. exfalso. assert (i <> p) by lia. assert (count' = 3) by (apply Hiff in Hm0; tauto).
      unfold count' in *. rewrite decide_False in * by done. specialize (H1 ltac:(lia)). lia.
    + intros _. split; [lia|]. apply Hiff in Hm0. destruct Hm0 as [->|Hc3]; [exists 0; lia|]. unfold count' in Hc3. case_decide.
      * subst i. exists 0. lia.
      * destruct (decide (i <= p)); [specialize (H1 ltac:(lia)); lia|]. destruct (H2 ltac:(lia)) as (Hc & q & Hq). exists (q + 1). lia.
  - assert (bool_decide (i = p \/ count' = 3) && negb (bool_decide (S i = length s)) = false) as ->.
    { destruct (decide (length l mod 3 = 0)) as [Hm0|Hm0].
      - destruct l as [|d l]; [|exfalso; apply Hno; done]. rewrite (bool_decide_eq_true_2 (S i = length s)) by (simpl in Hi; lia). apply andb_false_r.
      - rewrite bool_decide_eq_false_2; [done|]. by intros Hx%Hiff. }
    destruct l as [|d l]; [done|].
    rewrite IH; [by rewrite <- app_assoc|simpl in *; lia| |].
    + intros Hle. unfold count'. rewrite decide_False by lia. specialize (H1 ltac:(lia)). lia.
    + intros Hlt. assert (Hm0 : length (d :: l) mod 3 <> 0) by (intros E; by apply Hno).
      assert (Hnp : i <> p) by (intros E; apply Hm0, Hiff; by left). unfold count' in *. rewrite decide_False in * by done.
      assert (Hn3 : S count <> 3) by (intros E; apply Hm0, Hiff; by right). destruct (decide (i <= p)); [lia|].
      destruct (H2 ltac:(lia)) as (Hc & q & Hq). split; [lia|]. exists q. lia.
Qed.

Lemma grouped_remove g s : g ∉ s -> filter (fun c => c <> g) (grouped g s) = s.
Proof.
  induction s as [|c s IH]; intros H; [done|]. apply not_elem_of_cons in H as [H1 H2]. cbn [grouped].
  rewrite filter_cons_True by congruence. f_equal. case_decide; [|by apply IH]. rewrite filter_cons_False by (intros Hx; by apply Hx). by apply IH.
Qed.

Lemma decimal_digits n : (0 <= n)%Z -> Forall (fun c => is_digit c = true) (decimal n).
Proof. intros. unfold decimal. destruct (Z.ltb_spec n 0); [lia|]. by apply digits_spec. Qed.

Lemma digits_val_zeros k s : digits_val (replicate k "0"%char ++ s) = digits_val s.
Proof. induction k as [|k IH]; [done|]. simpl. rewrite digits_val_cons, IH. done. Qed.

Lemma pad_zeros (n : nat) (s : str) : 0 < n -> (Z.of_nat n < 2 ^ 31)%Z ->
  pad_copy s "0"%char (Z.of_nat n) false = Ret (replicate (n - length s) "0"%char ++ s).
Proof.
  intros Hn Hn31. unfold pad_copy, pad. rewrite (proj2 (Z.eqb_neq _ _)) by lia. unfold signed_wrap. rewrite Z.mod_small by lia.
  rewrite (proj2 (Z.ltb_lt _ _)) by lia. by rewrite Nat2Z.id.
Qed.

(** A number that fits is padded to the width, and keeps its value. *)
Lemma pad_left0_fits (number : Z) (n : nat) : 0 < n -> (Z.of_nat n < 2 ^ 31)%Z -> (0 <= number < 10 ^ Z.of_nat n)%Z ->
  exists s, pad_left0 number (Z.of_nat n) = Ret s /\ length s = n /\ digits_val s = number.
Proof.
  intros Hn Hn31 H0. unfold pad_left0, to_string. rewrite (proj2 (Z.ltb_ge _ _)) by lia. rewrite pad_zeros by done. eexists. split; [done|].
  rewrite digits_val_zeros, decimal_val by lia. split; [|done]. rewrite length_app, length_replicate.
  assert (length (decimal number) <= n); [|lia]. unfold decimal. rewrite (proj2 (Z.ltb_ge _ _)) by lia. by apply digits_length_le.
Qed.

(** [to_string] prints a number that is not negative in decimal; with grouping, the separators stand before
    every group of three digits from the right, and removing them gives the digits back; padding with zeros
    to [n] places keeps the value and gives [n] characters when the number fits.  A negative number is
    printed with two minus signs, one from the stream and one inserted, and the padding goes before them. *)
Theorem to_string_spec (number : Z) (g : ascii) (n : nat) (Hg : is_digit g = false) (Hn : 0 < n) (Hn31 : (Z.of_nat n < 2 ^ 31)%Z) :
  ((0 <= number)%Z ->
     to_string false number g = decimal number /\ digits_val (to_string false number g) = number
     /\ to_string true number g = grouped g (decimal number)
     /\ filter (fun c => c <> g) (to_string true number g) = decimal number)
  /\ ((0 <= number < 10 ^ Z.of_nat n)%Z ->
     exists s, pad_left0 number (Z.of_nat n) = Ret s /\ length s = n /\ digits_val s = number)
  /\ ((number < 0)%Z ->
     to_string false number g = "-"%char :: "-"%char :: digits (- number)
     /\ pad_left0 number (Z.of_nat n)
        = Ret (replicate (n - (2 + length (digits (- number)))) "0"%char ++ "-"%char :: "-"%char :: digits (- number))).
Proof.
  split; [|split].
  - intros H0. unfold to_string. rewrite (proj2 (Z.ltb_ge _ _)) by lia. split; [done|]. split; [by apply decimal_val|].
    rewrite insert_grouping_char_grouped. split; [done|]. apply grouped_remove.
    intros Hin. pose proof (decimal_digits number H0) as Hd. rewrite Forall_forall in Hd. apply Hd in Hin. congruence.
  - intros H0. by apply pad_left0_fits.
  - intros H0. unfold pad_left0, to_string, decimal. rewrite (proj2 (Z.ltb_lt _ _)) by lia. split; [done|]. by rewrite pad_zeros.
Qed.

Lemma to_string_spec_witness :
  to_string true 1234567 ","%char = W "1,234,567" /\ pad_left0 (-5) 6 = Ret (W "000--5")
  /\ exists s, pad_left0 42 (Z.of_nat 6) = Ret s /\ length s = 6 /\ digits_val s = 42%Z.
Proof.
  split; [vm_compute; reflexivity|]. split; [vm_compute; reflexivity|].
  destruct (to_string_spec 42 ","%char 6 eq_refl ltac:(lia) ltac:(vm_compute; reflexivity)) as (_ & H & _). apply H.
  change (10 ^ Z.of_nat 6)%Z with 1000000%Z. lia.
Defined.

(** A number in fixed notation with two decimals.  With the separator of the stream the text is given back; with the default one, a comma,
    the decimals are always zero; and what lies between -1 and 0 loses its sign. *)
Lemma to_string_double_spec (i : Z) (d : str) : (0 <= i)%Z -> length d = 2 -> "."%char ∉ d -> ","%char ∉ decimal i ++ W "." ++ d -> "."%char ∉ decimal i ->
  to_string_double i (decimal i ++ W "." ++ d) 2 "."%char = Ret (decimal i ++ W "." ++ d)
  /\ to_string_double i (decimal i ++ W "." ++ d) 2 ","%char = Ret (decimal i ++ W ".00")
  /\ to_string_double 0 (W "-0." ++ d) 2 "."%char = Ret (W "0." ++ d).
Proof.
  intros Hi Hd Hn Hc Hp.
  assert (forall x j, length x = j -> "."%char ∉ x -> find_char "."%char (x ++ W "." ++ d) = Some j) as F.
  { intros x j <- Hx. apply find_char_Some. split; [by apply list_lookup_middle|]. by rewrite take_app_length. }
  assert (pad (W "." ++ d) "0"%char (Z.of_nat 2) true = Ret (W "." ++ d)) as P.
  { unfold pad. change (Z.of_nat 2 =? 0)%Z with false. change (0 <? signed_wrap 32 (Z.of_nat 2))%Z with true. cbv iota.
    rewrite length_app, Hd. simpl. by rewrite app_nil_r. }
  assert (forall x k, length x = k -> take (2 + 1) (drop k (x ++ W "." ++ d)) = W "." ++ d) as T.
  { intros x k <-. rewrite drop_app_length. apply take_ge. rewrite length_app, Hd. simpl. lia. }
  split; [|split]; unfold to_string_double, substr.
  - rewrite (F (decimal i) _ eq_refl Hp). rewrite decide_True by (rewrite !length_app, Hd; simpl; lia). rewrite (T _ _ eq_refl), P.
    unfold to_string. rewrite (proj2 (Z.ltb_ge _ _)) by lia. done.
  - assert (find_char ","%char (decimal i ++ W "." ++ d) = None) as -> by (by apply find_char_None).
    unfold to_string. rewrite (proj2 (Z.ltb_ge _ _)) by lia. done.
  - change (W "-0." ++ d) with (W "-0" ++ W "." ++ d). rewrite (F (W "-0") 2 eq_refl) by (apply (bool_decide_unpack _); vm_compute; exact I).
    rewrite decide_True by (rewrite !length_app, Hd; simpl; lia). rewrite (T (W "-0") 2 eq_refl), P. done.
Qed.

(** ** Small functions *)

Lemma fold_snoc (l acc : str) : fold_left (fun out c => out ++ [c]) l acc = acc ++ l.
Proof. revert acc. induction l as [|c l IH]; intros acc; simpl; [by rewrite app_nil_r|]. by rewrite IH, <- app_assoc. Qed.

Lemma keep_if_ascii p s : Forall (fun c => (-1 <= char_val c)%Z) s -> keep_if p s = Ret (filter (fun c => p (char_val c) = true) s).
Proof.
  intros Hs. unfold keep_if. assert (H : forall acc, fold_left (fun acc ch => out ← acc; b ← ctype p ch; Ret (if b : bool then out ++ [ch] else out)) s (Ret acc)
    = Ret (acc ++ filter (fun c => p (char_val c) = true) s)).
  { induction Hs as [|c s Hc Hs IH]; intros acc; [by rewrite app_nil_r|]. cbn [fold_left mbind outcome_bind].
    assert (ctype p c = Ret (p (char_val c))) as -> by (unfold ctype; by rewrite (proj2 (Z.ltb_ge _ _)) by lia). cbn [mbind outcome_bind].
    rewrite IH, filter_cons. destruct (p (char_val c)); [rewrite decide_True by done; by rewrite <- app_assoc|by rewrite decide_False]. }
  by rewrite H.
Qed.

Lemma snoc_lookup_last (x c : ascii) body : (x :: body ++ [c]) !! (length (x :: body ++ [c]) - 1) = Some c.
Proof.
  rewrite app_comm_cons. apply list_lookup_middle. rewrite length_app. simpl. lia.
Qed.

Lemma reverse_rev s : reverse s = rev s.
Proof. unfold reverse. by rewrite fold_snoc. Qed.

(** [remove_delimiters] strips a delimiter from both ends of a string of at least two characters that has it
    at both, and leaves other strings alone; the string that is a single delimiter makes [erase] throw, after
    the first one is gone.  [remove_ext] cuts at the last dot.  [reverse] is an involution, and a letter's
    case is changed and nothing else; digits are filtered in order, for characters that [isdigit] accepts. *)
Theorem small_string_functions (s body : str) (d : ascii) (Hs : Forall (fun c => (-1 <= char_val c)%Z) s) :
  remove_delimiters d ([d] ++ body ++ [d]) = Ret body
  /\ (forall c, c <> d -> remove_delimiters d (c :: body) = Ret (c :: body) /\ remove_delimiters d (d :: body ++ [c]) = Ret (d :: body ++ [c]))
  /\ remove_delimiters d [d] = Throw (OutOfRange (W "basic_string::erase"))
  /\ ("."%char ∉ body -> remove_ext (s ++ W "." ++ body) = s /\ remove_ext body = body)
  /\ reverse (reverse s) = s
  /\ length (upper s) = length s /\ lower (upper (W "aZ-9")) = W "az-9"
  /\ only_digits s = Ret (filter (fun c => isdigit (char_val c) = true) s).
Proof.
  split; [|split; [|split; [|split; [|split; [|split; [|split]]]]]].
  - unfold remove_delimiters. cbn [app nth]. rewrite bool_decide_eq_true_2 by done. cbn [negb].
    rewrite (load_at_Some _ _ d (snoc_lookup_last _ _ _)).
    cbn [mbind outcome_bind]. rewrite bool_decide_eq_true_2 by done. replace (drop 1 (d :: body ++ [d])) with (body ++ [d]) by done.
    rewrite decide_False by (rewrite length_app; simpl; lia). f_equal. apply take_app_length'. rewrite length_app. simpl. lia.
  - intros c Hc. split.
    + unfold remove_delimiters. cbn [nth]. by rewrite bool_decide_eq_false_2.
    + unfold remove_delimiters. cbn [app nth]. rewrite bool_decide_eq_true_2 by done. cbn [negb].
      rewrite (load_at_Some _ _ c (snoc_lookup_last _ _ _)).
      cbn [mbind outcome_bind]. by rewrite bool_decide_eq_false_2.
  - unfold remove_delimiters. cbn [nth]. rewrite bool_decide_eq_true_2 by done. cbn. by rewrite bool_decide_eq_true_2.
  - intros Hb. assert (Hn : find_char "."%char (rev body) = None) by (apply find_char_None; by rewrite list_elem_of_In, <- in_rev, <- list_elem_of_In).
    unfold remove_ext. split; [|by rewrite Hn].
    assert (Hf : find_char "."%char (rev (s ++ W "." ++ body)) = Some (length body)).
    { apply find_char_Some. rewrite !rev_app_distr, <- app_assoc. rewrite <- (length_rev body). split; [by apply list_lookup_middle|].
      rewrite take_app_length. by apply find_char_None. }
    rewrite Hf, !length_app. simpl. replace (length s + S (length body) - 1 - length body) with (length s) by lia. apply take_app_length.
  - rewrite !reverse_rev. apply rev_involutive.
  - apply length_map.
  - reflexivity.
  - by apply keep_if_ascii.
Qed.

Lemma small_string_functions_witness :
  Forall (fun c => (-1 <= char_val c)%Z) (W "a1b2") /\ only_digits (W "a1b2") = Ret (W "12").
Proof.
  assert (H : Forall (fun c => (-1 <= char_val c)%Z) (W "a1b2")) by (repeat constructor; vm_compute; congruence).
  split; [exact H|]. destruct (small_string_functions (W "a1b2") [] "q"%char H) as (_ & _ & _ & _ & _ & _ & _ & ->). reflexivity.
Defined.
