(* ===== verification/Emails.v ===== *)
(** * E-mail addresses and telephone numbers (contact/e-mail.hpp, contact/phone.hpp, contact/contact.hpp)

    The validators are loops over positions; [local_grammar], [domain_grammar] and [address_grammar] state
    the same languages by the fields between dots.  An [Email] keeps its parts in arrays of 64 and 255
    characters, one of which is the terminator. *)
From S2P Require Import Prelude CS Strings Streams.

(* src: contact/contact.hpp:16-16 ContactQualifier *)
Inductive ContactQualifier : Type := Business | Personal | Other.

(** ** Validation *)

Definition in_range (lo hi c : ascii) : bool := (char_val lo <=? char_val c)%Z && (char_val c <=? char_val hi)%Z.
(* src: contact/e-mail.hpp:85-86 is_valid_domain *)
Definition is_alpha (c : ascii) : bool := in_range "a" "z" c || in_range "A" "Z" c.
(* src: contact/e-mail.hpp:68-70 is_valid_domain *)
Definition is_alnum (c : ascii) : bool := in_range "a" "z" c || in_range "A" "Z" c || in_range "0" "9" c.
(* src: contact/e-mail.hpp:39-42 is_valid_local_part *)
Definition local_char (c : ascii) : bool := is_alnum c || bool_decide (c = "_"%char \/ c = "-"%char \/ c = "+"%char).

(* src: contact/e-mail.hpp:28-46 is_valid_local_part *)
Fixpoint local_loop (prev_dot : bool) (s : str) : bool :=
  match s with
  | [] => true
  | ch :: s =>
      if decide (ch = "."%char) then (if prev_dot then false else local_loop true s)
      else if local_char ch then local_loop false s else false
  end.
(* src: contact/e-mail.hpp:23-47 is_valid_local_part *)
Definition is_valid_local_part (lp : str) : bool :=
  if decide (lp = [] \/ 64 < length lp) then false
  else if decide (head lp = Some "."%char \/ last lp = Some "."%char) then false
  else local_loop false lp.

(* src: contact/e-mail.hpp:65-74 is_valid_domain *)
Definition label_chars (domain : str) (start dot : nat) : bool :=
  forallb (fun i => match domain !! i with Some ch => is_alnum ch || bool_decide (ch = "-"%char) | None => false end) (seq start (dot - start)).
(** [None] is [return false]; every round consumes a label and its dot, so the length bounds the rounds. *)
(* src: contact/e-mail.hpp:55-77 is_valid_domain *)
Fixpoint domain_loop (fuel : nat) (domain : str) (start label_count : nat) : option nat :=
  match fuel with
  | O => None
  | S fuel =>
      if decide (length domain < start) then Some label_count
      else
        let dot := default (length domain) (find_char_from "."%char domain start) in
        let len := dot - start in
        if decide (len = 0 \/ 63 < len) then None
        else if decide (domain !! start = Some "-"%char \/ domain !! (dot - 1) = Some "-"%char) then None
        else if label_chars domain start dot then domain_loop fuel domain (S dot) (S label_count) else None
  end.
(* src: contact/e-mail.hpp:51-89 is_valid_domain *)
Definition is_valid_domain (domain : str) : bool :=
  if decide (domain = [] \/ 255 < length domain) then false
  else match domain_loop (S (S (length domain))) domain 0 0 with
  | None => false
  | Some label_count =>
      if decide (label_count < 2) then false
      else
        let tld := match find_char "."%char (rev domain) with
                   | Some k => drop (length domain - 1 - k + 1) domain | None => domain end in
        if decide (length tld < 2) then false else forallb is_alpha tld
  end.
(* src: contact/e-mail.hpp:92-101 is_valid_email_address *)
Definition is_valid_email_address (email_address : str) : bool :=
  match email_address, find_char "@"%char email_address with
  | [], _ | _, None => false
  | _, Some at_ =>
      if decide (at_ = 0 \/ at_ = length email_address - 1) then false
      else if find_char_from "@"%char email_address (at_ + 1) then false
      else is_valid_local_part (take at_ email_address) && is_valid_domain (drop (at_ + 1) email_address)
  end.

(** ** Email *)

(* src: contact/e-mail.hpp:105-105 Email::LocalPart *)
Definition LOCAL_MAX : nat := 64.
(* src: contact/e-mail.hpp:106-106 Email::Domain *)
Definition DOMAIN_MAX : nat := 255.
(* src: contact/e-mail.hpp:103-109 Email *)
Record Email := mk_Email { mlocal_part : str; mdomain : str; mqualifier : ContactQualifier }.

Section Email.
Context {I : Icu}.

(* src: contact/e-mail.hpp:110-111 Email::NULL_LOCAL_PART, Email::NULL_DOMAIN *)
Definition NULL_LOCAL_PART : outcome str := cs_of_cstr 0 LOCAL_MAX (W "null").
(* src: contact/e-mail.hpp:111-111 Email::NULL_DOMAIN *)
Definition NULL_DOMAIN : outcome str := cs_of_cstr 0 DOMAIN_MAX (W "null").

(** Comparison of the parts ignores case and accents, the defaults of [CS]. *)
(* src: contact/e-mail.hpp:118-136 Email::initialize *)
Definition email_initialize (lp d : str) (cq : ContactQualifier) : outcome Email :=
  nl ← NULL_LOCAL_PART; nd ← NULL_DOMAIN;
  b ← cs_eq false false lp nl; b2 ← (if b : bool then cs_eq false false d nd else Ret false);
  (if b2 : bool then Ret tt
   else lps ← cs_str lp; ds ← cs_str d;
        _ ← (if is_valid_local_part lps then Ret tt else runtime_error (W "Invalid local part"));
        if is_valid_domain ds then Ret tt else runtime_error (W "Invalid domain"));;
  Ret (mk_Email lp d cq).
(* src: contact/e-mail.hpp:138-142 Email::Email *)
Definition email_of_parts (lp d : str) (cq : ContactQualifier) : outcome Email := email_initialize lp d cq.
(** The substrings become arrays on the way to [initialize]. *)
(* src: contact/e-mail.hpp:144-161 Email::Email *)
Definition email_of_S (s : str) (cq : ContactQualifier) : outcome Email :=
  match find_char "@"%char s with
  | None => runtime_error (W "Invalid email address")
  | Some at_ =>
      lp ← cs_of_S 0 LOCAL_MAX (take at_ s); d ← cs_of_S 0 DOMAIN_MAX (drop (at_ + 1) s);
      email_initialize lp d cq
  end.
(** [to_string() + "@"] is a string; adding the array makes an array of 256, which throws when the whole is
    too long for it, inside a [noexcept] function. *)
(* src: contact/e-mail.hpp:164-173 Email::str *)
Definition email_str (e : Email) : outcome str :=
  noexcept (l ← cs_str (mlocal_part e); r ← S_plus_cs DOMAIN_MAX (l ++ W "@") (mdomain e); cs_str r).
(* src: contact/e-mail.hpp:175-188 Email::operator== *)
Definition email_eq (a b : Email) : outcome bool :=
  l ← cs_eq false false (mlocal_part a) (mlocal_part b); if l : bool then cs_eq false false (mdomain a) (mdomain b) else Ret false.
(* src: contact/e-mail.hpp:200-204 operator<< *)
Definition email_write (os : str) (e : Email) : outcome str :=
  l ← cs_str (mlocal_part e); cs_write (mdomain e) (os ++ l ++ W "@").
(** Neither part is validated; the assignment to an array is [noexcept]. *)
(* src: contact/e-mail.hpp:207-222 operator>> *)
Definition email_read (i : str) (e : Email) : outcome (str * Email) :=
  let '(s, rest) := read_token i in
  match find_char "@"%char s with
  | None => runtime_error (W "Invalid email address")
  | Some at_ =>
      lp ← cs_assign_S 0 LOCAL_MAX (take at_ s); d ← cs_assign_S 0 DOMAIN_MAX (drop (at_ + 1) s);
      Ret (rest, mk_Email lp d (mqualifier e))
  end.

(** ** PhoneNumber *)

(* src: contact/phone.hpp:20-31 PhoneNumber *)
Record PhoneNumber := mk_Phone { mcountry_code : str; mareacode : str; mnumber : str; mpqualifier : ContactQualifier }.
(* src: contact/phone.hpp:22-22 PhoneNumber::CountryCode *)
Definition COUNTRY_MAX : nat := 4.
(* src: contact/phone.hpp:23-23 PhoneNumber::AreaCode *)
Definition AREA_MAX : nat := 5.
(* src: contact/phone.hpp:24-24 PhoneNumber::Number *)
Definition NUMBER_MAX : nat := 11.
(* src: contact/phone.hpp:30-31 PhoneNumber::PhoneNumber *)
Definition new_phone (cc ac n : str) (cq : ContactQualifier) : outcome PhoneNumber :=
  cc ← cs_of_S 0 COUNTRY_MAX cc; ac ← cs_of_S 0 AREA_MAX ac; n ← cs_of_S 0 NUMBER_MAX n; Ret (mk_Phone cc ac n cq).
(* src: contact/phone.hpp:33-46 PhoneNumber::equal_country_code, equal_area_code, equal_number *)
Definition phone_part_eq (f : PhoneNumber -> str) (a b : PhoneNumber) : outcome bool := cs_eq false false (f a) (f b).
(* src: contact/phone.hpp:48-56 PhoneNumber::operator== *)
Definition phone_eq (a b : PhoneNumber) : outcome bool :=
  c ← phone_part_eq mcountry_code a b; if negb c then Ret false
  else ac ← phone_part_eq mareacode a b; if negb ac then Ret false else phone_part_eq mnumber a b.
End Email.

(** ** The languages of the validators *)

Definition local_grammar (s : str) : Prop :=
  length s <= 64 /\ Forall (fun f => f <> [] /\ forallb local_char f = true) (fields "."%char s).
Definition label_ok (f : str) : Prop :=
  0 < length f <= 63 /\ head f <> Some "-"%char /\ last f <> Some "-"%char /\ forallb (fun c => is_alnum c || bool_decide (c = "-"%char)) f = true.
Definition domain_grammar (s : str) : Prop :=
  length s <= 255 /\ Forall label_ok (fields "."%char s)
  /\ exists fs tld, fields "."%char s = fs ++ [tld] /\ fs <> [] /\ 2 <= length tld /\ forallb is_alpha tld = true.
Definition address_grammar (s : str) : Prop :=
  exists l d, s = l ++ "@"%char :: d /\ local_grammar l /\ domain_grammar d.

Lemma local_loop_spec s :
  ((local_loop false s = true /\ last s <> Some "."%char) <->
     match fields "."%char s with [] => False | f :: fs => forallb local_char f = true /\ Forall (fun f => f <> [] /\ forallb local_char f = true) fs end)
  /\ ((local_loop true s = true /\ last s <> Some "."%char /\ s <> []) <->
     Forall (fun f => f <> [] /\ forallb local_char f = true) (fields "."%char s)).
Proof.
  induction s as [|c s [IHw IHg]].
  - simpl. split; [by split|]. split; [by intros (_ & _ & ?)|]. intros H. inversion H as [|? ? [? _]]; done.
  - assert (Hlast : last (c :: s) <> Some "."%char <-> match s with [] => c <> "."%char | _ => last s <> Some "."%char end).
    { destruct s as [|d s]; simpl; [|done]. split; congruence. }
    cbn [local_loop fields]. destruct (decide (c = "."%char)) as [->|Hc].
    + split.
      * rewrite <- IHg, Hlast. destruct s; simpl; intuition congruence.
      * split; [by intros [? _]|]. intros H. inversion H as [|? ? [? _]]; done.
    + pose proof (fields_ne "."%char s). destruct (fields "."%char s) as [|f fs]; [done|].
      assert (Hstep : (if local_char c then local_loop false s else false) = true /\ last (c :: s) <> Some "."%char
        <-> local_char c = true /\ local_loop false s = true /\ last s <> Some "."%char).
      { rewrite Hlast. destruct (local_char c); [|intuition congruence]. destruct s; simpl; intuition congruence. }
      assert (Hcons : forallb local_char (c :: f) = true <-> local_char c = true /\ forallb local_char f = true) by (simpl; apply andb_true_iff).
      split.
      * rewrite Hcons, Hstep, IHw. tauto.
      * rewrite Forall_cons, Hcons. split.
        -- intros (H1 & H2 & _). destruct (proj1 Hstep (conj H1 H2)) as (H3 & H4). apply IHw in H4 as [H4 H5]. by repeat split.
        -- intros [(_ & H3 & H4) H5]. destruct (proj2 Hstep (conj H3 (proj2 IHw (conj H4 H5)))) as [H6 H7]. by repeat split.
Qed.

Lemma is_valid_local_part_spec s : is_valid_local_part s = true <-> local_grammar s.
Proof.
  unfold is_valid_local_part, local_grammar. destruct (local_loop_spec s) as [_ <-].
  destruct (decide (s = [] \/ 64 < length s)) as [Hd|Hd].
  - split; [done|]. intros (Hl & _ & _ & Hn). exfalso. destruct Hd; [done|lia].
  - destruct (decide (head s = Some "."%char \/ last s = Some "."%char)) as [Hh|Hh].
    + split; [done|]. intros (_ & H1 & H2 & _). destruct Hh as [Hh|Hh]; [|done]. destruct s as [|c s]; [done|]. injection Hh as ->. done.
    + destruct s as [|c s]; [exfalso; apply Hd; by left|]. assert (c <> "."%char) by (intros ->; apply Hh; by left).
      cbn [local_loop]. destruct (decide (c = "."%char)); [done|]. split.
      * intros H1. split; [apply Nat.nlt_ge; intros ?; apply Hd; by right|]. split; [done|]. split; [|done]. intros ?. apply Hh. by right.
      * tauto.
Qed.

Lemma label_chars_spec d start dot :
  start <= dot <= length d ->
  label_chars d start dot = forallb (fun c => is_alnum c || bool_decide (c = "-"%char)) (substr d start (dot - start)).
Proof.
  intros H. unfold label_chars, substr. remember (dot - start) as n eqn:Hn. assert (Hle : start + n <= length d) by lia. clear Hn H.
  revert start Hle. induction n as [|n IH]; intros start Hle; [done|]. cbn [seq forallb].
  destruct (lookup_lt_is_Some_2 d start ltac:(lia)) as [c Hc]. rewrite Hc, (drop_S d c start Hc). cbn [take forallb]. by rewrite IH by lia.
Qed.

Lemma label_check d start dot :
  start <= dot <= length d ->
  (~ (dot - start = 0 \/ 63 < dot - start) /\ ~ (d !! start = Some "-"%char \/ d !! (dot - 1) = Some "-"%char) /\ label_chars d start dot = true)
  <-> label_ok (substr d start (dot - start)).
Proof.
  intros H. rewrite label_chars_spec by done. unfold label_ok.
  assert (Hl : length (substr d start (dot - start)) = dot - start) by (unfold substr; rewrite length_take, length_drop; lia). rewrite Hl.
  destruct (decide (dot - start = 0)) as [E|E]; [rewrite E; split; [intros [Hx _]; exfalso; apply Hx; by left|lia]|].
  assert (Hh : head (substr d start (dot - start)) = d !! start).
  { destruct (lookup_lt_is_Some_2 d start ltac:(lia)) as [c Hc]. unfold substr. rewrite Hc, (drop_S d c start Hc).
    by destruct (dot - start) as [|n]. }
  assert (Ht : last (substr d start (dot - start)) = d !! (dot - 1)).
  { rewrite last_lookup, Hl. unfold substr. rewrite lookup_take_lt by lia. rewrite lookup_drop. f_equal. lia. }
  rewrite Hh, Ht. split.
  - intros (H1 & H2 & H3). repeat split; try done; [lia|lia|intros ?; apply H2; by left|intros ?; apply H2; by right].
  - intros (H1 & H2 & H3 & H4). split; [lia|]. split; [intros [?|?]; done|done].
Qed.

Lemma domain_loop_spec d fuel : forall start n m,
  start <= length d -> length d + 2 - start <= fuel ->
  domain_loop fuel d start n = Some m <-> Forall label_ok (fields "."%char (drop start d)) /\ m = n + length (fields "."%char (drop start d)).
Proof.
  induction fuel as [|fuel IH]; intros start n m Hs Hf; [lia|]. cbn [domain_loop]. rewrite decide_False by lia.
  set (dot := default (length d) (find_char_from "."%char d start)).
  assert (Hdot : start <= dot <= length d /\ fields "."%char (drop start d)
     = substr d start (dot - start) :: (if decide (dot < length d) then fields "."%char (drop (S dot) d) else [])).
  { unfold dot, find_char_from. rewrite fields_find. destruct (find_char "."%char (drop start d)) as [k|] eqn:E; simpl.
    - apply find_char_Some in E as [E _]. apply lookup_lt_Some in E. rewrite length_drop in E. split; [lia|].
      rewrite decide_True by lia. unfold substr. rewrite drop_drop. f_equal; f_equal; [lia|]. f_equal. lia.
    - split; [lia|]. rewrite decide_False by lia. unfold substr. by rewrite take_ge by (rewrite length_drop; lia). }
  destruct Hdot as [Hd Hfields]. rewrite Hfields. rewrite Forall_cons, <- (label_check d start dot Hd). cbn [length].
  destruct (decide (dot - start = 0 \/ 63 < dot - start)) as [H1|H1]; [split; [done|tauto]|].
  destruct (decide (d !! start = Some "-"%char \/ d !! (dot - 1) = Some "-"%char)) as [H2|H2]; [split; [done|tauto]|].
  destruct (label_chars d start dot) eqn:E3; [|split; [done|intros [[(_ & _ & ?) _] _]; done]].
  destruct (decide (dot < length d)) as [Hlt|Hge].
  - rewrite IH by lia. split; [intros [? ->]|intros [[_ ?] ->]]; (split; [by auto|lia]).
  - assert (dot = length d) as -> by lia. destruct fuel as [|fuel]; [lia|]. cbn [domain_loop]. rewrite decide_True by lia. simpl.
    split; [intros [= <-]; split; [by auto|lia]|]. intros [_ ->]. f_equal. lia.
Qed.

Lemma fields_snoc ch a b : ch ∉ b -> fields ch (a ++ ch :: b) = fields ch a ++ [b].
Proof.
  intros Hb. induction a as [|c a IH]; cbn [app fields].
  - rewrite decide_True by done. rewrite fields_find, (proj2 (find_char_None ch b)) by done. done.
  - rewrite IH. pose proof (fields_ne ch a). case_decide; [done|]. by destruct (fields ch a).
Qed.

Lemma is_valid_domain_spec s : is_valid_domain s = true <-> domain_grammar s.
Proof.
  unfold is_valid_domain, domain_grammar. destruct (decide (s = [] \/ 255 < length s)) as [Hd|Hd].
  - split; [done|]. intros (Hl & Hf & _). exfalso. destruct Hd as [->|Hd]; [|lia].
    inversion Hf as [|? ? [[Hx _] _] _]. simpl in Hx. lia.
  - assert (Hl : length s <= 255) by (apply Nat.nlt_ge; intros ?; apply Hd; by right).
    pose proof (domain_loop_spec s (S (S (length s))) 0 0) as Hloop. rewrite drop_0 in Hloop.
    destruct (domain_loop (S (S (length s))) s 0 0) as [m|] eqn:E.
    + destruct (proj1 (Hloop m ltac:(lia) ltac:(lia)) eq_refl) as [Hf Hm]. simpl in Hm.
      destruct (find_char "."%char (rev s)) as [k|] eqn:Ek.
      * assert (Hsplit : exists a b, s = a ++ "."%char :: b /\ "."%char ∉ b /\ length b = k).
        { apply find_char_Some in Ek as [Ek1 Ek2]. pose proof (lookup_lt_Some _ _ _ Ek1) as Hlt.
          exists (rev (drop (S k) (rev s))), (rev (take k (rev s))). split; [|split].
          - rewrite <- (rev_involutive s) at 1. rewrite <- (take_drop_middle (rev s) k "."%char Ek1) at 1.
            rewrite rev_app_distr. cbn [rev]. by rewrite <- app_assoc.
          - by rewrite list_elem_of_In, <- in_rev, <- list_elem_of_In.
          - rewrite length_rev, length_take. lia. }
        destruct Hsplit as (a & b & Es & Hb & Hk). assert (Hfs : fields "."%char s = fields "."%char a ++ [b]) by (rewrite Es; by apply fields_snoc).
        rewrite Hfs in Hm, Hf |- *.
        assert (Htld : drop (length s - 1 - k + 1) s = b).
        { replace (length s - 1 - k + 1) with (length (a ++ W ".")) by (rewrite Es, !length_app; simpl; lia).
          rewrite Es. change ("."%char :: b) with (W "." ++ b). rewrite app_assoc. apply drop_app_length. }
        rewrite Htld. rewrite length_app in Hm. simpl in Hm. pose proof (fields_ne "."%char a).
        destruct (decide (m < 2)) as [Hm2|Hm2]; [destruct (fields "."%char a); [done|simpl in Hm; lia]|].
        destruct (decide (length b < 2)) as [Hb2|Hb2].
        -- split; [done|]. intros (_ & _ & fs & tld & E2 & _ & Hx & _). apply app_inj_tail in E2 as [_ ->]. lia.
        -- split; [intros Ha; split; [done|]; split; [done|]; exists (fields "."%char a), b; split; [done|]; split; [done|]; split; [lia|done]|].
           intros (_ & _ & fs & tld & E2 & _ & _ & Hx). by apply app_inj_tail in E2 as [_ ->].
      * apply find_char_None in Ek. assert (Hn : "."%char ∉ s) by (rewrite list_elem_of_In, in_rev, <- list_elem_of_In; done).
        assert (Hone : fields "."%char s = [s]) by (rewrite fields_find, (proj2 (find_char_None _ s)); done).
        rewrite Hone in Hm |- *. simpl in Hm. rewrite decide_True by lia. split; [done|].
        intros (_ & _ & fs & tld & E2 & Hne & _). destruct fs as [|f fs]; [done|]. injection E2 as _ E2. by destruct fs.
    + split; [done|]. intros (_ & Hf & _). assert (None = Some (0 + length (fields "."%char s))); [|done].
      apply Hloop; [lia|lia|by split].
Qed.

Lemma fields_elem ch s c : c ∈ s -> c = ch \/ exists f, f ∈ fields ch s /\ c ∈ f.
Proof.
  induction s as [|x s IH]; [by intros ?%elem_of_nil|]. cbn [fields]. intros [->|Hin]%elem_of_cons.
  - destruct (decide (x = ch)); [by left|right]. destruct (fields ch s) as [|f fs]; [exists [x]; split; by left|].
    exists (x :: f). split; by left.
  - destruct (IH Hin) as [|(f & Hf & Hc)]; [by left|right]. destruct (decide (x = ch)); [exists f; split; [by right|done]|].
    destruct (fields ch s) as [|g fs]; [by apply elem_of_nil in Hf|]. apply elem_of_cons in Hf as [->|Hf].
    + exists (x :: g). split; [by left|by right].
    + exists f. split; [by right|done].
Qed.

Lemma domain_without x s : is_alnum x || bool_decide (x = "-"%char) = false -> x <> "."%char -> domain_grammar s -> x ∉ s.
Proof.
  intros Hx Hd (_ & Hf & _) Hin. destruct (fields_elem "."%char s _ Hin) as [|(f & Hff & Hc)]; [done|].
  rewrite Forall_forall in Hf. destruct (Hf f Hff) as (_ & _ & _ & H). rewrite forallb_forall in H. apply list_elem_of_In, H in Hc. congruence.
Qed.
Lemma local_without x s : local_char x = false -> x <> "."%char -> local_grammar s -> x ∉ s.
Proof.
  intros Hx Hd (_ & Hf) Hin. destruct (fields_elem "."%char s _ Hin) as [|(f & Hff & Hc)]; [done|].
  rewrite Forall_forall in Hf. destruct (Hf f Hff) as [_ H]. rewrite forallb_forall in H. apply list_elem_of_In, H in Hc. congruence.
Qed.
Lemma domain_no_at s : domain_grammar s -> "@"%char ∉ s.
Proof. by apply domain_without. Qed.
Lemma local_no_at s : local_grammar s -> "@"%char ∉ s.
Proof. by apply local_without. Qed.
Lemma domain_no_nul s : domain_grammar s -> no_nul s.
Proof. by apply domain_without. Qed.
Lemma local_no_nul s : local_grammar s -> no_nul s.
Proof. by apply local_without. Qed.

Lemma local_ne s : local_grammar s -> s <> [].
Proof. intros [_ H] ->. inversion H as [|? ? [? _]]; done. Qed.
Lemma domain_ne s : domain_grammar s -> s <> [].
Proof. intros (_ & H & _) ->. inversion H as [|? ? [[Hx _] _]]. simpl in Hx. lia. Qed.

Lemma email_validators_iff s : is_valid_email_address s = true <-> address_grammar s.
Proof.
  unfold is_valid_email_address, address_grammar. destruct (find_char "@"%char s) as [k|] eqn:E.
  - pose proof (proj1 (find_char_Some _ _ _) E) as [Hk Hno]. pose proof (lookup_lt_Some _ _ _ Hk) as Hlt.
    assert (Es : s = take k s ++ "@"%char :: drop (k + 1) s) by (rewrite Nat.add_1_r; by rewrite take_drop_middle).
    destruct s as [|c s0] eqn:Es0; [done|]. rewrite <- Es0 in *. clear Es0 c s0. rewrite ?E.
    destruct (decide (k = 0 \/ k = length s - 1)) as [Hd|Hd].
    + split; [done|]. intros (l & d & Hs & Hl & Hdm). exfalso. rewrite Hs in Hk, Hno, Hd.
      pose proof (local_ne l Hl). pose proof (domain_ne d Hdm). rewrite length_app in Hd. simpl in Hd.
      assert (k = length l); [|destruct l, d; simpl in *; done || lia].
      assert (Hf : find_char "@"%char (l ++ "@"%char :: d) = Some (length l)).
      { apply find_char_Some. split; [by apply list_lookup_middle|]. rewrite take_app_length. by apply local_no_at. }
      rewrite Hs in E. congruence.
    + unfold find_char_from. destruct (find_char "@"%char (drop (k + 1) s)) as [j|] eqn:Ej; simpl.
      * split; [done|]. intros (l & d & Hs & Hl & Hdm). exfalso.
        assert (Hf : find_char "@"%char (l ++ "@"%char :: d) = Some (length l)).
        { apply find_char_Some. split; [by apply list_lookup_middle|]. rewrite take_app_length. by apply local_no_at. }
        rewrite <- Hs, E in Hf. injection Hf as ->. apply find_char_Some in Ej as [Ej _]. rewrite Hs, Nat.add_1_r in Ej.
        replace (l ++ "@"%char :: d) with ((l ++ W "@") ++ d) in Ej by (by rewrite <- app_assoc).
        replace (S (length l)) with (length (l ++ W "@")) in Ej by (rewrite length_app; simpl; lia). rewrite drop_app_length in Ej.
        by apply (domain_no_at d Hdm), (list_elem_of_lookup_2 _ j).
      * rewrite andb_true_iff, is_valid_local_part_spec, is_valid_domain_spec. split.
        -- intros [H1 H2]. exists (take k s), (drop (k + 1) s). by split.
        -- intros (l & d & Hs & Hl & Hdm).
           assert (Hf : find_char "@"%char (l ++ "@"%char :: d) = Some (length l)).
           { apply find_char_Some. split; [by apply list_lookup_middle|]. rewrite take_app_length. by apply local_no_at. }
           rewrite <- Hs, E in Hf. injection Hf as ->. clear Es. subst s. rewrite take_app_length. split; [done|].
           replace (drop (length l + 1) (l ++ "@"%char :: d)) with d; [done|].
           change ("@"%char :: d) with (W "@" ++ d). rewrite app_assoc.
           replace (length l + 1) with (length (l ++ W "@")) by (rewrite length_app; simpl; lia). by rewrite drop_app_length.
  - destruct s as [|c s0] eqn:Es0; [split; [done|]; intros (l & d & Hs & _); by destruct l|]. rewrite <- Es0 in *. rewrite ?E.
    split; [done|]. intros (l & d & Hs & _). apply find_char_None in E. exfalso. apply E. rewrite Hs. set_solver.
Qed.

(** C23. The validators accept exactly these languages.  A local part is at most 64 characters: non-empty runs of
    letters, digits, underscores, hyphens and plus signs, separated by single dots.  A domain is at most 255
    characters: two or more labels of 1 to 63 letters, digits and hyphens, no hyphen at either end of a
    label, the last label of two or more letters.  An address is a local part, one at sign and a domain. *)
Theorem email_validators_grammar (s : str) :
  (is_valid_local_part s = true <-> local_grammar s)
  /\ (is_valid_domain s = true <-> domain_grammar s)
  /\ (is_valid_email_address s = true <-> address_grammar s).
Proof.
  split; [apply is_valid_local_part_spec|]. split; [apply is_valid_domain_spec|apply email_validators_iff].
Qed.

(** ** Construction and text *)

Lemma find_at l d : "@"%char ∉ l -> find_char "@"%char (l ++ "@"%char :: d) = Some (length l).
Proof.
  intros H. apply find_char_Some. split; [by apply list_lookup_middle|]. by rewrite take_app_length.
Qed.

Lemma drop_at (l d : str) : drop (length l + 1) (l ++ "@"%char :: d) = d.
Proof.
  change ("@"%char :: d) with (W "@" ++ d). rewrite app_assoc.
  replace (length l + 1) with (length (l ++ W "@")) by (rewrite length_app; simpl; lia). apply drop_app_length.
Qed.

Lemma S_plus_cs_spec N lhs d :
  no_nul lhs -> no_nul d -> length d < N ->
  if decide (N < length lhs + length d + 1) then exists e, S_plus_cs N lhs (d ++ replicate (N - length d) NULL_CHAR) = Throw e
  else exists r, S_plus_cs N lhs (d ++ replicate (N - length d) NULL_CHAR) = Ret r /\ cs_str r = Ret (lhs ++ d).
Proof.
  intros Hl Hd HN. unfold S_plus_cs. rewrite cs_length_padded by (done || lia). cbn [mbind outcome_bind].
  destruct (decide (N < length lhs + length d + 1)) as [H|H]; [by eexists|].
  assert (Hnull : length (cs_null (N + 1)) = N + 1) by apply length_replicate.
  unfold memcpy_at. rewrite Hnull, decide_True by lia. cbn [mbind outcome_bind].
  rewrite take_app_length, overlay_length by lia. rewrite Hnull, decide_True by lia. eexists. split; [done|].
  assert (Ht : take (length lhs) (overlay 0 lhs (cs_null (N + 1))) = lhs) by (rewrite overlay_0; apply take_app_length).
  unfold overlay at 1. rewrite Ht, overlay_0, drop_app, !(drop_ge lhs) by lia. rewrite app_nil_l.
  unfold cs_null, cs_fill. rewrite !drop_replicate, app_assoc. apply cs_str_padded; [|lia].
  unfold no_nul in *. set_solver.
Qed.

Lemma null_parts : exists nl nd, NULL_LOCAL_PART = Ret nl /\ NULL_DOMAIN = Ret nd /\ cs_wf LOCAL_MAX nl /\ cs_wf DOMAIN_MAX nd
  /\ cs_str nl = Ret (W "null") /\ cs_str nd = Ret (W "null").
Proof.
  exists (W "null" ++ replicate (LOCAL_MAX - 4) NULL_CHAR), (W "null" ++ replicate (DOMAIN_MAX - 4) NULL_CHAR).
  split; [by vm_compute|]. split; [by vm_compute|]. split; [apply (cs_wf_padded LOCAL_MAX (W "null")); vm_compute; lia|].
  split; [apply (cs_wf_padded DOMAIN_MAX (W "null")); vm_compute; lia|]. by vm_compute.
Qed.

(** Whether the two parts are the sentinel, in any case. *)
Definition is_null_email (l d : str) : bool :=
  bool_decide (map (char_key false) l = map (char_key false) (W "null")) && bool_decide (map (char_key false) d = map (char_key false) (W "null")).

(** A text of the small letters of [t], each of them small or capital. *)
Definition any_case (s t : str) : Prop := Forall2 (fun c d => c = d \/ (byte_val c + 32)%Z = byte_val d) s t.

Lemma any_ascii c : In c (map ascii_of_nat (seq 0 256)).
Proof. apply in_map_iff. exists (nat_of_ascii c). split; [apply ascii_nat_embedding|]. apply in_seq. pose proof (nat_ascii_bounded c). lia. Qed.
Lemma letter_key c d : d ∈ W "null" -> char_key false c = char_key false d <-> c = d \/ (byte_val c + 32)%Z = byte_val d.
Proof.
  intros Hd. assert (H : forallb (fun c => forallb (fun d => bool_decide (char_key false c = char_key false d <-> c = d \/ (byte_val c + 32)%Z = byte_val d)) (W "null"))
    (map ascii_of_nat (seq 0 256)) = true) by by vm_compute.
  rewrite forallb_forall in H. specialize (H c (any_ascii c)). rewrite forallb_forall in H. specialize (H d ltac:(by apply list_elem_of_In)). by apply bool_decide_eq_true in H.
Qed.
Lemma any_case_key s t : Forall (fun d => d ∈ W "null") t -> any_case s t <-> map (char_key false) s = map (char_key false) t.
Proof.
  intros Ht. revert s. induction Ht as [|d t Hd _ IH]; intros [|c s]; cbn [map]; try (split; [by inversion 1|done]); [by split; [|constructor]|].
  split.
  - intros [H1 H2]%Forall2_cons. f_equal; [by apply letter_key|by apply IH].
  - intros [= H1 H2]. constructor; [by apply letter_key|by apply IH].
Qed.
Lemma null_letters : Forall (fun d => d ∈ W "null") (W "null").
Proof. by apply Forall_forall. Qed.
Lemma is_null_email_spec l d : is_null_email l d = true <-> any_case l (W "null") /\ any_case d (W "null").
Proof. unfold is_null_email. by rewrite andb_true_iff, !bool_decide_eq_true, !any_case_key by apply null_letters. Qed.

Lemma null_text d : any_case d (W "null") -> Forall (fun c => c ∈ W "nulNUL") d /\ length d = 4.
Proof.
  intros H. split; [|by apply Forall2_length in H]. eapply Forall2_Forall_l; [exact H|]. apply Forall_forall. intros e He c Hc.
  apply (letter_key _ _ He) in Hc. revert c Hc. assert (Hall : forallb (fun e => forallb (fun c => bool_decide (char_key false c = char_key false e -> c ∈ W "nulNUL"))
    (map ascii_of_nat (seq 0 256))) (W "null") = true) by by vm_compute.
  intros c. rewrite forallb_forall in Hall. specialize (Hall e ltac:(by apply list_elem_of_In)). rewrite forallb_forall in Hall.
  specialize (Hall c (any_ascii c)). by apply bool_decide_eq_true in Hall.
Qed.
Lemma null_no_char d c : any_case d (W "null") -> bool_decide (c ∈ W "nulNUL") = false -> c ∉ d.
Proof. intros [H _]%null_text Hc%bool_decide_eq_false_1. rewrite Forall_forall in H. auto. Qed.

(** Four letters without a dot are no domain. *)
Lemma null_no_domain d : any_case d (W "null") -> is_valid_domain d = false.
Proof.
  intros [H Hl]%null_text. destruct d as [|c1 [|c2 [|c3 [|c4 [|? ?]]]]]; try discriminate Hl.
  assert (Hall : forallb (fun c1 => forallb (fun c2 => forallb (fun c3 => forallb (fun c4 => negb (is_valid_domain [c1; c2; c3; c4])) (W "nulNUL")) (W "nulNUL")) (W "nulNUL")) (W "nulNUL") = true)
    by by vm_compute.
  rewrite !Forall_cons in H. destruct H as (H1 & H2 & H3 & H4 & _). rewrite forallb_forall in Hall.
  specialize (Hall c1 ltac:(by apply list_elem_of_In)). rewrite forallb_forall in Hall. specialize (Hall c2 ltac:(by apply list_elem_of_In)).
  rewrite forallb_forall in Hall. specialize (Hall c3 ltac:(by apply list_elem_of_In)). rewrite forallb_forall in Hall.
  specialize (Hall c4 ltac:(by apply list_elem_of_In)). by apply negb_true_iff in Hall.
Qed.

Section construct.
Context {I : Icu}.

Lemma email_initialize_spec l d cq :
  no_nul l -> no_nul d -> length l < LOCAL_MAX -> length d < DOMAIN_MAX ->
  let lp := l ++ replicate (LOCAL_MAX - length l) NULL_CHAR in let dm := d ++ replicate (DOMAIN_MAX - length d) NULL_CHAR in
  email_initialize lp dm cq =
    if is_null_email l d then Ret (mk_Email lp dm cq)
    else if is_valid_local_part l then
      if is_valid_domain d then Ret (mk_Email lp dm cq) else Throw (RuntimeError (W "Invalid domain"))
    else Throw (RuntimeError (W "Invalid local part")).
Proof.
  intros Hl Hd Ll Ld lp dm. destruct null_parts as (nl & nd & E1 & E2 & W1 & W2 & S1 & S2).
  assert (Sl : cs_str lp = Ret l) by (apply cs_str_padded; [done|lia]). assert (Sd : cs_str dm = Ret d) by (apply cs_str_padded; [done|lia]).
  unfold email_initialize. rewrite E1, E2. cbn [mbind outcome_bind].
  rewrite (cs_eq_key false false LOCAL_MAX lp nl l (W "null")) by (done || by apply cs_wf_padded). cbn [mbind outcome_bind].
  unfold is_null_email. destruct (bool_decide (map _ l = _)); cbn [mbind outcome_bind andb].
  - rewrite (cs_eq_key false false DOMAIN_MAX dm nd d (W "null")) by (done || by apply cs_wf_padded). cbn [mbind outcome_bind].
    destruct (bool_decide (map _ d = _)); cbn [mbind outcome_bind]; [done|]. rewrite Sl, Sd. cbn [mbind outcome_bind].
    destruct (is_valid_local_part l); cbn [mbind outcome_bind]; [|done]. by destruct (is_valid_domain d).
  - rewrite Sl, Sd. cbn [mbind outcome_bind].
    destruct (is_valid_local_part l); cbn [mbind outcome_bind]; [|done]. by destruct (is_valid_domain d).
Qed.

(** What the constructor makes of two parts that fit. *)
Lemma email_of_parts_spec u w cq : "@"%char ∉ u -> no_nul u -> no_nul w -> length u < LOCAL_MAX -> length w < DOMAIN_MAX ->
  (any_case u (W "null") /\ any_case w (W "null") \/ local_grammar u /\ domain_grammar w ->
     exists e, email_of_S (u ++ "@"%char :: w) cq = Ret e /\ cs_str (mlocal_part e) = Ret u /\ cs_str (mdomain e) = Ret w)
  /\ (~ (any_case u (W "null") /\ any_case w (W "null")) -> ~ (local_grammar u /\ domain_grammar w) ->
     exists m, email_of_S (u ++ "@"%char :: w) cq = Throw (RuntimeError m)).
Proof.
  intros Au Nu Nw Lu Lw. unfold email_of_S. rewrite (find_at u w Au), take_app_length, drop_at, (cs_of_S_ok 0 LOCAL_MAX u), (cs_of_S_ok 0 DOMAIN_MAX w) by (done || lia).
  cbn [mbind outcome_bind]. rewrite email_initialize_spec by done. rewrite <- is_null_email_spec, <- is_valid_local_part_spec, <- is_valid_domain_spec. split.
  - intros H. exists (mk_Email (u ++ replicate (LOCAL_MAX - length u) NULL_CHAR) (w ++ replicate (DOMAIN_MAX - length w) NULL_CHAR) cq).
    split; [|split; (apply cs_str_padded; [done|lia])]. destruct H as [->|[-> ->]]; [done|]. by destruct (is_null_email u w).
  - intros Hn Hv. destruct (is_null_email u w); [by destruct Hn|]. destruct (is_valid_local_part u); [|by eexists].
    destruct (is_valid_domain w); [by destruct Hv|by eexists].
Qed.

(** C24. An address of the grammar builds an [Email] that keeps its two parts and, up to 254 characters, prints
    the address again; a longer one builds too, but printing it ends the program.  A local part of exactly 64
    characters and a domain of 255, both valid, are refused, because the array needs a terminator.  The
    sentinel null@null passes in any case of its letters, although its domain is not valid; of the other texts whose parts fit,
    those outside the grammar are refused. *)
Theorem email_roundtrip (l d : str) (cq : ContactQualifier) (Hl : local_grammar l) (Hd : domain_grammar d) :
  (length l < 64 -> length d < 255 ->
     exists e, email_of_S (l ++ "@"%char :: d) cq = Ret e /\ mqualifier e = cq
       /\ cs_str (mlocal_part e) = Ret l /\ cs_str (mdomain e) = Ret d
       /\ email_eq e e = Ret true /\ email_write [] e = Ret (l ++ "@"%char :: d)
       /\ email_str e = (if decide (length (l ++ "@"%char :: d) <= 254) then Ret (l ++ "@"%char :: d) else Throw Terminate))
  /\ (length l = 64 -> is_valid_email_address (l ++ "@"%char :: d) = true
       /\ email_of_S (l ++ "@"%char :: d) cq = Throw (too_long 64))
  /\ (length l < 64 -> length d = 255 -> email_of_S (l ++ "@"%char :: d) cq = Throw (too_long 255))
  /\ (forall u w, any_case u (W "null") -> any_case w (W "null") -> is_valid_domain w = false
       /\ exists e, email_of_S (u ++ "@"%char :: w) cq = Ret e /\ cs_str (mlocal_part e) = Ret u /\ cs_str (mdomain e) = Ret w)
  /\ (forall u w, "@"%char ∉ u -> no_nul u -> no_nul w -> length u < 64 -> length w < 255 ->
       ~ (any_case u (W "null") /\ any_case w (W "null")) -> ~ (local_grammar u /\ domain_grammar w) ->
       exists m, email_of_S (u ++ "@"%char :: w) cq = Throw (RuntimeError m)).
Proof.
  pose proof (local_no_nul l Hl) as Nl. pose proof (domain_no_nul d Hd) as Nd. pose proof (local_no_at l Hl) as Al.
  unfold email_of_S at 1 2 3. rewrite (find_at l d Al), take_app_length, drop_at.
  split; [|split; [|split; [|split]]].
  - intros Ll Ld. rewrite !cs_of_S_ok by (unfold LOCAL_MAX, DOMAIN_MAX; lia). cbn [mbind outcome_bind].
    rewrite email_initialize_spec by (done || unfold LOCAL_MAX, DOMAIN_MAX; lia).
    rewrite (proj2 (is_valid_local_part_spec l) Hl), (proj2 (is_valid_domain_spec d) Hd).
    set (lp := l ++ replicate (LOCAL_MAX - length l) NULL_CHAR). set (dm := d ++ replicate (DOMAIN_MAX - length d) NULL_CHAR).
    exists (mk_Email lp dm cq). split; [by destruct (is_null_email l d)|]. split; [done|].
    assert (Sl : cs_str lp = Ret l) by (apply cs_str_padded; [done|unfold LOCAL_MAX; lia]).
    assert (Sd : cs_str dm = Ret d) by (apply cs_str_padded; [done|unfold DOMAIN_MAX; lia]).
    split; [done|]. split; [done|]. split; [|split].
    + unfold email_eq; simpl. rewrite (cs_eq_key false false LOCAL_MAX lp lp l l) by (done || by apply cs_wf_padded).
      rewrite bool_decide_eq_true_2 by done. cbn [mbind outcome_bind].
      rewrite (cs_eq_key false false DOMAIN_MAX dm dm d d) by (done || by apply cs_wf_padded). by rewrite bool_decide_eq_true_2.
    + unfold email_write, cs_write; cbn [mlocal_part mdomain]. rewrite Sl. cbn [mbind outcome_bind]. rewrite Sd. cbn [mbind outcome_bind app].
      by rewrite <- app_assoc.
    + unfold email_str; cbn [mlocal_part mdomain]. rewrite Sl. cbn [mbind outcome_bind].
      pose proof (S_plus_cs_spec DOMAIN_MAX (l ++ W "@") d) as H. fold dm in H. rewrite length_app in H. cbn [length] in H.
      assert (no_nul (l ++ W "@")). { unfold no_nul in *. intros [?|Hx]%elem_of_app; [done|]. by apply list_elem_of_singleton in Hx. }
      specialize (H ltac:(done) ltac:(done) ltac:(unfold DOMAIN_MAX; lia)). rewrite length_app. cbn [length].
      unfold DOMAIN_MAX in *. revert H. change (length (W "@")) with 1. destruct (decide (255 < length l + 1 + length d + 1)) as [Hgt|Hle]; intros H.
      * destruct H as [e ->]. by rewrite decide_False by lia.
      * destruct H as (r & -> & Hr). cbn [mbind outcome_bind]. rewrite Hr, decide_True by (clear -Hle; lia). simpl. by rewrite <- app_assoc.
  - intros Ll. split; [apply email_validators_iff; by exists l, d|]. by rewrite (cs_of_S_long 0 LOCAL_MAX l) by (clear -Ll; unfold LOCAL_MAX; lia).
  - intros Ll Ld. rewrite (cs_of_S_ok 0 LOCAL_MAX l) by (clear -Ll; unfold LOCAL_MAX in *; unfold LOCAL_MAX; lia). cbn [mbind outcome_bind]. by rewrite cs_of_S_long by (clear -Ld; unfold DOMAIN_MAX; lia).
  - intros u w Hu Hw. split; [by apply null_no_domain|]. pose proof (null_text u Hu) as [_ Lu]. pose proof (null_text w Hw) as [_ Lw].
    apply email_of_parts_spec; [by apply null_no_char..|rewrite Lu; unfold LOCAL_MAX; lia|rewrite Lw; unfold DOMAIN_MAX; lia|by left].
  - intros u w Au Nu Nw Lu Lw. by apply email_of_parts_spec.
Qed.
End construct.

Lemma email_roundtrip_witness :
  local_grammar (W "john.doe") /\ domain_grammar (W "example.org") /\
  (exists e, email_of_S (I := icu_identity) (W "john.doe@example.org") Personal = Ret e /\ email_str e = Ret (W "john.doe@example.org")).
Proof.
  assert (Hl : local_grammar (W "john.doe")) by (apply is_valid_local_part_spec; reflexivity).
  assert (Hd : domain_grammar (W "example.org")) by (apply is_valid_domain_spec; reflexivity).
  split; [exact Hl|]. split; [exact Hd|].
  destruct (email_roundtrip (I := icu_identity) (W "john.doe") (W "example.org") Personal Hl Hd) as (H & _).
  destruct H as (e & He & _ & _ & _ & _ & _ & Hs); [vm_compute; lia|vm_compute; lia|].
  exists e. split; [exact He|]. rewrite Hs. reflexivity.
Defined.
