(* ===== verification/Sql.v ===== *)
(** * Database access (contact/data/db_connection.hpp)

    The data layer sends SQL text to PostgreSQL through SOCI.  A statement of the fragment it writes is a
    value of [stmt], with the expressions and the conditions of the text; their meaning (NULLIF, COALESCE,
    the casts, three-valued comparison) is SQL's and is [eval] and [holds_for].  The server, its date and
    pattern matching, the driver's row access and the pool's choice of a free connection are the operations
    of [Server]; [ServerLaws] is what their documentation promises about them.  A call of the data layer
    is a computation over the [World]: the database, the leased connections, and each connection's session
    variables. *)
From stdpp Require Import gmap strings countable.
From S2P Require Import Prelude.

(** ** Values, expressions and statements *)

Inductive sval : Type :=
  | VNull | VInt (z : Z) | VText (s : str) | VBool (b : bool) | VDate (iso : str) | VReal (bits : Z).
#[export] Instance sval_eq_dec : EqDecision sval.
Proof. solve_decision. Defined.

Inductive sqltype : Type := TBoolean | TDate | TText | TNamed (name : String.string).

Inductive expr : Type :=
  | Null | Int (z : Z) | Text (s : str) | Bool (b : bool) | CurrentDate
  | Bind (name : String.string) | Col (column : String.string)
  | Nullif (e : expr) (s : str) | Coalesce (e d : expr) | Cast (e : expr) (ty : sqltype).

Inductive cond : Type :=
  | Always | Eq (a b : expr) | ILike (a b : expr) | And (a b : cond) | Or (a b : cond).

Record query := mk_query {
  columns : list expr; from : String.string; where_ : cond; order_by : list (String.string * bool);
  limit : option expr; offset : option expr }.

Inductive stmt : Type :=
  | Insert (table : String.string) (values : list (String.string * expr))
  | Update (table : String.string) (sets : list (String.string * expr)) (id : expr)
  | Delete (table : String.string) (id : expr)
  | Select (q : query)
  | Count (table : String.string) (c : cond)
  | SelectFrom (columns : list expr) (function : String.string) (args : list expr)
  | CallFn (function : String.string) (args : list expr)
  | SelectText (sql : str).

Abbreviation row := (gmap String.string sval) (only parsing).
Definition binds : Type := list (String.string * sval).
Abbreviation vars := (gmap str str) (only parsing).

Fixpoint lookup_bind (b : binds) (name : String.string) : option sval :=
  match b with [] => None | (n, v) :: b => if decide (n = name) then Some v else lookup_bind b name end.

(** ** Meaning of expressions and conditions *)

(** The server's scalar functions: the text of a date in its ISO form, today, casts to the types it defines,
    ILIKE, and the order ORDER BY follows. *)
Class Scalars := {
  parse_date : str -> option str;
  today : str;
  cast_named : String.string -> sval -> option sval;
  ilike : str -> str -> bool;
  sql_le : sval -> sval -> bool;
}.

Section semantics.
Context {C : Scalars}.

Definition cast (ty : sqltype) (v : sval) : option sval :=
  match v, ty with
  | VNull, _ => Some VNull
  | VInt z, TBoolean => Some (VBool (negb (z =? 0)%Z))
  | VText s, TDate => VDate <$> parse_date s
  | VText s, TText => Some (VText s)
  | VDate d, TText => Some (VText d)
  | v, TNamed n => cast_named n v
  | _, _ => None
  end.

Fixpoint eval (r : row) (b : binds) (e : expr) : option sval :=
  match e with
  | Null => Some VNull
  | Int z => Some (VInt z)
  | Text s => Some (VText s)
  | Bool v => Some (VBool v)
  | CurrentDate => Some (VDate today)
  | Bind n => lookup_bind b n
  | Col c => r !! c
  | Nullif e s => v ← eval r b e; Some (if decide (v = VText s) then VNull else v)
  | Coalesce e d => v ← eval r b e; if decide (v = VNull) then eval r b d else Some v
  | Cast e ty => eval r b e ≫= cast ty
  end.

(** Three-valued: [None] is unknown, and a row is selected when the condition is true. *)
Fixpoint truth (r : row) (b : binds) (c : cond) : option bool :=
  match c with
  | Always => Some true
  | Eq e f => match eval r b e, eval r b f with
              | Some VNull, _ | _, Some VNull => None
              | Some v, Some w => Some (bool_decide (v = w))
              | _, _ => None end
  | ILike e f => match eval r b e, eval r b f with Some (VText s), Some (VText p) => Some (ilike s p) | _, _ => None end
  | And c d => match truth r b c, truth r b d with
               | Some false, _ | _, Some false => Some false
               | Some true, Some true => Some true
               | _, _ => None end
  | Or c d => match truth r b c, truth r b d with
              | Some true, _ | _, Some true => Some true
              | Some false, Some false => Some false
              | _, _ => None end
  end.
Definition holds_for (b : binds) (c : cond) (r : row) : Prop := truth r b c = Some true.
#[export] Instance holds_for_dec b c r : Decision (holds_for b c r) := decide (truth r b c = Some true).

Definition matching (table : gmap Z row) (b : binds) (c : cond) : list row := filter (holds_for b c) (snd <$> map_to_list table).

Definition column (c : String.string) (r : row) : sval := default VNull (r !! c).
(** ORDER BY, a column and whether it is DESC; rows equal in every key are in any order. *)
Fixpoint ordered (keys : list (String.string * bool)) (r s : row) : bool :=
  match keys with
  | [] => true
  | (c, desc) :: keys =>
      let '(x, y) := if (desc : bool) then (column c s, column c r) else (column c r, column c s) in
      sql_le x y && (negb (sql_le y x) || ordered keys r s)
  end.

Definition evals (r : row) (b : binds) (es : list expr) : option (list sval) := mapM (eval r b) es.
Definition assign (b : binds) (r : row) (sets : list (String.string * expr)) : option (list (String.string * sval)) :=
  mapM (fun p => pair (fst p) <$> eval r b (snd p)) sets.
Definition natural (b : binds) (e : expr) : option nat :=
  match eval ∅ b e with Some (VInt z) => if (0 <=? z)%Z then Some (Z.to_nat z) else None | _ => None end.
(** LIMIT and OFFSET of rows in order; a negative one is an error. *)
Definition slice {A} (b : binds) (q : query) (l : list A) : option (list A) :=
  n ← match offset q with Some e => natural b e | None => Some 0 end;
  match limit q with Some e => m ← natural b e; Some (take m (drop n l)) | None => Some (drop n l) end.
End semantics.

(** ** The server *)

(** The operations of PostgreSQL and SOCI the data layer uses. *)
Class Server := {
  server_scalars :: Scalars;
  db : Type;
  (** the rows of a table, by id *)
  rows : db -> String.string -> gmap Z row;
  (** one statement on a connection with these session variables: the new contents and the rows returned *)
  exec : vars -> db -> stmt -> binds -> db * outcome (list (list sval));
  (** a SET or RESET statement *)
  configure : str -> vars -> outcome vars;
  (** a new row, or the row of this id, may take these columns: they have the declared types, fit them
      unchanged, and every constraint holds *)
  fits : db -> String.string -> option Z -> list (String.string * sval) -> Prop;
  (** no constraint forbids deleting the row *)
  deletable : db -> String.string -> Z -> Prop;
  table_fn : vars -> db -> String.string -> list sval -> list row;
  (** a query given as text *)
  select_text : vars -> db -> str -> outcome (list (list sval));
  call_fn : vars -> db -> String.string -> list sval -> db * outcome sval;
  (** [soci::connection_pool::lease]: a free position, or it waits *)
  lease : list bool -> option nat;
  (** [soci::row::get<T>] *)
  get_long : sval -> outcome Z;
  get_int : sval -> outcome Z;
  get_string : sval -> outcome str;
  get_double : sval -> outcome Z;
  to_float : Z -> Z;
}.

(** A SQL string literal (standard_conforming_strings): its value and the text after it. *)
Fixpoint literal_body (s : str) : option (str * str) :=
  match s with
  | [] => None
  | c :: s' =>
      if decide (c = "'"%char) then
        match s' with
        | c' :: s'' => if decide (c' = "'"%char) then '(v, rest) ← literal_body s''; Some ("'"%char :: v, rest) else Some ([], s')
        | [] => Some ([], [])
        end
      else '(v, rest) ← literal_body s'; Some (c :: v, rest)
  end.
Definition sql_literal (s : str) : option (str * str) :=
  match s with "'"%char :: s => literal_body s | _ => None end.

Definition DQUOTE : ascii := "034"%char.
Definition quote_identifier (name : str) : str := DQUOTE :: name ++ [DQUOTE].
(* src: contact/data/db_connection.hpp:51-52 ScopedSession::ScopedSession *)
Definition set_statement (name literal : str) : str := W "SET " ++ quote_identifier name ++ W " = " ++ literal.
(* src: contact/data/db_connection.hpp:65-66 ScopedSession::~ScopedSession *)
Definition reset_statement (name : str) : str := W "RESET " ++ quote_identifier name.
Arguments set_statement : simpl never.
Arguments reset_statement : simpl never.

(** The only table with a foreign key to itself (ON DELETE SET NULL): deleting a row changes its children. *)
(* src: contact/db/contact_ddl.sql:292-295 T_OrgUnit *)
Definition self_referencing : String.string := "t_orgunit".

Definition APP_USER : str := W "app.current_user".
Definition APP_LOCALE : str := W "app.locale".
(** A name the audit can store: action_by has at most a hundred characters. *)
(* src: contact/db/contact_ddl.sql:66-66 D_AuditUser *)
Definition acceptable (username : str) : Prop := NULL_CHAR ∉ username /\ length username <= 100.
Definition user_fits (v : vars) : Prop := match v !! APP_USER with Some u => acceptable u | None => True end.

(** What the documentation of PostgreSQL and SOCI promises.  Nothing is said of rows that do not fit, of
    statements whose expressions fail, or of a connection that is lost. *)
Class ServerLaws (S : Server) : Prop := {
  insert_law v d b t sets vs :
    user_fits v -> assign b ∅ sets = Some vs -> fits d t None vs ->
    exists d' id r, exec v d (Insert t sets) b = (d', Ret [[VInt id]]) /\ (0 < id)%Z /\ rows d t !! id = None
      /\ rows d' t = <[id := r]> (rows d t) /\ list_to_map vs ⊆ r;
  update_law v d b t sets e id r vs :
    user_fits v -> eval ∅ b e = Some (VInt id) -> rows d t !! id = Some r -> assign b r sets = Some vs -> fits d t (Some id) vs ->
    exists d' r', exec v d (Update t sets e) b = (d', Ret [[VInt id]]) /\ rows d' t = <[id := r']> (rows d t) /\ list_to_map vs ⊆ r';
  update_absent_law v d b t sets e id :
    eval ∅ b e = Some (VInt id) -> rows d t !! id = None -> exec v d (Update t sets e) b = (d, Ret []);
  delete_law v d b t e id :
    user_fits v -> eval ∅ b e = Some (VInt id) -> is_Some (rows d t !! id) -> deletable d t id ->
    exists d', exec v d (Delete t e) b = (d', Ret [[VInt id]]) /\ rows d' t !! id = None
      /\ (t <> self_referencing -> rows d' t = delete id (rows d t));
  delete_absent_law v d b t e id :
    eval ∅ b e = Some (VInt id) -> rows d t !! id = None -> exec v d (Delete t e) b = (d, Ret []);
  select_law v d b q :
    exists sel, sel ≡ₚ matching (rows d (from q)) b (where_ q) /\ StronglySorted (fun r s => ordered (order_by q) r s = true) sel
      /\ forall out, (l ← slice b q sel; mapM (fun r => evals r b (columns q)) l) = Some out -> exec v d (Select q) b = (d, Ret out);
  count_law v d b t c : exec v d (Count t c) b = (d, Ret [[VInt (Z.of_nat (length (matching (rows d t) b c)))]]);
  select_from_law v d b es f args vs out :
    evals ∅ b args = Some vs -> mapM (fun r => evals r b es) (table_fn v d f vs) = Some out ->
    exec v d (SelectFrom es f args) b = (d, Ret out);
  select_text_law v d b text : exec v d (SelectText text) b = (d, select_text v d text);
  call_law v d b f args vs :
    evals ∅ b args = Some vs ->
    exec v d (CallFn f args) b = (fst (call_fn v d f vs), x ← snd (call_fn v d f vs); Ret [[x]]);
  id_column_law d t id r : rows d t !! id = Some r -> r !! "id"%string = Some (VInt id);
  set_law name lit v u :
    DQUOTE ∉ name -> sql_literal lit = Some (u, []) -> NULL_CHAR ∉ lit ->
    configure (set_statement name lit) v = Ret (<[name := u]> v);
  reset_law name v : DQUOTE ∉ name -> configure (reset_statement name) v = Ret (delete name v);
  lease_law pool i : lease pool = Some i -> pool !! i = Some false;
  date_canonical_law s d : parse_date s = Some d -> d <> [] /\ parse_date d = Some d;
  today_law : parse_date today = Some today;
  get_long_law z : get_long (VInt z) = Ret z;
  get_int_law z : in_signed 32 z = true -> get_int (VInt z) = Ret z;
  get_int_bool_law b : get_int (VBool b) = Ret (if b then 1 else 0)%Z;
  get_string_law s : get_string (VText s) = Ret s;
  get_double_law x : get_double (VReal x) = Ret x;
  sql_le_int_law x y : sql_le (VInt x) (VInt y) = (x <=? y)%Z;
  sql_le_bool_law x y : sql_le (VBool x) (VBool y) = implb x y;
}.

(** ** Sessions *)

Notation "c ::= e" := (pair c%string e) (at level 60, no associativity, only parsing) : pensar_scope.
(** [soci::use(v, name)]. *)
Definition use (v : sval) (name : String.string) : String.string * sval := (name, v).

Section session.
Context {S : Server}.

Record World := mk_world { w_db : db; w_pool : list bool; w_vars : list vars }.

(** A call: it ends in a world whether it returns or throws. *)
Definition dao (A : Type) : Type := World -> World * outcome A.
#[export] Instance dao_ret : MRet dao := fun A a w => (w, Ret a).
#[export] Instance dao_bind : MBind dao := fun A B f m w =>
  match m w with (w, Ret a) => f a w | (w, Throw e) => (w, Throw e) | (w, Undef u) => (w, Undef u) end.
Definition lift {A} (m : outcome A) : dao A := fun w => (w, m).

(* src: contact/data/db_connection.hpp:81-91 ScopedSession::quote_literal *)
Definition quote_literal (s : str) : str :=
  let result := W "'" in
  let result := fold_left (fun result c => if decide (c = "'"%char) then result ++ W "''" else result ++ [c]) s result in
  result ++ W "'".

(** One SET or RESET statement on a connection. *)
Definition send (pos : nat) (sql : str) : dao unit := fun w =>
  match w_vars w !! pos with
  | Some v => match configure sql v with
              | Ret v => (mk_world (w_db w) (w_pool w) (<[pos := v]> (w_vars w)), Ret tt)
              | Throw e => (w, Throw e)
              | Undef u => (w, Undef u) end
  | None => (w, Undef OutOfBounds)
  end.
(** [session_ << statement, use(...), into(...)]: the rows returned. *)
Definition sql (pos : nat) (s : stmt) (b : binds) : dao (list (list sval)) := fun w =>
  match w_vars w !! pos with
  | Some v => let '(d, out) := exec v (w_db w) s b in (mk_world d (w_pool w) (w_vars w), out)
  | None => (w, Undef OutOfBounds)
  end.

(* src: contact/data/db_connection.hpp:41-60 ScopedSession::ScopedSession *)
Definition open_session (username locale : str) : dao nat := fun w =>
  match lease (w_pool w) with
  | None => (w, Undef NoProgress)
  | Some pos =>
      let w := mk_world (w_db w) (<[pos := true]> (w_pool w)) (w_vars w) in
      ((if bool_decide (username = []) then mret tt else send pos (set_statement APP_USER (quote_literal username)));;
       (if bool_decide (locale = []) then mret tt else send pos (set_statement APP_LOCALE (quote_literal locale)));;
       mret pos) w
  end.
(* src: contact/data/db_connection.hpp:62-69 ScopedSession::~ScopedSession *)
Definition close_session (pos : nat) : dao unit := fun w =>
  let w := fst ((send pos (reset_statement APP_USER);; send pos (reset_statement APP_LOCALE)) w) in
  (mk_world (w_db w) (<[pos := false]> (w_pool w)) (w_vars w), Ret tt).

(** [auto s = conn_.session(username, locale);] and the rest of the block: the destructor runs when the
    block returns or throws, and not when the constructor throws. *)
(* src: contact/data/db_connection.hpp:121-126 DbConnection::session *)
Definition session {A} (username locale : str) (block : nat -> dao A) : dao A := fun w =>
  match open_session username locale w with
  | (w, Ret pos) => let '(w, a) := block pos w in (fst (close_session pos w), a)
  | (w, Throw e) => (w, Throw e)
  | (w, Undef u) => (w, Undef u)
  end.

(** The connections opened by the constructor. *)
(* src: contact/data/db_connection.hpp:101-110 DbConnection::DbConnection *)
Definition new_DbConnection (d : db) (pool_size : nat) : World := mk_world d (replicate pool_size false) (replicate pool_size ∅).

(** [into(x)] of a statement that returns one column, and [got_data]. *)
Definition into (get : sval -> outcome Z) (x : Z) (out : list (list sval)) : dao Z :=
  match out with (v :: _) :: _ => lift (get v) | [] :: _ => lift (Throw (RuntimeError (W "no column"))) | [] => mret x end.
Definition got_data (out : list (list sval)) : bool := bool_decide (out <> []).
(** [r.get<T>(k)]. *)
Definition get {T} (g : sval -> outcome T) (r : list sval) (k : nat) : outcome T :=
  match r !! k with Some v => g v | None => Throw (OutOfRange (W "column")) end.
(** The loop over a row set. *)
Fixpoint fetch {T} (read : list sval -> outcome T) (out : list (list sval)) : outcome (list T) :=
  match out with
  | [] => Ret []
  | r :: out => t ← read r; ts ← fetch read out; Ret (t :: ts)
  end.
End session.

(** ** Facts *)

Section facts.
Context {S : Server} {L : ServerLaws S}.

Definition escape_char (c : ascii) : str := if decide (c = "'"%char) then W "''" else [c].

Lemma quote_loop s acc :
  fold_left (fun result c => if decide (c = "'"%char) then result ++ W "''" else result ++ [c]) s acc
  = acc ++ flat_map escape_char s.
Proof.
  revert acc. induction s as [|c s IH]; intros acc; simpl; [by rewrite app_nil_r|].
  rewrite IH, app_assoc. unfold escape_char. by destruct (decide (c = _)).
Qed.

Lemma quote_literal_unfold s : quote_literal s = "'"%char :: flat_map escape_char s ++ W "'".
Proof. unfold quote_literal. rewrite quote_loop. done. Qed.

Lemma literal_body_quoted s rest :
  head rest <> Some "'"%char ->
  literal_body (flat_map escape_char s ++ "'"%char :: rest) = Some (s, rest).
Proof.
  intros Hr. induction s as [|c s IH]; [by destruct rest as [|c' rest]; [|simpl; rewrite decide_False by (intros ->; apply Hr; done)]|].
  simpl flat_map. unfold escape_char at 1. destruct (decide (c = "'"%char)) as [->|Hc]; rewrite <- app_assoc; simpl app.
  - cbn [literal_body]. rewrite !decide_True by done. by rewrite IH.
  - cbn [literal_body]. rewrite decide_False by done. by rewrite IH.
Qed.

Lemma quote_literal_no_nul s : NULL_CHAR ∉ s -> NULL_CHAR ∉ quote_literal s.
Proof.
  intros Hs. rewrite quote_literal_unfold. change (W "'") with ["'"%char]. rewrite elem_of_cons, elem_of_app, list_elem_of_singleton.
  intros [?|[H|?]]; [done| |done]. apply list_elem_of_In, in_flat_map in H as (c & Hc & H).
  apply list_elem_of_In in Hc. unfold escape_char in H. destruct (decide (c = _)); simpl in H; naive_solver.
Qed.

(** A block that leaves the pool and the session variables alone. *)
Definition contained {A} (m : dao A) : Prop := forall w, w_pool (fst (m w)) = w_pool w /\ w_vars (fst (m w)) = w_vars w.

Lemma contained_ret {A} (a : A) : contained (mret a).
Proof. done. Qed.
Lemma contained_lift {A} (m : outcome A) : contained (lift m).
Proof. done. Qed.
Lemma contained_sql pos s b : contained (sql pos s b).
Proof. intros w. unfold sql. case_match; [|done]. by destruct (exec _ _ _ _). Qed.
Lemma contained_bind {A B} (m : dao A) (f : A -> dao B) : contained m -> (forall a, contained (f a)) -> contained (m ≫= f).
Proof.
  intros Hm Hf w. unfold mbind, dao_bind. destruct (Hm w) as [H1 H2]. destruct (m w) as [w' [a| |]]; simpl in *; try done.
  destruct (Hf a w') as [H3 H4]. split; congruence.
Qed.

Lemma send_spec pos text v w u :
  w_vars w !! pos = Some v -> configure text v = Ret u ->
  send pos text w = (mk_world (w_db w) (w_pool w) (<[pos := u]> (w_vars w)), Ret tt).
Proof. intros H1 H2. unfold send. by rewrite H1, H2. Qed.

(** The variables of a session: the user and the locale, where given. *)
Definition session_vars (username locale : str) (v : vars) : vars :=
  let v := if bool_decide (username = []) then v else <[APP_USER := username]> v in
  if bool_decide (locale = []) then v else <[APP_LOCALE := locale]> v.

Lemma app_names : DQUOTE ∉ APP_USER /\ DQUOTE ∉ APP_LOCALE.
Proof. split; apply (bool_decide_unpack _); vm_compute; exact I. Qed.

Lemma set_variable pos name u w v :
  DQUOTE ∉ name -> NULL_CHAR ∉ u -> w_vars w !! pos = Some v ->
  send pos (set_statement name (quote_literal u)) w
  = (mk_world (w_db w) (w_pool w) (<[pos := <[name := u]> v]> (w_vars w)), Ret tt).
Proof.
  intros Hn Hu Hv. eapply send_spec; [done|]. apply set_law; [done| |by apply quote_literal_no_nul].
  rewrite quote_literal_unfold. simpl. by rewrite literal_body_quoted.
Qed.

Lemma optional_set pos name u w v :
  DQUOTE ∉ name -> NULL_CHAR ∉ u -> w_vars w !! pos = Some v ->
  (if bool_decide (u = []) then mret tt else send pos (set_statement name (quote_literal u))) w
  = (mk_world (w_db w) (w_pool w) (<[pos := if bool_decide (u = []) then v else <[name := u]> v]> (w_vars w)), Ret tt).
Proof.
  intros Hn Hu Hv. destruct (bool_decide (u = [])); [|by apply set_variable].
  rewrite list_insert_id by done. by destruct w.
Qed.

Lemma open_session_spec w pos v username locale :
  lease (w_pool w) = Some pos -> w_vars w !! pos = Some v -> NULL_CHAR ∉ username -> NULL_CHAR ∉ locale ->
  open_session username locale w
  = (mk_world (w_db w) (<[pos := true]> (w_pool w)) (<[pos := session_vars username locale v]> (w_vars w)), Ret pos).
Proof.
  intros Hl Hv Hu Ho. destruct app_names as [N1 N2]. unfold open_session, session_vars. rewrite Hl.
  assert (Hlt : pos < length (w_vars w)) by by eapply lookup_lt_Some.
  unfold mbind, dao_bind. rewrite (optional_set pos APP_USER username _ v) by done. cbn [w_vars w_pool w_db].
  erewrite optional_set; [|done|done|simpl; by rewrite list_lookup_insert_eq].
  unfold mret, dao_ret. cbn [w_vars w_pool w_db]. by rewrite list_insert_insert_eq.
Qed.

Lemma close_session_spec w pos v :
  w_vars w !! pos = Some v ->
  close_session pos w = (mk_world (w_db w) (<[pos := false]> (w_pool w)) (<[pos := delete APP_LOCALE (delete APP_USER v)]> (w_vars w)), Ret tt).
Proof.
  intros Hv. destruct app_names as [N1 N2]. assert (Hlt : pos < length (w_vars w)) by by eapply lookup_lt_Some.
  unfold close_session, mbind, dao_bind.
  rewrite (send_spec pos _ v _ _ Hv (reset_law _ _ N1)). cbn [w_vars w_pool w_db].
  erewrite send_spec; [|simpl; by rewrite list_lookup_insert_eq|by apply reset_law]. simpl.
  by rewrite list_insert_insert_eq.
Qed.

Lemma session_vars_reset username locale v :
  delete APP_LOCALE (delete APP_USER (session_vars username locale v)) = delete APP_LOCALE (delete APP_USER v).
Proof.
  unfold session_vars. apply map_eq. intros k.
  destruct (decide (k = APP_LOCALE)) as [->|H1]; [by rewrite !lookup_delete_eq|]. rewrite !(lookup_delete_ne _ APP_LOCALE) by done.
  destruct (decide (k = APP_USER)) as [->|H2]; [by rewrite !lookup_delete_eq|]. rewrite !(lookup_delete_ne _ APP_USER) by done.
  repeat case_match; rewrite ?lookup_insert_ne by done; done.
Qed.

Lemma session_user_fits username locale v : acceptable username -> user_fits v -> user_fits (session_vars username locale v).
Proof.
  intros Hu Hv. unfold user_fits, session_vars in *. repeat case_match; simplify_map_eq; try done; naive_solver.
Qed.

(** The world in which a block runs on the connection [pos]. *)
Definition inside (pos : nat) (username locale : str) (v : vars) (w : World) : World :=
  mk_world (w_db w) (<[pos := true]> (w_pool w)) (<[pos := session_vars username locale v]> (w_vars w)).
(** The world after it, for the database it leaves. *)
Definition after (pos : nat) (v : vars) (w : World) (d : db) : World :=
  mk_world d (w_pool w) (<[pos := delete APP_LOCALE (delete APP_USER v)]> (w_vars w)).

Lemma session_spec {A} w pos v username locale (block : nat -> dao A) :
  lease (w_pool w) = Some pos -> w_vars w !! pos = Some v -> NULL_CHAR ∉ username -> NULL_CHAR ∉ locale ->
  contained (block pos) ->
  session username locale block w
  = (after pos v w (w_db (fst (block pos (inside pos username locale v w)))), snd (block pos (inside pos username locale v w))).
Proof.
  intros Hl Hv Hu Ho Hb. assert (Hlt : pos < length (w_vars w)) by by eapply lookup_lt_Some.
  unfold session. rewrite (open_session_spec w pos v) by done. fold (inside pos username locale v w).
  destruct (Hb (inside pos username locale v w)) as [H1 H2].
  destruct (block pos _) as [w' a]. cbn [fst snd] in *. rewrite (close_session_spec _ _ (session_vars username locale v)).
  - cbn [fst]. unfold after. rewrite H1, H2. unfold inside; cbn [w_pool w_vars]. rewrite !list_insert_insert_eq, session_vars_reset.
    by rewrite (list_insert_id (w_pool w)) by by apply lease_law.
  - rewrite H2. simpl. by rewrite list_lookup_insert_eq.
Qed.
End facts.

