(* ===== verification/Database.v ===== *)
(** * A server, and the session theorems

    [memory] is a small server that keeps its tables in a finite map: it meets every law of [ServerLaws], so
    the hypotheses of the theorems about the data layer can all hold.  With [online] false it refuses
    every SET, as a server does whose connection is lost. *)
From stdpp Require Import gmap strings.
From S2P Require Import Prelude Sql.

(** ** A total order of values *)

Fixpoint lex_le (x y : list Z) : bool :=
  match x, y with
  | [], _ => true
  | _ :: _, [] => false
  | a :: x, b :: y => (a <? b)%Z || ((a =? b)%Z && lex_le x y)
  end.

Lemma lex_le_total x y : lex_le x y = true \/ lex_le y x = true.
Proof.
  revert y. induction x as [|a x IH]; intros [|b y]; simpl; auto. destruct (IH y) as [H|H]; rewrite H;
    destruct (Z.ltb_spec a b), (Z.ltb_spec b a), (Z.eqb_spec a b), (Z.eqb_spec b a); simpl; auto; lia.
Qed.

Lemma lex_le_trans x y z : lex_le x y = true -> lex_le y z = true -> lex_le x z = true.
Proof.
  revert y z. induction x as [|a x IH]; intros [|b y] [|c z]; simpl; auto; try discriminate.
  rewrite !orb_true_iff, !andb_true_iff, !Z.ltb_lt, !Z.eqb_eq. intros [H|[-> H]] [H'|[-> H']]; eauto; left; lia.
Qed.

Definition sort_key (v : sval) : list Z :=
  match v with
  | VNull => [1%Z] | VInt z => [0; z]%Z | VBool b => [0; if b then 1 else 0]%Z | VReal x => [0; x]%Z
  | VText s | VDate s => 0%Z :: map byte_val s
  end.
Definition memory_le (x y : sval) : bool := lex_le (sort_key x) (sort_key y).

(** ** Statements on a finite map *)

Abbreviation tables := (gmap String.string (gmap Z row)) (only parsing).
Definition stamp (id : Z) (r : row) : option row := Some (<["id"%string := VInt id]> r).
Definition memory_rows (d : tables) (t : String.string) : gmap Z row := map_imap stamp (default ∅ (d !! t)).
Definition next_id (m : gmap Z row) : Z := (1 + foldr Z.max 0 (fst <$> map_to_list m))%Z.

Fixpoint split_dquote (s : str) : option (str * str) :=
  match s with
  | [] => None
  | c :: s => if decide (c = DQUOTE) then Some ([], s) else '(a, b) ← split_dquote s; Some (c :: a, b)
  end.
Definition strip {A} `{EqDecision A} (p s : list A) : option (list A) := if decide (take (length p) s = p) then Some (drop (length p) s) else None.
Definition run_set (text : str) (v : vars) : option vars :=
  s ← strip (W "SET " ++ [DQUOTE]) text; '(name, s) ← split_dquote s; s ← strip (W " = ") s;
  '(u, rest) ← sql_literal s; if decide (rest = [] /\ NULL_CHAR ∉ s) then Some (<[name := u]> v) else None.
Definition run_reset (text : str) (v : vars) : option vars :=
  s ← strip (W "RESET " ++ [DQUOTE]) text; '(name, s) ← split_dquote s; if decide (s = []) then Some (delete name v) else None.
Definition memory_configure (online : bool) (text : str) (v : vars) : outcome vars :=
  if online then match run_set text v, run_reset text v with Some v, _ => Ret v | _, Some v => Ret v | _, _ => Throw (RuntimeError (W "syntax error")) end
  else Throw (RuntimeError (W "connection lost")).

#[local] Instance memory_scalars : Scalars := {|
  parse_date := fun s => if decide (length s = 10) then Some s else None; today := W "2026-01-01";
  cast_named := fun _ v => Some v; ilike := fun s p => bool_decide (W "%" ++ s ++ W "%" = p); sql_le := memory_le |}.
Definition memory_table_fn (d : tables) (f : String.string) : list row := snd <$> map_to_list (memory_rows d f).

(** The order of ORDER BY as a relation; a server whose order of values is total and transitive can sort by it. *)
Class SqlOrder (C : Scalars) : Prop := {
  sql_le_total x y : sql_le x y = true \/ sql_le y x = true;
  sql_le_trans x y z : sql_le x y = true -> sql_le y z = true -> sql_le x z = true }.
Definition ordered_rel {C : Scalars} (keys : list (String.string * bool)) (r s : row) : Prop := ordered keys r s = true.
#[export] Instance ordered_rel_dec {C : Scalars} keys r s : Decision (ordered_rel keys r s) := decide (ordered keys r s = true).

Definition syntax_error {A} : outcome A := Throw (RuntimeError (W "error")).
Definition of_option {A} (o : option A) : outcome A := match o with Some a => Ret a | None => syntax_error end.
Definition memory_exec (d : tables) (s : stmt) (b : binds) : tables * outcome (list (list sval)) :=
  match s with
  | Insert t sets =>
      match assign b ∅ sets with
      | Some vs => let m := default ∅ (d !! t) in (<[t := <[next_id m := list_to_map vs]> m]> d, Ret [[VInt (next_id m)]])
      | None => (d, syntax_error)
      end
  | Update t sets e =>
      match eval ∅ b e with
      | Some (VInt id) =>
          match memory_rows d t !! id with
          | None => (d, Ret [])
          | Some r => match assign b r sets with
                      | Some vs => (<[t := <[id := list_to_map vs ∪ r]> (default ∅ (d !! t))]> d, Ret [[VInt id]])
                      | None => (d, syntax_error) end
          end
      | _ => (d, syntax_error)
      end
  | Delete t e =>
      match eval ∅ b e with
      | Some (VInt id) =>
          if decide (is_Some (memory_rows d t !! id)) then (<[t := delete id (default ∅ (d !! t))]> d, Ret [[VInt id]]) else (d, Ret [])
      | _ => (d, syntax_error)
      end
  | Select q =>
      let sel := merge_sort (ordered_rel (order_by q)) (matching (memory_rows d (from q)) b (where_ q)) in
      (d, of_option (l ← slice b q sel; mapM (fun r => evals r b (columns q)) l))
  | Count t c => (d, Ret [[VInt (Z.of_nat (length (matching (memory_rows d t) b c)))]])
  | SelectFrom es f args => (d, of_option (evals ∅ b args ≫= fun _ => mapM (fun r => evals r b es) (memory_table_fn d f)))
  | SelectText _ => (d, Ret [])
  | CallFn f args => (d, of_option (evals ∅ b args ≫= fun _ => Some [[VInt 0]]))
  end.

Definition bad_cast {A} : outcome A := Throw (RuntimeError (W "bad cast")).
Definition memory (online : bool) : Server := {|
  db := tables; rows := memory_rows; exec := fun _ => memory_exec; configure := memory_configure online;
  fits := fun _ _ _ vs => NoDup vs.*1 /\ "id"%string ∉ vs.*1; deletable := fun _ _ _ => True;
  table_fn := fun _ d f _ => memory_table_fn d f; select_text := fun _ _ _ => Ret []; call_fn := fun _ d _ _ => (d, Ret (VInt 0));
  lease := fun pool => fst <$> list_find (fun x => x = false) pool;
  get_long := fun v => match v with VInt z => Ret z | _ => bad_cast end;
  get_int := fun v => match v with VInt z => if in_signed 32 z then Ret z else bad_cast
                               | VBool b => Ret (if b then 1 else 0)%Z | _ => bad_cast end;
  get_string := fun v => match v with VText s => Ret s | _ => bad_cast end;
  get_double := fun v => match v with VReal x => Ret x | _ => bad_cast end;
  to_float := fun x => x |}.

(** The empty database and two connections. *)
Definition empty_world : World (S := memory true) := new_DbConnection (S := memory true) ∅ 2.

(** ** The laws *)

Lemma memory_rows_insert d t id r : memory_rows (<[t := <[id := r]> (default ∅ (d !! t))]> d) t = <[id := <["id"%string := VInt id]> r]> (memory_rows d t).
Proof. unfold memory_rows. rewrite lookup_insert_eq. simpl. by apply map_imap_insert_Some. Qed.

Lemma memory_rows_delete d t id : memory_rows (<[t := delete id (default ∅ (d !! t))]> d) t = delete id (memory_rows d t).
Proof. unfold memory_rows. rewrite lookup_insert_eq. simpl. apply map_imap_delete. Qed.

Lemma memory_rows_lookup d t id : memory_rows d t !! id = r ← default ∅ (d !! t) !! id; Some (<["id"%string := VInt id]> r).
Proof. unfold memory_rows. rewrite map_lookup_imap. done. Qed.

Lemma next_id_fresh (m : gmap Z row) : (0 < next_id m)%Z /\ m !! next_id m = None.
Proof.
  unfold next_id. assert (H : Forall (fun i => i <= foldr Z.max 0 (fst <$> map_to_list m))%Z (fst <$> map_to_list m)).
  { induction (fst <$> map_to_list m) as [|i l IH]; constructor; simpl; [lia|]. eapply Forall_impl; [done|]. simpl; lia. }
  split; [destruct (fst <$> map_to_list m) as [|i l]; simpl; [lia|]|].
  - clear H. assert (0 <= foldr Z.max 0 l)%Z by (induction l; simpl; lia). lia.
  - apply eq_None_not_Some. intros [r Hr]. apply elem_of_map_to_list in Hr. rewrite Forall_forall in H.
    specialize (H _ (list_elem_of_fmap_2 fst _ _ Hr)). simpl in H. lia.
Qed.

Lemma stored_columns (vs : list (String.string * sval)) (r : row) id :
  "id"%string ∉ vs.*1 -> list_to_map vs ⊆ <["id"%string := VInt id]> (list_to_map vs ∪ r).
Proof.
  intros Hid. apply insert_subseteq_r; [by apply not_elem_of_list_to_map_1|]. apply map_union_subseteq_l.
Qed.

#[export] Instance memory_order : SqlOrder memory_scalars.
Proof. split; [intros x y; apply lex_le_total|intros x y z; apply lex_le_trans]. Qed.

Lemma ordered_total {C : Scalars} {O : SqlOrder C} keys r s : ordered keys r s = true \/ ordered keys s r = true.
Proof.
  induction keys as [|[c desc] keys IH]; simpl; [by left|].
  pose proof (sql_le_total (column c r) (column c s)) as H.
  destruct desc; simpl; destruct (sql_le (column c r) _), (sql_le (column c s) _); simpl; naive_solver.
Qed.

Lemma ordered_trans {C : Scalars} {O : SqlOrder C} keys r s t : ordered keys r s = true -> ordered keys s t = true -> ordered keys r t = true.
Proof.
  revert r s t. induction keys as [|[c desc] keys IH]; intros r s t; simpl; [done|].
  pose proof sql_le_trans as Htr.
  pose proof (Htr (column c r) (column c s) (column c t)). pose proof (Htr (column c t) (column c r) (column c s)).
  pose proof (Htr (column c s) (column c t) (column c r)). pose proof (Htr (column c t) (column c s) (column c r)).
  pose proof (Htr (column c r) (column c t) (column c s)). pose proof (Htr (column c s) (column c r) (column c t)). clear Htr.
  specialize (IH r s t). destruct desc; simpl;
    rewrite !andb_true_iff, !orb_true_iff, !negb_true_iff, <- !not_true_iff_false; intros [? Hrs] [? Hst]; split; auto;
    destruct Hrs as [Hrs|Hrs]; [left; naive_solver| |left; naive_solver|]; destruct Hst as [Hst|Hst]; try (left; naive_solver); right; auto.
Qed.

#[export] Instance ordered_rel_total {C : Scalars} {O : SqlOrder C} keys : Total (ordered_rel keys).
Proof. intros r s. apply ordered_total. Qed.
#[export] Instance ordered_rel_trans {C : Scalars} {O : SqlOrder C} keys : Transitive (ordered_rel keys).
Proof. intros r s t. apply ordered_trans. Qed.

Lemma strip_app {A} `{EqDecision A} (p s : list A) : strip p (p ++ s) = Some s.
Proof. unfold strip. rewrite take_app_length, decide_True by done. by rewrite drop_app_length. Qed.

Lemma split_dquote_app name s : DQUOTE ∉ name -> split_dquote (name ++ DQUOTE :: s) = Some (name, s).
Proof.
  induction name as [|c name IH]; intros Hn; cbn [app split_dquote]; [by rewrite decide_True|].
  rewrite not_elem_of_cons in Hn. rewrite decide_False by naive_solver. by rewrite IH by apply Hn.
Qed.

Lemma run_set_spec name lit v u : DQUOTE ∉ name -> sql_literal lit = Some (u, []) -> NULL_CHAR ∉ lit -> run_set (set_statement name lit) v = Some (<[name := u]> v).
Proof.
  intros Hn Hl Hz. unfold run_set, set_statement, quote_identifier.
  replace (W "SET " ++ (DQUOTE :: name ++ [DQUOTE]) ++ W " = " ++ lit) with ((W "SET " ++ [DQUOTE]) ++ name ++ DQUOTE :: W " = " ++ lit)
    by (simpl; by rewrite <- ?app_assoc).
  rewrite strip_app. cbn [mbind option_bind]. rewrite split_dquote_app by done. cbn [mbind option_bind].
  rewrite strip_app. cbn [mbind option_bind]. rewrite Hl. cbn [mbind option_bind]. by rewrite decide_True.
Qed.

Lemma run_reset_spec name v : DQUOTE ∉ name -> run_set (reset_statement name) v = None /\ run_reset (reset_statement name) v = Some (delete name v).
Proof.
  intros Hn. split; [done|]. unfold run_reset, reset_statement, quote_identifier.
  replace (W "RESET " ++ DQUOTE :: name ++ [DQUOTE]) with ((W "RESET " ++ [DQUOTE]) ++ name ++ [DQUOTE]) by (simpl; by rewrite <- ?app_assoc).
  rewrite strip_app. cbn [mbind option_bind]. rewrite split_dquote_app by done. cbn [mbind option_bind]. by rewrite decide_True.
Qed.

#[export] Instance memory_laws : ServerLaws (memory true).
Proof.
  split; cbn [rows exec fits deletable memory configure lease server_scalars get_long get_int get_string get_double table_fn call_fn].
  - intros v d b t sets vs _ Hvs [_ Hid]. unfold memory_exec. rewrite Hvs. destruct (next_id_fresh (default ∅ (d !! t))) as [H1 H2].
    do 3 eexists. split; [done|]. split; [done|]. split; [rewrite memory_rows_lookup; by setoid_rewrite H2|].
    split; [apply memory_rows_insert|]. rewrite <- (map_union_empty (list_to_map vs)) at 2. by apply stored_columns.
  - intros v d b t sets e id r vs _ He Hr Hvs [_ Hid]. unfold memory_exec. rewrite He, Hr, Hvs.
    do 2 eexists. split; [done|]. split; [apply memory_rows_insert|by apply stored_columns].
  - intros v d b t sets e id He Hr. unfold memory_exec. by rewrite He, Hr.
  - intros v d b t e id _ He Hr _. unfold memory_exec. rewrite He, decide_True by done. eexists. split; [done|].
    pose proof (memory_rows_delete d t id) as H. split; [|done]. rewrite H. apply lookup_delete_eq.
  - intros v d b t e id He Hr. unfold memory_exec. rewrite He, decide_False; [done|]. rewrite Hr. by intros [? ?].
  - intros v d b q. exists (merge_sort (ordered_rel (order_by q)) (matching (memory_rows d (from q)) b (where_ q))).
    split; [apply merge_sort_Permutation|]. split; [exact (StronglySorted_merge_sort (ordered_rel (order_by q)) _)|].
    intros out Hout. unfold memory_exec. by rewrite Hout.
  - done.
  - intros v d b es f args vs out Hvs Hout. unfold memory_exec. rewrite Hvs. simpl. by rewrite Hout.
  - done.
  - intros v d b f args vs Hvs. unfold memory_exec. by rewrite Hvs.
  - intros d t id r. rewrite memory_rows_lookup. intros (x & _ & [= <-])%bind_Some. apply lookup_insert_eq.
  - intros name lit v u Hn Hl Hz. unfold memory_configure. by rewrite (run_set_spec _ _ _ u).
  - intros name v Hn. unfold memory_configure. by destruct (run_reset_spec name v Hn) as [-> ->].
  - intros pool i. destruct (list_find _ pool) as [[j x]|] eqn:Hf; [|done]. simpl. intros [= <-].
    by apply list_find_Some in Hf as (? & -> & _).
  - intros s d. simpl. intros H. case_decide; [|done]. injection H as <-. rewrite decide_True by done. by destruct s.
  - done.
  - done.
  - intros z ->. done.
  - done.
  - done.
  - done.
  - intros x y. unfold sql_le; simpl. unfold memory_le; simpl. destruct (Z.leb_spec x y), (Z.ltb_spec x y), (Z.eqb_spec x y); simpl; lia || done.
  - by intros [] [].
Qed.
(** C30. [quote_literal] is read back by the server as one literal holding exactly the caller's text, whatever
    quotes it contains, and the text that follows it starts where the literal ends: no user name or locale
    can end the literal early. *)
Theorem quote_literal_safe (s rest : str) (Hr : head rest <> Some "'"%char) :
  sql_literal (quote_literal s ++ rest) = Some (s, rest).
Proof. rewrite quote_literal_unfold. simpl. rewrite <- app_assoc. by apply literal_body_quoted. Qed.

Lemma quote_literal_safe_witness :
  sql_literal (quote_literal (W "O'Brien'; --") ++ W " ") = Some (W "O'Brien'; --", W " ").
Proof. apply (quote_literal_safe (W "O'Brien'; --") (W " ")). discriminate. Defined.

(** The constructor up to its first failure: the variables the connection is left with and what was thrown. *)
Lemma first_set_fails {S : Server} {A : Type} (w : World) (pos : nat) (v : vars) (username locale : str) (block : nat -> dao A) e :
  lease (w_pool w) = Some pos -> w_vars w !! pos = Some v ->
  username <> [] -> configure (set_statement APP_USER (quote_literal username)) v = Throw e ->
  session username locale block w = (mk_world (w_db w) (<[pos := true]> (w_pool w)) (w_vars w), Throw e).
Proof.
  intros Hl Hv Hu He. unfold session, open_session. rewrite Hl. unfold mbind, dao_bind.
  rewrite bool_decide_eq_false_2 by done. unfold send. cbn [w_vars]. by rewrite Hv, He.
Qed.
Lemma second_set_fails {S : Server} {A : Type} (w : World) (pos : nat) (v v1 : vars) (username locale : str) (block : nat -> dao A) e :
  lease (w_pool w) = Some pos -> w_vars w !! pos = Some v ->
  (if bool_decide (username = []) then v1 = v else configure (set_statement APP_USER (quote_literal username)) v = Ret v1) ->
  locale <> [] -> configure (set_statement APP_LOCALE (quote_literal locale)) v1 = Throw e ->
  session username locale block w = (mk_world (w_db w) (<[pos := true]> (w_pool w)) (<[pos := v1]> (w_vars w)), Throw e).
Proof.
  intros Hl Hv H1 Ho He. assert (Hlt : pos < length (w_vars w)) by by eapply lookup_lt_Some.
  unfold session, open_session. rewrite Hl. unfold mbind, dao_bind. rewrite (bool_decide_eq_false_2 (locale = [])) by done.
  case_bool_decide.
  - subst v1. unfold mret, dao_ret, send. cbn [w_vars]. rewrite Hv, He. by rewrite (list_insert_id (w_vars w)).
  - unfold send. cbn [w_vars]. rewrite Hv, H1. cbn [w_vars w_pool w_db]. by rewrite list_lookup_insert_eq, He.
Qed.

(** C18. Every operation of the data layer runs in a session: it leases a free connection, the block sees the
    caller's user and locale in that connection's variables, and afterwards, whether the block returns or
    throws, the connection is free again, both variables are reset and the block's changes to the database
    are all that remains.  When the constructor itself throws, at its first or at its second SET, the block does not run and
    neither does the destructor: the connection stays leased, with no one to return it, and a user that was set stays set on it. *)
Theorem session_scoped {S : Server} {A : Type} (w : World) (pos : nat) (v : vars) (username locale : str) (block : nat -> dao A)
    (Hl : lease (w_pool w) = Some pos) (Hv : w_vars w !! pos = Some v) :
  (ServerLaws S -> NULL_CHAR ∉ username -> NULL_CHAR ∉ locale -> contained (block pos) ->
     session username locale block w
     = (after pos v w (w_db (fst (block pos (inside pos username locale v w)))), snd (block pos (inside pos username locale v w))))
  /\ (forall e, username <> [] -> configure (set_statement APP_USER (quote_literal username)) v = Throw e ->
       session username locale block w = (mk_world (w_db w) (<[pos := true]> (w_pool w)) (w_vars w), Throw e))
  /\ (forall v1 e, (if bool_decide (username = []) then v1 = v else configure (set_statement APP_USER (quote_literal username)) v = Ret v1) ->
       locale <> [] -> configure (set_statement APP_LOCALE (quote_literal locale)) v1 = Throw e ->
       session username locale block w = (mk_world (w_db w) (<[pos := true]> (w_pool w)) (<[pos := v1]> (w_vars w)), Throw e)).
Proof.
  split; [intros L Hu Ho Hb; by apply session_spec|]. split.
  - intros e. by apply first_set_fails.
  - intros v1 e. by apply second_set_fails.
Qed.

(** The memory server refuses a text that holds a terminator. *)
Lemma session_scoped_witness :
  let S := memory true in let w := new_DbConnection (S := S) ∅ 2 in
  lease (w_pool w) = Some 0 /\ w_vars w !! 0 = Some ∅ /\
  session (S := S) (W "O'Brien") (W "pt-BR") (fun pos => sql pos (Count "t_person" Always) []) w = (after 0 ∅ w ∅, Ret [[VInt 0]])
  /\ session (S := S) (W "ana") [NULL_CHAR] (fun pos => sql pos (Count "t_person" Always) []) w
      = (mk_world ∅ [true; false] [{[APP_USER := W "ana"]}; ∅], Throw (RuntimeError (W "syntax error"))).
Proof.
  intros S w. split; [reflexivity|]. split; [reflexivity|]. split.
  - destruct (session_scoped (S := S) w 0 ∅ (W "O'Brien") (W "pt-BR") (fun pos => sql pos (Count "t_person" Always) []) eq_refl eq_refl) as [H _].
    exact (H (memory_laws) ltac:(apply (bool_decide_unpack _); vm_compute; exact I) ltac:(apply (bool_decide_unpack _); vm_compute; exact I) (contained_sql 0 _ _)).
  - destruct (session_scoped (S := S) w 0 ∅ (W "ana") [NULL_CHAR] (fun pos => sql pos (Count "t_person" Always) []) eq_refl eq_refl) as (_ & _ & H).
    apply (H {[APP_USER := W "ana"]}); [vm_compute; reflexivity|discriminate|vm_compute; reflexivity].
Defined.

(** A pool of one connection whose server went away during the first call: the second call waits for ever,
    although the server may be back. *)
Example leaked_connection :
  let S := memory false in let w := new_DbConnection (S := S) ∅ 1 in
  let '(w', a) := session (S := S) (W "admin") [] (fun pos => mret tt) w in
  a = Throw (RuntimeError (W "connection lost")) /\ snd (session (S := S) [] [] (fun pos => mret tt) w') = Undef NoProgress.
Proof. done. Qed.
