(* ===== verification/Dao.v ===== *)
(** * What the data access objects share (contact/data)

    Every operation of the objects opens a session, runs one statement and reads the rows it returns.  The
    four shapes are [insert_returning], [returning_id], [select_one] and [select_all]; their lemmas carry the
    laws of the server through the session, and turn a stored row back into the columns that were written. *)
From stdpp Require Import gmap strings.
From S2P Require Import Prelude Sql.

(** ** The shapes of the operations *)
Section shapes.
Context {S : Server}.

(** [long long new_id = 0; s.sql() << "INSERT ... RETURNING id", use..., into(new_id); return new_id;] *)
(* src: contact/data/person_dao.hpp:49-75 PersonDAO::insert *)
Definition insert_returning (pos : nat) (t : String.string) (values : list (String.string * expr)) (b : binds) : dao Z :=
  out ← sql pos (Insert t values) b; into get_long 0 out.
(** [s.sql() << "... RETURNING id", use..., into(ret_id); return s.sql().got_data();] *)
(* src: contact/data/person_dao.hpp:157-164 PersonDAO::remove *)
Definition returning_id (pos : nat) (s : stmt) (b : binds) : dao bool :=
  out ← sql pos s b; _ ← into get_long 0 out; mret (got_data out).
(** [soci::row r; ... into(r); if (!s.sql().got_data()) return std::nullopt;] *)
(* src: contact/data/person_dao.hpp:82-99 PersonDAO::find_by_id *)
Definition select_one {T} (pos : nat) (s : stmt) (b : binds) (read : list sval -> outcome T) : dao (option T) :=
  out ← sql pos s b; match out with [] => mret None | r :: _ => x ← lift (read r); mret (Some x) end.
(** [soci::rowset<soci::row> rs = (s.sql().prepare << ...); for (auto& r : rs) ... result.push_back(...);] *)
(* src: contact/data/person_dao.hpp:171-199 PersonDAO::list_all *)
Definition select_all {T} (pos : nat) (s : stmt) (b : binds) (read : list sval -> outcome T) : dao (list T) :=
  out ← sql pos s b; lift (fetch read out).
(** [static_cast<int16_t>(r.get<int>(k))] and [r.get<int>(k) != 0]. *)
(* src: contact/data/contact_dao.hpp:153-153 ContactDAO::phones_for_person *)
Definition get_int16 (r : list sval) (k : nat) : outcome Z := signed_wrap 16 <$> get get_int r k.
(* src: contact/data/contact_dao.hpp:152-152 ContactDAO::phones_for_person *)
Definition get_bool (r : list sval) (k : nat) : outcome bool := (fun z => negb (z =? 0)%Z) <$> get get_int r k.
(* src: contact/data/contact_dao.hpp:79-80 ContactDAO::insert_phone *)
Definition bool_int (b : bool) : Z := if b then 1 else 0.
(* src: contact/data/person_dao.hpp:94-96 PersonDAO::find_by_id *)
Definition by_id (es : list expr) (t : String.string) : stmt :=
  Select (mk_query es t (Eq (Col "id") (Bind "id")) [] None None).
End shapes.

(** ** Columns that were written *)
Section columns.
Context {S : Server} {L : ServerLaws S}.

(** The value of NULLIF(:x,''), and of NULLIF(:x,'')::date for a date in ISO form. *)
Definition nullable (s : str) : sval := if decide (VText s = VText []) then VNull else VText s.
Definition nullable_date (d : str) : sval := if decide (d = []) then VNull else VDate d.
(** The ISO form of a date or the empty string; [None] when the text is no date. *)
Definition date_text (s : str) : option str := if decide (s = []) then Some [] else parse_date s.
(** The owner columns: zero is written as NULL and read as zero. *)
Definition nullable_id (z : Z) : sval := if (z =? 0)%Z then VNull else VInt z.

Lemma cast_nullable_date s d : date_text s = Some d -> cast TDate (nullable s) = Some (nullable_date d).
Proof.
  unfold date_text, nullable, nullable_date. destruct (decide (s = [])) as [->|Hs]; [by intros [= <-]|].
  intros Hd. rewrite decide_False by congruence. simpl. rewrite Hd. simpl. rewrite decide_False; [done|]. by eapply date_canonical_law.
Qed.

Lemma date_text_idemp s d : date_text s = Some d -> date_text d = Some d.
Proof.
  unfold date_text at 1. case_decide as Hs; [by intros [= <-]|]. intros Hd. apply date_canonical_law in Hd as [H1 H2].
  unfold date_text. by rewrite decide_False.
Qed.

Lemma stored vs (r : row) c x : list_to_map vs ⊆ r -> lookup_bind vs c = Some x -> r !! c = Some x.
Proof.
  intros Hsub Hc. eapply lookup_weaken; [|exact Hsub]. clear Hsub r. revert Hc.
  induction vs as [|[c' y] vs IH]; simpl; [done|]. destruct (decide (c' = c)) as [->|Hne]; simpl.
  - intros [= <-]. apply lookup_insert_eq.
  - by rewrite lookup_insert_ne by done.
Qed.

Section eval.
Variables (r : row) (b : binds).
Lemma eval_coalesce_text c s : r !! c = Some (nullable s) -> eval r b (Coalesce (Col c) (Text [])) = Some (VText s).
Proof.
  intros H. simpl. rewrite H. simpl. unfold nullable. destruct (decide (VText s = VText [])) as [E|E]; simpl; [by rewrite E|done].
Qed.
Lemma eval_coalesce_date c d : r !! c = Some (nullable_date d) -> eval r b (Coalesce (Cast (Col c) TText) (Text [])) = Some (VText d).
Proof.
  intros H. simpl. rewrite H. simpl. unfold nullable_date. by destruct (decide (d = [])) as [->|E].
Qed.
Lemma eval_coalesce_id c z : r !! c = Some (nullable_id z) -> eval r b (Coalesce (Col c) (Int 0)) = Some (VInt z).
Proof. intros H. simpl. rewrite H. simpl. unfold nullable_id. destruct (Z.eqb_spec z 0) as [->|E]; done. Qed.
Lemma eval_coalesce_real c x : r !! c = Some (VReal x) -> eval r b (Coalesce (Col c) (Int 0)) = Some (VReal x).
Proof. intros H. simpl. by rewrite H. Qed.
Lemma eval_coalesce_own c s : r !! c = Some (VText s) -> eval r b (Coalesce (Col c) (Text [])) = Some (VText s).
Proof. intros H. simpl. rewrite H. simpl. done. Qed.
Lemma eval_col c v : r !! c = Some v -> eval r b (Col c) = Some v.
Proof. done. Qed.
End eval.
End columns.

(** ** The four shapes in a session *)
Section sessions.
Context {S : Server} {L : ServerLaws S}.

Definition ready (w : World) (pos : nat) (v : vars) : Prop := lease (w_pool w) = Some pos /\ w_vars w !! pos = Some v /\ user_fits v.

Lemma ready_after w pos v d : ready w pos v -> ready (after pos v w d) pos (delete APP_LOCALE (delete APP_USER v)).
Proof.
  intros (H1 & H2 & H3). split; [done|]. split; [simpl; apply list_lookup_insert_eq; by eapply lookup_lt_Some|].
  unfold user_fits. rewrite lookup_delete_ne by done. by rewrite lookup_delete_eq.
Qed.

Lemma session_ready {A} w pos v username locale (block : nat -> dao A) d a :
  ready w pos v -> NULL_CHAR ∉ username -> NULL_CHAR ∉ locale -> contained (block pos) ->
  (forall u, block pos (mk_world (w_db w) u (<[pos := session_vars username locale v]> (w_vars w)))
     = (mk_world d u (<[pos := session_vars username locale v]> (w_vars w)), a)) ->
  session username locale block w = (after pos v w d, a).
Proof.
  intros (H1 & H2 & _) Hu Ho Hc Hb. rewrite (session_spec w pos v) by done. unfold inside. by rewrite Hb.
Qed.

Lemma sql_inside (pos : nat) (p : list bool) (u : vars) (vs : list vars) d s b d' out :
  pos < length vs -> exec u d s b = (d', out) ->
  sql pos s b (mk_world d p (<[pos := u]> vs)) = (mk_world d' p (<[pos := u]> vs), out).
Proof. intros Hlt He. unfold sql. cbn [w_vars w_db w_pool]. rewrite list_lookup_insert_eq by done. by rewrite He. Qed.

Lemma contained_into g x out : contained (into g x out).
Proof. by destruct out as [|[|v l] out]. Qed.
Lemma contained_insert pos t sets b : contained (insert_returning pos t sets b).
Proof. apply contained_bind; [apply contained_sql|]. intros. apply contained_into. Qed.
Lemma contained_returning pos s b : contained (returning_id pos s b).
Proof. apply contained_bind; [apply contained_sql|]. intros. apply contained_bind; [apply contained_into|]. intros. apply contained_ret. Qed.
Lemma contained_one {T} pos s b (read : list sval -> outcome T) : contained (select_one pos s b read).
Proof.
  apply contained_bind; [apply contained_sql|]. intros [|r out]; [apply contained_ret|].
  apply contained_bind; [apply contained_lift|]. intros. apply contained_ret.
Qed.
Lemma contained_all {T} pos s b (read : list sval -> outcome T) : contained (select_all pos s b read).
Proof. apply contained_bind; [apply contained_sql|]. intros. apply contained_lift. Qed.

Lemma insert_session w pos v username t sets b vs :
  ready w pos v -> acceptable username -> assign b ∅ sets = Some vs -> fits (w_db w) t None vs ->
  exists d' id r, session username [] (fun pos => insert_returning pos t sets b) w = (after pos v w d', Ret id)
    /\ (0 < id)%Z /\ rows (w_db w) t !! id = None /\ rows d' t = <[id := r]> (rows (w_db w) t) /\ list_to_map vs ⊆ r.
Proof.
  intros Hr Hu Hvs Hf. destruct (insert_law (session_vars username [] v) (w_db w) b t sets vs (session_user_fits _ _ _ Hu (proj2 (proj2 Hr))) Hvs Hf) as (d' & id & r & He & H).
  exists d', id, r. split; [|done]. apply session_ready; [done|apply Hu|apply not_elem_of_nil|apply contained_insert|].
  intros u. unfold insert_returning, mbind, dao_bind. rewrite (sql_inside _ _ _ _ _ _ _ _ _ ltac:(eapply lookup_lt_Some, Hr) He).
  unfold into, lift. by rewrite get_long_law.
Qed.

Lemma returning_session w pos v username s b d' out :
  ready w pos v -> NULL_CHAR ∉ username -> exec (session_vars username [] v) (w_db w) s b = (d', Ret out) ->
  (out = [] \/ exists id, out = [[VInt id]]) ->
  session username [] (fun pos => returning_id pos s b) w = (after pos v w d', Ret (got_data out)).
Proof.
  intros Hr Hu He Ho. apply session_ready; [done|done|apply not_elem_of_nil|apply contained_returning|].
  intros u. unfold returning_id, mbind, dao_bind. rewrite (sql_inside _ _ _ _ _ _ _ _ _ ltac:(eapply lookup_lt_Some, Hr) He).
  destruct Ho as [->|[id ->]]; [done|]. unfold into, lift. by rewrite get_long_law.
Qed.

Lemma delete_session w pos v username t b id :
  ready w pos v -> acceptable username -> lookup_bind b "id" = Some (VInt id) ->
  (rows (w_db w) t !! id = None ->
     session username [] (fun pos => returning_id pos (Delete t (Bind "id")) b) w = (after pos v w (w_db w), Ret false))
  /\ (is_Some (rows (w_db w) t !! id) -> deletable (w_db w) t id ->
     exists d', session username [] (fun pos => returning_id pos (Delete t (Bind "id")) b) w = (after pos v w d', Ret true)
       /\ rows d' t !! id = None /\ (t <> self_referencing -> rows d' t = delete id (rows (w_db w) t))).
Proof.
  intros Hr Hu Hb. split.
  - intros Hn. apply (returning_session w pos v username _ b _ []); [done|apply Hu|by eapply delete_absent_law|by left].
  - intros Hs Hd. destruct (delete_law (session_vars username [] v) (w_db w) b t (Bind "id") id (session_user_fits _ _ _ Hu (proj2 (proj2 Hr))) Hb Hs Hd) as (d' & He & Hn).
    exists d'. split; [|done]. apply (returning_session w pos v username _ b d' [[VInt id]]); [done|apply Hu|done|right; by eexists].
Qed.

Lemma update_session w pos v username t sets b id :
  ready w pos v -> acceptable username -> lookup_bind b "id" = Some (VInt id) ->
  (rows (w_db w) t !! id = None ->
     session username [] (fun pos => returning_id pos (Update t sets (Bind "id")) b) w = (after pos v w (w_db w), Ret false))
  /\ (forall r vs, rows (w_db w) t !! id = Some r -> assign b r sets = Some vs -> fits (w_db w) t (Some id) vs ->
     exists d' r', session username [] (fun pos => returning_id pos (Update t sets (Bind "id")) b) w = (after pos v w d', Ret true)
       /\ rows d' t = <[id := r']> (rows (w_db w) t) /\ list_to_map vs ⊆ r').
Proof.
  intros Hr Hu Hb. split.
  - intros Hn. apply (returning_session w pos v username _ b _ []); [done|apply Hu|by eapply update_absent_law|by left].
  - intros r vs Hs Hvs Hf.
    destruct (update_law (session_vars username [] v) (w_db w) b t sets (Bind "id") id r vs (session_user_fits _ _ _ Hu (proj2 (proj2 Hr))) Hb Hs Hvs Hf) as (d' & r' & He & Hn).
    exists d', r'. split; [|done]. apply (returning_session w pos v username _ b d' [[VInt id]]); [done|apply Hu|done|right; by eexists].
Qed.

(** A table's rows carry their ids, so a condition on the id selects one row. *)
Lemma matching_id d t b id :
  lookup_bind b "id" = Some (VInt id) ->
  matching (rows d t) b (Eq (Col "id") (Bind "id")) = match rows d t !! id with Some r => [r] | None => [] end.
Proof.
  intros Hb. unfold matching.
  assert (H : forall l : list (Z * row), (forall k r, (k, r) ∈ l -> r !! "id"%string = Some (VInt k)) -> NoDup l.*1 ->
            filter (holds_for b (Eq (Col "id") (Bind "id"))) l.*2 = match (list_to_map l : gmap Z row) !! id with Some r => [r] | None => [] end).
  { induction l as [|[k r] l IH]; intros Hl Hnd; [done|]. rewrite !fmap_cons, list_to_map_cons. cbn [fst snd].
    inversion Hnd as [|? ? Hk Hnd']; subst. specialize (IH ltac:(intros; apply Hl; by right) Hnd').
    assert (Hr : r !! "id"%string = Some (VInt k)) by (apply Hl; by left).
    assert (Ht : truth r b (Eq (Col "id") (Bind "id")) = Some (bool_decide (VInt k = VInt id))) by (simpl; by rewrite Hr, Hb).
    destruct (decide (k = id)) as [->|Hne].
    - rewrite lookup_insert_eq, filter_cons_True, IH by (unfold holds_for; rewrite Ht; by rewrite bool_decide_eq_true_2).
      by rewrite not_elem_of_list_to_map_1.
    - rewrite lookup_insert_ne by done. rewrite filter_cons_False; [done|]. unfold holds_for. rewrite Ht, bool_decide_eq_false_2; congruence. }
  rewrite H.
  - by rewrite list_to_map_to_list.
  - intros k r Hk. apply (id_column_law d t). by apply elem_of_map_to_list.
  - apply NoDup_fst_map_to_list.
Qed.

Lemma select_by_id {T} w pos v es t b (read : list sval -> outcome T) id :
  ready w pos v -> lookup_bind b "id" = Some (VInt id) ->
  (rows (w_db w) t !! id = None -> session [] [] (fun pos => select_one pos (by_id es t) b read) w = (after pos v w (w_db w), Ret None))
  /\ (forall r out x, rows (w_db w) t !! id = Some r -> evals r b es = Some out -> read out = Ret x ->
      session [] [] (fun pos => select_one pos (by_id es t) b read) w = (after pos v w (w_db w), Ret (Some x))).
Proof.
  intros Hr Hb.
  destruct (select_law (session_vars [] [] v) (w_db w) b (mk_query es t (Eq (Col "id") (Bind "id")) [] None None)) as (sel & Hp & _ & He).
  cbn [from where_ columns] in *. rewrite (matching_id _ _ _ _ Hb) in Hp. split.
  - intros Hn. rewrite Hn in Hp. apply Permutation_nil_r in Hp. subst sel. specialize (He [] eq_refl).
    apply session_ready; [done|apply not_elem_of_nil|apply not_elem_of_nil|apply contained_one|].
    intros u. unfold select_one, mbind, dao_bind. by rewrite (sql_inside _ _ _ _ _ _ _ _ _ ltac:(eapply lookup_lt_Some, Hr) He).
  - intros r out x Hs Hc Hx. rewrite Hs in Hp. apply Permutation_singleton_r in Hp. subst sel.
    specialize (He [out]). unfold slice in He. cbn [mbind option_bind offset limit mapM drop] in He. rewrite Hc in He. specialize (He eq_refl).
    apply session_ready; [done|apply not_elem_of_nil|apply not_elem_of_nil|apply contained_one|].
    intros u. unfold select_one, mbind, dao_bind. rewrite (sql_inside _ _ _ _ _ _ _ _ _ ltac:(eapply lookup_lt_Some, Hr) He).
    unfold lift. by rewrite Hx.
Qed.

Lemma fetch_Forall2 {T} (read : list sval -> outcome T) outs xs :
  Forall2 (fun out x => read out = Ret x) outs xs -> fetch read outs = Ret xs.
Proof. induction 1 as [|out x outs xs Hx _ IH]; [done|]. simpl. rewrite Hx. simpl. by rewrite IH. Qed.

(** A row as the object the loop builds from it. *)
Definition reads {T} (es : list expr) (b : binds) (read : list sval -> outcome T) (r : row) (x : T) : Prop :=
  exists out, evals r b es = Some out /\ read out = Ret x.

Lemma select_session {T} w pos v locale q b (read : list sval -> outcome T) :
  ready w pos v -> NULL_CHAR ∉ locale ->
  exists sel, sel ≡ₚ matching (rows (w_db w) (from q)) b (where_ q)
    /\ StronglySorted (fun r s => ordered (order_by q) r s = true) sel
    /\ forall l xs, slice b q sel = Some l -> Forall2 (reads (columns q) b read) l xs ->
       session [] locale (fun pos => select_all pos (Select q) b read) w = (after pos v w (w_db w), Ret xs).
Proof.
  intros Hr Hlo. destruct (select_law (session_vars [] locale v) (w_db w) b q) as (sel & Hp & Ho & He).
  exists sel. split; [done|]. split; [done|]. intros l xs Hl Hxs.
  assert (exists outs, mapM (fun r => evals r b (columns q)) l = Some outs /\ Forall2 (fun out x => read out = Ret x) outs xs) as (outs & Hm & Hf).
  { clear He Ho Hp Hl. induction Hxs as [|r x rs xs (out & H1 & H2) _ (outs & IH1 & IH2)]; [by exists []|].
    exists (out :: outs). simpl. rewrite H1. simpl. rewrite IH1. split; [done|by constructor]. }
  rewrite Hl in He. specialize (He outs Hm). apply session_ready; [done|apply not_elem_of_nil|done|apply contained_all|].
  intros u. unfold select_all, mbind, dao_bind. rewrite (sql_inside _ _ _ _ _ _ _ _ _ ltac:(eapply lookup_lt_Some, Hr) He).
  unfold lift. by rewrite (fetch_Forall2 _ _ _ Hf).
Qed.
End sessions.

(** ** Tables as finite maps

    [Entity] is what a data transfer object says of its table: the columns it writes, the columns it reads
    and the values it can hold.  Its law is that reading undoes writing.  [represents d M]: the table holds
    exactly the objects of [M]. *)
Class Entity {S : Server} (T : Type) := {
  e_table : String.string;
  e_id : T -> Z;
  e_with_id : Z -> T -> T;
  e_columns : T -> list (String.string * sval);
  e_select : list expr;
  e_read : list sval -> outcome T;
  e_ok : T -> Prop;
}.
Class EntityLaws {S : Server} (T : Type) `{!Entity T} : Prop := {
  e_read_law x id r b : list_to_map (e_columns x) ⊆ r -> r !! "id"%string = Some (VInt id) -> e_ok x ->
    reads e_select b e_read r (e_with_id id x);
  e_columns_law x id : e_columns (e_with_id id x) = e_columns x;
  e_ok_law x id : e_ok (e_with_id id x) <-> e_ok x;
  e_id_law x id : e_id (e_with_id id x) = id;
  e_with_id_law x : e_with_id (e_id x) x = x;
}.

Section entity.
Context {S : Server} {L : ServerLaws S} {T : Type} `{!Entity T} `{!EntityLaws T}.

Definition row_of (x : T) (r : row) : Prop := list_to_map (e_columns x) ⊆ r /\ r !! "id"%string = Some (VInt (e_id x)) /\ e_ok x.
Definition represents (d : db) (M : gmap Z T) : Prop :=
  forall id, match rows d e_table !! id, M !! id with
             | Some r, Some x => row_of x r /\ e_id x = id
             | None, None => True
             | _, _ => False end.

Lemma row_of_reads x r b : row_of x r -> reads e_select b e_read r x.
Proof. intros (H1 & H2 & H3). rewrite <- (e_with_id_law x). by apply e_read_law. Qed.

Lemma represents_lookup d M id x : represents d M -> M !! id = Some x -> exists r, rows d e_table !! id = Some r /\ row_of x r /\ e_id x = id.
Proof. intros H Hx. specialize (H id). rewrite Hx in H. destruct (rows d e_table !! id) as [r|]; [|done]. exists r. naive_solver. Qed.
Lemma represents_None d M id : represents d M -> M !! id = None -> rows d e_table !! id = None.
Proof. intros H Hx. specialize (H id). rewrite Hx in H. by destruct (rows d e_table !! id). Qed.

Lemma represents_insert d d' M id x r :
  represents d M -> rows d' e_table = <[id := r]> (rows d e_table) -> list_to_map (e_columns x) ⊆ r -> e_ok x -> e_id x = id ->
  represents d' (<[id := x]> M).
Proof.
  intros H Hd Hx Hok Hid k. destruct (decide (k = id)) as [->|Hne].
  - assert (Hr : rows d' e_table !! id = Some r) by (rewrite Hd; apply lookup_insert_eq).
    rewrite Hr, lookup_insert_eq. split; [|done]. split; [done|]. split; [|done]. rewrite Hid. by eapply id_column_law.
  - rewrite Hd, !lookup_insert_ne by done. apply H.
Qed.

Lemma insert_refines w pos v username sets b M x :
  ready w pos v -> acceptable username -> represents (w_db w) M -> assign b ∅ sets = Some (e_columns x) ->
  fits (w_db w) e_table None (e_columns x) -> e_ok x ->
  exists d' id, session username [] (fun pos => insert_returning pos e_table sets b) w = (after pos v w d', Ret id)
    /\ (0 < id)%Z /\ M !! id = None /\ represents d' (<[id := e_with_id id x]> M).
Proof.
  intros Hr Hu HM Hs Hf Hok. destruct (insert_session w pos v username e_table sets b _ Hr Hu Hs Hf) as (d' & id & r & He & Hid & Hn & Hd & Hsub).
  exists d', id. split; [done|]. split; [done|]. split.
  - specialize (HM id). rewrite Hn in HM. by destruct (M !! id).
  - eapply represents_insert; [done|done|by rewrite e_columns_law|by apply e_ok_law|apply e_id_law].
Qed.

Lemma update_refines w pos v username sets b M x y :
  ready w pos v -> acceptable username -> represents (w_db w) M -> lookup_bind b "id" = Some (VInt (e_id x)) ->
  (forall r, assign b r sets = Some (e_columns x)) -> fits (w_db w) e_table (Some (e_id x)) (e_columns x) -> e_ok x ->
  (M !! e_id x = None -> session username [] (fun pos => returning_id pos (Update e_table sets (Bind "id")) b) w = (after pos v w (w_db w), Ret false))
  /\ (M !! e_id x = Some y -> exists d', session username [] (fun pos => returning_id pos (Update e_table sets (Bind "id")) b) w = (after pos v w d', Ret true)
       /\ represents d' (<[e_id x := x]> M)).
Proof.
  intros Hr Hu HM Hb Hs Hf Hok. destruct (update_session w pos v username e_table sets b _ Hr Hu Hb) as [H1 H2]. split.
  - intros Hn. apply H1. by eapply represents_None.
  - intros Hy. destruct (represents_lookup _ _ _ _ HM Hy) as (r & Hrow & _).
    destruct (H2 r _ Hrow (Hs r) Hf) as (d' & r' & He & Hd & Hsub). exists d'. split; [done|]. by eapply represents_insert.
Qed.

Lemma remove_refines w pos v username b M id :
  ready w pos v -> acceptable username -> represents (w_db w) M -> lookup_bind b "id" = Some (VInt id) ->
  e_table <> self_referencing ->
  (M !! id = None -> session username [] (fun pos => returning_id pos (Delete e_table (Bind "id")) b) w = (after pos v w (w_db w), Ret false))
  /\ (is_Some (M !! id) -> deletable (w_db w) e_table id ->
       exists d', session username [] (fun pos => returning_id pos (Delete e_table (Bind "id")) b) w = (after pos v w d', Ret true)
         /\ represents d' (delete id M)).
Proof.
  intros Hr Hu HM Hb Ht. destruct (delete_session w pos v username e_table b id Hr Hu Hb) as [H1 H2]. split.
  - intros Hn. apply H1. by eapply represents_None.
  - intros [x Hx] Hdel. destruct (represents_lookup _ _ _ _ HM Hx) as (r & Hrow & _).
    destruct (H2 (mk_is_Some _ _ Hrow) Hdel) as (d' & He & _ & Hd). exists d'. split; [done|].
    intros k. rewrite Hd by done. destruct (decide (k = id)) as [->|Hne]; [by rewrite !lookup_delete_eq|]. rewrite !lookup_delete_ne by done. apply HM.
Qed.

Lemma find_refines w pos v b M id :
  ready w pos v -> represents (w_db w) M -> lookup_bind b "id" = Some (VInt id) ->
  session [] [] (fun pos => select_one pos (by_id e_select e_table) b e_read) w = (after pos v w (w_db w), Ret (M !! id)).
Proof.
  intros Hr HM Hb. destruct (select_by_id w pos v e_select e_table b e_read id Hr Hb) as [H1 H2].
  destruct (M !! id) as [x|] eqn:Hx; [|by apply H1; eapply represents_None].
  destruct (represents_lookup _ _ _ _ HM Hx) as (r & Hrow & Hof & _). destruct (row_of_reads x r b Hof) as (out & He & Hout). by eapply H2.
Qed.

(** The objects of a table, in the order of [map_to_list]. *)
Lemma represents_list d M :
  represents d M -> exists l, l ≡ₚ snd <$> map_to_list (rows d e_table) /\ Forall2 row_of (snd <$> map_to_list M) l.
Proof.
  intros HM. exists ((fun p => default ∅ (rows d e_table !! fst p)) <$> map_to_list M). split.
  - assert (Hp : (fun p => (fst p, default ∅ (rows d e_table !! fst p))) <$> map_to_list M ≡ₚ map_to_list (rows d e_table)).
    { apply NoDup_Permutation.
      - apply (NoDup_fmap_1 fst). rewrite <- list_fmap_compose. apply NoDup_fst_map_to_list.
      - apply NoDup_map_to_list.
      - intros [k r]. rewrite elem_of_map_to_list, list_elem_of_fmap. specialize (HM k). split.
        + intros ([k' x] & [= -> ->] & Hx%elem_of_map_to_list). rewrite Hx in HM. by destruct (rows d e_table !! k').
        + intros Hrow. rewrite Hrow in HM. destruct (M !! k) as [x|] eqn:Hx; [|done]. exists (k, x). simpl. rewrite Hrow.
          split; [done|]. by apply elem_of_map_to_list. }
    rewrite <- Hp, <- list_fmap_compose. done.
  - apply Forall2_fmap_l, Forall2_fmap_r, Forall_Forall2_diag, Forall_forall. intros [k x] Hx%elem_of_map_to_list. simpl.
    destruct (represents_lookup _ _ _ _ HM Hx) as (r & -> & Hr & _). done.
Qed.

Lemma Forall2_permute {A B} (Q : A -> B -> Prop) xs rs ss :
  Forall2 Q xs rs -> rs ≡ₚ ss -> exists ys, xs ≡ₚ ys /\ Forall2 Q ys ss.
Proof.
  intros HQ Hp. revert xs HQ. induction Hp as [|r rs ss _ IH|r r' rs|rs ss ts _ IH1 _ IH2]; intros xs HQ.
  - exists xs. by inversion HQ.
  - inversion HQ as [|x ? xs' ? Hx Hxs]; subst. destruct (IH _ Hxs) as (ys & H1 & H2). exists (x :: ys). split; [by constructor|by constructor].
  - inversion HQ as [|x ? xs' ? Hx Hxs]; subst. inversion Hxs as [|y ? ys ? Hy Hys]; subst.
    exists (y :: x :: ys). split; [apply perm_swap|by repeat constructor].
  - destruct (IH1 _ HQ) as (ys & H1 & H2). destruct (IH2 _ H2) as (zs & H3 & H4). exists zs. split; [by etrans|done].
Qed.

(** A query on the table returns the objects its condition describes, in its order. *)
Lemma select_refines w pos v locale q b M (P : T -> Prop) `{!forall x, Decision (P x)} (R : T -> T -> Prop) :
  ready w pos v -> NULL_CHAR ∉ locale -> represents (w_db w) M -> from q = e_table -> columns q = e_select ->
  (forall x r, row_of x r -> holds_for b (where_ q) r <-> P x) ->
  (forall x y r s, row_of x r -> row_of y s -> ordered (order_by q) r s = true -> R x y) ->
  exists xs, xs ≡ₚ filter P (snd <$> map_to_list M) /\ StronglySorted R xs
    /\ forall ys, slice b q xs = Some ys -> session [] locale (fun pos => select_all pos (Select q) b e_read) w = (after pos v w (w_db w), Ret ys).
Proof.
  intros Hr Hlo HM Hfrom Hcols HP HR. destruct (select_session w pos v locale q b e_read Hr Hlo) as (sel & Hp & Hsort & He).
  rewrite Hfrom, Hcols in *. destruct (represents_list _ _ HM) as (l & Hl & Hf).
  unfold matching in Hp. rewrite <- Hl in Hp.
  assert (Hff : Forall2 row_of (filter P (snd <$> map_to_list M)) (filter (holds_for b (where_ q)) l)).
  { clear -Hf HP. induction Hf as [|x r xs rs Hxr _ IH]; [done|]. rewrite !filter_cons.
    pose proof (HP x r Hxr). destruct (decide (P x)), (decide (holds_for b (where_ q) r)); try tauto. by constructor. }
  symmetry in Hp. destruct (Forall2_permute _ _ _ _ Hff Hp) as (xs & Hxs & Hf2).
  exists xs. split; [by symmetry|]. split.
  - clear -Hf2 Hsort HR. induction Hf2 as [|x r xs rs Hxr Hrest IH]; [constructor|].
    apply StronglySorted_inv in Hsort as [Hs Hh]. constructor; [by apply IH|].
    clear -Hrest Hh HR Hxr. induction Hrest as [|y s ys ss Hys _ IH]; inversion Hh; subst; constructor; [by eapply HR|by apply IH].
  - intros ys Hys. assert (exists l, slice b q sel = Some l /\ Forall2 row_of ys l) as (l' & Hl' & Hf').
    { revert Hys. unfold slice. destruct (match offset q with Some e => natural b e | None => Some 0 end) as [n|]; [|done].
      cbn [mbind option_bind]. destruct (limit q) as [e|]; [destruct (natural b e) as [m|]; [|done]|]; cbn [mbind option_bind];
        intros [= <-]; eexists; (split; [done|]); auto using Forall2_take, Forall2_drop. }
    eapply He; [done|]. apply (Forall2_impl (fun r x => row_of x r)); [by apply Forall2_flip|intros r x Hx; by apply row_of_reads].
Qed.
End entity.

(** ** Reading the columns of a stored row *)
Section reading.
Context {S : Server} {L : ServerLaws S}.

Lemma evals_nil (r : row) b : evals r b [] = Some [].
Proof. done. Qed.
Lemma evals_cons (r : row) b e es v vs : eval r b e = Some v -> evals r b es = Some vs -> evals r b (e :: es) = Some (v :: vs).
Proof. unfold evals. simpl. by intros -> ->. Qed.

Lemma get_stored {A} (g : sval -> outcome A) out k v : out !! k = Some v -> get g out k = g v.
Proof. unfold get. by intros ->. Qed.
Lemma get_bool_stored out k b : out !! k = Some (VBool b) -> get_bool out k = Ret b.
Proof. unfold get_bool, get. intros ->. rewrite get_int_bool_law. by destruct b. Qed.
Lemma get_int16_stored out k z : in_signed 16 z = true -> out !! k = Some (VInt z) -> get_int16 out k = Ret z.
Proof.
  intros Hz Hk. apply bool_decide_eq_true_1 in Hz as Hb. change (2 ^ (16 - 1))%Z with 32768%Z in Hb. unfold get_int16, get. rewrite Hk, get_int_law.
  - simpl. f_equal. unfold signed_wrap. change (2 ^ (16 - 1))%Z with 32768%Z. change (2 ^ 16)%Z with 65536%Z. rewrite Z.mod_small; lia.
  - apply bool_decide_eq_true_2. change (2 ^ (32 - 1))%Z with 2147483648%Z. lia.
Qed.

(** [WHERE c = :n] on an owner column. *)
Lemma owner_condition (r : row) b c n z k :
  r !! c = Some (nullable_id z) -> lookup_bind b n = Some (VInt k) -> holds_for b (Eq (Col c) (Bind n)) r <-> z = k /\ z <> 0%Z.
Proof.
  intros H1 H2. unfold holds_for. simpl. rewrite H1, H2. unfold nullable_id. destruct (Z.eqb_spec z 0) as [->|Hz].
  - split; [done|]. by intros [? ?].
  - split; [|intros [-> _]; by rewrite bool_decide_eq_true_2].
    intros [= H%bool_decide_eq_true_1]. by injection H.
Qed.

Lemma key_condition (r : row) b c n z k :
  r !! c = Some (VInt z) -> lookup_bind b n = Some (VInt k) -> holds_for b (Eq (Col c) (Bind n)) r <-> z = k.
Proof.
  intros H1 H2. unfold holds_for. simpl. rewrite H1, H2. split; [|intros ->; by rewrite bool_decide_eq_true_2].
  intros [= H%bool_decide_eq_true_1]. by injection H.
Qed.

Lemma ordered_by_id (r s : row) i j :
  r !! "id"%string = Some (VInt i) -> s !! "id"%string = Some (VInt j) -> ordered [("id"%string, false)] r s = true -> (i <= j)%Z.
Proof. intros Hi Hj. unfold ordered, column. rewrite Hi, Hj. simpl. rewrite !sql_le_int_law. intros [H _]%andb_true_iff. lia. Qed.

(** ORDER BY a boolean column DESC, id. *)
Lemma flag_then_id (r s : row) c x y i j :
  r !! c = Some (VBool x) -> s !! c = Some (VBool y) -> r !! "id"%string = Some (VInt i) -> s !! "id"%string = Some (VInt j) ->
  ordered [(c, true); ("id"%string, false)] r s = true -> (x = true /\ y = false) \/ (x = y /\ (i <= j)%Z).
Proof.
  intros Hx Hy Hi Hj. unfold ordered, column. rewrite Hx, Hy, Hi, Hj. simpl. rewrite !sql_le_bool_law, !sql_le_int_law.
  destruct x, y; simpl; try (by left); rewrite ?andb_true_r, ?andb_false_r; intros H; try done; right; split; try done;
    apply andb_true_iff in H as [H _]; lia.
Qed.
End reading.

(** Solves [evals r b es = Some ?out] for a row that holds the columns [H : list_to_map vs ⊆ r] and the id [Hid]. *)
Ltac eval_column H Hid :=
  first
  [ apply eval_col; exact Hid
  | apply eval_coalesce_date; apply (stored _ _ _ _ H); reflexivity
  | apply eval_coalesce_real; apply (stored _ _ _ _ H); reflexivity
  | apply eval_coalesce_id; apply (stored _ _ _ _ H); reflexivity
  | apply eval_coalesce_text; apply (stored _ _ _ _ H); reflexivity
  | apply eval_coalesce_own; apply (stored _ _ _ _ H); reflexivity
  | apply eval_col; apply (stored _ _ _ _ H); reflexivity ].
Ltac eval_columns H Hid := repeat (eapply evals_cons; [eval_column H Hid|]); apply evals_nil.
Ltac read_columns :=
  repeat first
  [ erewrite get_bool_stored by reflexivity
  | erewrite get_int16_stored by (done || reflexivity)
  | erewrite get_stored by reflexivity
  | rewrite get_long_law | rewrite get_string_law | rewrite get_double_law
  | progress cbn [mbind outcome_bind fmap outcome_fmap] ].

(** ** Evaluating the columns of an INSERT or an UPDATE *)
Section writing.
Context {S : Server} {L : ServerLaws S}.
Implicit Types (r : row) (b : binds).

Lemma assign_nil r b : assign b r [] = Some [].
Proof. done. Qed.
Lemma assign_cons r b c e sets v vs : eval r b e = Some v -> assign b r sets = Some vs -> assign b r ((c, e) :: sets) = Some ((c, v) :: vs).
Proof. unfold assign. simpl. by intros -> ->. Qed.
Lemma eval_bind r b n v : lookup_bind b n = Some v -> eval r b (Bind n) = Some v.
Proof. done. Qed.
Lemma eval_nullif r b n s : lookup_bind b n = Some (VText s) -> eval r b (Nullif (Bind n) []) = Some (nullable s).
Proof. simpl. by intros ->. Qed.
Lemma eval_date r b n s d : lookup_bind b n = Some (VText s) -> date_text s = Some d -> eval r b (Cast (Nullif (Bind n) []) TDate) = Some (nullable_date d).
Proof. intros H1 H2. cbn [eval]. rewrite H1. cbn [mbind option_bind]. by apply cast_nullable_date. Qed.
Lemma eval_flag r b n f : lookup_bind b n = Some (VInt (bool_int f)) -> eval r b (Cast (Bind n) TBoolean) = Some (VBool f).
Proof. cbn [eval]. intros ->. by destruct f. Qed.
End writing.

Ltac assign_columns :=
  repeat (eapply assign_cons;
    [first [ eapply eval_date; [reflexivity|eassumption] | apply eval_nullif; reflexivity | apply eval_flag; reflexivity
           | apply eval_bind; reflexivity | reflexivity ]|]);
  apply assign_nil.

Section counting.
Context {S : Server} {L : ServerLaws S} {T : Type} `{!Entity T} `{!EntityLaws T}.

Lemma count_refines {A} w pos v b c M (P : T -> Prop) `{!forall x, Decision (P x)} (f : Z -> A) :
  ready w pos v -> represents (w_db w) M -> (forall x r, row_of x r -> holds_for b c r <-> P x) ->
  in_signed 32 (Z.of_nat (length (filter P (snd <$> map_to_list M)))) = true ->
  session [] [] (fun pos => out ← sql pos (Count e_table c) b; n ← into get_int 0 out; mret (f n)) w
  = (after pos v w (w_db w), Ret (f (Z.of_nat (length (filter P (snd <$> map_to_list M)))))).
Proof.
  intros Hr HM HP Hn. destruct (represents_list _ _ HM) as (l & Hl & Hf).
  assert (Hlen : length (matching (rows (w_db w) e_table) b c) = length (filter P (snd <$> map_to_list M))).
  { unfold matching. rewrite <- Hl. clear Hl Hn. induction Hf as [|x r xs rs Hxr _ IH]; [done|]. rewrite !filter_cons.
    pose proof (HP x r Hxr). destruct (decide (P x)), (decide (holds_for b c r)); simpl; tauto || lia. }
  apply session_ready; [done|apply not_elem_of_nil|apply not_elem_of_nil| |].
  - apply contained_bind; [apply contained_sql|]. intros. apply contained_bind; [apply contained_into|]. intros. apply contained_ret.
  - intros u. unfold mbind, dao_bind.
    rewrite (sql_inside _ _ _ _ _ _ _ _ _ ltac:(eapply lookup_lt_Some, Hr) (count_law _ _ _ _ _)).
    unfold into, lift. rewrite Hlen, get_int_law by done. done.
Qed.
End counting.
