(* ===== verification/ContactDao.v ===== *)
(** * Phones, e-mail addresses and postal addresses (contact/data/contact_dao.hpp)

    The three tables have one owner per row, a person or an organization unit, and the same three
    operations.  Each table is a finite map from ids to data transfer objects ([represents], Dao.v); the
    operations are the map's insertion, deletion and the ordered list of one person's entries. *)
From stdpp Require Import gmap strings.
From S2P Require Import Prelude Sql Database Dao.

(* src: contact/data/contact_dao.hpp:20-32 PhoneDTO *)
Record PhoneDTO := mk_phone_dto {
  ph_id : Z; ph_person_id : Z; ph_org_unit_id : Z; ph_country_code : str; ph_area_code : str; ph_number : str;
  ph_extension : str; ph_is_mobile : bool; ph_qualifier_id : Z; ph_is_preferred : bool }.
(* src: contact/data/contact_dao.hpp:36-45 EmailDTO *)
Record EmailDTO := mk_email_dto {
  em_id : Z; em_person_id : Z; em_org_unit_id : Z; em_email : str; em_qualifier_id : Z; em_is_preferred : bool; em_is_verified : bool }.
(** A [double] is its bits. *)
(* src: contact/data/contact_dao.hpp:49-64 AddressDTO *)
Record AddressDTO := mk_address_dto {
  ad_id : Z; ad_person_id : Z; ad_org_unit_id : Z; ad_street_line1 : str; ad_street_line2 : str; ad_city : str;
  ad_state_province : str; ad_postal_code : str; ad_country : str; ad_qualifier_id : Z; ad_is_preferred : bool;
  ad_latitude : Z; ad_longitude : Z }.

Section ContactDAO.
Context {S : Server}.

(* src: contact/data/contact_dao.hpp:87-92 ContactDAO::insert_phone *)
Definition phone_values (pid oid : expr) : list (String.string * expr) :=
  ["person_id" ::= pid; "org_unit_id" ::= oid; "country_code" ::= Bind "cc"; "area_code" ::= Bind "ac"; "number" ::= Bind "num";
   "extension" ::= Nullif (Bind "ext") []; "is_mobile" ::= Cast (Bind "mob") TBoolean; "qualifier_id" ::= Bind "qid";
   "is_preferred" ::= Cast (Bind "pref") TBoolean].
(* src: contact/data/contact_dao.hpp:95-101 ContactDAO::insert_phone *)
Definition phone_binds (p : PhoneDTO) : binds :=
  [use (VText (ph_country_code p)) "cc"; use (VText (ph_area_code p)) "ac"; use (VText (ph_number p)) "num";
   use (VText (ph_extension p)) "ext"; use (VInt (bool_int (ph_is_mobile p))) "mob"; use (VInt (ph_qualifier_id p)) "qid";
   use (VInt (bool_int (ph_is_preferred p))) "pref"].
(* src: contact/data/contact_dao.hpp:75-127 ContactDAO::insert_phone *)
Definition insert_phone (p : PhoneDTO) (username : str) : dao Z := session username [] (fun pos =>
  if negb (ph_person_id p =? 0)%Z && (ph_org_unit_id p =? 0)%Z then
    insert_returning pos "t_phone" (phone_values (Bind "pid") Null) (use (VInt (ph_person_id p)) "pid" :: phone_binds p)
  else if (ph_person_id p =? 0)%Z && negb (ph_org_unit_id p =? 0)%Z then
    insert_returning pos "t_phone" (phone_values Null (Bind "oid")) (use (VInt (ph_org_unit_id p)) "oid" :: phone_binds p)
  else mret 0%Z).
(* src: contact/data/contact_dao.hpp:135-138 ContactDAO::phones_for_person *)
Definition phone_columns : list expr :=
  [Col "id"; Coalesce (Col "person_id") (Int 0); Coalesce (Col "org_unit_id") (Int 0); Col "country_code";
   Coalesce (Col "area_code") (Text []); Col "number"; Coalesce (Col "extension") (Text []); Col "is_mobile"; Col "qualifier_id"; Col "is_preferred"].
(* src: contact/data/contact_dao.hpp:142-156 ContactDAO::phones_for_person *)
Definition read_phone (r : list sval) : outcome PhoneDTO :=
  id ← get get_long r 0; person_id ← get get_long r 1; org_unit_id ← get get_long r 2; country_code ← get get_string r 3;
  area_code ← get get_string r 4; number ← get get_string r 5; extension ← get get_string r 6; is_mobile ← get_bool r 7;
  qualifier_id ← get_int16 r 8; is_preferred ← get_bool r 9;
  Ret (mk_phone_dto id person_id org_unit_id country_code area_code number extension is_mobile qualifier_id is_preferred).
(* src: contact/data/contact_dao.hpp:138-138 ContactDAO::phones_for_person *)
Definition person_entries (es : list expr) (t : String.string) : query :=
  mk_query es t (Eq (Col "person_id") (Bind "pid")) [("is_preferred"%string, true); ("id"%string, false)] None None.
(* src: contact/data/contact_dao.hpp:129-158 ContactDAO::phones_for_person *)
Definition phones_for_person (person_id : Z) : dao (list PhoneDTO) := session [] [] (fun pos =>
  select_all pos (Select (person_entries phone_columns "t_phone")) [use (VInt person_id) "pid"] read_phone).
(* src: contact/data/contact_dao.hpp:160-171 ContactDAO::remove_phone *)
Definition remove_phone (id : Z) (username : str) : dao bool := session username [] (fun pos =>
  returning_id pos (Delete "t_phone" (Bind "id")) [use (VInt id) "id"]).

(* src: contact/data/contact_dao.hpp:187-189 ContactDAO::insert_email *)
Definition email_values (pid oid : expr) : list (String.string * expr) :=
  ["person_id" ::= pid; "org_unit_id" ::= oid; "email" ::= Bind "email"; "qualifier_id" ::= Bind "qid";
   "is_preferred" ::= Cast (Bind "pref") TBoolean; "is_verified" ::= Cast (Bind "ver") TBoolean].
(* src: contact/data/contact_dao.hpp:192-195 ContactDAO::insert_email *)
Definition email_binds (e : EmailDTO) : binds :=
  [use (VText (em_email e)) "email"; use (VInt (em_qualifier_id e)) "qid"; use (VInt (bool_int (em_is_preferred e))) "pref";
   use (VInt (bool_int (em_is_verified e))) "ver"].
(* src: contact/data/contact_dao.hpp:175-215 ContactDAO::insert_email *)
Definition insert_email (e : EmailDTO) (username : str) : dao Z := session username [] (fun pos =>
  if negb (em_person_id e =? 0)%Z && (em_org_unit_id e =? 0)%Z then
    insert_returning pos "t_email" (email_values (Bind "pid") Null) (use (VInt (em_person_id e)) "pid" :: email_binds e)
  else if (em_person_id e =? 0)%Z && negb (em_org_unit_id e =? 0)%Z then
    insert_returning pos "t_email" (email_values Null (Bind "oid")) (use (VInt (em_org_unit_id e)) "oid" :: email_binds e)
  else mret 0%Z).
(* src: contact/data/contact_dao.hpp:223-225 ContactDAO::emails_for_person *)
Definition email_columns : list expr :=
  [Col "id"; Coalesce (Col "person_id") (Int 0); Coalesce (Col "org_unit_id") (Int 0); Col "email"; Col "qualifier_id"; Col "is_preferred"; Col "is_verified"].
(* src: contact/data/contact_dao.hpp:229-240 ContactDAO::emails_for_person *)
Definition read_email (r : list sval) : outcome EmailDTO :=
  id ← get get_long r 0; person_id ← get get_long r 1; org_unit_id ← get get_long r 2; email ← get get_string r 3;
  qualifier_id ← get_int16 r 4; is_preferred ← get_bool r 5; is_verified ← get_bool r 6;
  Ret (mk_email_dto id person_id org_unit_id email qualifier_id is_preferred is_verified).
(* src: contact/data/contact_dao.hpp:217-242 ContactDAO::emails_for_person *)
Definition emails_for_person (person_id : Z) : dao (list EmailDTO) := session [] [] (fun pos =>
  select_all pos (Select (person_entries email_columns "t_email")) [use (VInt person_id) "pid"] read_email).
(* src: contact/data/contact_dao.hpp:244-255 ContactDAO::remove_email *)
Definition remove_email (id : Z) (username : str) : dao bool := session username [] (fun pos =>
  returning_id pos (Delete "t_email" (Bind "id")) [use (VInt id) "id"]).

(* src: contact/data/contact_dao.hpp:270-277 ContactDAO::insert_address *)
Definition address_values (pid oid : expr) : list (String.string * expr) :=
  ["person_id" ::= pid; "org_unit_id" ::= oid; "street_line1" ::= Bind "sl1"; "street_line2" ::= Nullif (Bind "sl2") [];
   "city" ::= Bind "city"; "state_province" ::= Nullif (Bind "state") []; "postal_code" ::= Nullif (Bind "pc") []; "country" ::= Bind "ctry";
   "qualifier_id" ::= Bind "qid"; "is_preferred" ::= Cast (Bind "pref") TBoolean; "latitude" ::= Bind "lat"; "longitude" ::= Bind "lng"].
(* src: contact/data/contact_dao.hpp:280-289 ContactDAO::insert_address *)
Definition address_binds (a : AddressDTO) : binds :=
  [use (VText (ad_street_line1 a)) "sl1"; use (VText (ad_street_line2 a)) "sl2"; use (VText (ad_city a)) "city";
   use (VText (ad_state_province a)) "state"; use (VText (ad_postal_code a)) "pc"; use (VText (ad_country a)) "ctry";
   use (VInt (ad_qualifier_id a)) "qid"; use (VInt (bool_int (ad_is_preferred a))) "pref";
   use (VReal (ad_latitude a)) "lat"; use (VReal (ad_longitude a)) "lng"].
(* src: contact/data/contact_dao.hpp:259-320 ContactDAO::insert_address *)
Definition insert_address (a : AddressDTO) (username : str) : dao Z := session username [] (fun pos =>
  if negb (ad_person_id a =? 0)%Z && (ad_org_unit_id a =? 0)%Z then
    insert_returning pos "t_address" (address_values (Bind "pid") Null) (use (VInt (ad_person_id a)) "pid" :: address_binds a)
  else if (ad_person_id a =? 0)%Z && negb (ad_org_unit_id a =? 0)%Z then
    insert_returning pos "t_address" (address_values Null (Bind "oid")) (use (VInt (ad_org_unit_id a)) "oid" :: address_binds a)
  else mret 0%Z).
(* src: contact/data/contact_dao.hpp:328-333 ContactDAO::addresses_for_person *)
Definition address_columns : list expr :=
  [Col "id"; Coalesce (Col "person_id") (Int 0); Coalesce (Col "org_unit_id") (Int 0); Col "street_line1";
   Coalesce (Col "street_line2") (Text []); Col "city"; Coalesce (Col "state_province") (Text []); Coalesce (Col "postal_code") (Text []);
   Col "country"; Col "qualifier_id"; Col "is_preferred"; Coalesce (Col "latitude") (Int 0); Coalesce (Col "longitude") (Int 0)].
(* src: contact/data/contact_dao.hpp:337-354 ContactDAO::addresses_for_person *)
Definition read_address (r : list sval) : outcome AddressDTO :=
  id ← get get_long r 0; person_id ← get get_long r 1; org_unit_id ← get get_long r 2; street_line1 ← get get_string r 3;
  street_line2 ← get get_string r 4; city ← get get_string r 5; state_province ← get get_string r 6; postal_code ← get get_string r 7;
  country ← get get_string r 8; qualifier_id ← get_int16 r 9; is_preferred ← get_bool r 10;
  latitude ← get get_double r 11; longitude ← get get_double r 12;
  Ret (mk_address_dto id person_id org_unit_id street_line1 street_line2 city state_province postal_code country qualifier_id is_preferred latitude longitude).
(* src: contact/data/contact_dao.hpp:322-356 ContactDAO::addresses_for_person *)
Definition addresses_for_person (person_id : Z) : dao (list AddressDTO) := session [] [] (fun pos =>
  select_all pos (Select (person_entries address_columns "t_address")) [use (VInt person_id) "pid"] read_address).
(* src: contact/data/contact_dao.hpp:358-369 ContactDAO::remove_address *)
Definition remove_address (id : Z) (username : str) : dao bool := session username [] (fun pos =>
  returning_id pos (Delete "t_address" (Bind "id")) [use (VInt id) "id"]).
End ContactDAO.

(** ** Entries with an owner *)
Section owned.
Context {S : Server}.

Class Owned (T : Type) `{!Entity T} := {
  o_person : T -> Z;
  o_org_unit : T -> Z;
  o_preferred : T -> bool;
  o_person_law x : lookup_bind (e_columns x) "person_id" = Some (nullable_id (o_person x));
  o_preferred_law x : lookup_bind (e_columns x) "is_preferred" = Some (VBool (o_preferred x));
}.

(** A row needs one owner: a person and no unit, or a unit and no person. *)
Definition one_owner {T} `{Owned T} (x : T) : Prop :=
  (o_person x <> 0 /\ o_org_unit x = 0)%Z \/ (o_person x = 0 /\ o_org_unit x <> 0)%Z.
#[export] Instance one_owner_dec {T} `{Owned T} (x : T) : Decision (one_owner x).
Proof. unfold one_owner. apply _. Defined.

(** Preferred entries first, then by id. *)
Definition entry_order {T} `{Owned T} (x y : T) : Prop :=
  (o_preferred x = true /\ o_preferred y = false) \/ (o_preferred x = o_preferred y /\ (e_id x <= e_id y)%Z).

(** What the three operations of a table promise, against the table's finite map: an entry with one owner is
    added under a fresh positive id, one with no owner or with two is dropped without an error and zero is
    returned; removal answers whether the entry was there; the list holds every entry of the person once. *)
Definition refines_map (T : Type) `{Owned T} (ins : T -> str -> dao Z) (entries : Z -> dao (list T)) (rem : Z -> str -> dao bool) : Prop :=
  forall w pos v (M : gmap Z T) username, ready w pos v -> acceptable username -> represents (w_db w) M ->
    (forall x, one_owner x -> e_ok x -> fits (w_db w) e_table None (e_columns x) ->
       exists d' id, ins x username w = (after pos v w d', Ret id) /\ (0 < id)%Z /\ M !! id = None
         /\ represents d' (<[id := e_with_id id x]> M))
    /\ (forall x, ~ one_owner x -> ins x username w = (after pos v w (w_db w), Ret 0%Z))
    /\ (forall id, M !! id = None -> rem id username w = (after pos v w (w_db w), Ret false))
    /\ (forall id, is_Some (M !! id) -> deletable (w_db w) e_table id ->
          exists d', rem id username w = (after pos v w d', Ret true) /\ represents d' (delete id M))
    /\ (forall pid, exists xs, entries pid w = (after pos v w (w_db w), Ret xs) /\ StronglySorted entry_order xs
          /\ xs ≡ₚ filter (fun x => o_person x = pid /\ o_person x <> 0%Z) (snd <$> map_to_list M)).

Context {L : ServerLaws S}.

(** The three inserts have one shape: two statements and nothing. *)
Lemma refines_map_intro (T : Type) `{Owned T} `{!EntityLaws T} (ins : T -> str -> dao Z)
    (values : expr -> expr -> list (String.string * expr)) (bs : T -> binds) :
  (forall x username, ins x username = session username [] (fun pos =>
     if negb (o_person x =? 0)%Z && (o_org_unit x =? 0)%Z then
       insert_returning pos e_table (values (Bind "pid") Null) (use (VInt (o_person x)) "pid" :: bs x)
     else if (o_person x =? 0)%Z && negb (o_org_unit x =? 0)%Z then
       insert_returning pos e_table (values Null (Bind "oid")) (use (VInt (o_org_unit x)) "oid" :: bs x)
     else mret 0%Z)) ->
  e_table <> self_referencing ->
  (forall x, o_person x <> 0%Z -> o_org_unit x = 0%Z ->
     assign (use (VInt (o_person x)) "pid" :: bs x) ∅ (values (Bind "pid") Null) = Some (e_columns x)) ->
  (forall x, o_person x = 0%Z -> o_org_unit x <> 0%Z ->
     assign (use (VInt (o_org_unit x)) "oid" :: bs x) ∅ (values Null (Bind "oid")) = Some (e_columns x)) ->
  refines_map T ins
    (fun person_id => session [] [] (fun pos => select_all pos (Select (person_entries e_select e_table)) [use (VInt person_id) "pid"] e_read))
    (fun id username => session username [] (fun pos => returning_id pos (Delete e_table (Bind "id")) [use (VInt id) "id"])).
Proof.
  intros Hins Ht Hp Ho w pos v M username Hr Hu HM. split; [|split; [|split; [|split]]].
  - intros x Hx Hok Hf. rewrite Hins. destruct Hx as [[H1 H2]|[H1 H2]].
    + rewrite (proj2 (Z.eqb_neq _ _) H1), (proj2 (Z.eqb_eq _ _) H2). cbn [negb andb]. apply insert_refines; [done|done|done|by apply Hp|done|done].
    + rewrite (proj2 (Z.eqb_eq _ _) H1), (proj2 (Z.eqb_neq _ _) H2). cbn [negb andb]. apply insert_refines; [done|done|done|by apply Ho|done|done].
  - intros x Hx. rewrite Hins. unfold one_owner in Hx.
    destruct (Z.eqb_spec (o_person x) 0), (Z.eqb_spec (o_org_unit x) 0); cbn [negb andb]; try tauto;
      (eapply session_ready; [done|apply Hu|apply not_elem_of_nil|apply contained_ret|done]).
  - intros id. by apply (remove_refines w pos v username _ M id).
  - intros id. by apply (remove_refines w pos v username _ M id).
  - intros pid. destruct (select_refines w pos v [] (person_entries e_select e_table) [use (VInt pid) "pid"] M
      (fun x => o_person x = pid /\ o_person x <> 0%Z) entry_order Hr (not_elem_of_nil _) HM eq_refl eq_refl) as (xs & H1 & H2 & H3).
    + intros x r (Hsub & _). apply owner_condition; [|done]. eapply stored; [done|apply o_person_law].
    + intros x y r s (Hx & Ix & _) (Hy & Iy & _). simpl.
      eapply flag_then_id; [eapply stored; [done|apply o_preferred_law]|eapply stored; [done|apply o_preferred_law]|done|done].
    + exists xs. split; [by apply H3|]. split; done.
Qed.
End owned.

Section instances.
Context {S : Server}.

#[export] Instance phone_entity : Entity PhoneDTO := {|
  e_table := "t_phone"; e_id := ph_id; e_select := phone_columns; e_read := read_phone;
  e_with_id id p := mk_phone_dto id (ph_person_id p) (ph_org_unit_id p) (ph_country_code p) (ph_area_code p) (ph_number p)
    (ph_extension p) (ph_is_mobile p) (ph_qualifier_id p) (ph_is_preferred p);
  e_columns p := ["person_id" ::= nullable_id (ph_person_id p); "org_unit_id" ::= nullable_id (ph_org_unit_id p);
    "country_code" ::= VText (ph_country_code p); "area_code" ::= VText (ph_area_code p); "number" ::= VText (ph_number p);
    "extension" ::= nullable (ph_extension p); "is_mobile" ::= VBool (ph_is_mobile p); "qualifier_id" ::= VInt (ph_qualifier_id p);
    "is_preferred" ::= VBool (ph_is_preferred p)];
  e_ok p := in_signed 16 (ph_qualifier_id p) = true |}.
#[export] Instance email_entity : Entity EmailDTO := {|
  e_table := "t_email"; e_id := em_id; e_select := email_columns; e_read := read_email;
  e_with_id id e := mk_email_dto id (em_person_id e) (em_org_unit_id e) (em_email e) (em_qualifier_id e) (em_is_preferred e) (em_is_verified e);
  e_columns e := ["person_id" ::= nullable_id (em_person_id e); "org_unit_id" ::= nullable_id (em_org_unit_id e); "email" ::= VText (em_email e);
    "qualifier_id" ::= VInt (em_qualifier_id e); "is_preferred" ::= VBool (em_is_preferred e); "is_verified" ::= VBool (em_is_verified e)];
  e_ok e := in_signed 16 (em_qualifier_id e) = true |}.
#[export] Instance address_entity : Entity AddressDTO := {|
  e_table := "t_address"; e_id := ad_id; e_select := address_columns; e_read := read_address;
  e_with_id id a := mk_address_dto id (ad_person_id a) (ad_org_unit_id a) (ad_street_line1 a) (ad_street_line2 a) (ad_city a)
    (ad_state_province a) (ad_postal_code a) (ad_country a) (ad_qualifier_id a) (ad_is_preferred a) (ad_latitude a) (ad_longitude a);
  e_columns a := ["person_id" ::= nullable_id (ad_person_id a); "org_unit_id" ::= nullable_id (ad_org_unit_id a);
    "street_line1" ::= VText (ad_street_line1 a); "street_line2" ::= nullable (ad_street_line2 a); "city" ::= VText (ad_city a);
    "state_province" ::= nullable (ad_state_province a); "postal_code" ::= nullable (ad_postal_code a); "country" ::= VText (ad_country a);
    "qualifier_id" ::= VInt (ad_qualifier_id a); "is_preferred" ::= VBool (ad_is_preferred a);
    "latitude" ::= VReal (ad_latitude a); "longitude" ::= VReal (ad_longitude a)];
  e_ok a := in_signed 16 (ad_qualifier_id a) = true |}.

#[export] Instance phone_owned : Owned PhoneDTO := {| o_person := ph_person_id; o_org_unit := ph_org_unit_id; o_preferred := ph_is_preferred;
  o_person_law _ := eq_refl; o_preferred_law _ := eq_refl |}.
#[export] Instance email_owned : Owned EmailDTO := {| o_person := em_person_id; o_org_unit := em_org_unit_id; o_preferred := em_is_preferred;
  o_person_law _ := eq_refl; o_preferred_law _ := eq_refl |}.
#[export] Instance address_owned : Owned AddressDTO := {| o_person := ad_person_id; o_org_unit := ad_org_unit_id; o_preferred := ad_is_preferred;
  o_person_law _ := eq_refl; o_preferred_law _ := eq_refl |}.

Context {L : ServerLaws S}.

#[export] Instance phone_laws : EntityLaws PhoneDTO.
Proof.
  split; [|done|done|done|by intros []]. intros p id r b Hsub Hid Hok. cbn [e_ok phone_entity] in Hok.
  eexists. split; [eval_columns Hsub Hid|]. cbn [e_read phone_entity]. unfold read_phone. by read_columns.
Qed.
#[export] Instance email_laws : EntityLaws EmailDTO.
Proof.
  split; [|done|done|done|by intros []]. intros p id r b Hsub Hid Hok. cbn [e_ok email_entity] in Hok.
  eexists. split; [eval_columns Hsub Hid|]. cbn [e_read email_entity]. unfold read_email. by read_columns.
Qed.
#[export] Instance address_laws : EntityLaws AddressDTO.
Proof.
  split; [|done|done|done|by intros []]. intros p id r b Hsub Hid Hok. cbn [e_ok address_entity] in Hok.
  eexists. split; [eval_columns Hsub Hid|]. cbn [e_read address_entity]. unfold read_address. by read_columns.
Qed.
End instances.

Ltac owner_values :=
  intros x H1 H2; destruct x; cbn in H1, H2; cbn [e_columns phone_entity email_entity address_entity]; unfold nullable_id;
  cbn [e_columns o_person o_org_unit phone_owned email_owned address_owned phone_entity email_entity address_entity ph_person_id ph_org_unit_id em_person_id em_org_unit_id ad_person_id ad_org_unit_id];
  repeat match goal with
  | H : ?z = 0%Z |- _ => rewrite H; change (0 =? 0)%Z with true; clear H
  | H : ?z <> 0%Z |- _ => rewrite (proj2 (Z.eqb_neq _ _) H); clear H
  end;
  repeat match goal with b : bool |- _ => destruct b end; reflexivity.

(** C11. Phones, e-mail addresses and postal addresses: each table, through its three operations, is a finite
    map of entries.  An entry with exactly one owner is stored under a fresh positive id, and is read back
    with every field as it was given, the empty optional texts and the zero owner included; an entry with no
    owner or with two is silently dropped, no statement runs and the id returned is zero.  Removal answers
    whether the entry was there.  A person's list holds each of that person's entries once, preferred entries
    first and then by id. *)
Theorem contact_tables_refine_maps {S : Server} (L : ServerLaws S) :
  refines_map PhoneDTO insert_phone phones_for_person remove_phone
  /\ refines_map EmailDTO insert_email emails_for_person remove_email
  /\ refines_map AddressDTO insert_address addresses_for_person remove_address.
Proof.
  split; [|split].
  - refine (refines_map_intro PhoneDTO insert_phone phone_values phone_binds _ _ _ _); [done|done|owner_values|owner_values].
  - refine (refines_map_intro EmailDTO insert_email email_values email_binds _ _ _ _); [done|done|owner_values|owner_values].
  - refine (refines_map_intro AddressDTO insert_address address_values address_binds _ _ _ _); [done|done|owner_values|owner_values].
Qed.

Lemma contact_tables_refine_maps_witness :
  let S := memory true in let w := new_DbConnection (S := S) ∅ 2 in
  let p := mk_phone_dto 0 7 0 (W "55") [] (W "5551234") [] true 3 true in
  one_owner (S := S) p /\
  exists d', insert_phone (S := S) p (W "admin") w = (after 0 ∅ w d', Ret 1%Z)
    /\ represents (S := S) d' (<[1%Z := mk_phone_dto 1 7 0 (W "55") [] (W "5551234") [] true 3 true]> ∅).
Proof.
  intros S w p.
  assert (Hone : one_owner (S := S) p) by (left; split; [discriminate|reflexivity]).
  assert (Hr : ready (S := S) w 0 ∅) by (repeat split).
  assert (Hu : acceptable (W "admin")) by (apply (bool_decide_unpack _); vm_compute; exact I).
  assert (HM : represents (S := S) (T := PhoneDTO) (w_db w) ∅) by (intros id; exact I).
  assert (Hf : fits (Server := S) (w_db w) e_table None (e_columns p)) by (split; apply (bool_decide_unpack _); vm_compute; exact I).
  split; [exact Hone|].
  destruct (proj1 (contact_tables_refine_maps memory_laws) w 0 ∅ ∅ (W "admin") Hr Hu HM) as [H _].
  destruct (H p Hone eq_refl Hf) as (d' & id & He & _ & _ & Hd).
  assert (Hid : snd (insert_phone (S := S) p (W "admin") w) = Ret 1%Z) by (vm_compute; reflexivity).
  assert (E : id = 1%Z) by (pose proof (eq_trans (eq_sym Hid) (f_equal snd He)) as E; cbn [snd] in E; injection E as E; symmetry; exact E).
  subst id. exists d'. split; [exact He|exact Hd].
Defined.
