(* ===== verification/PersonDao.v ===== *)
(** * Persons (contact/data/person_dao.hpp)

    [T_Person] as a finite map of data transfer objects, through the six operations of [PersonDAO]. *)
From stdpp Require Import gmap strings.
From S2P Require Import Prelude Sql Database Dao.

(* src: contact/data/person_dao.hpp:19-37 PersonDTO *)
Record PersonDTO := mk_person_dto {
  pe_id : Z; pe_first_name : str; pe_middle_name : str; pe_last_name : str; pe_federal_tax_id : str;
  pe_identification_number : str; pe_passport_number : str; pe_passport_country : str; pe_passport_expiry : str;
  pe_date_of_birth : str; pe_keywords : str }.

Section PersonDAO.
Context {S : Server}.

(* src: contact/data/person_dao.hpp:52-61 PersonDAO::insert *)
Definition person_values : list (String.string * expr) :=
  ["first_name" ::= Bind "first_name"; "middle_name" ::= Nullif (Bind "middle_name") []; "last_name" ::= Bind "last_name";
   "federal_tax_id" ::= Nullif (Bind "federal_tax_id") []; "identification_number" ::= Nullif (Bind "identification_number") [];
   "passport_number" ::= Nullif (Bind "passport_number") []; "passport_country" ::= Nullif (Bind "passport_country") [];
   "passport_expiry" ::= Cast (Nullif (Bind "passport_expiry") []) TDate; "date_of_birth" ::= Cast (Nullif (Bind "date_of_birth") []) TDate;
   "keywords" ::= Nullif (Bind "keywords") []].
(* src: contact/data/person_dao.hpp:63-72 PersonDAO::insert *)
Definition person_binds (p : PersonDTO) : binds :=
  [use (VText (pe_first_name p)) "first_name"; use (VText (pe_middle_name p)) "middle_name"; use (VText (pe_last_name p)) "last_name";
   use (VText (pe_federal_tax_id p)) "federal_tax_id"; use (VText (pe_identification_number p)) "identification_number";
   use (VText (pe_passport_number p)) "passport_number"; use (VText (pe_passport_country p)) "passport_country";
   use (VText (pe_passport_expiry p)) "passport_expiry"; use (VText (pe_date_of_birth p)) "date_of_birth"; use (VText (pe_keywords p)) "keywords"].
(* src: contact/data/person_dao.hpp:46-76 PersonDAO::insert *)
Definition person_insert (p : PersonDTO) (username : str) : dao Z := session username [] (fun pos =>
  insert_returning pos "t_person" person_values (person_binds p)).
(* src: contact/data/person_dao.hpp:86-94 PersonDAO::find_by_id *)
Definition person_columns : list expr :=
  [Col "id"; Col "first_name"; Coalesce (Col "middle_name") (Text []); Col "last_name"; Coalesce (Col "federal_tax_id") (Text []);
   Coalesce (Col "identification_number") (Text []); Coalesce (Col "passport_number") (Text []); Coalesce (Col "passport_country") (Text []);
   Coalesce (Cast (Col "passport_expiry") TText) (Text []); Coalesce (Cast (Col "date_of_birth") TText) (Text []);
   Coalesce (Col "keywords") (Text [])].
(* src: contact/data/person_dao.hpp:101-114 PersonDAO::find_by_id *)
Definition read_person (r : list sval) : outcome PersonDTO :=
  id ← get get_long r 0; first_name ← get get_string r 1; middle_name ← get get_string r 2; last_name ← get get_string r 3;
  federal_tax_id ← get get_string r 4; identification_number ← get get_string r 5; passport_number ← get get_string r 6;
  passport_country ← get get_string r 7; passport_expiry ← get get_string r 8; date_of_birth ← get get_string r 9; keywords ← get get_string r 10;
  Ret (mk_person_dto id first_name middle_name last_name federal_tax_id identification_number passport_number passport_country
         passport_expiry date_of_birth keywords).
(* src: contact/data/person_dao.hpp:79-115 PersonDAO::find_by_id *)
Definition person_find_by_id (id : Z) : dao (option PersonDTO) := session [] [] (fun pos =>
  select_one pos (by_id person_columns "t_person") [use (VInt id) "id"] read_person).
(* src: contact/data/person_dao.hpp:118-151 PersonDAO::update *)
Definition person_update (p : PersonDTO) (username : str) : dao bool := session username [] (fun pos =>
  returning_id pos (Update "t_person" person_values (Bind "id")) (person_binds p ++ [use (VInt (pe_id p)) "id"])).
(* src: contact/data/person_dao.hpp:154-165 PersonDAO::remove *)
Definition person_remove (id : Z) (username : str) : dao bool := session username [] (fun pos =>
  returning_id pos (Delete "t_person" (Bind "id")) [use (VInt id) "id"]).
(* src: contact/data/person_dao.hpp:173-180 PersonDAO::list_all *)
Definition by_name (c : cond) (lim off : option expr) : query :=
  mk_query person_columns "t_person" c [("last_name"%string, false); ("first_name"%string, false)] lim off.
(* src: contact/data/person_dao.hpp:168-200 PersonDAO::list_all *)
Definition person_list_all (limit offset : Z) : dao (list PersonDTO) := session [] [] (fun pos =>
  select_all pos (Select (by_name Always (Some (Bind "lim")) (Some (Bind "off")))) [use (VInt limit) "lim"; use (VInt offset) "off"] read_person).
(* src: contact/data/person_dao.hpp:203-236 PersonDAO::find_by_last_name *)
Definition person_find_by_last_name (pattern : str) : dao (list PersonDTO) := session [] [] (fun pos =>
  let like_pattern := W "%" ++ pattern ++ W "%" in
  select_all pos (Select (by_name (ILike (Col "last_name") (Bind "pat")) None None)) [use (VText like_pattern) "pat"] read_person).

#[export] Instance person_entity : Entity PersonDTO := {|
  e_table := "t_person"; e_id := pe_id; e_select := person_columns; e_read := read_person;
  e_with_id id p := mk_person_dto id (pe_first_name p) (pe_middle_name p) (pe_last_name p) (pe_federal_tax_id p) (pe_identification_number p)
    (pe_passport_number p) (pe_passport_country p) (pe_passport_expiry p) (pe_date_of_birth p) (pe_keywords p);
  e_columns p := ["first_name" ::= VText (pe_first_name p); "middle_name" ::= nullable (pe_middle_name p); "last_name" ::= VText (pe_last_name p);
    "federal_tax_id" ::= nullable (pe_federal_tax_id p); "identification_number" ::= nullable (pe_identification_number p);
    "passport_number" ::= nullable (pe_passport_number p); "passport_country" ::= nullable (pe_passport_country p);
    "passport_expiry" ::= nullable_date (pe_passport_expiry p); "date_of_birth" ::= nullable_date (pe_date_of_birth p);
    "keywords" ::= nullable (pe_keywords p)];
  e_ok p := date_text (pe_passport_expiry p) = Some (pe_passport_expiry p) /\ date_text (pe_date_of_birth p) = Some (pe_date_of_birth p) |}.

(** The person a row gives back: the dates in ISO form. *)
Definition with_dates (p : PersonDTO) (expiry birth : str) : PersonDTO :=
  mk_person_dto (pe_id p) (pe_first_name p) (pe_middle_name p) (pe_last_name p) (pe_federal_tax_id p) (pe_identification_number p)
    (pe_passport_number p) (pe_passport_country p) expiry birth (pe_keywords p).

(** The order of the lists: last name, then first name. *)
Definition name_order (p q : PersonDTO) : Prop :=
  sql_le (VText (pe_last_name p)) (VText (pe_last_name q)) = true
  /\ (sql_le (VText (pe_last_name q)) (VText (pe_last_name p)) = true -> sql_le (VText (pe_first_name p)) (VText (pe_first_name q)) = true).

Context {L : ServerLaws S}.

#[export] Instance person_laws : EntityLaws PersonDTO.
Proof.
  split; [|done|done|done|by intros []]. intros p id r b Hsub Hid Hok.
  eexists. split; [eval_columns Hsub Hid|]. cbn [e_read person_entity]. unfold read_person. by read_columns.
Qed.

Lemma person_assign p expiry birth r :
  date_text (pe_passport_expiry p) = Some expiry -> date_text (pe_date_of_birth p) = Some birth ->
  assign (person_binds p) r person_values = Some (e_columns (with_dates p expiry birth))
  /\ assign (person_binds p ++ [use (VInt (pe_id p)) "id"]) r person_values = Some (e_columns (with_dates p expiry birth)).
Proof. intros H1 H2. split; assign_columns. Qed.

(** What the data access object promises. *)
Definition person_dao_spec : Prop :=
  forall w pos v (M : gmap Z PersonDTO) username, ready w pos v -> acceptable username -> represents (w_db w) M ->
    (forall p expiry birth, date_text (pe_passport_expiry p) = Some expiry -> date_text (pe_date_of_birth p) = Some birth ->
       let q := with_dates p expiry birth in
       (fits (w_db w) "t_person" None (e_columns q) ->
        exists d' id, person_insert p username w = (after pos v w d', Ret id) /\ (0 < id)%Z /\ M !! id = None
          /\ represents d' (<[id := e_with_id id q]> M))
       /\ (fits (w_db w) "t_person" (Some (pe_id p)) (e_columns q) ->
           (M !! pe_id p = None -> person_update p username w = (after pos v w (w_db w), Ret false))
           /\ (is_Some (M !! pe_id p) -> exists d', person_update p username w = (after pos v w d', Ret true)
                /\ represents d' (<[pe_id p := q]> M))))
    /\ (forall id, person_find_by_id id w = (after pos v w (w_db w), Ret (M !! id)))
    /\ (forall id, M !! id = None -> person_remove id username w = (after pos v w (w_db w), Ret false))
    /\ (forall id, is_Some (M !! id) -> deletable (w_db w) "t_person" id ->
          exists d', person_remove id username w = (after pos v w d', Ret true) /\ represents d' (delete id M))
    /\ (forall limit offset, (0 <= limit)%Z -> (0 <= offset)%Z -> exists xs, xs ≡ₚ snd <$> map_to_list M /\ StronglySorted name_order xs
          /\ person_list_all limit offset w = (after pos v w (w_db w), Ret (take (Z.to_nat limit) (drop (Z.to_nat offset) xs))))
    /\ (forall pattern, exists xs, person_find_by_last_name pattern w = (after pos v w (w_db w), Ret xs) /\ StronglySorted name_order xs
          /\ xs ≡ₚ filter (fun p => ilike (pe_last_name p) (W "%" ++ pattern ++ W "%") = true) (snd <$> map_to_list M)).

Lemma by_name_order c lim off x y r s : row_of x r -> row_of y s -> ordered (order_by (by_name c lim off)) r s = true -> name_order x y.
Proof.
  intros (Hx & _) (Hy & _). cbn [order_by by_name]. unfold ordered, column, name_order.
  rewrite (stored _ _ "last_name" _ Hx eq_refl), (stored _ _ "last_name" _ Hy eq_refl).
  rewrite (stored _ _ "first_name" _ Hx eq_refl), (stored _ _ "first_name" _ Hy eq_refl). cbn [default from_option id].
  rewrite !andb_true_iff, !orb_true_iff, negb_true_iff. intros [H1 [H2|[H2 _]%andb_true_iff]]; (split; [done|]); [congruence|done].
Qed.

Lemma filter_everything {A} (l : list A) : filter (fun _ => True) l = l.
Proof. induction l as [|x l IH]; [done|]. rewrite filter_cons_True by done. by rewrite IH. Qed.

(** C4. The person table, through [PersonDAO], is a finite map of persons.  Insertion stores the person under a
    fresh positive id and reading it back gives every field as it was, empty optional texts included, with
    the two dates in ISO form; an update replaces the person and answers false for an unknown id, removal
    likewise; [find_by_id] is the map's lookup; [list_all] is a page of all persons by last and first name,
    and [find_by_last_name] exactly the persons whose last name the server's ILIKE matches with %pattern%, in
    the same order. *)
Theorem person_table_refines_map : person_dao_spec.
Proof.
  intros w pos v M username Hr Hu HM. split; [|split; [|split; [|split; [|split]]]].
  - intros p expiry birth H1 H2 q. pose proof (fun r => person_assign p expiry birth r H1 H2) as Ha.
    assert (Hok : e_ok q) by (split; simpl; by eapply date_text_idemp). split.
    + intros Hf. refine (insert_refines w pos v username person_values (person_binds p) M q Hr Hu HM _ Hf Hok). apply Ha.
    + intros Hf. split.
      * intros Hn. refine (proj1 (update_refines w pos v username person_values _ M q q Hr Hu HM _ _ Hf Hok) Hn); [done|apply Ha].
      * intros [y Hy]. refine (proj2 (update_refines w pos v username person_values _ M q y Hr Hu HM _ _ Hf Hok) Hy); [done|apply Ha].
  - intros id. exact (find_refines w pos v [use (VInt id) "id"] M id Hr HM eq_refl).
  - intros id. exact (proj1 (remove_refines w pos v username [use (VInt id) "id"] M id Hr Hu HM eq_refl ltac:(done))).
  - intros id. exact (proj2 (remove_refines w pos v username [use (VInt id) "id"] M id Hr Hu HM eq_refl ltac:(done))).
  - intros limit offset Hl Ho.
    destruct (select_refines w pos v [] (by_name Always (Some (Bind "lim")) (Some (Bind "off"))) [use (VInt limit) "lim"; use (VInt offset) "off"] M
      (fun _ => True) name_order Hr (not_elem_of_nil _) HM eq_refl eq_refl) as (xs & H1 & H2 & H3); [done|intros *; apply by_name_order|].
    exists xs. split; [by rewrite H1, filter_everything|]. split; [done|]. apply H3. unfold slice, natural. simpl.
    by rewrite !(proj2 (Z.leb_le _ _)) by done.
  - intros pattern.
    destruct (select_refines w pos v [] (by_name (ILike (Col "last_name") (Bind "pat")) None None) [use (VText (W "%" ++ pattern ++ W "%")) "pat"] M
      (fun p => ilike (pe_last_name p) (W "%" ++ pattern ++ W "%") = true) name_order Hr (not_elem_of_nil _) HM eq_refl eq_refl) as (xs & H1 & H2 & H3);
      [|intros *; apply by_name_order|].
    + intros x r (Hx & _). unfold holds_for. cbn [truth where_ by_name eval]. rewrite (stored _ _ "last_name" _ Hx eq_refl).
      cbn [lookup_bind use]. rewrite decide_True by done. split; [by intros [= ?]|by intros ->].
    + exists xs. split; [by apply H3|]. by split.
Qed.
End PersonDAO.

Lemma person_table_refines_map_witness :
  let S := memory true in let w := new_DbConnection (S := S) ∅ 2 in
  let p := mk_person_dto 0 (W "Ana") [] (W "O'Neill") [] [] [] [] [] (W "1990-02-03") (W "vip") in
  exists d', person_insert (S := S) p (W "admin") w = (after 0 ∅ w d', Ret 1%Z)
    /\ represents (S := S) d' (<[1%Z := e_with_id 1 p]> ∅).
Proof.
  intros S w p.
  assert (Hr : ready (S := S) w 0 ∅) by (repeat split).
  assert (Hu : acceptable (W "admin")) by (apply (bool_decide_unpack _); vm_compute; exact I).
  assert (HM : represents (S := S) (T := PersonDTO) (w_db w) ∅) by (intros id; exact I).
  assert (Hf : fits (Server := S) (w_db w) "t_person" None (e_columns p)) by (split; apply (bool_decide_unpack _); vm_compute; exact I).
  destruct (person_table_refines_map (L := memory_laws) w 0 ∅ ∅ (W "admin") Hr Hu HM) as [H _].
  destruct (H p [] (W "1990-02-03") eq_refl eq_refl) as [Hi _]. destruct (Hi Hf) as (d' & id & He & _ & _ & Hd).
  assert (Hid : snd (person_insert (S := S) p (W "admin") w) = Ret 1%Z) by (vm_compute; reflexivity).
  assert (E : id = 1%Z) by (pose proof (eq_trans (eq_sym Hid) (f_equal snd He)) as E; cbn [snd] in E; injection E as E; symmetry; exact E).
  subst id. exists d'. split; [exact He|exact Hd].
Defined.
