(* ===== verification/OrgDao.v ===== *)
(** * Organization units and roles (contact/data/org_dao.hpp, role_dao.hpp)

    The tree of organization units, the roles they define, and what relates persons to both. *)
From stdpp Require Import gmap strings.
From S2P Require Import Prelude Sql Database Dao.

(* src: contact/data/org_dao.hpp:19-27 OrgUnitDTO *)
Record OrgUnitDTO := mk_org_dto { or_id : Z; or_parent_id : Z; or_org_type : str; or_federal_tax_id : str; or_is_active : bool; or_keywords : str }.
(* src: contact/data/org_dao.hpp:30-36 LocalizedOrgUnitDTO *)
Record LocalizedOrgUnitDTO := mk_localized_org { lo_id : Z; lo_org_unit_id : Z; lo_locale_id : Z; lo_name : str }.
(* src: contact/data/org_dao.hpp:39-47 OrgHierarchyDTO *)
Record OrgHierarchyDTO := mk_org_hierarchy { hi_id : Z; hi_parent_id : Z; hi_name : str; hi_org_type : str; hi_keywords : str; hi_depth : Z }.
(* src: contact/data/role_dao.hpp:19-24 RoleDTO *)
Record RoleDTO := mk_role_dto { ro_id : Z; ro_org_unit_id : Z; ro_is_active : bool }.
(* src: contact/data/role_dao.hpp:27-34 LocalizedRoleDTO *)
Record LocalizedRoleDTO := mk_localized_role { lr_id : Z; lr_role_id : Z; lr_locale_id : Z; lr_name : str; lr_description : str }.
(* src: contact/data/role_dao.hpp:37-46 PersonOrgRelationDTO *)
Record PersonOrgRelationDTO := mk_relation_dto {
  re_id : Z; re_person_id : Z; re_org_unit_id : Z; re_relationship : str; re_start_date : str; re_end_date : str; re_is_active : bool }.
(* src: contact/data/role_dao.hpp:49-57 PersonRoleDTO *)
Record PersonRoleDTO := mk_person_role_dto {
  pr_id : Z; pr_person_id : Z; pr_role_id : Z; pr_assigned_date : str; pr_end_date : str; pr_is_primary : bool }.

Section OrgDAO.
Context {S : Server}.

(* src: contact/data/org_dao.hpp:78-79 OrgDAO::insert *)
Definition org_values (parent : expr) : list (String.string * expr) :=
  ["parent_id" ::= parent; "org_type" ::= Bind "org_type"; "federal_tax_id" ::= Nullif (Bind "tax_id") [];
   "is_active" ::= Cast (Bind "active") TBoolean; "keywords" ::= Nullif (Bind "keywords") []].
(* src: contact/data/org_dao.hpp:82-85 OrgDAO::insert *)
Definition org_binds (o : OrgUnitDTO) : binds :=
  [use (VText (or_org_type o)) "org_type"; use (VText (or_federal_tax_id o)) "tax_id"; use (VInt (bool_int (or_is_active o))) "active";
   use (VText (or_keywords o)) "keywords"].
(* src: contact/data/org_dao.hpp:56-90 OrgDAO::insert *)
Definition org_insert (o : OrgUnitDTO) (username : str) : dao Z := session username [] (fun pos =>
  if (or_parent_id o =? 0)%Z then insert_returning pos "t_orgunit" (org_values Null) (org_binds o)
  else insert_returning pos "t_orgunit" (org_values (Bind "parent_id")) (use (VInt (or_parent_id o)) "parent_id" :: org_binds o)).
(* src: contact/data/org_dao.hpp:93-110 OrgDAO::insert_localized *)
Definition org_insert_localized (loc : LocalizedOrgUnitDTO) (username : str) : dao Z := session username [] (fun pos =>
  insert_returning pos "t_localizedorgunit"
    ["org_unit_id" ::= Bind "org_unit_id"; "locale_id" ::= Bind "locale_id"; "name" ::= Bind "name"]
    [use (VInt (lo_org_unit_id loc)) "org_unit_id"; use (VInt (lo_locale_id loc)) "locale_id"; use (VText (lo_name loc)) "name"]).
(* src: contact/data/org_dao.hpp:120-122 OrgDAO::find_by_id *)
Definition org_columns : list expr :=
  [Col "id"; Coalesce (Col "parent_id") (Int 0); Col "org_type"; Coalesce (Col "federal_tax_id") (Text []); Col "is_active";
   Coalesce (Col "keywords") (Text [])].
(* src: contact/data/org_dao.hpp:130-137 OrgDAO::find_by_id *)
Definition read_org (r : list sval) : outcome OrgUnitDTO :=
  id ← get get_long r 0; parent_id ← get get_long r 1; org_type ← get get_string r 2; federal_tax_id ← get get_string r 3;
  is_active ← get_bool r 4; keywords ← get get_string r 5; Ret (mk_org_dto id parent_id org_type federal_tax_id is_active keywords).
(* src: contact/data/org_dao.hpp:113-138 OrgDAO::find_by_id *)
Definition org_find_by_id (id : Z) : dao (option OrgUnitDTO) := session [] [] (fun pos =>
  select_one pos (by_id org_columns "t_orgunit") [use (VInt id) "id"] read_org).
(* src: contact/data/org_dao.hpp:141-186 OrgDAO::update *)
Definition org_update (o : OrgUnitDTO) (username : str) : dao bool := session username [] (fun pos =>
  if (or_parent_id o =? 0)%Z then
    returning_id pos (Update "t_orgunit" (org_values Null) (Bind "id")) (org_binds o ++ [use (VInt (or_id o)) "id"])
  else returning_id pos (Update "t_orgunit" (org_values (Bind "parent_id")) (Bind "id"))
         (use (VInt (or_parent_id o)) "parent_id" :: org_binds o ++ [use (VInt (or_id o)) "id"])).
(* src: contact/data/org_dao.hpp:189-200 OrgDAO::remove *)
Definition org_remove (id : Z) (username : str) : dao bool := session username [] (fun pos =>
  returning_id pos (Delete "t_orgunit" (Bind "id")) [use (VInt id) "id"]).
(* src: contact/data/org_dao.hpp:217-224 OrgDAO::hierarchy *)
Definition read_hierarchy (r : list sval) : outcome OrgHierarchyDTO :=
  id ← get get_long r 0; parent_id ← get get_long r 1; name ← get get_string r 2; org_type ← get get_string r 3;
  keywords ← get get_string r 4; depth ← get get_int r 5; Ret (mk_org_hierarchy id parent_id name org_type keywords depth).
(* src: contact/data/org_dao.hpp:203-227 OrgDAO::hierarchy *)
Definition org_hierarchy (locale : str) : dao (list OrgHierarchyDTO) := session [] locale (fun pos =>
  select_all pos (SelectFrom [Col "id"; Coalesce (Col "parent_id") (Int 0); Col "name"; Col "org_type"; Coalesce (Col "keywords") (Text []); Col "depth"]
    "fn_org_hierarchy" [Bind "loc"]) [use (VText locale) "loc"] read_hierarchy).
(* src: contact/data/org_dao.hpp:237-239 OrgDAO::find_children *)
Definition children_of : query := mk_query org_columns "t_orgunit" (Eq (Col "parent_id") (Bind "pid")) [("id"%string, false)] None None.
(* src: contact/data/org_dao.hpp:230-255 OrgDAO::find_children *)
Definition org_find_children (parent_id : Z) : dao (list OrgUnitDTO) := session [] [] (fun pos =>
  select_all pos (Select children_of) [use (VInt parent_id) "pid"] read_org).
End OrgDAO.

Section RoleDAO.
Context {S : Server}.

(* src: contact/data/role_dao.hpp:67-95 RoleDAO::insert_role *)
Definition insert_role (r : RoleDTO) (username : str) : dao Z := session username [] (fun pos =>
  if (ro_org_unit_id r =? 0)%Z then
    insert_returning pos "t_role" ["org_unit_id" ::= Null; "is_active" ::= Cast (Bind "active") TBoolean] [use (VInt (bool_int (ro_is_active r))) "active"]
  else insert_returning pos "t_role" ["org_unit_id" ::= Bind "oid"; "is_active" ::= Cast (Bind "active") TBoolean]
         [use (VInt (ro_org_unit_id r)) "oid"; use (VInt (bool_int (ro_is_active r))) "active"]).
(* src: contact/data/role_dao.hpp:97-115 RoleDAO::insert_localized_role *)
Definition insert_localized_role (lr : LocalizedRoleDTO) (username : str) : dao Z := session username [] (fun pos =>
  insert_returning pos "t_localizedrole"
    ["role_id" ::= Bind "rid"; "locale_id" ::= Bind "lid"; "name" ::= Bind "name"; "description" ::= Nullif (Bind "desc") []]
    [use (VInt (lr_role_id lr)) "rid"; use (VInt (lr_locale_id lr)) "lid"; use (VText (lr_name lr)) "name"; use (VText (lr_description lr)) "desc"]).
(* src: contact/data/role_dao.hpp:124-125 RoleDAO::find_role_by_id *)
Definition role_columns : list expr := [Col "id"; Coalesce (Col "org_unit_id") (Int 0); Col "is_active"].
(* src: contact/data/role_dao.hpp:132-136 RoleDAO::find_role_by_id *)
Definition read_role (r : list sval) : outcome RoleDTO :=
  id ← get get_long r 0; org_unit_id ← get get_long r 1; is_active ← get_bool r 2; Ret (mk_role_dto id org_unit_id is_active).
(* src: contact/data/role_dao.hpp:117-137 RoleDAO::find_role_by_id *)
Definition find_role_by_id (id : Z) : dao (option RoleDTO) := session [] [] (fun pos =>
  select_one pos (by_id role_columns "t_role") [use (VInt id) "id"] read_role).
(* src: contact/data/role_dao.hpp:139-150 RoleDAO::remove_role *)
Definition remove_role (id : Z) (username : str) : dao bool := session username [] (fun pos =>
  returning_id pos (Delete "t_role" (Bind "id")) [use (VInt id) "id"]).

(* src: contact/data/role_dao.hpp:164-168 RoleDAO::insert_person_org_relation *)
Definition relation_values : list (String.string * expr) :=
  ["person_id" ::= Bind "pid"; "org_unit_id" ::= Bind "oid"; "relationship" ::= Cast (Bind "rel") (TNamed "relationship_type");
   "start_date" ::= Cast (Bind "sd") TDate; "end_date" ::= Cast (Nullif (Bind "ed") []) TDate; "is_active" ::= Cast (Bind "active") TBoolean].
(* src: contact/data/role_dao.hpp:154-179 RoleDAO::insert_person_org_relation *)
Definition insert_person_org_relation (por : PersonOrgRelationDTO) (username : str) : dao Z := session username [] (fun pos =>
  insert_returning pos "t_personorgrelation" relation_values
    [use (VInt (re_person_id por)) "pid"; use (VInt (re_org_unit_id por)) "oid"; use (VText (re_relationship por)) "rel";
     use (VText (re_start_date por)) "sd"; use (VText (re_end_date por)) "ed"; use (VInt (bool_int (re_is_active por))) "active"]).
(* src: contact/data/role_dao.hpp:187-189 RoleDAO::relations_for_person *)
Definition relation_columns : list expr :=
  [Col "id"; Col "person_id"; Col "org_unit_id"; Cast (Col "relationship") TText; Cast (Col "start_date") TText;
   Coalesce (Cast (Col "end_date") TText) (Text []); Col "is_active"].
(* src: contact/data/role_dao.hpp:193-204 RoleDAO::relations_for_person *)
Definition read_relation (r : list sval) : outcome PersonOrgRelationDTO :=
  id ← get get_long r 0; person_id ← get get_long r 1; org_unit_id ← get get_long r 2; relationship ← get get_string r 3;
  start_date ← get get_string r 4; end_date ← get get_string r 5; is_active ← get_bool r 6;
  Ret (mk_relation_dto id person_id org_unit_id relationship start_date end_date is_active).
(* src: contact/data/role_dao.hpp:187-189 RoleDAO::relations_for_person *)
Definition relations_of : query :=
  mk_query relation_columns "t_personorgrelation" (Eq (Col "person_id") (Bind "pid")) [("start_date"%string, true)] None None.
(* src: contact/data/role_dao.hpp:181-206 RoleDAO::relations_for_person *)
Definition relations_for_person (person_id : Z) : dao (list PersonOrgRelationDTO) := session [] [] (fun pos =>
  select_all pos (Select relations_of) [use (VInt person_id) "pid"] read_relation).

(* src: contact/data/role_dao.hpp:219-224 RoleDAO::assign_role *)
Definition person_role_values : list (String.string * expr) :=
  ["person_id" ::= Bind "pid"; "role_id" ::= Bind "rid";
   "assigned_date" ::= Cast (Coalesce (Nullif (Bind "ad") []) (Cast CurrentDate TText)) TDate;
   "end_date" ::= Cast (Nullif (Bind "ed") []) TDate; "is_primary" ::= Cast (Bind "primary") TBoolean].
(* src: contact/data/role_dao.hpp:226-230 RoleDAO::assign_role *)
Definition person_role_binds (pr : PersonRoleDTO) : binds :=
  [use (VInt (pr_person_id pr)) "pid"; use (VInt (pr_role_id pr)) "rid"; use (VText (pr_assigned_date pr)) "ad";
   use (VText (pr_end_date pr)) "ed"; use (VInt (bool_int (pr_is_primary pr))) "primary"].
(* src: contact/data/role_dao.hpp:210-234 RoleDAO::assign_role *)
Definition assign_role (pr : PersonRoleDTO) (username : str) : dao Z := session username [] (fun pos =>
  insert_returning pos "t_personrole" person_role_values (person_role_binds pr)).
(* src: contact/data/role_dao.hpp:242-244 RoleDAO::roles_for_person *)
Definition person_role_columns : list expr :=
  [Col "id"; Col "person_id"; Col "role_id"; Cast (Col "assigned_date") TText; Coalesce (Cast (Col "end_date") TText) (Text []); Col "is_primary"].
(* src: contact/data/role_dao.hpp:248-258 RoleDAO::roles_for_person *)
Definition read_person_role (r : list sval) : outcome PersonRoleDTO :=
  id ← get get_long r 0; person_id ← get get_long r 1; role_id ← get get_long r 2; assigned_date ← get get_string r 3;
  end_date ← get get_string r 4; is_primary ← get_bool r 5; Ret (mk_person_role_dto id person_id role_id assigned_date end_date is_primary).
(* src: contact/data/role_dao.hpp:242-244 RoleDAO::roles_for_person *)
Definition roles_of : query :=
  mk_query person_role_columns "t_personrole" (Eq (Col "person_id") (Bind "pid")) [("is_primary"%string, true); ("id"%string, false)] None None.
(* src: contact/data/role_dao.hpp:236-260 RoleDAO::roles_for_person *)
Definition roles_for_person (person_id : Z) : dao (list PersonRoleDTO) := session [] [] (fun pos =>
  select_all pos (Select roles_of) [use (VInt person_id) "pid"] read_person_role).
(* src: contact/data/role_dao.hpp:262-273 RoleDAO::unassign_role *)
Definition unassign_role (person_role_id : Z) (username : str) : dao bool := session username [] (fun pos =>
  returning_id pos (Delete "t_personrole" (Bind "id")) [use (VInt person_role_id) "id"]).
End RoleDAO.

Section facts.
Context {S : Server}.

#[export] Instance org_entity : Entity OrgUnitDTO := {|
  e_table := "t_orgunit"; e_id := or_id; e_select := org_columns; e_read := read_org;
  e_with_id id o := mk_org_dto id (or_parent_id o) (or_org_type o) (or_federal_tax_id o) (or_is_active o) (or_keywords o);
  e_columns o := ["parent_id" ::= nullable_id (or_parent_id o); "org_type" ::= VText (or_org_type o);
    "federal_tax_id" ::= nullable (or_federal_tax_id o); "is_active" ::= VBool (or_is_active o); "keywords" ::= nullable (or_keywords o)];
  e_ok o := True |}.
#[export] Instance role_entity : Entity RoleDTO := {|
  e_table := "t_role"; e_id := ro_id; e_select := role_columns; e_read := read_role;
  e_with_id id r := mk_role_dto id (ro_org_unit_id r) (ro_is_active r);
  e_columns r := ["org_unit_id" ::= nullable_id (ro_org_unit_id r); "is_active" ::= VBool (ro_is_active r)];
  e_ok r := True |}.
#[export] Instance person_role_entity : Entity PersonRoleDTO := {|
  e_table := "t_personrole"; e_id := pr_id; e_select := person_role_columns; e_read := read_person_role;
  e_with_id id r := mk_person_role_dto id (pr_person_id r) (pr_role_id r) (pr_assigned_date r) (pr_end_date r) (pr_is_primary r);
  e_columns r := ["person_id" ::= VInt (pr_person_id r); "role_id" ::= VInt (pr_role_id r); "assigned_date" ::= VDate (pr_assigned_date r);
    "end_date" ::= nullable_date (pr_end_date r); "is_primary" ::= VBool (pr_is_primary r)];
  e_ok r := parse_date (pr_assigned_date r) = Some (pr_assigned_date r) /\ date_text (pr_end_date r) = Some (pr_end_date r) |}.

Context {L : ServerLaws S}.

#[export] Instance org_laws : EntityLaws OrgUnitDTO.
Proof.
  split; [|done|done|done|by intros []]. intros o id r b Hsub Hid _.
  eexists. split; [eval_columns Hsub Hid|]. cbn [e_read org_entity]. unfold read_org. by read_columns.
Qed.
#[export] Instance role_laws : EntityLaws RoleDTO.
Proof.
  split; [|done|done|done|by intros []]. intros o id r b Hsub Hid _.
  eexists. split; [eval_columns Hsub Hid|]. cbn [e_read role_entity]. unfold read_role. by read_columns.
Qed.
Lemma eval_date_text (r : row) b c d : r !! c = Some (VDate d) -> eval r b (Cast (Col c) TText) = Some (VText d).
Proof. simpl. by intros ->. Qed.
#[export] Instance person_role_laws : EntityLaws PersonRoleDTO.
Proof.
  split; [|done|done|done|by intros []]. intros o id r b Hsub Hid _.
  eexists. split; [repeat (eapply evals_cons; [first [eval_column Hsub Hid|apply eval_date_text; apply (stored _ _ _ _ Hsub); reflexivity]|]); apply evals_nil|].
  cbn [e_read person_role_entity]. unfold read_person_role. by read_columns.
Qed.

(** The date a role is assigned: the one given, or today. *)
Definition assigned_on (s : str) : option str := if decide (s = []) then Some today else parse_date s.
Lemma eval_assigned (r : row) b n s d :
  lookup_bind b n = Some (VText s) -> assigned_on s = Some d ->
  eval r b (Cast (Coalesce (Nullif (Bind n) []) (Cast CurrentDate TText)) TDate) = Some (VDate d).
Proof.
  intros H1 H2. cbn [eval]. rewrite H1. cbn [mbind option_bind]. unfold assigned_on in H2.
  destruct (decide (s = [])) as [->|Hs].
  - injection H2 as <-. simpl. by rewrite today_law.
  - rewrite (decide_False (P := VText s = VText [])) by congruence. simpl. by rewrite H2.
Qed.
Lemma assigned_on_iso s d : assigned_on s = Some d -> parse_date d = Some d.
Proof.
  unfold assigned_on. case_decide; [intros [= <-]; apply today_law|]. intros H'. by apply date_canonical_law in H' as [_ ?].
Qed.
Definition with_assignment (r : PersonRoleDTO) (assigned end_ : str) : PersonRoleDTO :=
  mk_person_role_dto (pr_id r) (pr_person_id r) (pr_role_id r) assigned end_ (pr_is_primary r).

Lemma org_assign o (r : row) (H : or_parent_id o = 0%Z) :
  assign (org_binds o) r (org_values Null) = Some (e_columns o)
  /\ assign (org_binds o ++ [use (VInt (or_id o)) "id"]) r (org_values Null) = Some (e_columns o).
Proof. cbn [e_columns org_entity]. rewrite H. split; assign_columns. Qed.
Lemma org_assign_parent o (r : row) (H : or_parent_id o <> 0%Z) :
  assign (use (VInt (or_parent_id o)) "parent_id" :: org_binds o) r (org_values (Bind "parent_id")) = Some (e_columns o)
  /\ assign (use (VInt (or_parent_id o)) "parent_id" :: org_binds o ++ [use (VInt (or_id o)) "id"]) r (org_values (Bind "parent_id")) = Some (e_columns o).
Proof.
  cbn [e_columns org_entity]. unfold nullable_id. rewrite (proj2 (Z.eqb_neq _ _) H). split; assign_columns.
Qed.

(** What [OrgDAO] promises of units, and [RoleDAO] of roles and of their assignment to persons. *)
Definition org_dao_spec : Prop :=
  forall w pos v (M : gmap Z OrgUnitDTO) username, ready w pos v -> acceptable username -> represents (w_db w) M ->
    (forall o, fits (w_db w) "t_orgunit" None (e_columns o) ->
       exists d' id, org_insert o username w = (after pos v w d', Ret id) /\ (0 < id)%Z /\ M !! id = None
         /\ represents d' (<[id := e_with_id id o]> M))
    /\ (forall o, fits (w_db w) "t_orgunit" (Some (or_id o)) (e_columns o) ->
          (M !! or_id o = None -> org_update o username w = (after pos v w (w_db w), Ret false))
          /\ (is_Some (M !! or_id o) -> exists d', org_update o username w = (after pos v w d', Ret true) /\ represents d' (<[or_id o := o]> M)))
    /\ (forall id, org_find_by_id id w = (after pos v w (w_db w), Ret (M !! id)))
    /\ (forall id, M !! id = None -> org_remove id username w = (after pos v w (w_db w), Ret false))
    /\ (forall id, is_Some (M !! id) -> deletable (w_db w) "t_orgunit" id ->
          exists d', org_remove id username w = (after pos v w d', Ret true) /\ rows d' "t_orgunit" !! id = None)
    /\ (forall pid, exists xs, org_find_children pid w = (after pos v w (w_db w), Ret xs) /\ StronglySorted (fun x y => or_id x <= or_id y)%Z xs
          /\ xs ≡ₚ filter (fun o => or_parent_id o = pid /\ or_parent_id o <> 0%Z) (snd <$> map_to_list M)).

(** C33. The organization units, through [OrgDAO], are a finite map.  A unit is stored under a fresh positive
    id with its parent, the root's zero included, and read back as it was; an update replaces it and answers
    false for an unknown id; after a removal the unit is gone.  The children of a unit are exactly the units
    that name it, by id; for the parent zero, which is how a root says it has none, the list is empty. *)
Theorem org_table_refines_map : org_dao_spec.
Proof.
  intros w pos v M username Hr Hu HM. split; [|split; [|split; [|split; [|split]]]].
  - intros o Hf. unfold org_insert. destruct (Z.eqb_spec (or_parent_id o) 0) as [H|H].
    + refine (insert_refines w pos v username (org_values Null) (org_binds o) M o Hr Hu HM _ Hf I). by apply org_assign.
    + refine (insert_refines w pos v username (org_values (Bind "parent_id")) (_ :: org_binds o) M o Hr Hu HM _ Hf I). by apply org_assign_parent.
  - intros o Hf. unfold org_update. split; [intros Hn|intros [y Hy]]; destruct (Z.eqb_spec (or_parent_id o) 0) as [H|H].
    + refine (proj1 (update_refines w pos v username (org_values Null) _ M o o Hr Hu HM _ _ Hf I) Hn); [done|intros; by apply org_assign].
    + refine (proj1 (update_refines w pos v username (org_values (Bind "parent_id")) _ M o o Hr Hu HM _ _ Hf I) Hn); [done|intros; by apply org_assign_parent].
    + refine (proj2 (update_refines w pos v username (org_values Null) _ M o y Hr Hu HM _ _ Hf I) Hy); [done|intros; by apply org_assign].
    + refine (proj2 (update_refines w pos v username (org_values (Bind "parent_id")) _ M o y Hr Hu HM _ _ Hf I) Hy); [done|intros; by apply org_assign_parent].
  - intros id. exact (find_refines w pos v [use (VInt id) "id"] M id Hr HM eq_refl).
  - intros id Hn. apply (delete_session w pos v username "t_orgunit" [use (VInt id) "id"] id Hr Hu eq_refl).
    exact (represents_None _ _ _ HM Hn).
  - intros id [x Hx] Hd. destruct (represents_lookup _ _ _ _ HM Hx) as (r & Hrow & _).
    destruct (proj2 (delete_session w pos v username "t_orgunit" [use (VInt id) "id"] id Hr Hu eq_refl) (mk_is_Some _ _ Hrow) Hd) as (d' & He & Hn & _).
    by exists d'.
  - intros pid.
    destruct (select_refines w pos v [] children_of [use (VInt pid) "pid"] M (fun o => or_parent_id o = pid /\ or_parent_id o <> 0%Z)
      (fun x y => or_id x <= or_id y)%Z Hr (not_elem_of_nil _) HM eq_refl eq_refl) as (xs & H1 & H2 & H3).
    + intros x r (Hx & _). apply owner_condition; [|done]. by apply (stored _ _ _ _ Hx).
    + intros x y r s (_ & Hx & _) (_ & Hy & _). by apply ordered_by_id.
    + exists xs. split; [by apply H3|]. by split.
Qed.

Definition role_dao_spec : Prop :=
  forall w pos v username, ready w pos v -> acceptable username ->
    (forall M : gmap Z RoleDTO, represents (w_db w) M ->
       (forall r, fits (w_db w) "t_role" None (e_columns r) ->
          exists d' id, insert_role r username w = (after pos v w d', Ret id) /\ (0 < id)%Z /\ M !! id = None
            /\ represents d' (<[id := e_with_id id r]> M))
       /\ (forall id, find_role_by_id id w = (after pos v w (w_db w), Ret (M !! id)))
       /\ (forall id, M !! id = None -> remove_role id username w = (after pos v w (w_db w), Ret false))
       /\ (forall id, is_Some (M !! id) -> deletable (w_db w) "t_role" id ->
             exists d', remove_role id username w = (after pos v w d', Ret true) /\ represents d' (delete id M)))
    /\ (forall M : gmap Z PersonRoleDTO, represents (w_db w) M ->
       (forall r a e, assigned_on (pr_assigned_date r) = Some a -> date_text (pr_end_date r) = Some e ->
          fits (w_db w) "t_personrole" None (e_columns (with_assignment r a e)) ->
          exists d' id, assign_role r username w = (after pos v w d', Ret id) /\ (0 < id)%Z /\ M !! id = None
            /\ represents d' (<[id := e_with_id id (with_assignment r a e)]> M))
       /\ (forall id, M !! id = None -> unassign_role id username w = (after pos v w (w_db w), Ret false))
       /\ (forall id, is_Some (M !! id) -> deletable (w_db w) "t_personrole" id ->
             exists d', unassign_role id username w = (after pos v w d', Ret true) /\ represents d' (delete id M))
       /\ (forall pid, exists xs, roles_for_person pid w = (after pos v w (w_db w), Ret xs)
             /\ StronglySorted (fun x y => (pr_is_primary x = true /\ pr_is_primary y = false) \/ (pr_is_primary x = pr_is_primary y /\ (pr_id x <= pr_id y)%Z)) xs
             /\ xs ≡ₚ filter (fun r => pr_person_id r = pid) (snd <$> map_to_list M))).

Lemma role_assign r a e (row0 : row) :
  assigned_on (pr_assigned_date r) = Some a -> date_text (pr_end_date r) = Some e ->
  assign (person_role_binds r) row0 person_role_values = Some (e_columns (with_assignment r a e)).
Proof.
  intros H1 H2. unfold person_role_values.
  repeat (eapply assign_cons;
    [first [ eapply eval_assigned; [reflexivity|eassumption] | eapply eval_date; [reflexivity|eassumption] | apply eval_flag; reflexivity
           | apply eval_bind; reflexivity ]|]); apply assign_nil.
Qed.

(** Roles and their assignment to persons, through [RoleDAO], are two finite maps.  A role keeps its unit,
    or none, and is found by its id until it is removed.  An assignment is stored with the date it was given,
    or today's when it was given none, and with its end date or none; a person's roles are that person's
    assignments, each once, the primary one first and then by id. *)
Theorem role_tables_refine_maps : role_dao_spec.
Proof.
  intros w pos v username Hr Hu. split.
  - intros M HM. split; [|split; [|split]].
    + intros r Hf. unfold insert_role. destruct (Z.eqb_spec (ro_org_unit_id r) 0) as [H|H].
      * refine (insert_refines w pos v username _ _ M r Hr Hu HM _ Hf I). cbn [e_columns role_entity]. rewrite H. assign_columns.
      * refine (insert_refines w pos v username _ _ M r Hr Hu HM _ Hf I). cbn [e_columns role_entity]. unfold nullable_id.
        rewrite (proj2 (Z.eqb_neq _ _) H). assign_columns.
    + intros id. exact (find_refines w pos v [use (VInt id) "id"] M id Hr HM eq_refl).
    + intros id. exact (proj1 (remove_refines w pos v username [use (VInt id) "id"] M id Hr Hu HM eq_refl ltac:(done))).
    + intros id. exact (proj2 (remove_refines w pos v username [use (VInt id) "id"] M id Hr Hu HM eq_refl ltac:(done))).
  - intros M HM. split; [|split; [|split]].
    + intros r a e H1 H2 Hf.
      refine (insert_refines w pos v username person_role_values (person_role_binds r) M _ Hr Hu HM (role_assign r a e ∅ H1 H2) Hf _).
      split; [by eapply assigned_on_iso|by eapply date_text_idemp].
    + intros id. exact (proj1 (remove_refines w pos v username [use (VInt id) "id"] M id Hr Hu HM eq_refl ltac:(done))).
    + intros id. exact (proj2 (remove_refines w pos v username [use (VInt id) "id"] M id Hr Hu HM eq_refl ltac:(done))).
    + intros pid.
      destruct (select_refines w pos v [] roles_of [use (VInt pid) "pid"] M (fun r => pr_person_id r = pid)
        (fun x y => (pr_is_primary x = true /\ pr_is_primary y = false) \/ (pr_is_primary x = pr_is_primary y /\ (pr_id x <= pr_id y)%Z))
        Hr (not_elem_of_nil _) HM eq_refl eq_refl) as (xs & H1 & H2 & H3).
      * intros x r (Hx & _). apply key_condition; [|done]. by apply (stored _ _ _ _ Hx).
      * intros x y r s (Hx & Ix & _) (Hy & Iy & _).
        apply flag_then_id; [by apply (stored _ _ _ _ Hx)|by apply (stored _ _ _ _ Hy)|done|done].
      * exists xs. split; [by apply H3|]. by split.
Qed.
End facts.

Lemma org_table_refines_map_witness :
  acceptable (W "admin") /\ org_find_by_id (S := memory true) 7 empty_world = (after 0 ∅ empty_world ∅, Ret None)
  /\ exists xs, org_find_children (S := memory true) 0 empty_world = (after 0 ∅ empty_world ∅, Ret xs).
Proof.
  assert (Hu : acceptable (W "admin")) by (apply (bool_decide_unpack _); vm_compute; exact I).
  split; [exact Hu|].
  destruct (org_table_refines_map (L := memory_laws) empty_world 0 ∅ ∅ (W "admin") (conj eq_refl (conj eq_refl Logic.I)) Hu ltac:(intros id; exact I)) as (_ & _ & H & _ & _ & Hc).
  split; [exact (H 7%Z)|]. destruct (Hc 0%Z) as (xs & Hx & _). exists xs. exact Hx.
Defined.

Lemma role_tables_refine_maps_witness :
  acceptable (W "admin") /\ find_role_by_id (S := memory true) 7 empty_world = (after 0 ∅ empty_world ∅, Ret None).
Proof.
  assert (Hu : acceptable (W "admin")) by (apply (bool_decide_unpack _); vm_compute; exact I).
  split; [exact Hu|].
  destruct (role_tables_refine_maps (L := memory_laws) empty_world 0 ∅ (W "admin") (conj eq_refl (conj eq_refl Logic.I)) Hu) as (H & _).
  destruct (H ∅ ltac:(intros id; exact I)) as (_ & Hf & _). exact (Hf 7%Z).
Defined.
