(* ===== verification/VisibilityDao.v ===== *)
(** * Who may see a person's data (contact/data/visibility_dao.hpp) *)
From stdpp Require Import gmap strings.
From S2P Require Import Prelude Sql Database Dao.

(* src: contact/data/visibility_dao.hpp:19-29 DataVisibilityDTO *)
Record DataVisibilityDTO := mk_visibility {
  vi_id : Z; vi_owner_person_id : Z; vi_data_category : str; vi_viewer_person_id : Z; vi_viewer_role_id : Z; vi_viewer_org_unit_id : Z;
  vi_can_view : bool; vi_can_edit : bool }.

Section VisibilityDAO.
Context {S : Server}.

(* src: contact/data/visibility_dao.hpp:51-54 VisibilityDAO::insert *)
Definition visibility_values (vp vr vo : expr) : list (String.string * expr) :=
  ["owner_person_id" ::= Bind "owner"; "data_category" ::= Bind "cat"; "viewer_person_id" ::= vp; "viewer_role_id" ::= vr;
   "viewer_org_unit_id" ::= vo; "can_view" ::= Cast (Bind "cv") TBoolean; "can_edit" ::= Cast (Bind "ce") TBoolean].
(* src: contact/data/visibility_dao.hpp:56-60 VisibilityDAO::insert *)
Definition visibility_binds (viewer : String.string * sval) (v : DataVisibilityDTO) : binds :=
  [use (VInt (vi_owner_person_id v)) "owner"; use (VText (vi_data_category v)) "cat"; viewer;
   use (VInt (bool_int (vi_can_view v))) "cv"; use (VInt (bool_int (vi_can_edit v))) "ce"].
(* src: contact/data/visibility_dao.hpp:38-97 VisibilityDAO::insert *)
Definition visibility_insert (v : DataVisibilityDTO) (username : str) : dao Z := session username [] (fun pos =>
  if negb (vi_viewer_person_id v =? 0)%Z then
    insert_returning pos "t_datavisibility" (visibility_values (Bind "vp") Null Null) (visibility_binds (use (VInt (vi_viewer_person_id v)) "vp") v)
  else if negb (vi_viewer_role_id v =? 0)%Z then
    insert_returning pos "t_datavisibility" (visibility_values Null (Bind "vr") Null) (visibility_binds (use (VInt (vi_viewer_role_id v)) "vr") v)
  else if negb (vi_viewer_org_unit_id v =? 0)%Z then
    insert_returning pos "t_datavisibility" (visibility_values Null Null (Bind "vo")) (visibility_binds (use (VInt (vi_viewer_org_unit_id v)) "vo") v)
  else mret 0%Z).
(* src: contact/data/visibility_dao.hpp:106-109 VisibilityDAO::rules_for_owner *)
Definition visibility_columns : list expr :=
  [Col "id"; Col "owner_person_id"; Col "data_category"; Coalesce (Col "viewer_person_id") (Int 0); Coalesce (Col "viewer_role_id") (Int 0);
   Coalesce (Col "viewer_org_unit_id") (Int 0); Col "can_view"; Col "can_edit"].
(* src: contact/data/visibility_dao.hpp:113-125 VisibilityDAO::rules_for_owner *)
Definition read_visibility (r : list sval) : outcome DataVisibilityDTO :=
  id ← get get_long r 0; owner ← get get_long r 1; category ← get get_string r 2; vp ← get get_long r 3; vr ← get get_long r 4;
  vo ← get get_long r 5; cv ← get_bool r 6; ce ← get_bool r 7; Ret (mk_visibility id owner category vp vr vo cv ce).
(* src: contact/data/visibility_dao.hpp:106-109 VisibilityDAO::rules_for_owner *)
Definition rules_of : query :=
  mk_query visibility_columns "t_datavisibility" (Eq (Col "owner_person_id") (Bind "oid")) [("id"%string, false)] None None.
(* src: contact/data/visibility_dao.hpp:100-127 VisibilityDAO::rules_for_owner *)
Definition rules_for_owner (owner_person_id : Z) : dao (list DataVisibilityDTO) := session [] [] (fun pos =>
  select_all pos (Select rules_of) [use (VInt owner_person_id) "oid"] read_visibility).
(* src: contact/data/visibility_dao.hpp:140-144 VisibilityDAO::can_view *)
Definition viewing_rule : cond :=
  And (And (And (Eq (Col "owner_person_id") (Bind "oid")) (Eq (Col "viewer_person_id") (Bind "vid")))
           (Or (Eq (Col "data_category") (Bind "cat")) (Eq (Col "data_category") (Text (W "All")))))
      (Eq (Col "can_view") (Bool true)).
(* src: contact/data/visibility_dao.hpp:130-151 VisibilityDAO::can_view *)
Definition can_view (owner_person_id viewer_person_id : Z) (data_category : str) : dao bool := session [] [] (fun pos =>
  out ← sql pos (Count "t_datavisibility" viewing_rule)
    [use (VInt owner_person_id) "oid"; use (VInt viewer_person_id) "vid"; use (VText data_category) "cat"];
  count ← into get_int 0 out;
  mret (0 <? count)%Z).
(* src: contact/data/visibility_dao.hpp:154-165 VisibilityDAO::remove *)
Definition visibility_remove (id : Z) (username : str) : dao bool := session username [] (fun pos =>
  returning_id pos (Delete "t_datavisibility" (Bind "id")) [use (VInt id) "id"]).

#[export] Instance visibility_entity : Entity DataVisibilityDTO := {|
  e_table := "t_datavisibility"; e_id := vi_id; e_select := visibility_columns; e_read := read_visibility;
  e_with_id id v := mk_visibility id (vi_owner_person_id v) (vi_data_category v) (vi_viewer_person_id v) (vi_viewer_role_id v)
    (vi_viewer_org_unit_id v) (vi_can_view v) (vi_can_edit v);
  e_columns v := ["owner_person_id" ::= VInt (vi_owner_person_id v); "data_category" ::= VText (vi_data_category v);
    "viewer_person_id" ::= nullable_id (vi_viewer_person_id v); "viewer_role_id" ::= nullable_id (vi_viewer_role_id v);
    "viewer_org_unit_id" ::= nullable_id (vi_viewer_org_unit_id v); "can_view" ::= VBool (vi_can_view v); "can_edit" ::= VBool (vi_can_edit v)];
  e_ok v := True |}.

(** The rule that is stored: the first viewer named of person, role and unit; the others are dropped. *)
Definition first_viewer (v : DataVisibilityDTO) : option DataVisibilityDTO :=
  let rule := mk_visibility (vi_id v) (vi_owner_person_id v) (vi_data_category v) in
  if decide (vi_viewer_person_id v <> 0%Z) then Some (rule (vi_viewer_person_id v) 0 0 (vi_can_view v) (vi_can_edit v))%Z
  else if decide (vi_viewer_role_id v <> 0%Z) then Some (rule 0 (vi_viewer_role_id v) 0 (vi_can_view v) (vi_can_edit v))%Z
  else if decide (vi_viewer_org_unit_id v <> 0%Z) then Some (rule 0 0 (vi_viewer_org_unit_id v) (vi_can_view v) (vi_can_edit v))%Z
  else None.
(** A rule that lets the viewer see the category of the owner's data. *)
Definition grants (owner viewer : Z) (category : str) (r : DataVisibilityDTO) : Prop :=
  vi_owner_person_id r = owner /\ (vi_viewer_person_id r = viewer /\ vi_viewer_person_id r <> 0%Z)
  /\ (vi_data_category r = category \/ vi_data_category r = W "All") /\ vi_can_view r = true.
#[export] Instance grants_dec o v c r : Decision (grants o v c r).
Proof. unfold grants. apply _. Defined.

Definition visibility_dao_spec : Prop :=
  forall w pos v (M : gmap Z DataVisibilityDTO) username, ready w pos v -> acceptable username -> represents (w_db w) M ->
    (forall x, match first_viewer x with
       | Some y => fits (w_db w) "t_datavisibility" None (e_columns y) ->
           exists d' id, visibility_insert x username w = (after pos v w d', Ret id) /\ (0 < id)%Z /\ M !! id = None
             /\ represents d' (<[id := e_with_id id y]> M)
       | None => visibility_insert x username w = (after pos v w (w_db w), Ret 0%Z) end)
    /\ (forall id, M !! id = None -> visibility_remove id username w = (after pos v w (w_db w), Ret false))
    /\ (forall id, is_Some (M !! id) -> deletable (w_db w) "t_datavisibility" id ->
          exists d', visibility_remove id username w = (after pos v w d', Ret true) /\ represents d' (delete id M))
    /\ (forall owner, exists xs, rules_for_owner owner w = (after pos v w (w_db w), Ret xs)
          /\ StronglySorted (fun x y => vi_id x <= vi_id y)%Z xs /\ xs ≡ₚ filter (fun r => vi_owner_person_id r = owner) (snd <$> map_to_list M))
    /\ (forall owner viewer category, in_signed 32 (Z.of_nat (size M)) = true ->
          exists b, can_view owner viewer category w = (after pos v w (w_db w), Ret b)
            /\ (b = true <-> exists id r, M !! id = Some r /\ grants owner viewer category r)).

Context {L : ServerLaws S}.

#[export] Instance visibility_laws : EntityLaws DataVisibilityDTO.
Proof.
  split; [|done|done|done|by intros []]. intros o id r b Hsub Hid _.
  eexists. split; [eval_columns Hsub Hid|]. cbn [e_read visibility_entity]. unfold read_visibility. by read_columns.
Qed.

Lemma truth_and (r : row) b c d : truth r b (And c d) = Some true <-> truth r b c = Some true /\ truth r b d = Some true.
Proof. simpl. destruct (truth r b c) as [[]|], (truth r b d) as [[]|]; naive_solver. Qed.
Lemma truth_or (r : row) b c d : truth r b (Or c d) = Some true <-> truth r b c = Some true \/ truth r b d = Some true.
Proof. simpl. destruct (truth r b c) as [[]|], (truth r b d) as [[]|]; naive_solver. Qed.
Lemma truth_eq (r : row) b e f v w :
  eval r b e = Some v -> eval r b f = Some w -> v <> VNull -> w <> VNull -> truth r b (Eq e f) = Some true <-> v = w.
Proof. simpl. intros -> -> Hv Hw. rewrite <- (bool_decide_eq_true (v = w)). destruct v; try done; destruct w; try done; (split; [by intros [= ->]|by intros ->]). Qed.

Lemma viewing_rule_grants o i c x r :
  row_of x r -> holds_for [use (VInt o) "oid"; use (VInt i) "vid"; use (VText c) "cat"] viewing_rule r <-> grants o i c x.
Proof.
  intros (Hx & _ & _). unfold holds_for, viewing_rule, grants. rewrite !truth_and, truth_or.
  rewrite (truth_eq _ _ _ _ (VInt (vi_owner_person_id x)) (VInt o)) by first [done|by apply (stored _ _ _ _ Hx)].
  pose proof (owner_condition r [use (VInt o) "oid"; use (VInt i) "vid"; use (VText c) "cat"] "viewer_person_id" "vid" (vi_viewer_person_id x) i) as Hv.
  unfold holds_for in Hv. rewrite Hv by first [done|by apply (stored _ _ _ _ Hx)].
  rewrite (truth_eq _ _ _ (Bind "cat") (VText (vi_data_category x)) (VText c)) by first [done|by apply (stored _ _ _ _ Hx)].
  rewrite (truth_eq _ _ _ (Text _) (VText (vi_data_category x)) (VText (W "All"))) by first [done|by apply (stored _ _ _ _ Hx)].
  rewrite (truth_eq _ _ _ _ (VBool (vi_can_view x)) (VBool true)) by first [done|by apply (stored _ _ _ _ Hx)].
  split.
  - intros [[[[= H1] H2] H3] [= H4]]. split; [done|]. split; [done|]. split; [|done]. destruct H3 as [[= H3]|[= H3]]; auto.
  - intros (-> & H2 & H3 & ->). split; [|done]. split; [by split|]. destruct H3 as [->| ->]; auto.
Qed.

Lemma lookup_bind_ne n u b name : n <> name -> lookup_bind ((n, u) :: b) name = lookup_bind b name.
Proof. intros H. cbn [lookup_bind]. by rewrite decide_False. Qed.

Lemma visibility_assign x vp vr vo e1 e2 e3 viewer :
  let b := visibility_binds viewer x in
  eval ∅ b e1 = Some (nullable_id vp) -> eval ∅ b e2 = Some (nullable_id vr) -> eval ∅ b e3 = Some (nullable_id vo) ->
  snd viewer <> VNull -> fst viewer ∉ ["owner"; "cat"; "cv"; "ce"]%string ->
  assign b ∅ (visibility_values e1 e2 e3)
  = Some (e_columns (mk_visibility (vi_id x) (vi_owner_person_id x) (vi_data_category x) vp vr vo (vi_can_view x) (vi_can_edit x))).
Proof.
  intros b H1 H2 H3 Hn Hv. destruct viewer as [n u]. cbn [fst] in Hv. rewrite !not_elem_of_cons in Hv. destruct Hv as (V1 & V2 & V3 & V4 & _).
  assert (Hcv : lookup_bind b "cv" = Some (VInt (bool_int (vi_can_view x)))).
  { transitivity (lookup_bind ((n, u) :: visibility_binds (use u "vp") x) "cv"); [reflexivity|by apply lookup_bind_ne]. }
  assert (Hce : lookup_bind b "ce" = Some (VInt (bool_int (vi_can_edit x)))).
  { transitivity (lookup_bind ((n, u) :: visibility_binds (use u "vp") x) "ce"); [reflexivity|by apply lookup_bind_ne]. }
  unfold visibility_values. repeat (eapply assign_cons; [first [eassumption|by apply eval_flag|by apply eval_bind]|]). apply assign_nil.
Qed.

Lemma nullable_id_value z : z <> 0%Z -> Some (VInt z) = Some (nullable_id z).
Proof. intros H. unfold nullable_id. by rewrite (proj2 (Z.eqb_neq _ _) H). Qed.

(** C21. Visibility rules, through [VisibilityDAO], are a finite map.  A rule is stored for the first viewer it
    names, in the order person, role, unit, and the others are dropped; a rule that names none is not stored
    and zero is returned.  [can_view] is true exactly when some stored rule of the owner names the viewer as a
    person, for the category or for All, and allows viewing: rules for a role or a unit are never consulted. *)
Theorem visibility_table_refines_map : visibility_dao_spec.
Proof.
  intros w pos v M username Hr Hu HM. split; [|split; [|split; [|split]]].
  - intros x. unfold first_viewer, visibility_insert.
    destruct (Z.eqb_spec (vi_viewer_person_id x) 0) as [H1|H1]; cbn [negb].
    + rewrite decide_False by tauto. destruct (Z.eqb_spec (vi_viewer_role_id x) 0) as [H2|H2]; cbn [negb].
      * rewrite decide_False by tauto. destruct (Z.eqb_spec (vi_viewer_org_unit_id x) 0) as [H3|H3]; cbn [negb].
        { rewrite decide_False by tauto. eapply session_ready; [done|apply Hu|apply not_elem_of_nil|apply contained_ret|done]. }
        rewrite decide_True by done. intros Hf. refine (insert_refines w pos v username _ _ M _ Hr Hu HM _ Hf I).
        apply visibility_assign; first [done|by apply nullable_id_value|(apply (bool_decide_unpack _); vm_compute; exact I)].
      * rewrite decide_True by done. intros Hf. refine (insert_refines w pos v username _ _ M _ Hr Hu HM _ Hf I).
        apply visibility_assign; first [done|by apply nullable_id_value|(apply (bool_decide_unpack _); vm_compute; exact I)].
    + rewrite decide_True by done. intros Hf. refine (insert_refines w pos v username _ _ M _ Hr Hu HM _ Hf I).
      apply visibility_assign; first [done|by apply nullable_id_value|(apply (bool_decide_unpack _); vm_compute; exact I)].
  - intros id. exact (proj1 (remove_refines w pos v username [use (VInt id) "id"] M id Hr Hu HM eq_refl ltac:(done))).
  - intros id. exact (proj2 (remove_refines w pos v username [use (VInt id) "id"] M id Hr Hu HM eq_refl ltac:(done))).
  - intros owner.
    destruct (select_refines w pos v [] rules_of [use (VInt owner) "oid"] M (fun r => vi_owner_person_id r = owner)
      (fun x y => vi_id x <= vi_id y)%Z Hr (not_elem_of_nil _) HM eq_refl eq_refl) as (xs & H1 & H2 & H3).
    + intros x r (Hx & _). apply key_condition; [|done]. by apply (stored _ _ _ _ Hx).
    + intros x y r s (_ & Hx & _) (_ & Hy & _). by apply ordered_by_id.
    + exists xs. split; [by apply H3|]. by split.
  - intros owner viewer category Hsize. set (G := filter (grants owner viewer category) (snd <$> map_to_list M)).
    exists (0 <? Z.of_nat (length G))%Z. split.
    + refine (count_refines w pos v _ viewing_rule M (grants owner viewer category) (fun n => 0 <? n)%Z Hr HM _ _);
        [intros; by apply viewing_rule_grants|].
      apply bool_decide_eq_true_1 in Hsize. apply bool_decide_eq_true_2. fold G.
      assert (length G <= size M); [|lia]. rewrite <- length_map_to_list, <- (length_fmap snd (map_to_list M)). apply length_filter.
    + rewrite Z.ltb_lt. split.
      * intros Hlt. destruct G as [|r G'] eqn:EG; [simpl in Hlt; lia|].
        assert (Hin : r ∈ G) by (rewrite EG; by left). apply list_elem_of_filter in Hin as [Hg ([k r'] & -> & Hk)%list_elem_of_fmap].
        exists k, r'. split; [by apply elem_of_map_to_list|done].
      * intros (id & r & Hid & Hg). assert (Hin : r ∈ G).
        { apply list_elem_of_filter. split; [done|]. apply list_elem_of_fmap. exists (id, r). split; [done|]. by apply elem_of_map_to_list. }
        destruct G; [by apply elem_of_nil in Hin|simpl; lia].
Qed.
End VisibilityDAO.

Lemma visibility_table_refines_map_witness :
  acceptable (W "admin") /\ exists b, can_view (S := memory true) 1 2 (W "Phone") empty_world = (after 0 ∅ empty_world ∅, Ret b).
Proof.
  assert (Hu : acceptable (W "admin")) by (apply (bool_decide_unpack _); vm_compute; exact I).
  split; [exact Hu|].
  destruct (visibility_table_refines_map (L := memory_laws) empty_world 0 ∅ ∅ (W "admin") (conj eq_refl (conj eq_refl Logic.I)) Hu ltac:(intros id; exact I))
    as (_ & _ & _ & _ & H). destruct (H 1%Z 2%Z (W "Phone") eq_refl) as (b & Hb & _). exists b. exact Hb.
Defined.
