(* ===== verification/AuditDao.v ===== *)
(** * Audit logs, locales and searches (contact/data/audit_dao.hpp, locale_dao.hpp, search_dao.hpp)

    These objects only read, apart from [purge] and [refresh_materialized_views], which call a function of
    the server.  [AuditDAO::search] is the one operation that writes its arguments into the SQL text. *)
From stdpp Require Import gmap strings.
From S2P Require Import Prelude Sql Database Dao.

(* src: contact/data/audit_dao.hpp:18-27 AuditLogDTO *)
Record AuditLogDTO := mk_audit_log { au_source_table : str; au_log_id : Z; au_action : str; au_action_by : str; au_action_at : str; au_old_data : str; au_new_data : str }.
(* src: contact/data/audit_dao.hpp:30-36 EntityTimestampDTO *)
Record EntityTimestampDTO := mk_timestamps { ts_created_at : str; ts_created_by : str; ts_updated_at : str; ts_updated_by : str }.
(* src: contact/data/locale_dao.hpp:19-24 LocaleDTO *)
Record LocaleDTO := mk_locale { lc_id : Z; lc_code : str; lc_is_default : bool }.
(** A [float] is its bits. *)
(* src: contact/data/search_dao.hpp:18-25 SearchResultDTO *)
Record SearchResultDTO := mk_search { se_entity_type : str; se_entity_id : Z; se_display_name : str; se_keywords : str; se_rank : Z }.
(* src: contact/data/search_dao.hpp:28-35 PersonSearchResultDTO *)
Record PersonSearchResultDTO := mk_person_search { ps_id : Z; ps_first_name : str; ps_last_name : str; ps_keywords : str; ps_rank : Z }.
(* src: contact/data/search_dao.hpp:38-45 OrgSearchResultDTO *)
Record OrgSearchResultDTO := mk_org_search { os_id : Z; os_name : str; os_org_type : str; os_keywords : str; os_rank : Z }.

Section AuditDAO.
Context {S : Server}.

(* src: contact/data/audit_dao.hpp:55-59 AuditDAO::search *)
Definition search_where (action action_by from_ to_ : str) : str :=
  let where_ := W "WHERE 1=1" in
  let where_ := if bool_decide (action = []) then where_ else where_ ++ W " AND action = '" ++ action ++ W "'" in
  let where_ := if bool_decide (action_by = []) then where_ else where_ ++ W " AND action_by = '" ++ action_by ++ W "'" in
  let where_ := if bool_decide (from_ = []) then where_ else where_ ++ W " AND action_at >= '" ++ from_ ++ W "'::timestamptz" in
  if bool_decide (to_ = []) then where_ else where_ ++ W " AND action_at < '" ++ to_ ++ W "'::timestamptz".
(* src: contact/data/audit_dao.hpp:61-65 AuditDAO::search *)
Definition search_sql (log_table action action_by from_ to_ : str) : str :=
  W "SELECT log_id, action, action_by, action_at::text, COALESCE(old_data::text,'{}'), COALESCE(new_data::text,'{}') FROM "
    ++ log_table ++ W " " ++ search_where action action_by from_ to_ ++ W " ORDER BY action_at DESC".
(* src: contact/data/audit_dao.hpp:68-78 AuditDAO::search *)
Definition read_log (r : list sval) : outcome AuditLogDTO :=
  id ← get get_long r 0; action ← get get_string r 1; by_ ← get get_string r 2; at_ ← get get_string r 3;
  old ← get get_string r 4; new ← get get_string r 5; Ret (mk_audit_log [] id action by_ at_ old new).
(* src: contact/data/audit_dao.hpp:45-80 AuditDAO::search *)
Definition audit_search (log_table action action_by from_ to_ : str) : dao (list AuditLogDTO) := session [] [] (fun pos =>
  select_all pos (SelectText (search_sql log_table action action_by from_ to_)) [] read_log).
(* src: contact/data/audit_dao.hpp:106-117 AuditDAO::search_all *)
Definition read_any_log (r : list sval) : outcome AuditLogDTO :=
  table ← get get_string r 0; id ← get get_long r 1; action ← get get_string r 2; by_ ← get get_string r 3;
  at_ ← get get_string r 4; old ← get get_string r 5; new ← get get_string r 6; Ret (mk_audit_log table id action by_ at_ old new).
(* src: contact/data/audit_dao.hpp:83-119 AuditDAO::search_all *)
Definition audit_search_all (action action_by from_ to_ : str) (limit : Z) : dao (list AuditLogDTO) := session [] [] (fun pos =>
  select_all pos (SelectFrom
      [Col "source_table"; Col "log_id"; Col "action"; Col "action_by"; Cast (Col "action_at") TText;
       Coalesce (Cast (Col "old_data") TText) (Text (W "{}")); Coalesce (Cast (Col "new_data") TText) (Text (W "{}"))]
      "fn_search_all_audit_logs"
      [Cast (Nullif (Bind "act") []) (TNamed "char"); Nullif (Bind "aby") []; Cast (Nullif (Bind "fr") []) (TNamed "timestamptz");
       Cast (Nullif (Bind "to2") []) (TNamed "timestamptz"); Bind "lim"])
    [use (VText action) "act"; use (VText action_by) "aby"; use (VText from_) "fr"; use (VText to_) "to2"; use (VInt limit) "lim"] read_any_log).
(* src: contact/data/audit_dao.hpp:123-134 AuditDAO::purge *)
Definition audit_purge (log_table before : str) : dao Z := session [] [] (fun pos =>
  out ← sql pos (CallFn "fn_purge_audit_log" [Bind "tbl"; Cast (Bind "before") (TNamed "timestamptz")])
    [use (VText log_table) "tbl"; use (VText before) "before"];
  into get_long 0 out).
(* src: contact/data/audit_dao.hpp:159-164 AuditDAO::entity_timestamps *)
Definition read_timestamps (r : list sval) : outcome EntityTimestampDTO :=
  a ← get get_string r 0; b ← get get_string r 1; c ← get get_string r 2; d ← get get_string r 3; Ret (mk_timestamps a b c d).
(* src: contact/data/audit_dao.hpp:137-165 AuditDAO::entity_timestamps *)
Definition entity_timestamps (log_table : str) (entity_id : Z) : dao (option EntityTimestampDTO) := session [] [] (fun pos =>
  select_one pos (SelectFrom
      [Coalesce (Cast (Col "created_at") TText) (Text []); Coalesce (Col "created_by") (Text []);
       Coalesce (Cast (Col "updated_at") TText) (Text []); Coalesce (Col "updated_by") (Text [])] "fn_entity_timestamps" [Bind "tbl"; Bind "eid"])
    [use (VText log_table) "tbl"; use (VInt entity_id) "eid"] read_timestamps).
End AuditDAO.

Section LocaleDAO.
Context {S : Server}.

(* src: contact/data/locale_dao.hpp:37-37 LocaleDAO::list_all *)
Definition locale_columns : list expr := [Col "id"; Col "code"; Col "is_default"].
(* src: contact/data/locale_dao.hpp:40-47 LocaleDAO::list_all *)
Definition read_locale (r : list sval) : outcome LocaleDTO :=
  id ← get_int16 r 0; code ← get get_string r 1; is_default ← get_bool r 2; Ret (mk_locale id code is_default).
(* src: contact/data/locale_dao.hpp:33-49 LocaleDAO::list_all *)
Definition locale_list_all : dao (list LocaleDTO) := session [] [] (fun pos =>
  select_all pos (Select (mk_query locale_columns "t_locale" Always [("id"%string, false)] None None)) [] read_locale).
(* src: contact/data/locale_dao.hpp:52-69 LocaleDAO::find_by_code *)
Definition find_by_code (code : str) : dao (option LocaleDTO) := session [] [] (fun pos =>
  select_one pos (Select (mk_query locale_columns "t_locale" (Eq (Col "code") (Bind "c")) [] None None)) [use (VText code) "c"] read_locale).
(** The default locale is marked as such whatever the row says. *)
(* src: contact/data/locale_dao.hpp:72-88 LocaleDAO::get_default *)
Definition get_default : dao (option LocaleDTO) := session [] [] (fun pos =>
  select_one pos (Select (mk_query locale_columns "t_locale" (Eq (Col "is_default") (Bool true)) [] (Some (Int 1)) None)) []
    (fun r => id ← get_int16 r 0; code ← get get_string r 1; Ret (mk_locale id code true))).
(* src: contact/data/locale_dao.hpp:91-95 LocaleDAO::refresh_materialized_views *)
Definition refresh_materialized_views : dao unit := session [] [] (fun pos =>
  _ ← sql pos (CallFn "fn_refresh_locale_mvs" []) []; mret tt).
End LocaleDAO.

Section SearchDAO.
Context {S : Server}.

(** The arguments of the three search functions. *)
(* src: contact/data/search_dao.hpp:68-68 SearchDAO::search_persons *)
Definition search_args : list expr := [Bind "q"; Bind "lim"; Cast (Bind "cfg") (TNamed "regconfig")].
(* src: contact/data/search_dao.hpp:69-71 SearchDAO::search_persons *)
Definition search_binds (query ts_config : str) (limit : Z) : binds := [use (VText query) "q"; use (VInt limit) "lim"; use (VText ts_config) "cfg"].
(* src: contact/data/search_dao.hpp:81-81 SearchDAO::search_persons *)
Definition get_rank (r : list sval) (k : nat) : outcome Z := to_float <$> get get_double r k.
(* src: contact/data/search_dao.hpp:57-85 SearchDAO::search_persons *)
Definition search_persons (query : str) (limit : Z) (ts_config : str) : dao (list PersonSearchResultDTO) := session [] [] (fun pos =>
  select_all pos (SelectFrom [Col "id"; Col "first_name"; Col "last_name"; Coalesce (Col "keywords") (Text []); Col "rank"] "fn_search_persons" search_args)
    (search_binds query ts_config limit)
    (fun r => id ← get get_long r 0; first_name ← get get_string r 1; last_name ← get get_string r 2; keywords ← get get_string r 3;
              rank ← get_rank r 4; Ret (mk_person_search id first_name last_name keywords rank))).
(* src: contact/data/search_dao.hpp:88-116 SearchDAO::search_orgunits *)
Definition search_orgunits (query : str) (limit : Z) (ts_config : str) : dao (list OrgSearchResultDTO) := session [] [] (fun pos =>
  select_all pos (SelectFrom [Col "id"; Col "name"; Col "org_type"; Coalesce (Col "keywords") (Text []); Col "rank"] "fn_search_orgunits" search_args)
    (search_binds query ts_config limit)
    (fun r => id ← get get_long r 0; name ← get get_string r 1; org_type ← get get_string r 2; keywords ← get get_string r 3;
              rank ← get_rank r 4; Ret (mk_org_search id name org_type keywords rank))).
(* src: contact/data/search_dao.hpp:119-147 SearchDAO::search_contacts *)
Definition search_contacts (query : str) (limit : Z) (ts_config : str) : dao (list SearchResultDTO) := session [] [] (fun pos =>
  select_all pos (SelectFrom [Col "entity_type"; Col "entity_id"; Col "display_name"; Coalesce (Col "keywords") (Text []); Col "rank"] "fn_search_contacts" search_args)
    (search_binds query ts_config limit)
    (fun r => entity_type ← get get_string r 0; entity_id ← get get_long r 1; display_name ← get get_string r 2; keywords ← get get_string r 3;
              rank ← get_rank r 4; Ret (mk_search entity_type entity_id display_name keywords rank))).
End SearchDAO.

(** ** What the server reads in the text of [AuditDAO::search] *)

Lemma literal_body_plain a s : "'"%char ∉ a -> literal_body (a ++ s) = '(v, rest) ← literal_body s; Some (a ++ v, rest).
Proof.
  induction a as [|c a IH]; intros Ha; simpl app; [by destruct (literal_body s) as [[v rest]|]|].
  rewrite not_elem_of_cons in Ha. destruct Ha as [Hc Ha]. cbn [literal_body]. rewrite decide_False by done.
  rewrite (IH Ha). by destruct (literal_body s) as [[v rest]|].
Qed.

Lemma literal_read a s : "'"%char ∉ a -> head s <> Some "'"%char -> sql_literal (W "'" ++ a ++ W "'" ++ s) = Some (a, s).
Proof.
  intros Ha Hs. change (W "'" ++ a ++ W "'" ++ s) with ("'"%char :: a ++ "'"%char :: s). cbn [sql_literal].
  rewrite literal_body_plain by done. destruct s as [|c s]; cbn [literal_body].
  - rewrite decide_True by done. simpl. by rewrite app_nil_r.
  - rewrite decide_True by done. rewrite decide_False by (intros ->; by apply Hs). simpl. by rewrite app_nil_r.
Qed.

(** A quote of a literal's value takes two characters of its text. *)
Fixpoint quotes (s : str) : nat := match s with [] => 0 | c :: s => (if decide (c = "'"%char) then 1 else 0) + quotes s end.
Lemma quotes_0 s : quotes s = 0 <-> "'"%char ∉ s.
Proof.
  induction s as [|c s IH]; cbn [quotes]; [split; [intros _; apply not_elem_of_nil|done]|]. rewrite not_elem_of_cons.
  case_decide as E; [subst; split; [lia|by intros [? _]]|]. cbn [Nat.add]. rewrite IH. naive_solver.
Qed.
Lemma literal_body_length s v rest : literal_body s = Some (v, rest) -> length s = length v + quotes v + 1 + length rest.
Proof.
  remember (length s) as n eqn:Hn. revert s v rest Hn. induction (lt_wf n) as [n _ IH]. intros [|c s] v rest ->; cbn [literal_body]; [done|].
  case_decide as Hc; [destruct s as [|c' s]; [by intros [= <- <-]|]; case_decide as Hc'; [|intros [= <- <-]; simpl; lia]|];
    (destruct (literal_body s) as [[v' rest']|] eqn:E; [|done]); intros [= <- <-].
  - specialize (IH (length s) ltac:(simpl; lia) s v' rest' eq_refl E). cbn [quotes length]. rewrite decide_True by done. lia.
  - specialize (IH (length s) ltac:(simpl; lia) s v' rest' eq_refl E). cbn [quotes length]. rewrite decide_False by done. lia.
Qed.

(** The server reads [x] between quotes as [x] exactly when it holds no quote. *)
Lemma literal_as_given x s : head s <> Some "'"%char -> sql_literal (W "'" ++ x ++ W "'" ++ s) = Some (x, s) <-> "'"%char ∉ x.
Proof.
  intros Hs. split; [|by intros; apply literal_read]. intros H. change (literal_body (x ++ "'"%char :: s) = Some (x, s)) in H.
  apply literal_body_length in H. rewrite length_app in H. cbn [length] in H. apply quotes_0. lia.
Qed.
Lemma literal_cut a c b s : "'"%char ∉ a -> c <> "'"%char -> sql_literal (W "'" ++ (a ++ W "'" ++ c :: b) ++ W "'" ++ s) = Some (a, c :: b ++ W "'" ++ s).
Proof.
  intros Ha Hc. replace (W "'" ++ (a ++ W "'" ++ c :: b) ++ W "'" ++ s) with (W "'" ++ a ++ W "'" ++ (c :: b ++ W "'" ++ s)) by (rewrite <- !app_assoc; reflexivity).
  apply literal_read; [done|]. simpl. congruence.
Qed.

(** The text [q] has the filter [x] after [column], between quotes, with [cast] and more SQL after it; the server reads it as the literal [x]
    exactly when [x] has no quote, and a lone quote in it ends the literal: what follows the quote is SQL. *)
Definition filters (q column x cast : str) : Prop :=
  exists before rest, q = before ++ column ++ W "'" ++ x ++ W "'" ++ cast ++ rest
    /\ (sql_literal (W "'" ++ x ++ W "'" ++ cast ++ rest) = Some (x, cast ++ rest) <-> "'"%char ∉ x)
    /\ (forall a c b, x = a ++ W "'" ++ c :: b -> "'"%char ∉ a -> c <> "'"%char ->
         sql_literal (W "'" ++ x ++ W "'" ++ cast ++ rest) = Some (a, c :: b ++ W "'" ++ cast ++ rest)).
Lemma filters_intro q before column x cast rest :
  q = before ++ column ++ W "'" ++ x ++ W "'" ++ cast ++ rest -> head (cast ++ rest) <> Some "'"%char -> filters q column x cast.
Proof.
  intros Hq Hh. exists before, rest. split; [done|]. split; [by apply literal_as_given|]. intros a c b ->. apply literal_cut.
Qed.

(** One condition of the WHERE clause, if its filter is given. *)
Definition condition (column x cast : str) : str := if bool_decide (x = []) then [] else column ++ W "'" ++ x ++ W "'" ++ cast.
Lemma condition_head column x cast rest : head column = Some " "%char -> head rest = Some " "%char -> head (condition column x cast ++ rest) = Some " "%char.
Proof. intros Hc Hr. unfold condition. destruct (bool_decide (x = [])); [done|]. by destruct column. Qed.
Lemma space_no_quote (s : str) : head s = Some " "%char -> head s <> Some "'"%char.
Proof. by intros ->. Qed.
Definition SEARCH_COLUMNS : str :=
  W "SELECT log_id, action, action_by, action_at::text, COALESCE(old_data::text,'{}'), COALESCE(new_data::text,'{}') FROM ".
Lemma search_sql_conditions log_table action action_by from_ to_ :
  search_sql log_table action action_by from_ to_ = SEARCH_COLUMNS ++ log_table ++ W " WHERE 1=1" ++ condition (W " AND action = ") action []
    ++ condition (W " AND action_by = ") action_by [] ++ condition (W " AND action_at >= ") from_ (W "::timestamptz")
    ++ condition (W " AND action_at < ") to_ (W "::timestamptz") ++ W " ORDER BY action_at DESC".
Proof.
  unfold search_sql, search_where, condition.
  destruct (bool_decide (action = [])), (bool_decide (action_by = [])), (bool_decide (from_ = [])), (bool_decide (to_ = []));
    rewrite <- ?app_assoc; simpl; rewrite <- ?app_assoc; reflexivity.
Qed.
Lemma filters_condition q before column x cast rest : x <> [] -> q = before ++ condition column x cast ++ rest -> head (cast ++ rest) <> Some "'"%char ->
  filters q column x cast.
Proof.
  intros Hx Hq. unfold condition in Hq. rewrite bool_decide_eq_false_2 in Hq by done. apply (filters_intro q before). by rewrite Hq, <- !app_assoc.
Qed.

(** C32. [AuditDAO::search] writes each of its four filters between quotes without escaping it.  The server reads a filter as the literal that was
    given exactly when it holds no quote; and when the first quote in it is followed by a character that is not a quote, the literal ends there and what
    follows, up to the filter's end, is read as SQL.  The table name is not quoted at all. *)
Theorem audit_search_unquoted (log_table action action_by from_ to_ : str) :
  let q := search_sql log_table action action_by from_ to_ in
  (action <> [] -> filters q (W " AND action = ") action [])
  /\ (action_by <> [] -> filters q (W " AND action_by = ") action_by [])
  /\ (from_ <> [] -> filters q (W " AND action_at >= ") from_ (W "::timestamptz"))
  /\ (to_ <> [] -> filters q (W " AND action_at < ") to_ (W "::timestamptz"))
  /\ exists rest, q = SEARCH_COLUMNS ++ log_table ++ W " WHERE 1=1" ++ rest.
Proof.
  intros q. assert (Hq := search_sql_conditions log_table action action_by from_ to_). fold q in Hq. split_and!.
  - intros H. eapply (filters_condition q (SEARCH_COLUMNS ++ log_table ++ W " WHERE 1=1")); [done|by rewrite Hq, <- !app_assoc|].
    apply space_no_quote; repeat (apply condition_head; [reflexivity|]); reflexivity.
  - intros H. eapply (filters_condition q (SEARCH_COLUMNS ++ log_table ++ W " WHERE 1=1" ++ condition _ action [])); [done|by rewrite Hq, <- !app_assoc|].
    apply space_no_quote; repeat (apply condition_head; [reflexivity|]); reflexivity.
  - intros H. eapply (filters_condition q (SEARCH_COLUMNS ++ log_table ++ W " WHERE 1=1" ++ condition _ action [] ++ condition _ action_by []));
      [done|by rewrite Hq, <- !app_assoc|done].
  - intros H. eapply (filters_condition q (SEARCH_COLUMNS ++ log_table ++ W " WHERE 1=1" ++ condition _ action [] ++ condition _ action_by [] ++ condition _ from_ _));
      [done|by rewrite Hq, <- !app_assoc|done].
  - by eexists.
Qed.

Lemma audit_search_unquoted_witness :
  filters (search_sql (W "log_person") (W "D") (W "x' OR '1'='1") [] []) (W " AND action_by = ") (W "x' OR '1'='1") [].
Proof. apply (audit_search_unquoted (W "log_person") (W "D") (W "x' OR '1'='1") [] []). discriminate. Defined.
