(* ===== verification/Schema.v ===== *)
(** * The schema of the contact database (contact/db/contact_ddl.sql)

    The data layer's tables as the program declares them: domains, columns with their types, defaults and
    references, checks and unique keys.  A column stores a value only as its type allows ([store]); what
    the statements of Sql do to tables of these shapes is in Tables. *)
From stdpp Require Import gmap strings.
From S2P Require Import Prelude Sql.

(** ** Column types *)

Inductive coltype : Type :=
  | CBigint | CSmallint | CVarchar (n : nat) | CChar (n : nat) | CText | CBoolean | CDate | CDecimal (precision scale : Z)
  | CEnum (names : list str) | CBytea | CTsvector.

#[export] Instance coltype_eq_dec : EqDecision coltype.
Proof. solve_decision. Defined.

(* src: contact/db/contact_ddl.sql:32-32 D_EntityId *)
Definition D_EntityId : coltype := CBigint.
(* src: contact/db/contact_ddl.sql:33-33 D_QualifierId *)
Definition D_QualifierId : coltype := CSmallint.
(* src: contact/db/contact_ddl.sql:34-34 D_FederalTaxId *)
Definition D_FederalTaxId : coltype := CVarchar 20.
(* src: contact/db/contact_ddl.sql:35-35 D_CountryCode *)
Definition D_CountryCode : coltype := CChar 2.
(* src: contact/db/contact_ddl.sql:38-38 D_ShortName *)
Definition D_ShortName : coltype := CVarchar 50.
(* src: contact/db/contact_ddl.sql:39-39 D_MediumName *)
Definition D_MediumName : coltype := CVarchar 100.
(* src: contact/db/contact_ddl.sql:40-40 D_LongName *)
Definition D_LongName : coltype := CVarchar 200.
(* src: contact/db/contact_ddl.sql:41-41 D_Description *)
Definition D_Description : coltype := CText.
(* src: contact/db/contact_ddl.sql:42-42 D_EmailAddress *)
Definition D_EmailAddress : coltype := CVarchar 254.
(* src: contact/db/contact_ddl.sql:43-43 D_Url *)
Definition D_Url : coltype := CVarchar 500.
(* src: contact/db/contact_ddl.sql:44-44 D_Keywords *)
Definition D_Keywords : coltype := CText.
(* src: contact/db/contact_ddl.sql:47-47 D_PhoneCountryCode *)
Definition D_PhoneCountryCode : coltype := CVarchar 5.
(* src: contact/db/contact_ddl.sql:48-48 D_PhoneAreaCode *)
Definition D_PhoneAreaCode : coltype := CVarchar 5.
(* src: contact/db/contact_ddl.sql:49-49 D_PhoneNumber *)
Definition D_PhoneNumber : coltype := CVarchar 20.
(* src: contact/db/contact_ddl.sql:50-50 D_PhoneExtension *)
Definition D_PhoneExtension : coltype := CVarchar 10.
(* src: contact/db/contact_ddl.sql:53-53 D_PostalCode *)
Definition D_PostalCode : coltype := CVarchar 20.
(* src: contact/db/contact_ddl.sql:54-54 D_GeoCoordinate *)
Definition D_GeoCoordinate : coltype := CDecimal 9 6.
(* src: contact/db/contact_ddl.sql:60-60 D_IdentNumber *)
Definition D_IdentNumber : coltype := CVarchar 30.
(* src: contact/db/contact_ddl.sql:61-61 D_DataCategory *)
Definition D_DataCategory : coltype := CVarchar 50.
(* src: contact/db/contact_ddl.sql:62-62 D_OrgType *)
Definition D_OrgType : coltype := CVarchar 20.
(* src: contact/db/contact_ddl.sql:66-66 D_AuditUser *)
Definition D_AuditUser : coltype := CVarchar 100.

(** ** Storing a value in a column *)

(** The characters of a text in UTF-8: a byte and the continuation bytes after it. *)
Definition continuation (c : ascii) : bool := (byte_val c / 64 =? 2)%Z.
(** One character more, or one byte more of the first. *)
Definition add_byte (c : ascii) (cs : list str) : list str :=
  match cs with ((d :: _) as g) :: gs => if continuation d then (c :: g) :: gs else [c] :: g :: gs | gs => [c] :: gs end.
Fixpoint characters (s : str) : list str := match s with [] => [] | c :: s => add_byte c (characters s) end.
Definition blank (g : str) : bool := bool_decide (g = [" "%char]).

(** Characters beyond the length of a varchar must be spaces, and are cut off. *)
Definition store_varchar (n : nat) (s : str) : option str :=
  let cs := characters s in
  if length cs <=? n then Some s else if forallb blank (drop n cs) then Some (concat (take n cs)) else None.
(** A char is padded with spaces. *)
Definition store_char (n : nat) (s : str) : option str :=
  t ← store_varchar n s; Some (t ++ replicate (n - length (characters t)) " "%char).

(** PostgreSQL's numeric rounding, text search, clock display and session user are functions of the server. *)
Class Postgres := {
  numeric : Z -> Z -> Z -> option Z;
  (** [setweight(to_tsvector('simple', t), w) || ...] *)
  tsvector : list (str * ascii) -> str;
  (** [vector @@ websearch_to_tsquery(config, query)], and [ts_rank_cd] of both *)
  ts_match : str -> sval -> str -> bool;
  ts_rank : str -> sval -> str -> Z;
  session_user : str;
  timestamp_text : Z -> str;
  (** the text of a row as jsonb *)
  json_text : gmap String.string sval -> str;
  timestamp_of : sval -> option Z;
}.
Class PostgresLaws (P : Postgres) : Prop := {
  numeric_law p s x y : numeric p s x = Some y -> numeric p s y = Some y;
  (** a role name has fewer than 64 bytes *)
  session_user_law : NULL_CHAR ∉ session_user /\ length session_user < 64;
  tsvector_law l : NULL_CHAR ∉ tsvector l;
}.

Section store.
Context {P : Postgres}.

(** A value of the column's type, or of a type assigned to it, as the column keeps it. *)
Definition store (ty : coltype) (v : sval) : option sval :=
  match ty, v with
  | _, VNull => Some VNull
  | CBigint, VInt z => if in_signed 64 z then Some v else None
  | CSmallint, VInt z => if in_signed 16 z then Some v else None
  | CVarchar n, VText s => if bool_decide (no_nul s) then VText <$> store_varchar n s else None
  | CChar n, VText s => if bool_decide (no_nul s) then VText <$> store_char n s else None
  | CText, VText s => if bool_decide (no_nul s) then Some v else None
  | CBoolean, VBool _ => Some v
  | CDate, VDate _ => Some v
  | CDecimal p s, VReal x => VReal <$> numeric p s x
  | CEnum names, VText s => if bool_decide (s ∈ names) then Some v else None
  | CBytea, VText s => Some v
  | CTsvector, VText s => if bool_decide (no_nul s) then Some v else None
  | _, _ => None
  end.
End store.

(** ** Tables *)

Inductive on_delete : Type := NoAction | SetNull | Cascade.
#[export] Instance on_delete_eq_dec : EqDecision on_delete.
Proof. solve_decision. Defined.

Inductive default_value : Type := Value (v : sval) | Current_date.
Record column_def := mk_column {
  col_name : String.string; col_type : coltype; col_not_null : bool; col_default : default_value;
  col_references : option (String.string * on_delete) }.
Record table_def := mk_table {
  t_columns : list column_def;
  t_checks : list (row -> bool);
  t_unique : list (list String.string);
  (** the key is drawn from a sequence *)
  t_serial : bool;
  (** [create_audit_log] was called for the table *)
  t_audited : bool }.

(** A column that may be NULL, one that may not, a flag, and references to a table. *)
Definition nullable_col (name : String.string) (ty : coltype) : column_def := mk_column name ty false (Value VNull) None.
Definition not_null (name : String.string) (ty : coltype) : column_def := mk_column name ty true (Value VNull) None.
(* src: contact/db/contact_ddl.sql:57-57 D_Flag *)
Definition D_Flag (name : String.string) (d : bool) : column_def := mk_column name CBoolean true (Value (VBool d)) None.
(* src: contact/db/contact_ddl.sql:58-58 D_ActiveFlag *)
Definition D_ActiveFlag (name : String.string) : column_def := mk_column name CBoolean true (Value (VBool true)) None.
Definition references (c : column_def) (t : String.string) (a : on_delete) : column_def :=
  mk_column (col_name c) (col_type c) (col_not_null c) (col_default c) (Some (t, a)).
Definition id_column (ty : coltype) : column_def := not_null "id" ty.

(** ** Checks *)

Definition is_null (c : String.string) (r : row) : bool := bool_decide (column c r = VNull).
(* src: contact/db/contact_ddl.sql:424-427 chk_phone_owner *)
Definition chk_owner (r : row) : bool :=
  (negb (is_null "person_id" r) && is_null "org_unit_id" r) || (is_null "person_id" r && negb (is_null "org_unit_id" r)).
(* src: contact/db/contact_ddl.sql:596-600 chk_single_viewer *)
Definition chk_single_viewer (r : row) : bool :=
  let int (b : bool) := if b then 1%Z else 0%Z in
  (int (negb (is_null "viewer_person_id" r)) + int (negb (is_null "viewer_role_id" r)) + int (negb (is_null "viewer_org_unit_id" r)) =? 1)%Z.
(** A check that is unknown does not fail. *)
(* src: contact/db/contact_ddl.sql:296-296 T_OrgUnit *)
Definition chk_org_type (r : row) : bool :=
  is_null "org_type" r
  || bool_decide (column "org_type" r ∈ [VText (W "Group"); VText (W "Company"); VText (W "Department"); VText (W "Division"); VText (W "Team")]).

(** ** The tables, in the order of their creation *)

(* src: contact/db/contact_ddl.sql:73-77 T_Locale *)
Definition t_locale : table_def :=
  mk_table [id_column CSmallint; not_null "code" (CVarchar 10); D_Flag "is_default" false] [] [["code"%string]] true false.
(* src: contact/db/contact_ddl.sql:268-289 T_Person *)
Definition t_person : table_def := mk_table
  [id_column CBigint; not_null "first_name" D_ShortName; nullable_col "middle_name" D_ShortName; not_null "last_name" D_MediumName;
   nullable_col "federal_tax_id" D_FederalTaxId; nullable_col "identification_number" D_IdentNumber;
   nullable_col "passport_number" D_IdentNumber; nullable_col "passport_country" D_CountryCode; nullable_col "passport_expiry" CDate;
   nullable_col "photo" CBytea; nullable_col "date_of_birth" CDate; nullable_col "keywords" D_Keywords; nullable_col "search_vector" CTsvector]
  [] [["federal_tax_id"%string]] true true.
(* src: contact/db/contact_ddl.sql:292-307 T_OrgUnit *)
Definition t_orgunit : table_def := mk_table
  [id_column CBigint; references (nullable_col "parent_id" D_EntityId) "t_orgunit" SetNull; not_null "org_type" D_OrgType;
   nullable_col "federal_tax_id" D_FederalTaxId; D_ActiveFlag "is_active"; nullable_col "keywords" D_Keywords;
   nullable_col "search_vector" CTsvector]
  [chk_org_type] [] true true.
(* src: contact/db/contact_ddl.sql:310-316 T_LocalizedOrgUnit *)
Definition t_localizedorgunit : table_def := mk_table
  [id_column CBigint; references (not_null "org_unit_id" D_EntityId) "t_orgunit" Cascade;
   references (not_null "locale_id" CSmallint) "t_locale" NoAction; not_null "name" D_LongName]
  [] [["org_unit_id"; "locale_id"]%string] true false.
(* src: contact/db/contact_ddl.sql:391-393 T_ContactQualifier *)
Definition t_contactqualifier : table_def := mk_table [id_column CSmallint] [] [] false false.
(* src: contact/db/contact_ddl.sql:398-404 T_LocalizedContactQualifier *)
Definition t_localizedcontactqualifier : table_def := mk_table
  [id_column CBigint; references (not_null "qualifier_id" D_QualifierId) "t_contactqualifier" Cascade;
   references (not_null "locale_id" CSmallint) "t_locale" NoAction; not_null "name" D_ShortName]
  [] [["qualifier_id"; "locale_id"]%string] true false.

(** The owner of a contact, and its qualifier. *)
(* src: contact/db/contact_ddl.sql:415-416 T_Phone *)
Definition owners : list column_def :=
  [references (nullable_col "person_id" D_EntityId) "t_person" Cascade; references (nullable_col "org_unit_id" D_EntityId) "t_orgunit" Cascade].
(* src: contact/db/contact_ddl.sql:422-422 T_Phone *)
Definition qualifier : column_def := mk_column "qualifier_id" D_QualifierId false (Value (VInt 3)) (Some ("t_contactqualifier"%string, NoAction)).
(* src: contact/db/contact_ddl.sql:413-433 T_Phone *)
Definition t_phone : table_def := mk_table
  ([id_column CBigint] ++ owners ++
   [not_null "country_code" D_PhoneCountryCode; nullable_col "area_code" D_PhoneAreaCode; not_null "number" D_PhoneNumber;
    nullable_col "extension" D_PhoneExtension; D_Flag "is_mobile" false; qualifier; D_Flag "is_preferred" false])
  [chk_owner] [] true true.
(* src: contact/db/contact_ddl.sql:436-453 T_Email *)
Definition t_email : table_def := mk_table
  ([id_column CBigint] ++ owners ++ [not_null "email" D_EmailAddress; qualifier; D_Flag "is_preferred" false; D_Flag "is_verified" false])
  [chk_owner] [["email"%string]] true true.
(* src: contact/db/contact_ddl.sql:456-479 T_Address *)
Definition t_address : table_def := mk_table
  ([id_column CBigint] ++ owners ++
   [not_null "street_line1" D_LongName; nullable_col "street_line2" D_LongName; not_null "city" D_MediumName;
    nullable_col "state_province" D_MediumName; nullable_col "postal_code" D_PostalCode; not_null "country" D_CountryCode; qualifier;
    D_Flag "is_preferred" false; nullable_col "latitude" D_GeoCoordinate; nullable_col "longitude" D_GeoCoordinate])
  [chk_owner] [] true true.
(* src: contact/db/contact_ddl.sql:482-497 T_SocialMedia *)
Definition t_socialmedia : table_def := mk_table
  ([id_column CBigint] ++ owners ++
   [not_null "platform" D_ShortName; not_null "handle" D_MediumName; nullable_col "url" D_Url; qualifier; D_Flag "is_preferred" false])
  [chk_owner] [] true true.
(* src: contact/db/contact_ddl.sql:500-514 T_Website *)
Definition t_website : table_def := mk_table
  ([id_column CBigint] ++ owners ++ [not_null "url" D_Url; nullable_col "title" D_MediumName; qualifier; D_Flag "is_preferred" false])
  [chk_owner] [] true true.
(* src: contact/db/contact_ddl.sql:522-530 T_Role *)
Definition t_role : table_def := mk_table
  [id_column CBigint; references (nullable_col "org_unit_id" D_EntityId) "t_orgunit" Cascade; D_ActiveFlag "is_active"] [] [] true true.
(* src: contact/db/contact_ddl.sql:533-540 T_LocalizedRole *)
Definition t_localizedrole : table_def := mk_table
  [id_column CBigint; references (not_null "role_id" D_EntityId) "t_role" Cascade;
   references (not_null "locale_id" CSmallint) "t_locale" NoAction; not_null "name" D_MediumName; nullable_col "description" D_Description]
  [] [["role_id"; "locale_id"]%string] true false.
(* src: contact/db/contact_ddl.sql:545-547 relationship_type *)
Definition relationship_type : list str := [W "Employee"; W "Trainee"; W "MinorApprentice"; W "ThirdParty"].
(* src: contact/db/contact_ddl.sql:550-564 T_PersonOrgRelation *)
Definition t_personorgrelation : table_def := mk_table
  [id_column CBigint; references (not_null "person_id" D_EntityId) "t_person" Cascade;
   references (not_null "org_unit_id" D_EntityId) "t_orgunit" Cascade; not_null "relationship" (CEnum relationship_type);
   not_null "start_date" CDate; nullable_col "end_date" CDate; D_ActiveFlag "is_active"]
  [] [["person_id"; "org_unit_id"; "relationship"]%string] true true.
(* src: contact/db/contact_ddl.sql:567-580 T_PersonRole *)
Definition t_personrole : table_def := mk_table
  [id_column CBigint; references (not_null "person_id" D_EntityId) "t_person" Cascade; references (not_null "role_id" D_EntityId) "t_role" Cascade;
   mk_column "assigned_date" CDate false Current_date None; nullable_col "end_date" CDate; D_Flag "is_primary" false]
  [] [["person_id"; "role_id"]%string] true true.
(* src: contact/db/contact_ddl.sql:587-608 T_DataVisibility *)
Definition t_datavisibility : table_def := mk_table
  [id_column CBigint; references (not_null "owner_person_id" D_EntityId) "t_person" Cascade; not_null "data_category" D_DataCategory;
   references (nullable_col "viewer_person_id" D_EntityId) "t_person" Cascade; references (nullable_col "viewer_role_id" D_EntityId) "t_role" Cascade;
   references (nullable_col "viewer_org_unit_id" D_EntityId) "t_orgunit" Cascade; D_Flag "can_view" true; D_Flag "can_edit" false]
  [chk_single_viewer] [] true true.

Definition schema : list (String.string * table_def) :=
  [("t_locale", t_locale); ("t_person", t_person); ("t_orgunit", t_orgunit); ("t_localizedorgunit", t_localizedorgunit);
   ("t_contactqualifier", t_contactqualifier); ("t_localizedcontactqualifier", t_localizedcontactqualifier); ("t_phone", t_phone);
   ("t_email", t_email); ("t_address", t_address); ("t_socialmedia", t_socialmedia); ("t_website", t_website); ("t_role", t_role);
   ("t_localizedrole", t_localizedrole); ("t_personorgrelation", t_personorgrelation); ("t_personrole", t_personrole);
   ("t_datavisibility", t_datavisibility)]%string.
Fixpoint find_table (l : list (String.string * table_def)) (t : String.string) : option table_def :=
  match l with [] => None | (n, d) :: l => if decide (n = t) then Some d else find_table l t end.
Definition table_of (t : String.string) : option table_def := find_table schema t.
Arguments table_of : simpl never.
Definition find_column (def : table_def) (name : String.string) : option column_def :=
  head (filter (fun c => col_name c = name) (t_columns def)).

(** The columns that refer to a table, in the order of their creation. *)
Definition references_to (target : String.string) : list (String.string * String.string * on_delete) :=
  flat_map (fun p => flat_map (fun c => match col_references c with
    | Some (t, a) => if decide (t = target) then [(fst p, col_name c, a)] else [] | None => [] end) (t_columns (snd p))) schema.
Arguments references_to : simpl never.

(** ** Facts *)

Lemma characters_nonempty s : Forall (fun g => g <> []) (characters s).
Proof.
  induction s as [|c s IH]; [done|]. cbn [characters]. unfold add_byte. destruct (characters s) as [|[|d g] gs]; [by apply Forall_singleton|by apply Forall_cons|].
  rewrite Forall_cons in IH. case_match; rewrite !Forall_cons; naive_solver.
Qed.

Lemma characters_cons c s : characters (c :: s) = add_byte c (characters s).
Proof. done. Qed.

Lemma characters_take n s : characters (concat (take n (characters s))) = take n (characters s).
Proof.
  revert n. induction s as [|c s IH]; intros n; [by destruct n|]. rewrite characters_cons.
  pose proof (characters_nonempty s) as Hne. destruct (characters s) as [|[|d g] gs] eqn:Hs; cbn [add_byte].
  - by destruct n as [|[|n]].
  - by apply Forall_inv in Hne.
  - destruct n as [|n]; [by case_match|]. destruct (continuation d) eqn:Hd.
    + cbn [take concat]. rewrite <- app_comm_cons, characters_cons. specialize (IH (Datatypes.S n)). cbn [take concat] in IH. rewrite IH.
      cbn [add_byte]. by rewrite Hd.
    + cbn [take concat app]. rewrite characters_cons, IH. destruct n as [|n]; cbn [take add_byte]; [done|]. by rewrite Hd.
Qed.

Lemma characters_concat s : concat (characters s) = s.
Proof.
  induction s as [|c s IH]; [done|]. cbn [characters]. unfold add_byte. destruct (characters s) as [|[|d g] gs]; cbn [concat app] in *.
  - by rewrite <- IH.
  - by rewrite IH.
  - case_match; cbn [concat app]; by rewrite IH.
Qed.

Lemma characters_length s : length (characters s) <= length s.
Proof.
  induction s as [|c s IH]; [done|]. cbn [characters]. unfold add_byte. destruct (characters s) as [|[|d g] gs]; [simpl; lia|simpl in *; lia|].
  case_match; simpl in *; lia.
Qed.

Lemma store_varchar_idem n s t : store_varchar n s = Some t -> store_varchar n t = Some t /\ length (characters t) <= n.
Proof.
  unfold store_varchar. destruct (Nat.leb_spec (length (characters s)) n) as [H|H].
  - intros [= <-]. by rewrite (proj2 (Nat.leb_le _ _) H).
  - case_match; [|done]. intros [= <-]. rewrite characters_take, length_take, (proj2 (Nat.leb_le _ _)) by lia. split; [done|lia].
Qed.

Lemma store_varchar_short n s : length s <= n -> store_varchar n s = Some s.
Proof. intros H. unfold store_varchar. by rewrite (proj2 (Nat.leb_le _ _)) by (pose proof (characters_length s); lia). Qed.

Lemma characters_spaces s k : characters (s ++ replicate k " "%char) = characters s ++ replicate k (W " ").
Proof.
  induction s as [|c s IH]; cbn [app characters].
  - induction k as [|k IH]; [done|]. cbn [replicate characters]. rewrite IH. by destruct k.
  - rewrite IH. destruct (characters s) as [|[|d g] gs]; [by destruct k|done|]. cbn. by destruct (continuation d).
Qed.

Lemma store_char_idem n s t : store_char n s = Some t -> store_char n t = Some t.
Proof.
  unfold store_char at 1. intros (u & Hu & [= <-])%bind_Some. apply store_varchar_idem in Hu as [Hu Hl].
  assert (H : length (characters (u ++ replicate (n - length (characters u)) " "%char)) = n)
    by (rewrite characters_spaces, length_app, length_replicate; lia).
  unfold store_char, store_varchar. rewrite (proj2 (Nat.leb_le _ _)) by lia. cbn [mbind option_bind]. rewrite H, Nat.sub_diag. cbn [replicate].
  by rewrite app_nil_r.
Qed.

Lemma store_varchar_no_nul n s t : store_varchar n s = Some t -> no_nul s -> no_nul t.
Proof.
  unfold store_varchar, no_nul. intros H Hs. case_match; [by injection H as <-|]. case_match; [|done]. injection H as <-.
  intros Hin. apply Hs. rewrite <- (characters_concat s), <- (take_drop n (characters s)), concat_app. apply elem_of_app. by left.
Qed.

Lemma store_char_no_nul n s t : store_char n s = Some t -> no_nul s -> no_nul t.
Proof.
  intros (u & Hu & [= <-])%bind_Some Hs. unfold no_nul. rewrite elem_of_app. intros [H|[H _]%elem_of_replicate]; [|done].
  by apply (store_varchar_no_nul _ _ _ Hu).
Qed.

Section laws.
Context {P : Postgres} {L : PostgresLaws P}.

(** What a column keeps, it keeps unchanged when it is stored again. *)
Lemma store_idem ty v w : store ty v = Some w -> store ty w = Some w.
Proof.
  destruct ty, v; intros H; cbn in H; repeat case_bool_decide; try (case_match; [|done]); try discriminate; simplify_eq/=;
    rewrite ?H0; try done; repeat (rewrite bool_decide_eq_true_2 by done); try done.
  all: apply fmap_Some in H as (t & Ht & ->); cbn.
  - rewrite bool_decide_eq_true_2 by (by eapply store_varchar_no_nul). by rewrite (proj1 (store_varchar_idem _ _ _ Ht)).
  - rewrite bool_decide_eq_true_2 by (by eapply store_char_no_nul). by rewrite (store_char_idem _ _ _ Ht).
  - by rewrite (numeric_law _ _ _ _ Ht).
Qed.

Lemma store_null ty : store ty VNull = Some VNull.
Proof. by destruct ty. Qed.
End laws.

(** ** The schema's own form *)

Lemma table_of_elem t def : table_of t = Some def -> (t, def) ∈ schema.
Proof.
  unfold table_of. induction schema as [|[n d] l IH]; simpl; [done|]. case_decide as H; [intros [= ->]; subst; by left|].
  intros H'. right. auto.
Qed.

(** What a computation over the schema shows of every table. *)
Lemma schema_forall (p : String.string -> table_def -> bool) t def :
  forallb (fun q => p (fst q) (snd q)) schema = true -> table_of t = Some def -> p t def = true.
Proof. intros H Ht%table_of_elem%list_elem_of_In. exact (proj1 (forallb_forall _ _) H _ Ht). Qed.

Lemma find_column_Some def n c : find_column def n = Some c -> c ∈ t_columns def /\ col_name c = n.
Proof.
  unfold find_column. intros H%head_Some_elem_of. apply list_elem_of_filter in H. tauto.
Qed.

Lemma columns_distinct t def : table_of t = Some def -> NoDup (map col_name (t_columns def)).
Proof.
  intros H. apply (bool_decide_eq_true_1 _). revert H. exact (schema_forall (fun _ def => bool_decide (NoDup (map col_name (t_columns def)))) t def eq_refl).
Qed.

Lemma find_column_own t def c : table_of t = Some def -> c ∈ t_columns def -> find_column def (col_name c) = Some c.
Proof.
  intros Ht%columns_distinct Hc. unfold find_column. induction (t_columns def) as [|c' cs IH]; [by apply not_elem_of_nil in Hc|].
  cbn in Ht. apply NoDup_cons in Ht as [Hn Hd]. destruct (decide (col_name c' = col_name c)) as [E|E].
  - rewrite filter_cons_True by done. apply elem_of_cons in Hc as [->|Hc]; [done|]. destruct Hn. rewrite E. by apply list_elem_of_fmap_2.
  - rewrite filter_cons_False by done. apply elem_of_cons in Hc as [->|Hc]; [done|]. by apply IH.
Qed.

(** ... and of every column. *)
Lemma column_forall (p : String.string -> column_def -> bool) t def c :
  forallb (fun q => forallb (p (fst q)) (t_columns (snd q))) schema = true -> table_of t = Some def -> c ∈ t_columns def -> p t c = true.
Proof.
  intros H Ht Hc. pose proof (schema_forall (fun t def => forallb (p t) (t_columns def)) t def H Ht) as H'.
  rewrite forallb_forall in H'. apply H'. by apply list_elem_of_In.
Qed.

(** A search vector is written by triggers only: it may be NULL and refers to nothing. *)
Lemma search_vector_column t def c : table_of t = Some def -> c ∈ t_columns def -> col_name c = "search_vector"%string ->
  col_type c = CTsvector /\ col_not_null c = false /\ col_references c = None.
Proof.
  intros Ht Hc Hn.
  pose proof (column_forall (fun _ c => negb (bool_decide (col_name c = "search_vector"%string))
    || (bool_decide (col_type c = CTsvector) && negb (col_not_null c) && match col_references c with None => true | _ => false end))
    t def c eq_refl Ht Hc) as H.
  cbn beta in H. rewrite bool_decide_eq_true_2 in H by done. cbn in H.
  rewrite !andb_true_iff, bool_decide_eq_true in H. destruct H as [[H1 H2%negb_true_iff] H3]. split; [done|]. split; [done|]. by case_match.
Qed.

Lemma table_of_schema t def : (t, def) ∈ schema -> table_of t = Some def.
Proof.
  intros H%list_elem_of_In. cbn in H. repeat (destruct H as [[= <- <-]|H]; [done|]). destruct H.
Qed.

Lemma references_to_elem target t c a : (t, c, a) ∈ references_to target <->
  exists def col, table_of t = Some def /\ col ∈ t_columns def /\ col_name col = c /\ col_references col = Some (target, a).
Proof.
  unfold references_to. rewrite list_elem_of_In, in_flat_map. split.
  - intros ([t' def] & Ht%list_elem_of_In%table_of_schema & Hc). cbn in Hc. apply in_flat_map in Hc as (col & Hcol%list_elem_of_In & H).
    destruct (col_references col) as [[t0 a0]|] eqn:Hr; [|done]. case_decide; [|done]. destruct H as [[= <- <- <-]|[]]. subst. eauto 10.
  - intros (def & col & Ht & Hcol & <- & Hr). exists (t, def). split; [by apply list_elem_of_In, table_of_elem|].
    apply in_flat_map. exists col. split; [by apply list_elem_of_In|]. rewrite Hr, decide_True by done. by left.
Qed.

(** What the program's references are like: only a unit refers to its own table, and it is only there that a deletion
    sets a column to NULL; a table is created after those it refers to; the rows taken away are never those of a language
    or of a qualifier. *)
Definition position (t : String.string) : nat := default 0 (fst <$> list_find (fun p => fst p = t) schema).
Lemma references_shape t def c target a : table_of t = Some def -> c ∈ t_columns def -> col_references c = Some (target, a) ->
  col_name c <> "id"%string /\ col_name c <> "search_vector"%string /\ col_name c <> "keywords"%string
  /\ (a = SetNull <-> t = "t_orgunit"%string) /\ (t = "t_orgunit"%string -> c = references (nullable_col "parent_id" D_EntityId) "t_orgunit" SetNull)
  /\ (t <> "t_orgunit"%string -> position target < position t)
  /\ (a <> NoAction -> t <> "t_locale"%string /\ t <> "t_contactqualifier"%string)
  /\ (a = NoAction <-> target = "t_locale"%string \/ target = "t_contactqualifier"%string /\ t <> "t_localizedcontactqualifier"%string)
  /\ (t = "t_localizedorgunit"%string -> a <> NoAction -> target = "t_orgunit"%string /\ col_name c = "org_unit_id"%string).
Proof.
  intros Ht%table_of_elem%list_elem_of_In. cbn in Ht. intros Hc%list_elem_of_In Hr.
  repeat (destruct Ht as [[= <- <-]|Ht]; [cbn in Hc; repeat (destruct Hc as [<-|Hc]; [cbn in Hr; try discriminate Hr; injection Hr as <- <-;
    (repeat split; try discriminate; try (vm_compute; lia); try tauto; naive_solver)|]); destruct Hc|]). destruct Ht.
Qed.

(** ** An instance *)

(** Enough of a server for the schema to run on: what a search looks for is looked for as a part of the text. *)
Fixpoint occurs (q s : str) : bool := bool_decide (take (length q) s = q) || match s with [] => false | _ :: s => occurs q s end.
Definition plain_postgres : Postgres := {|
  numeric _ _ x := Some x; tsvector l := filter (fun c => c <> NULL_CHAR) (concat (map fst l)); ts_match v _ q := occurs q v;
  ts_rank _ _ _ := 0%Z; session_user := W "mg"; timestamp_text := decimal; json_text _ := W "{}";
  timestamp_of v := match v with VInt z => Some z | _ => None end |}.
#[export] Instance plain_laws : PostgresLaws plain_postgres.
Proof.
  split; cbn.
  - by intros p s x y [= ->].
  - split; [apply (bool_decide_unpack _); vm_compute; exact I|lia].
  - intros l [H _]%list_elem_of_filter. by apply H.
Qed.
