(* ===== verification/Tables.v ===== *)
(** * The tables at work (contact/db/contact_ddl.sql)

    The contents of the database, and what one INSERT, UPDATE or DELETE does to them: defaults, the triggers that run
    before the row is stored, constraints, and then the queue of events whose triggers run after it - checks of
    references, ON DELETE actions, the audit log, the refresh of a unit's search vector - until it is empty.  A statement that fails leaves the contents
    as they were, except for the sequences, which are not given back. *)
From stdpp Require Import gmap strings.
From S2P Require Import Prelude Sql Schema.

(** ** The contents *)

(* src: contact/db/contact_ddl.sql:137-144 create_audit_log *)
Record log_entry := mk_log { log_id : Z; action : ascii; action_by : str; action_at : Z; old_data : option row; new_data : option row }.
(** Rows by table and key, the last value of every sequence, the log tables, and the time of the transaction. *)
Record contents := mk_contents { data : gmap String.string (gmap Z row); serial : gmap str Z; logs : gmap str (list log_entry); clock : Z }.

Definition table (d : contents) (t : String.string) : gmap Z row := default ∅ (data d !! t).
Definition set_table (t : String.string) (m : gmap Z row) (d : contents) : contents := mk_contents (<[t := m]> (data d)) (serial d) (logs d) (clock d).
Definition log_of (d : contents) (log : str) : list log_entry := default [] (logs d !! log).

(** A row that was stored, changed or taken away, whose triggers have not run yet. *)
Inductive event : Type :=
  | Inserted (t : String.string) (r : row)
  | Updated (t : String.string) (old new : row)
  | Removed (t : String.string) (r : row).
Definition event_table (e : event) : String.string := match e with Inserted t _ | Updated t _ _ | Removed t _ => t end.
(** NEW, or OLD where there is none. *)
Definition event_row (e : event) : row := match e with Inserted _ r | Updated _ _ r | Removed _ r => r end.

(** ** Statements in progress *)

(** A step of a statement; [None] is an error, after which the statement is rolled back. *)
Definition tx (A : Type) : Type := contents -> contents * option A.
#[export] Instance tx_ret : MRet tx := fun A a d => (d, Some a).
#[export] Instance tx_bind : MBind tx := fun A B f m d => match m d with (d, Some a) => f a d | (d, None) => (d, None) end.
Definition try {A} (o : option A) : tx A := fun d => (d, o).
Definition ensure (P : Prop) `{Decision P} : tx unit := try (if decide P then Some tt else None).
Definition reading {A} (f : contents -> A) : tx A := fun d => (d, Some (f d)).
Definition changing (f : contents -> contents) : tx unit := fun d => (f d, Some tt).
Definition atomically {A} (m : tx A) : tx A := fun d =>
  match m d with
  | (d', Some a) => (d', Some a)
  | (d', None) => (mk_contents (data d) (serial d') (logs d) (clock d), None)
  end.

Definition nextval (seq : str) : tx Z := fun d =>
  let n := (default 0 (serial d !! seq) + 1)%Z in (mk_contents (data d) (<[seq := n]> (serial d)) (logs d) (clock d), Some n).

(** The key of a row. *)
Definition int_of (v : sval) : option Z := match v with VInt z => Some z | _ => None end.

(** ** Names *)

Definition lower (c : ascii) : ascii := if ((65 <=? byte_val c) && (byte_val c <=? 90))%Z then byte_of_Z (byte_val c + 32) else c.
(* src: contact/db/contact_ddl.sql:132-134 create_audit_log *)
Definition create_audit_log (p_table : str) : str :=
  let v_tbl := map lower p_table in
  let v_base := drop 2 v_tbl in
  W "t_log_" ++ v_base.
Definition log_name (t : String.string) : str := create_audit_log (W t).

Section tables.
Context {C : Scalars} {P : Postgres}.

(** ** Rows *)

Definition default_of (c : column_def) : sval := match col_default c with Value v => v | Current_date => VDate today end.
Definition new_row (def : table_def) (vs : list (String.string * sval)) : option row :=
  list_to_map <$> mapM (fun c => pair (col_name c) <$> store (col_type c) (default (default_of c) (lookup_bind vs (col_name c)))) (t_columns def).
Definition assigned (def : table_def) (vs : list (String.string * sval)) : option (list (String.string * sval)) :=
  mapM (fun p => c ← find_column def (fst p); pair (fst p) <$> store (col_type c) (snd p)) vs.

Definition satisfies (def : table_def) (r : row) : Prop :=
  Forall (fun c => col_not_null c = true -> column (col_name c) r <> VNull) (t_columns def)
  /\ Forall (fun check => check r = true) (t_checks def).
#[export] Instance satisfies_dec def r : Decision (satisfies def r).
Proof. unfold satisfies. apply _. Defined.

(** A key is taken when its columns are equal and none is NULL. *)
Definition same_key (key : list String.string) (r s : row) : Prop := Forall (fun c => column c r = column c s /\ column c r <> VNull) key.
#[export] Instance same_key_dec key r s : Decision (same_key key r s).
Proof. unfold same_key. apply _. Defined.
Definition free_keys (def : table_def) (m : gmap Z row) (id : Z) (r : row) : Prop :=
  Forall (fun key => map_Forall (fun k s => k = id \/ ~ same_key key r s) m) (t_unique def).
#[export] Instance free_keys_dec def m id r : Decision (free_keys def m id r).
Proof. unfold free_keys. apply _. Defined.

(** ** Search vectors *)

Definition text_or_empty (v : sval) : str := match v with VText s => s | _ => [] end.
(* src: contact/db/contact_ddl.sql:325-338 fn_person_search_vector *)
Definition fn_person_search_vector (r : row) : row :=
  <["search_vector"%string := VText (tsvector
      [(text_or_empty (column "first_name" r), "A"%char); (text_or_empty (column "middle_name" r), "B"%char);
       (text_or_empty (column "last_name" r), "A"%char); (text_or_empty (column "federal_tax_id" r), "C"%char);
       (text_or_empty (column "identification_number" r), "C"%char); (text_or_empty (column "keywords" r), "B"%char)])]> r.
Definition is_default_locale (d : contents) (locale : sval) : Prop :=
  match locale with VInt l => match table d "t_locale" !! l with Some r => column "is_default" r = VBool true | None => False end | _ => False end.
#[export] Instance is_default_locale_dec d l : Decision (is_default_locale d l).
Proof. destruct l; simpl; try apply _. case_match; apply _. Defined.
(** The name of a unit in a default language, where it has one. *)
(* src: contact/db/contact_ddl.sql:352-355 fn_orgunit_search_vector *)
Definition default_name (d : contents) (unit_id : sval) : sval :=
  default VNull (column "name" <$> head (filter (fun r => column "org_unit_id" r = unit_id /\ is_default_locale d (column "locale_id" r))
    (snd <$> map_to_list (table d "t_localizedorgunit")))).
(* src: contact/db/contact_ddl.sql:347-363 fn_orgunit_search_vector *)
Definition fn_orgunit_search_vector (d : contents) (r : row) : row :=
  let v_name := default_name d (column "id" r) in
  <["search_vector"%string := VText (tsvector
      [(text_or_empty v_name, "A"%char); (text_or_empty (column "federal_tax_id" r), "C"%char); (text_or_empty (column "keywords" r), "B"%char)])]> r.

(** The BEFORE triggers of an INSERT, and of an UPDATE of these columns. *)
(* src: contact/db/contact_ddl.sql:340-344 trg_person_search_vector *)
Definition trg_person_search_vector : list String.string :=
  ["first_name"; "middle_name"; "last_name"; "federal_tax_id"; "identification_number"; "keywords"].
(* src: contact/db/contact_ddl.sql:365-368 trg_orgunit_search_vector *)
Definition trg_orgunit_search_vector : list String.string := ["federal_tax_id"; "keywords"].
Definition before (d : contents) (t : String.string) (update_of : option (list String.string)) (r : row) : row :=
  let fires (cols : list String.string) := match update_of with None => true | Some names => existsb (fun n => bool_decide (n ∈ cols)) names end in
  if decide (t = "t_person"%string) then if fires trg_person_search_vector then fn_person_search_vector r else r
  else if decide (t = "t_orgunit"%string) then if fires trg_orgunit_search_vector then fn_orgunit_search_vector d r else r
  else r.

(** ** One row *)

Definition do_insert (t : String.string) (vs : list (String.string * sval)) : tx (Z * list event) :=
  def ← try (table_of t);
  _ ← ensure (NoDup vs.*1 /\ Forall (fun n => is_Some (find_column def n)) vs.*1);
  vs ← if t_serial def && negb (bool_decide ("id"%string ∈ vs.*1)) then n ← nextval (W t); mret (("id"%string, VInt n) :: vs) else mret vs;
  r ← try (new_row def vs);
  r ← reading (fun d => before d t None r);
  _ ← ensure (satisfies def r);
  id ← try (int_of (column "id" r));
  m ← reading (fun d => table d t);
  _ ← ensure (m !! id = None);
  _ ← ensure (free_keys def m id r);
  _ ← changing (set_table t (<[id := r]> m));
  mret (id, [Inserted t r]).

(** The data layer never assigns a key. *)
Definition do_update (t : String.string) (id : Z) (vs : list (String.string * sval)) : tx (list event) :=
  def ← try (table_of t);
  _ ← ensure (NoDup vs.*1 /\ "id"%string ∉ vs.*1);
  m ← reading (fun d => table d t);
  r ← try (m !! id);
  vs ← try (assigned def vs);
  r' ← reading (fun d => before d t (Some vs.*1) (list_to_map vs ∪ r));
  _ ← ensure (satisfies def r');
  _ ← ensure (free_keys def m id r');
  _ ← changing (set_table t (<[id := r']> m));
  mret [Updated t r r'].

Definition do_delete (t : String.string) (id : Z) : tx (list event) :=
  _ ← try (table_of t);
  m ← reading (fun d => table d t);
  r ← try (m !! id);
  _ ← changing (set_table t (delete id m));
  mret [Removed t r].

(** ** The triggers of an event *)

(** A reference is NULL or the key of a row. *)
Definition refers (d : contents) (r : row) (c : column_def) : Prop :=
  match col_references c, column (col_name c) r with
  | Some (target, _), VInt i => is_Some (table d target !! i)
  | _, _ => True
  end.
#[export] Instance refers_dec d r c : Decision (refers d r c).
Proof. unfold refers. repeat case_match; apply _. Defined.
Definition check_references (t : String.string) (checked : column_def -> Prop) `{forall c, Decision (checked c)} (r : row) : tx unit :=
  def ← try (table_of t);
  ok ← reading (fun d => bool_decide (Forall (fun c => checked c -> refers d r c) (t_columns def)));
  ensure (ok = true).

(** [current_setting('app.current_user', TRUE)], or the session's user. *)
(* src: contact/db/contact_ddl.sql:99-103 fn_audit_log *)
Definition current_user (v : vars) : str := match v !! APP_USER with None | Some [] => session_user | Some u => u end.
Definition event_action (e : event) : ascii := match e with Inserted _ _ => "C"%char | Updated _ _ _ => "U"%char | Removed _ _ => "D"%char end.
Definition event_old (e : event) : option row := match e with Inserted _ _ => None | Updated _ r _ | Removed _ r => Some r end.
Definition event_new (e : event) : option row := match e with Inserted _ r | Updated _ _ r => Some r | Removed _ _ => None end.
(* src: contact/db/contact_ddl.sql:66-66 D_AuditUser *)
Definition audit_user (v : vars) : option str := match store D_AuditUser (VText (current_user v)) with Some (VText u) => Some u | _ => None end.
(* src: contact/db/contact_ddl.sql:92-125 fn_audit_log *)
Definition fn_audit_log (v : vars) (log : str) (e : event) : tx unit :=
  n ← nextval log;
  user ← try (audit_user v);
  changing (fun d => mk_contents (data d) (serial d)
    (<[log := log_of d log ++ [mk_log n (event_action e) user (clock d) (event_old e) (event_new e)]]> (logs d)) (clock d)).
(** The trigger exists on the tables [create_audit_log] was called for. *)
(* src: contact/db/contact_ddl.sql:153-157 create_audit_log *)
Definition trg_audit (v : vars) (e : event) : tx unit :=
  def ← try (table_of (event_table e));
  if t_audited def then fn_audit_log v (log_name (event_table e)) e else mret tt.

(** The UPDATE is a statement of its own, and its triggers run before the function returns: the columns of the unit
    that refer to something are unchanged, so only the audit is left. *)
(* src: contact/db/contact_ddl.sql:371-379 fn_localized_orgunit_refresh_search *)
Definition fn_localized_orgunit_refresh_search (v : vars) (e : event) : tx unit :=
  match column "org_unit_id" (event_row e) with
  | VInt u =>
      m ← reading (fun d => table d "t_orgunit");
      match m !! u with
      | None => mret tt
      | Some r => new ← do_update "t_orgunit" u [("keywords"%string, column "keywords" r)]; _ ← mapM (trg_audit v) new; mret tt
      end
  | _ => mret tt
  end.
(* src: contact/db/contact_ddl.sql:381-383 trg_localized_orgunit_refresh *)
Definition trg_localized_orgunit_refresh (v : vars) (e : event) : tx unit :=
  if decide (event_table e = "t_localizedorgunit"%string) then fn_localized_orgunit_refresh_search v e else mret tt.

(** The rows of a table that refer to a key. *)
Definition referring (c : String.string) (id : Z) (m : gmap Z row) : gmap Z row := filter (fun p => column c (snd p) = VInt id) m.
(** What the deletion of the row with this key does to the rows that refer to it. *)
Definition on_reference (id : Z) (ref : String.string * String.string * on_delete) : tx (list event) :=
  let '(t, c, a) := ref in
  m ← reading (fun d => table d t);
  let found := map_to_list (referring c id m) in
  match a with
  | NoAction => _ ← ensure (found = []); mret []
  | Cascade => _ ← changing (set_table t (filter (fun p => column c (snd p) <> VInt id) m)); mret (map (fun p => Removed t (snd p)) found)
  | SetNull => queued ← mapM (fun p => do_update t (fst p) [(c, VNull)]) found; mret (concat queued)
  end.

(** The triggers of one event, in the order of their names; what they queue comes after what is queued already. *)
Definition fire (v : vars) (e : event) : tx (list event) :=
  new ← match e with
        | Inserted t r => _ ← check_references t (fun _ => True) r; mret []
        | Updated t r r' => _ ← check_references t (fun c => column (col_name c) r <> column (col_name c) r') r'; mret []
        | Removed t r => id ← try (int_of (column "id" r)); queued ← mapM (on_reference id) (references_to t); mret (concat queued)
        end;
  _ ← trg_audit v e;
  _ ← trg_localized_orgunit_refresh v e;
  mret new.
Fixpoint run (fuel : nat) (v : vars) (queue : list event) : tx unit :=
  match queue with
  | [] => mret tt
  | e :: queue => match fuel with 0 => try None | Datatypes.S fuel => new ← fire v e; run fuel v (queue ++ new) end
  end.

(** ** Statements *)

Definition total_rows (d : contents) : nat := sum_list (map (fun p => size (table d (fst p))) schema).
(** The events there can be: a row is taken away once, and a unit loses its parent once. *)
Definition enough (d : contents) (queue : list event) : nat := 2 * total_rows d + length queue.
Definition finish (v : vars) (queue : list event) : tx unit := fuel ← reading (fun d => enough d queue); run fuel v queue.

Definition modify (v : vars) (s : stmt) (b : binds) : tx (list (list sval)) :=
  match s with
  | Insert t sets =>
      vs ← try (assign b ∅ sets); '(id, queue) ← do_insert t vs; _ ← finish v queue; mret [[VInt id]]
  | Update t sets e =>
      id ← try (eval ∅ b e ≫= int_of); m ← reading (fun d => table d t);
      match m !! id with
      | None => mret []
      | Some r => vs ← try (assign b r sets); queue ← do_update t id vs; _ ← finish v queue; mret [[VInt id]]
      end
  | Delete t e =>
      id ← try (eval ∅ b e ≫= int_of); m ← reading (fun d => table d t);
      match m !! id with
      | None => mret []
      | Some r => queue ← do_delete t id; _ ← finish v queue; mret [[VInt id]]
      end
  | _ => try None
  end.
End tables.
