(* ===== verification/Changes.v ===== *)
(** * What a statement changes

    Every change of a table is the event it queues ([apply_event]); a step of a statement makes a list of changes,
    and its effect on the logs is another matter.  [wp] reasons about a step that may fail; with [F] false it
    proves that it does not. *)
From stdpp Require Import gmap strings.
From S2P Require Import Prelude Sql Schema Tables.

(** ** Steps *)
Implicit Types (F : Prop) (d : contents).

Definition wp {A} (F : Prop) (m : tx A) (Q : A -> contents -> Prop) (d : contents) : Prop :=
  match m d with (d', Some a) => Q a d' | (_, None) => F end.

Lemma wp_ret {A} F (a : A) Q d : Q a d -> wp F (mret a) Q d.
Proof. done. Qed.
Lemma wp_bind {A B} F (m : tx A) (f : A -> tx B) Q d : wp F m (fun a => wp F (f a) Q) d -> wp F (m ≫= f) Q d.
Proof. unfold wp, mbind, tx_bind. by destruct (m d) as [d' [a|]]. Qed.
Lemma wp_bind_assoc {A B D} F (m : tx A) (f : A -> tx B) (g : B -> tx D) Q d : wp F ((m ≫= f) ≫= g) Q d -> wp F (a ← m; f a ≫= g) Q d.
Proof. unfold wp, mbind, tx_bind. by destruct (m d) as [d' [a|]]. Qed.
Lemma wp_mono {A} F (m : tx A) (Q Q' : A -> contents -> Prop) d : wp F m Q d -> (forall a d', Q a d' -> Q' a d') -> wp F m Q' d.
Proof. unfold wp. destruct (m d) as [d' [a|]]; auto. Qed.
Lemma wp_try {A} F (o : option A) Q d : (forall a, o = Some a -> Q a d) -> (o = None -> F) -> wp F (try o) Q d.
Proof. unfold wp, try. destruct o; auto. Qed.
Lemma wp_ensure F (P : Prop) `{Decision P} Q d : (P -> Q tt d) -> (~ P -> F) -> wp F (ensure P) Q d.
Proof. unfold ensure. intros HQ HF. apply wp_try; destruct (decide P); naive_solver. Qed.
Lemma wp_reading {A} F (f : contents -> A) Q d : Q (f d) d -> wp F (reading f) Q d.
Proof. done. Qed.
Lemma wp_changing F f (Q : unit -> contents -> Prop) d : Q tt (f d) -> wp F (changing f) Q d.
Proof. done. Qed.
Lemma wp_result {A} F (m : tx A) Q d d' a : wp F m Q d -> m d = (d', Some a) -> Q a d'.
Proof. unfold wp. intros H E. by rewrite E in H. Qed.
Lemma wp_total {A} (m : tx A) Q d : wp False m Q d -> exists d' a, m d = (d', Some a) /\ Q a d'.
Proof. unfold wp. destruct (m d) as [d' [a|]]; naive_solver. Qed.
Lemma wp_and {A} F (m : tx A) (Q Q' : A -> contents -> Prop) d : wp F m Q d -> wp True m Q' d -> wp F m (fun a d' => Q a d' /\ Q' a d') d.
Proof. unfold wp. destruct (m d) as [d' [a|]]; auto. Qed.

(** A loop over a list, with what holds before each part of it. *)
Lemma wp_mapM {A B} F (f : A -> tx B) (I : list A -> list B -> contents -> Prop) l ys d :
  I l ys d -> (forall x rest ys d, I (x :: rest) ys d -> wp F (f x) (fun y => I rest (ys ++ [y])) d) ->
  wp F (mapM f l) (fun zs => I [] (ys ++ zs)) d.
Proof.
  intros HI Hs. revert ys d HI. induction l as [|x l IH]; intros ys d HI; cbn [mapM].
  - apply wp_ret. by rewrite app_nil_r.
  - apply wp_bind. eapply wp_mono; [exact (Hs _ _ _ _ HI)|]. intros y d' HI'. apply wp_bind. eapply wp_mono; [exact (IH _ _ HI')|].
    intros zs d'' H. apply wp_ret. cbv beta in *. by rewrite <- app_assoc in H.
Qed.

(** Symbolic execution of a step. *)
Ltac wp_step :=
  lazymatch goal with
  | |- wp _ (mret _) _ _ => apply wp_ret
  | |- wp _ (_ ≫= _) _ _ => apply wp_bind
  | |- wp _ (try _) _ _ => apply wp_try; [intros ? ?|intros ?]
  | |- wp _ (ensure _) _ _ => apply wp_ensure; [intros ?|intros ?]
  | |- wp _ (reading _) _ _ => apply wp_reading
  | |- wp _ (changing _) _ _ => apply wp_changing
  end; cbv beta.

(** ** Tables *)

Lemma table_set d t m u : table (set_table t m d) u = if decide (u = t) then m else table d u.
Proof.
  unfold table, set_table. cbn. destruct (decide (u = t)) as [->|H]; [by rewrite lookup_insert_eq|by rewrite lookup_insert_ne].
Qed.
Lemma table_ext d d' : data d' = data d -> forall t, table d' t = table d t.
Proof. intros H t. unfold table. by rewrite H. Qed.

(** ** Changes *)

Definition row_id (r : row) : option Z := int_of (column "id" r).

(** An entry of the log, or an event, replayed on a table: [None] when it does not fit. *)
Definition replay_one (m : gmap Z row) (e : option row * option row) : option (gmap Z row) :=
  match e with
  | (None, Some r) => id ← row_id r; if decide (m !! id = None) then Some (<[id := r]> m) else None
  | (Some r, Some r') => id ← row_id r; if decide (m !! id = Some r /\ row_id r' = Some id) then Some (<[id := r']> m) else None
  | (Some r, None) => id ← row_id r; if decide (m !! id = Some r) then Some (delete id m) else None
  | (None, None) => None
  end.
Definition event_rows (e : event) : option row * option row := (event_old e, event_new e).

Section changes.
Context {C : Scalars} {P : Postgres}.

(** The columns of a row hold values of their types. *)
Definition typed (def : table_def) (r : row) : Prop :=
  Forall (fun c => exists v, r !! col_name c = Some v /\ store (col_type c) v = Some v) (t_columns def).
(** A row that may be stored under a key. *)
Definition acceptable_row (def : table_def) (m : gmap Z row) (id : Z) (r : row) : Prop := satisfies def r /\ free_keys def m id r.

(** A step leaves logs and clock alone, and the tables too. *)
Definition quiet (d d' : contents) : Prop := logs d' = logs d /\ clock d' = clock d.

(** The change an event stands for. *)
Definition change (e : event) (d d' : contents) : Prop :=
  quiet d d' /\
  exists m def, replay_one (table d (event_table e)) (event_rows e) = Some m /\ (forall u, table d' u = if decide (u = event_table e) then m else table d u)
    /\ table_of (event_table e) = Some def
    /\ match event_new e with
       | None => True
       | Some r => match row_id r with None => False | Some id => acceptable_row def (table d (event_table e)) id r end
                   /\ match event_old e with None => typed def r | Some r0 => typed def r0 -> typed def r end
       end.
Fixpoint changes (es : list event) (d d' : contents) : Prop :=
  match es with [] => quiet d d' /\ (forall t, table d' t = table d t) | e :: es => exists d1, change e d d1 /\ changes es d1 d' end.

Lemma quiet_refl d : quiet d d.
Proof. done. Qed.
Lemma quiet_trans d1 d2 d3 : quiet d1 d2 -> quiet d2 d3 -> quiet d1 d3.
Proof. intros [] []. split; congruence. Qed.

Lemma changes_quiet es d d' : changes es d d' -> quiet d d'.
Proof.
  revert d. induction es as [|e es IH]; intros d; cbn; [tauto|]. intros (d1 & [H _] & H'). eapply quiet_trans; eauto.
Qed.

Lemma changes_app es fs d d' : changes (es ++ fs) d d' <-> exists d1, changes es d d1 /\ changes fs d1 d'.
Proof.
  revert d. induction es as [|e es IH]; intros d; cbn.
  - split; [intros H; by exists d|]. intros (d1 & [Hq Hd] & H). destruct fs as [|f fs]; cbn in *.
    + destruct H as [H1 H2]. split; [by eapply quiet_trans|]. intros t. by rewrite H2, Hd.
    + destruct H as (d2 & [H1 H2] & H3). exists d2. split; [|done]. split; [by eapply quiet_trans|]. destruct H2 as (m & def & Hm & Hu & H2).
      exists m, def. rewrite <- (Hd (event_table f)). split; [done|]. split; [|done]. intros u. rewrite Hu. case_decide; [done|apply Hd].
  - setoid_rewrite IH. naive_solver.
Qed.
Lemma changes_one e d d' : change e d d' -> changes [e] d d'.
Proof. intros H. by exists d'. Qed.
Lemma changes_snoc es e d d1 d' : changes es d d1 -> change e d1 d' -> changes (es ++ [e]) d d'.
Proof. intros H1 H2. apply changes_app. exists d1. split; [done|by apply changes_one]. Qed.
End changes.

(** ** The steps as changes *)
Section steps.
Context {C : Scalars} {P : Postgres} {L : PostgresLaws P}.

(** Columns by name, and the rows they are stored in. *)
Lemma before_cases d t names r :
  before d t names r = r \/ exists l, before d t names r = <["search_vector"%string := VText (tsvector l)]> r.
Proof.
  unfold before. repeat case_decide; try (by left); case_match; try (by left); right; by eexists.
Qed.

Lemma before_lookup d t names r c : c <> "search_vector"%string -> before d t names r !! c = r !! c.
Proof. intros H. destruct (before_cases d t names r) as [->|[l ->]]; [done|]. by rewrite lookup_insert_ne. Qed.
Lemma before_column d t names r c : c <> "search_vector"%string -> column c (before d t names r) = column c r.
Proof. intros H. unfold column. by rewrite before_lookup. Qed.

Lemma before_typed d t names def r : table_of t = Some def -> typed def r -> typed def (before d t names r).
Proof.
  intros Ht Hr. unfold typed in *. rewrite Forall_forall in *. intros c Hc. destruct (Hr c Hc) as (v & Hv & Hs).
  destruct (before_cases d t names r) as [->|[l ->]]; [by exists v|]. destruct (decide (col_name c = "search_vector"%string)) as [E|E].
  - rewrite E, lookup_insert_eq. eexists. split; [done|]. destruct (search_vector_column t def c Ht Hc E) as [-> _]. cbn.
    by rewrite bool_decide_eq_true_2 by apply tsvector_law.
  - rewrite lookup_insert_ne by done. by exists v.
Qed.

Lemma new_row_typed t def vs r : table_of t = Some def -> new_row def vs = Some r -> typed def r.
Proof.
  intros Ht (l & Hl & ->)%fmap_Some. pose proof (columns_distinct t def Ht) as Hd. unfold typed. rewrite Forall_forall. intros c Hc.
  apply mapM_Some in Hl. clear Ht. revert c Hc. induction Hl as [|c0 p cs l Hp Hl IH]; intros c Hc; [by apply not_elem_of_nil in Hc|].
  apply fmap_Some in Hp as (w & Hw & ->). cbn in Hd. apply NoDup_cons in Hd as [Hn Hd]. apply elem_of_cons in Hc as [->|Hc]; cbn.
  - exists w. rewrite lookup_insert_eq. split; [done|]. by eapply store_idem.
  - rewrite lookup_insert_ne; [by apply IH|]. intros E. apply Hn. rewrite E. by apply list_elem_of_fmap_2.
Qed.

Lemma assigned_names def vs ws : assigned def vs = Some ws -> ws.*1 = vs.*1.
Proof.
  intros H%mapM_Some. induction H as [|[n v] p vs ws Hp _ IH]; [done|]. cbn in Hp.
  apply bind_Some in Hp as (c & _ & (w & _ & ->)%fmap_Some). cbn. by rewrite IH.
Qed.

Lemma assigned_lookup def vs ws n w : assigned def vs = Some ws -> (list_to_map ws : row) !! n = Some w ->
  exists c v, find_column def n = Some c /\ store (col_type c) v = Some w.
Proof.
  intros H%mapM_Some. induction H as [|[m v] p vs ws Hp _ IH]; [done|]. cbn in Hp.
  apply bind_Some in Hp as (c & Hc & (u & Hu & ->)%fmap_Some). cbn. destruct (decide (m = n)) as [->|E].
  - rewrite lookup_insert_eq. intros [= <-]. by exists c, v.
  - by rewrite lookup_insert_ne.
Qed.

Lemma assigned_typed t def vs ws r : table_of t = Some def -> assigned def vs = Some ws -> typed def r -> typed def (list_to_map ws ∪ r).
Proof.
  intros Ht Ha Hr. unfold typed in *. rewrite Forall_forall in *. intros c Hc.
  destruct ((list_to_map ws : row) !! col_name c) as [w|] eqn:Hw.
  - exists w. split; [by apply lookup_union_Some_l|]. destruct (assigned_lookup _ _ _ _ _ Ha Hw) as (c' & v & Hc' & Hv).
    rewrite (find_column_own t def c Ht Hc) in Hc'. injection Hc' as <-. by eapply store_idem.
  - destruct (Hr c Hc) as (v & Hv & Hs). exists v. by rewrite lookup_union_r.
Qed.

(** Rows are kept under their keys. *)
Definition keyed (d : contents) : Prop := forall t k r, table d t !! k = Some r -> row_id r = Some k.

Lemma do_insert_change t vs d :
  wp True (do_insert t vs) (fun p d' => exists r, p.2 = [Inserted t r] /\ row_id r = Some p.1 /\ change (Inserted t r) d d') d.
Proof.
  unfold do_insert. wp_step. wp_step; [|done]. wp_step. wp_step; [|done]. wp_step.
  assert (Hmain : forall vs d1, quiet d d1 /\ (forall u, table d1 u = table d u) ->
    wp True (r ← try (new_row a vs); r ← reading (fun d => before d t None r); _ ← ensure (satisfies a r); id ← try (int_of (column "id" r));
       m ← reading (fun d => table d t); _ ← ensure (m !! id = None); _ ← ensure (free_keys a m id r);
       _ ← changing (set_table t (<[id := r]> m)); mret (id, [Inserted t r]))
     (fun p d' => exists r, p.2 = [Inserted t r] /\ row_id r = Some p.1 /\ change (Inserted t r) d d') d1).
  { intros ws d1 [Hq Hd]. repeat (wp_step; try done). exists (before d1 t None a0). split; [done|]. split; [done|].
    split; [by destruct Hq|]. exists (<[a1 := before d1 t None a0]> (table d t)), a. cbn. rewrite <- (Hd t).
    unfold row_id. rewrite H3. cbn. rewrite decide_True by done. split; [done|]. split; [|split; [done|split; [by split|]]].
    { intros u. rewrite table_set. by case_decide. }
    apply before_typed; [done|]. by eapply new_row_typed. }
  case_match.
  - wp_step. unfold wp at 1. cbn [nextval]. wp_step. apply Hmain. done.
  - wp_step. apply Hmain. done.
Qed.

(** The row an UPDATE writes. *)
Definition updated_row (d : contents) (t : String.string) (def : table_def) (vs : list (String.string * sval)) (r : row) (r' : row) : Prop :=
  exists ws, assigned def vs = Some ws /\ r' = before d t (Some vs.*1) (list_to_map ws ∪ r).

Lemma do_update_wp F t id vs d def r :
  table_of t = Some def -> table d t !! id = Some r -> row_id r = Some id ->
  (~ (NoDup vs.*1 /\ "id"%string ∉ vs.*1 /\ exists ws, assigned def vs = Some ws
      /\ acceptable_row def (table d t) id (before d t (Some vs.*1) (list_to_map ws ∪ r))) -> F) ->
  wp F (do_update t id vs) (fun q d' => exists r', q = [Updated t r r'] /\ updated_row d t def vs r r' /\ row_id r' = Some id
    /\ change (Updated t r r') d d' /\ d' = set_table t (<[id := r']> (table d t)) d) d.
Proof.
  intros Ht Hr Hid HF. unfold do_update. rewrite Ht. do 2 wp_step; [|done]. simplify_eq. do 2 wp_step; [|intros; apply HF; tauto].
  do 2 wp_step. rewrite Hr. do 2 wp_step; [simplify_eq|done]. do 2 wp_step; [|apply HF; naive_solver].
  rename a1 into ws. rewrite (assigned_names _ _ _ H0). do 4 wp_step; [|apply HF; intros (_ & _ & ws' & Hw & Ha); simplify_eq; by destruct Ha].
  do 2 wp_step; [|apply HF; intros (_ & _ & ws' & Hw & Ha); simplify_eq; by destruct Ha]. do 3 wp_step.
  set (r' := before _ _ _ _) in *. exists r'. split; [done|]. split; [by exists ws|].
  assert (Hid' : row_id r' = Some id).
  { unfold row_id, r'. rewrite before_column by done. unfold column. rewrite lookup_union_r; [exact Hid|].
    apply not_elem_of_list_to_map_1. rewrite (assigned_names _ _ _ H0). tauto. }
  split; [done|]. split; [|done]. split; [done|]. exists (<[id := r']> (table d t)), a. cbn. rewrite Hid. cbn. rewrite decide_True by done.
  split; [done|]. split; [intros; apply table_set|]. split; [done|]. split; [by rewrite Hid'|]. intros Hty. apply before_typed; [done|]. by eapply assigned_typed.
Qed.

Lemma do_delete_change F t id d def r :
  table_of t = Some def -> table d t !! id = Some r -> row_id r = Some id ->
  wp F (do_delete t id) (fun q d' => q = [Removed t r] /\ change (Removed t r) d d') d.
Proof.
  intros Ht Hr Hid. unfold do_delete. rewrite Ht. do 2 wp_step; [|done]. do 2 wp_step. rewrite Hr. do 2 wp_step; [simplify_eq|done]. do 3 wp_step. split; [done|].
  split; [done|]. exists (delete id (table d t)), a. cbn. rewrite Hid. cbn. rewrite decide_True by done.
  split; [done|]. split; [intros; apply table_set|done].
Qed.
End steps.
