(* ===== verification/Cascade.v ===== *)
(** * Deletions (contact/db/contact_ddl.sql)

    The deletion of a row takes rows that refer to it away with it, and units lose their parent.  Each such event
    makes the database smaller, so the queue of a statement runs out ([run_total]); each removed row has its event, and after it nothing refers to the row any more. *)
From stdpp Require Import gmap strings.
From S2P Require Import Prelude Sql Schema Tables Changes.

(** ** What a deletion loses *)

(** The columns of a row are as they were, apart from what a trigger writes and the parent of a unit, which may be NULL. *)
Definition weaker (r r' : row) : Prop :=
  forall c, c <> "search_vector"%string -> column c r' = column c r \/ c = "parent_id"%string /\ column c r' = VNull.
Definition loses (e : event) : Prop :=
  match e with
  | Inserted _ _ => False
  | Updated t r r' => t = "t_orgunit"%string /\ column "parent_id" r <> VNull /\ column "parent_id" r' = VNull /\ weaker r r'
  | Removed _ _ => True
  end.
Definition shrinks (d d' : contents) : Prop :=
  forall t k r', table d' t !! k = Some r' -> exists r, table d t !! k = Some r /\ weaker r r' /\ (t <> "t_orgunit"%string -> r' = r).

Lemma weaker_refl r : weaker r r.
Proof. by left. Qed.
Lemma weaker_trans r1 r2 r3 : weaker r1 r2 -> weaker r2 r3 -> weaker r1 r3.
Proof. intros H1 H2 c Hc. destruct (H2 c Hc) as [->|H]; auto. Qed.
Lemma shrinks_refl d : shrinks d d.
Proof. intros t k r H. eauto using weaker_refl. Qed.
Lemma shrinks_trans d1 d2 d3 : shrinks d1 d2 -> shrinks d2 d3 -> shrinks d1 d3.
Proof. intros H1 H2 t k r (r2 & Hr2 & Hw2 & E2)%H2. apply H1 in Hr2 as (r1 & Hr1 & Hw1 & E1). exists r1. split; [done|]. split; [by eapply weaker_trans|].
  intros Ht. by rewrite E2, E1.
Qed.
Lemma shrinks_same d d' : (forall t, table d' t = table d t) -> shrinks d d'.
Proof. intros H t k r. rewrite H. eauto using weaker_refl. Qed.
Lemma shrinks_absent d d' t k : shrinks d d' -> table d t !! k = None -> table d' t !! k = None.
Proof. intros Hs Hn. apply eq_None_not_Some. intros [r (r0 & Hr & _)%Hs]. congruence. Qed.

(** Rows, and units that have a parent. *)
Definition parents (d : contents) : nat := size (filter (fun p => column "parent_id" (snd p) <> VNull) (table d "t_orgunit")).
Definition weight (d : contents) : nat := total_rows d + parents d.

Lemma sum_list_le {A} (f g : A -> nat) l : (forall x, f x <= g x) -> sum_list (map f l) <= sum_list (map g l).
Proof. intros H. induction l as [|x l IH]; [done|]. cbn. specialize (H x). lia. Qed.
Lemma sum_list_lt {A} (f g : A -> nat) l x : (forall x, f x <= g x) -> x ∈ l -> f x < g x -> sum_list (map f l) < sum_list (map g l).
Proof.
  intros H Hx Hlt. induction l as [|y l IH]; [by apply not_elem_of_nil in Hx|]. cbn.
  pose proof (sum_list_le f g l H). specialize (H y). apply elem_of_cons in Hx as [->|Hx]; [lia|]. specialize (IH Hx). lia.
Qed.

Lemma total_rows_same d d' : (forall t, size (table d' t) = size (table d t)) -> total_rows d' = total_rows d.
Proof. intros H. unfold total_rows. f_equal. apply map_ext. intros p. apply H. Qed.

Lemma weight_le d : weight d <= 2 * total_rows d.
Proof.
  enough (parents d <= total_rows d) by (unfold weight; lia). unfold parents.
  transitivity (size (table d "t_orgunit")); [apply map_subseteq_size, map_filter_subseteq|].
  unfold total_rows. cbn. lia.
Qed.

Section cascade.
Context {C : Scalars} {P : Postgres} {L : PostgresLaws P}.

Lemma change_table e d d' t : change e d d' -> t <> event_table e -> table d' t = table d t.
Proof. intros (_ & m & def & _ & Hd & _) Ht. specialize (Hd t). by rewrite decide_False in Hd. Qed.
Lemma change_own e d d' : change e d d' -> replay_one (table d (event_table e)) (event_rows e) = Some (table d' (event_table e)).
Proof. intros (_ & m & def & H & Hd & _). specialize (Hd (event_table e)). rewrite decide_True in Hd by done. by rewrite H, Hd. Qed.

Lemma change_removed t r d d' : change (Removed t r) d d' ->
  exists id, row_id r = Some id /\ table d t !! id = Some r /\ table d' t = delete id (table d t).
Proof.
  intros H%change_own. cbn in H. destruct (row_id r) as [id|]; [|done]. cbn in H. exists id. case_decide; [|done]. by injection H as <-.
Qed.
Lemma change_updated t r r' d d' : change (Updated t r r') d d' ->
  exists id, row_id r = Some id /\ row_id r' = Some id /\ table d t !! id = Some r /\ table d' t = <[id := r']> (table d t).
Proof.
  intros H%change_own. cbn in H. destruct (row_id r) as [id|]; [|done]. cbn in H. exists id. case_decide as E; [|done]. injection H as <-. tauto.
Qed.
Lemma change_inserted t r d d' : change (Inserted t r) d d' ->
  exists id, row_id r = Some id /\ table d t !! id = None /\ table d' t = <[id := r]> (table d t).
Proof.
  intros H%change_own. cbn in H. destruct (row_id r) as [id|]; [|done]. cbn in H. exists id. case_decide as E; [|done]. by injection H as <-.
Qed.

Lemma change_keyed e d d' : change e d d' -> keyed d -> keyed d'.
Proof.
  intros Hc Hk t k r. destruct (decide (t = event_table e)) as [->|Ht]; [|rewrite (change_table e d d') by done; apply Hk].
  destruct e as [t r0|t r0 r1|t r0]; cbn [event_table].
  - apply change_inserted in Hc as (id & Hid & _ & ->). intros [[<- <-]|[_ H]]%lookup_insert_Some; [done|]. by eapply Hk.
  - apply change_updated in Hc as (id & Hid & Hid' & _ & ->). intros [[<- <-]|[_ H]]%lookup_insert_Some; [done|]. by eapply Hk.
  - apply change_removed in Hc as (id & Hid & _ & ->). intros [_ H]%lookup_delete_Some. by eapply Hk.
Qed.
Lemma changes_keyed es d d' : changes es d d' -> keyed d -> keyed d'.
Proof.
  revert d. induction es as [|e es IH]; intros d; cbn.
  - intros [_ H] Hk t k r. rewrite H. apply Hk.
  - intros (d1 & H & H') Hk. eapply IH; [done|]. by eapply change_keyed.
Qed.

Lemma change_weight e d d' : change e d d' -> loses e -> weight d' < weight d.
Proof.
  intros Hc He. pose proof (fun t => change_table e d d' t Hc) as Hsame. destruct e as [t r|t r r'|t r]; [done| |].
  - destruct He as (-> & Hp & Hp' & _). apply change_updated in Hc as (id & _ & _ & Hr & Hd). cbn in Hsame.
    assert (total_rows d' = total_rows d).
    { apply total_rows_same. intros t. destruct (decide (t = "t_orgunit"%string)) as [->|E]; [|by rewrite Hsame].
      rewrite Hd. apply map_size_insert_Some. by eexists. }
    enough (parents d' < parents d) by (unfold weight; lia). unfold parents. rewrite Hd, map_filter_insert_False by (cbn; auto).
    rewrite map_filter_delete. assert (Hl : filter (fun p : Z * row => column "parent_id" p.2 <> VNull) (table d "t_orgunit") !! id = Some r)
      by (by apply map_lookup_filter_Some). rewrite map_size_delete_Some by (by eexists).
    pose proof (map_size_ne_0_lookup_2 _ id (mk_is_Some _ _ Hl)). lia.
  - assert (Ht : exists def, table_of t = Some def) by (destruct Hc as (_ & m & def & _ & _ & H & _); by exists def).
    destruct Ht as [def Ht%table_of_elem]. apply change_removed in Hc as (id & _ & Hr & Hd). cbn in Hsame.
    assert (Hlt : size (table d' t) < size (table d t)).
    { rewrite Hd, map_size_delete_Some by (by eexists). pose proof (map_size_ne_0_lookup_2 _ id (mk_is_Some _ _ Hr)). lia. }
    assert (total_rows d' < total_rows d).
    { unfold total_rows. eapply sum_list_lt; [|exact Ht|exact Hlt]. intros [u df]. cbn.
      destruct (decide (u = t)) as [->|E]; [lia|]. by rewrite Hsame. }
    enough (parents d' <= parents d) by (unfold weight; lia). unfold parents. apply map_subseteq_size.
    destruct (decide ("t_orgunit"%string = t)) as [<-|E]; [|by rewrite Hsame].
    rewrite Hd, map_filter_delete. apply delete_subseteq.
Qed.

Lemma changes_weight es d d' : changes es d d' -> Forall loses es -> weight d' + length es <= weight d.
Proof.
  revert d. induction es as [|e es IH]; intros d; cbn [changes length].
  - intros [_ H] _. enough (weight d' = weight d) by lia. unfold weight, total_rows, parents. rewrite H. f_equal. f_equal.
    apply map_ext. intros p. by rewrite H.
  - intros (d1 & H & H') [He Hes]%Forall_cons. pose proof (change_weight _ _ _ H He). specialize (IH _ H' Hes). lia.
Qed.

Lemma change_shrinks e d d' : change e d d' -> loses e -> shrinks d d'.
Proof.
  intros Hc He t k r'. destruct (decide (t = event_table e)) as [->|Ht]; [|rewrite (change_table e d d') by done; eauto using weaker_refl].
  destruct e as [t r|t r r1|t r]; [done| |]; cbn [event_table].
  - destruct He as (-> & _ & _ & Hw). apply change_updated in Hc as (id & _ & _ & Hr & ->).
    intros [[<- <-]|[_ H]]%lookup_insert_Some; [by exists r|]. eauto using weaker_refl.
  - apply change_removed in Hc as (id & _ & Hr & ->). intros [_ H]%lookup_delete_Some. eauto using weaker_refl.
Qed.
Lemma changes_shrinks es d d' : changes es d d' -> Forall loses es -> shrinks d d'.
Proof.
  revert d. induction es as [|e es IH]; intros d; cbn; [intros [_ H] _; by apply shrinks_same|].
  intros (d1 & H & H') [He Hes]%Forall_cons. eapply shrinks_trans; [by eapply change_shrinks|by eapply IH].
Qed.

(** A row that is gone has its event. *)
Lemma changes_gone es d d' t k : changes es d d' -> Forall loses es -> is_Some (table d t !! k) -> table d' t !! k = None ->
  exists r, Removed t r ∈ es /\ row_id r = Some k.
Proof.
  revert d. induction es as [|e es IH]; intros d; cbn; [intros [_ H] _; rewrite H; by intros [? ->]|].
  intros (d1 & H & H') [He Hes]%Forall_cons Hs Hn. destruct (table d1 t !! k) as [r1|] eqn:Hr1.
  - destruct (IH d1 H' Hes ltac:(by eexists) Hn) as (r & Hr & Hid). exists r. split; [by right|done].
  - destruct (decide (t = event_table e)) as [->|E]; [|rewrite (change_table _ _ _ _ H E) in Hr1; rewrite Hr1 in Hs; by destruct Hs].
    destruct e as [t r|t r r1|t r]; [done| |]; cbn [event_table] in *.
    + apply change_updated in H as (id & _ & _ & Hr & E). rewrite E in Hr1. apply lookup_insert_None in Hr1 as [Hr1 _]. rewrite Hr1 in Hs. by destruct Hs.
    + apply change_removed in H as (id & Hid & Hr & E). rewrite E in Hr1. apply lookup_delete_None in Hr1 as [->|Hr1]; [|rewrite Hr1 in Hs; by destruct Hs].
      exists r. split; [by left|done].
Qed.

(** ** Sound rows *)

(** Every row has values of its columns' types, satisfies its table's constraints, and has its own keys. *)
Definition row_ok (def : table_def) (m : gmap Z row) (k : Z) (r : row) : Prop := typed def r /\ acceptable_row def m k r.
Definition rows_ok (d : contents) : Prop :=
  keyed d /\ forall t def k r, table_of t = Some def -> table d t !! k = Some r -> row_ok def (table d t) k r.

Lemma free_keys_delete def m id k r : free_keys def m k r -> free_keys def (delete id m) k r.
Proof.
  unfold free_keys. intros H. eapply Forall_impl; [exact H|]. intros key Hk. intros j s [_ Hj]%lookup_delete_Some. by apply (Hk j s).
Qed.
Lemma free_keys_insert def m id r k s : m !! k = Some s -> id <> k -> free_keys def m k s -> free_keys def m id r -> free_keys def (<[id := r]> m) k s.
Proof.
  unfold free_keys. rewrite !Forall_forall. intros Hs Hne H1 H2 key Hkey j x [[<- <-]|[Hj Hx]]%lookup_insert_Some.
  - right. destruct (H2 key Hkey k s Hs) as [?|Hf]; [done|]. intros Hk. apply Hf. unfold same_key in *. rewrite Forall_forall in *.
    intros c Hc. destruct (Hk c Hc) as [E Hn]. rewrite <- E. done.
  - by apply (H1 key Hkey j x).
Qed.
Lemma free_keys_self def m id r : free_keys def m id r -> free_keys def (<[id := r]> m) id r.
Proof.
  unfold free_keys. rewrite !Forall_forall. intros H key Hkey j x [[<- <-]|[Hj Hx]]%lookup_insert_Some; [by left|]. by apply (H key Hkey j x).
Qed.

Lemma change_rows_ok e d d' : change e d d' -> rows_ok d -> rows_ok d'.
Proof.
  intros Hc [Hk Hok]. split; [by eapply change_keyed|]. intros t def k r Ht. destruct (decide (t = event_table e)) as [->|E];
    [|rewrite (change_table e d d') by done; by apply Hok].
  pose proof Hc as (_ & m & def' & _ & _ & Ht' & He). rewrite Ht in Ht'. injection Ht' as <-.
  assert (Hput : forall id r0, match event_old e with None => typed def r0 | Some r1 => typed def r1 -> typed def r0 end ->
    (forall r1, event_old e = Some r1 -> table d (event_table e) !! id = Some r1) ->
    acceptable_row def (table d (event_table e)) id r0 -> <[id := r0]> (table d (event_table e)) !! k = Some r ->
    row_ok def (<[id := r0]> (table d (event_table e))) k r).
  { intros id r0 Hty Hold [Hs Hf] [[<- <-]|[Hne Hr]]%lookup_insert_Some.
    - split; [|split; [done|by apply free_keys_self]]. destruct (event_old e) as [r1|]; [|done]. apply Hty.
      exact (proj1 (Hok _ _ _ _ Ht (Hold r1 eq_refl))).
    - destruct (Hok _ _ _ _ Ht Hr) as [H1 [H2 H3]]. split; [done|]. split; [done|]. by apply free_keys_insert. }
  destruct e as [t r0|t r0 r1|t r0]; cbn [event_table event_old event_new] in *.
  - apply change_inserted in Hc as (id & Hid & _ & ->). destruct He as [He Hty]. rewrite Hid in He. by apply Hput.
  - apply change_updated in Hc as (id & _ & Hid & Hr & ->). destruct He as [He Hty]. rewrite Hid in He. apply Hput; [done|by intros ? [= <-]|done].
  - apply change_removed in Hc as (id & _ & _ & ->). intros [_ Hr]%lookup_delete_Some. destruct (Hok _ _ _ _ Ht Hr) as [H1 [H2 H3]].
    split; [done|]. split; [done|]. by apply free_keys_delete.
Qed.
Lemma changes_rows_ok es d d' : changes es d d' -> rows_ok d -> rows_ok d'.
Proof.
  revert d. induction es as [|e es IH]; intros d; cbn [changes].
  - intros [_ H] [Hk Hok]. split; [intros t k r; rewrite H; apply Hk|]. intros t def k r. rewrite H. apply Hok.
  - intros (d1 & H & H') Hk. eapply IH; [done|]. by eapply change_rows_ok.
Qed.

(** ** The deletion actions *)

Lemma referring_elem c id m k r : (k, r) ∈ map_to_list (referring c id m) <-> m !! k = Some r /\ column c r = VInt id.
Proof. rewrite elem_of_map_to_list. unfold referring. by rewrite map_lookup_filter_Some. Qed.
Lemma referring_empty c id m : (forall k r, m !! k = Some r -> column c r <> VInt id) -> referring c id m = ∅.
Proof. intros H. apply map_empty. intros k. apply eq_None_not_Some. intros [r [Hr E]%map_lookup_filter_Some]. by apply (H k r). Qed.

(** Rows taken away one after the other. *)
Lemma removals t def (l : list (Z * row)) d :
  table_of t = Some def -> keyed d -> NoDup l.*1 -> (forall k r, (k, r) ∈ l -> table d t !! k = Some r) ->
  changes (map (fun p => Removed t (snd p)) l) d (set_table t (filter (fun p => fst p ∉ l.*1) (table d t)) d).
Proof.
  intros Ht. revert d. induction l as [|[k r] l IH]; intros d Hk Hd Hl; cbn [map changes fmap list_fmap fst snd].
  - split; [done|]. intros u. rewrite table_set. case_decide as E; [|done]. subst. apply map_filter_id. intros. apply not_elem_of_nil.
  - apply NoDup_cons in Hd as [Hn Hd]. pose proof (Hl k r ltac:(by left)) as Hr. pose proof (Hk _ _ _ Hr) as Hid.
    set (d1 := set_table t (delete k (table d t)) d). assert (H1 : change (Removed t r) d d1).
    { split; [done|]. exists (delete k (table d t)), def. cbn. rewrite Hid. cbn. rewrite decide_True by done.
      split; [done|]. split; [intros; apply table_set|done]. }
    exists d1. split; [done|]. assert (E : table d1 t = delete k (table d t)) by (unfold d1; by rewrite table_set, decide_True).
    assert (Hk1 : keyed d1) by by eapply change_keyed.
    specialize (IH d1 Hk1 Hd). rewrite E in IH.
    replace (set_table t (filter _ (table d t)) d) with (set_table t (filter (fun p => fst p ∉ l.*1) (delete k (table d t))) d1).
    + apply IH. intros j s Hj. rewrite lookup_delete_ne; [apply Hl; by right|]. intros ->. apply Hn. by apply (list_elem_of_fmap_2 fst) in Hj.
    + unfold set_table, d1. cbn. f_equal. rewrite insert_insert_eq. f_equal. apply map_eq. intros j. apply option_eq. intros s.
      rewrite !map_lookup_filter_Some. cbn. rewrite lookup_delete_Some, not_elem_of_cons. naive_solver.
Qed.

(** What one deletion action does: the row of each event referred to the key, and is gone or has lost its parent as the action says. *)
Definition removed_by (c : String.string) (a : on_delete) (id : Z) (e : event) : Prop :=
  match e with
  | Removed _ r => a = Cascade /\ column c r = VInt id
  | Updated _ r _ => a = SetNull /\ column c r = VInt id
  | Inserted _ _ => False
  end.
Definition acted (t c : String.string) (a : on_delete) (id : Z) (d : contents) (q : list event) (d' : contents) : Prop :=
  changes q d d' /\ Forall loses q /\ Forall (fun e => event_table e = t /\ a <> NoAction /\ removed_by c a id e) q /\ referring c id (table d' t) = ∅.

Lemma cascade_acted t def c id d :
  table_of t = Some def -> keyed d ->
  acted t c Cascade id d (map (fun p => Removed t (snd p)) (map_to_list (referring c id (table d t))))
    (set_table t (filter (fun p => column c (snd p) <> VInt id) (table d t)) d).
Proof.
  intros Ht Hk. set (found := map_to_list (referring c id (table d t))).
  assert (Hf : forall k r, (k, r) ∈ found <-> table d t !! k = Some r /\ column c r = VInt id) by (intros; apply referring_elem).
  split; [|split; [|split]].
  - pose proof (removals t def found d Ht Hk (NoDup_fst_map_to_list _) (fun k r H => proj1 (proj1 (Hf k r) H))) as H.
    replace (filter (fun p => column c (snd p) <> VInt id) (table d t)) with (filter (fun p => fst p ∉ found.*1) (table d t)); [done|].
    apply map_filter_ext. intros k r Hr. cbn. split.
    + intros H1 H2. apply H1. assert (Hin : (k, r) ∈ found) by by apply Hf. by apply (list_elem_of_fmap_2 fst) in Hin.
    + intros H1 ([k' r'] & -> & [Hr' Hc]%Hf)%list_elem_of_fmap. cbn in *. rewrite Hr in Hr'. injection Hr' as <-. done.
  - apply Forall_forall. intros e (p & <- & _)%list_elem_of_In%in_map_iff. done.
  - apply Forall_forall. intros e ([k r] & <- & [_ Hc]%list_elem_of_In%Hf)%list_elem_of_In%in_map_iff. done.
  - apply referring_empty. intros k r. rewrite table_set, decide_True by done. intros [_ H]%map_lookup_filter_Some. done.
Qed.

(** A unit whose parent is taken away is the unit without a parent. *)
Lemma assigned_null : assigned t_orgunit [("parent_id"%string, VNull)] = Some [("parent_id"%string, VNull)].
Proof. reflexivity. Qed.
Lemma weaker_null r : weaker r (<["parent_id"%string := VNull]> r).
Proof.
  intros c _. unfold column. destruct (decide ("parent_id"%string = c)) as [<-|E]; [right; by rewrite lookup_insert_eq|left; by rewrite lookup_insert_ne].
Qed.
Lemma satisfies_null r : satisfies t_orgunit r -> satisfies t_orgunit (<["parent_id"%string := VNull]> r).
Proof.
  unfold satisfies. intros [H1 H2]. split.
  - rewrite Forall_forall in *. intros c Hc Hn. specialize (H1 c Hc Hn). unfold column in *. destruct (decide (col_name c = "parent_id"%string)) as [E|E].
    + apply list_elem_of_In in Hc. cbn in Hc. repeat (destruct Hc as [<-|Hc]; [try discriminate|]). destruct Hc.
    + by rewrite lookup_insert_ne.
  - cbn [t_checks t_orgunit] in *. rewrite Forall_singleton in *. unfold chk_org_type, is_null, column in *. rewrite lookup_insert_ne by done. exact H2.
Qed.

Lemma orphan_wp F d k r id :
  rows_ok d -> table d "t_orgunit" !! k = Some r -> column "parent_id" r = VInt id ->
  wp F (do_update "t_orgunit" k [("parent_id"%string, VNull)])
    (fun q d' => exists r', q = [Updated "t_orgunit" r r'] /\ change (Updated "t_orgunit" r r') d d' /\ loses (Updated "t_orgunit" r r')
       /\ table d' "t_orgunit" = <[k := r']> (table d "t_orgunit")) d.
Proof.
  intros [Hk Hok] Hr Hp. destruct (Hok "t_orgunit"%string t_orgunit k r eq_refl Hr) as (Hty & Hsat & _).
  assert (Hrow : before d "t_orgunit" (Some ["parent_id"%string]) (list_to_map [("parent_id"%string, VNull)] ∪ r) = <["parent_id"%string := VNull]> r).
  { cbn. by rewrite insert_empty, <- insert_union_singleton_l. }
  eapply wp_mono; [apply (do_update_wp F "t_orgunit" k _ d t_orgunit r); [done|done|exact (Hk _ _ _ Hr)|]|].
  - intros H. destruct H. split; [by apply NoDup_singleton|]. split; [cbn; by rewrite list_elem_of_singleton|]. exists [("parent_id"%string, VNull)].
    split; [apply assigned_null|]. cbn [fmap list_fmap fst]. rewrite Hrow. split; [by apply satisfies_null|]. by constructor.
  - cbv beta. intros q d' (r' & -> & (ws & Hws & ->) & Hid & Hc & ->). rewrite assigned_null in Hws. injection Hws as <-.
    cbn [fmap list_fmap fst] in *. rewrite Hrow in *. eexists. split; [done|]. split; [done|]. split; [|by rewrite table_set, decide_True].
    split; [done|]. split; [by rewrite Hp|]. split; [unfold column; by rewrite lookup_insert_eq|apply weaker_null].
Qed.

Lemma on_reference_wp F t c a target id d :
  rows_ok d -> (t, c, a) ∈ references_to target -> (a = NoAction -> referring c id (table d t) <> ∅ -> F) ->
  wp F (on_reference id (t, c, a)) (acted t c a id d) d.
Proof.
  intros Hok (def & col & Ht & Hcol & <- & Href)%references_to_elem HF. unfold on_reference. do 2 wp_step. destruct a.
  - do 2 wp_step; [|apply HF; [done|]; intros E; apply H; by rewrite E, map_to_list_empty]. wp_step.
    split; [by split|]. split; [constructor|]. split; [constructor|]. by apply map_to_list_empty_iff.
  - destruct (references_shape t def col target SetNull Ht Hcol Href) as (_ & _ & _ & [Hu _] & Hcol' & _). specialize (Hu eq_refl).
    specialize (Hcol' Hu). subst t col. wp_step. set (found := map_to_list _).
    set (I := fun (rest : list (Z * row)) (ys : list (list event)) d1 => changes (concat ys) d d1 /\ Forall loses (concat ys)
       /\ Forall (fun e => event_table e = "t_orgunit"%string /\ SetNull <> NoAction /\ removed_by "parent_id" SetNull id e) (concat ys) /\ NoDup rest.*1
       /\ forall k r, (k, r) ∈ rest <-> table d1 "t_orgunit" !! k = Some r /\ column "parent_id" r = VInt id).
    eapply wp_mono; [apply (wp_mapM F _ I found [] d)|].
    + split; [done|]. split; [constructor|]. split; [constructor|]. split; [apply NoDup_fst_map_to_list|]. intros k r. apply referring_elem.
    + intros [k r] rest ys d1 (Hch & Hl & Htab & Hd & Hrest). cbn [fst snd fmap list_fmap] in *. apply NoDup_cons in Hd as [Hn Hd].
      destruct (proj1 (Hrest k r) ltac:(by left)) as [Hr Hp].
      eapply wp_mono; [apply (orphan_wp F d1 k r id); [by eapply changes_rows_ok|done|done]|].
      cbv beta. intros q d' (r' & -> & Hc & He & Hd'). unfold I. rewrite concat_app. cbn [concat app].
      split; [by eapply changes_snoc|]. split; [by apply Forall_app, conj; [|apply Forall_singleton]|].
      split; [by apply Forall_app, conj; [|apply Forall_singleton]|]. split; [done|]. intros j s. rewrite Hd'. split.
      * intros Hj. assert (j <> k) by (intros ->; apply Hn; by apply (list_elem_of_fmap_2 fst) in Hj). rewrite lookup_insert_ne by done.
        apply Hrest. by right.
      * intros [[[<- <-]|[Hne Hj]]%lookup_insert_Some Hs]; [destruct He as (_ & _ & He & _); congruence|].
        pose proof (proj2 (Hrest j s) (conj Hj Hs)) as Hin. apply elem_of_cons in Hin as [[= -> ->]|Hin]; [done|exact Hin].
    + cbv beta. intros ys d' (Hch & Hl & Htab & _ & Hrest). wp_step. cbn [app] in *. split; [done|]. split; [done|]. split; [done|].
      apply referring_empty. intros k r Hr Hp. by apply (not_elem_of_nil (k, r)), Hrest.
  - do 3 wp_step. apply (cascade_acted t def); [done|apply Hok].
Qed.

Lemma referring_shrinks d d' t c id : shrinks d d' -> c <> "search_vector"%string -> referring c id (table d t) = ∅ -> referring c id (table d' t) = ∅.
Proof.
  intros Hs Hc He. apply referring_empty. intros k r' (r & Hr & Hw & _)%Hs Hcol.
  assert (H : referring c id (table d t) !! k = Some r).
  { unfold referring. apply map_lookup_filter_Some. split; [done|]. cbn. destruct (Hw c Hc) as [|[]]; congruence. }
  rewrite He in H. by apply lookup_empty_Some in H.
Qed.

(** What the deletion of a row does to all that refers to it. *)
Definition unreferenced (t : String.string) (id : Z) (d : contents) : Prop :=
  forall t' c a, (t', c, a) ∈ references_to t -> referring c id (table d t') = ∅.
(** An event of a row that referred to this key. *)
Definition caused (t : String.string) (id : Z) (e : event) : Prop :=
  exists c a, (event_table e, c, a) ∈ references_to t /\ a <> NoAction /\ removed_by c a id e.
Definition blocked (t : String.string) (id : Z) (d : contents) : Prop :=
  exists t' c, (t', c, NoAction) ∈ references_to t /\ referring c id (table d t') <> ∅.

Lemma reference_column t c a target : (t, c, a) ∈ references_to target -> c <> "search_vector"%string.
Proof.
  intros (def & col & Ht & Hcol & <- & Href)%references_to_elem. by destruct (references_shape t def col target a Ht Hcol Href) as (_ & H & _).
Qed.

Lemma references_wp F t id d :
  rows_ok d -> (blocked t id d -> F) ->
  wp F (mapM (on_reference id) (references_to t))
    (fun qs d' => changes (concat qs) d d' /\ Forall loses (concat qs) /\ Forall (caused t id) (concat qs) /\ unreferenced t id d') d.
Proof.
  intros Hok HF.
  set (I := fun rest (ys : list (list event)) d1 => changes (concat ys) d d1 /\ Forall loses (concat ys)
    /\ Forall (caused t id) (concat ys)
    /\ exists fin, references_to t = fin ++ rest /\ forall t' c a, (t', c, a) ∈ fin -> referring c id (table d1 t') = ∅).
  eapply wp_mono; [apply (wp_mapM F _ I (references_to t) [] d)|].
  - split; [done|]. split; [constructor|]. split; [constructor|]. exists []. split; [done|]. by intros * ?%not_elem_of_nil.
  - intros [[t' c] a] rest ys d1 (Hch & Hl & Hb & fin & Hrefs & Hfin).
    assert (Hin : (t', c, a) ∈ references_to t) by (rewrite Hrefs; apply elem_of_app; right; by left).
    eapply wp_mono; [apply (on_reference_wp F t' c a t id d1); [by eapply changes_rows_ok|done|]|].
    + intros -> Hne. apply HF. exists t', c. split; [done|]. intros He. apply Hne.
      eapply referring_shrinks; [by eapply changes_shrinks|by eapply reference_column|done].
    + cbv beta. intros q d' (Hq & Hql & Hqt & Hqe). unfold I. rewrite concat_app. cbn [concat]. rewrite app_nil_r.
      split; [apply changes_app; by exists d1|]. split; [by apply Forall_app|].
      split; [apply Forall_app; split; [done|]; eapply Forall_impl; [exact Hqt|]; intros e (He & Ha & Hr); exists c, a; by rewrite He|].
      exists (fin ++ [(t', c, a)]). split; [by rewrite <- app_assoc|]. intros u b x [Hx|Hx%list_elem_of_singleton]%elem_of_app.
      * eapply referring_shrinks; [by eapply changes_shrinks|eapply reference_column; rewrite Hrefs; apply elem_of_app; by left|by eapply Hfin].
      * by injection Hx as -> -> ->.
  - cbv beta. intros qs d' (Hch & Hl & Hb & fin & Hrefs & Hfin). cbn [app] in *. split; [done|]. split; [done|]. split; [done|].
    intros t' c a Hin. rewrite Hrefs, app_nil_r in Hin. by eapply Hfin.
Qed.

(** ** The log *)

(** The entry of an event has the user, the time and the rows. *)
Definition entry_of (v : vars) (d : contents) (e : event) (x : log_entry) : Prop :=
  action x = event_action e /\ audit_user v = Some (action_by x) /\ action_at x = clock d /\ (old_data x, new_data x) = event_rows e.
Definition audited (t : String.string) : bool := match table_of t with Some def => t_audited def | None => false end.
Definition logged (v : vars) (e : event) (d d' : contents) : Prop :=
  data d' = data d /\ clock d' = clock d
  /\ if audited (event_table e) then exists x, entry_of v d e x /\ logs d' = <[log_name (event_table e) := log_of d (log_name (event_table e)) ++ [x]]> (logs d)
     else logs d' = logs d.

Lemma trg_audit_wp F v e d def : table_of (event_table e) = Some def -> (audit_user v = None -> F) ->
  wp F (trg_audit v e) (fun _ d' => logged v e d d') d.
Proof.
  intros Ht HF. unfold trg_audit, logged, audited. rewrite Ht. do 2 wp_step; [|done]. injection H as <-. destruct (t_audited def); [|by wp_step].
  unfold fn_audit_log. wp_step. unfold wp at 1. cbn [nextval]. wp_step. wp_step; [|by apply HF]. wp_step. cbn. split; [done|]. split; [done|].
  eexists. split; [|done]. done.
Qed.

(** ** The refresh of a unit *)

Definition same_columns (r r' : row) : Prop := forall c, c <> "search_vector"%string -> column c r' = column c r.
Lemma same_weaker r r' : same_columns r r' -> weaker r r'.
Proof. intros H c Hc. left. by apply H. Qed.
Lemma same_satisfies r r' : same_columns r r' -> satisfies t_orgunit r -> satisfies t_orgunit r'.
Proof.
  intros Hs [H1 H2]. split.
  - rewrite Forall_forall in *. intros c Hc Hn. rewrite Hs; [by apply H1|]. intros E.
    destruct (search_vector_column "t_orgunit" t_orgunit c eq_refl Hc E) as (_ & Hf & _). congruence.
  - cbn [t_checks t_orgunit] in *. rewrite Forall_singleton in *. unfold chk_org_type, is_null in *. by rewrite Hs.
Qed.

(** The unit is updated with what it has, and the audit has the update. *)
Definition refreshed (v : vars) (e : event) (d d' : contents) : Prop :=
  d' = d \/ exists u r r' d1, event_table e = "t_localizedorgunit"%string /\ column "org_unit_id" (event_row e) = VInt u
    /\ table d "t_orgunit" !! u = Some r /\ same_columns r r'
    /\ change (Updated "t_orgunit" r r') d d1 /\ logged v (Updated "t_orgunit" r r') d1 d'.

Lemma keywords_row t d r : typed t_orgunit r -> exists ws,
  assigned t_orgunit [("keywords"%string, column "keywords" r)] = Some ws
  /\ same_columns r (before d t (Some ["keywords"%string]) (list_to_map ws ∪ r)).
Proof.
  intros Hty. assert (Hk : exists w, r !! "keywords"%string = Some w /\ store CText w = Some w).
  { unfold typed in Hty. rewrite Forall_forall in Hty. apply (Hty (nullable_col "keywords" D_Keywords)). apply list_elem_of_In. cbn. tauto. }
  destruct Hk as (w & Hw & Hs). assert (Hc : column "keywords" r = w) by (unfold column; by rewrite Hw). rewrite Hc.
  exists [("keywords"%string, w)]. split.
  - change (assigned t_orgunit [("keywords"%string, w)]) with (p ← pair "keywords"%string <$> store CText w; Some [p]). by rewrite Hs.
  - intros c Hc'. rewrite before_column by done. cbn. rewrite insert_empty, <- insert_union_singleton_l. unfold column.
    destruct (decide ("keywords"%string = c)) as [<-|E]; [by rewrite lookup_insert_eq, Hw|by rewrite lookup_insert_ne].
Qed.

Lemma refresh_wp F v e d : rows_ok d -> (audit_user v = None -> F) ->
  wp F (trg_localized_orgunit_refresh v e) (fun _ d' => refreshed v e d d') d.
Proof.
  intros [Hk Hok] HF. unfold trg_localized_orgunit_refresh. case_decide as He; [|wp_step; by left].
  unfold fn_localized_orgunit_refresh_search. destruct (column "org_unit_id" (event_row e)) as [|u| | | |] eqn:Hu; try (wp_step; by left).
  do 2 wp_step. destruct (table d "t_orgunit" !! u) as [r|] eqn:Hr; [|wp_step; by left].
  destruct (Hok "t_orgunit"%string t_orgunit u r eq_refl Hr) as (Hty & Hsat & _).
  destruct (keywords_row "t_orgunit" d r Hty) as (ws & Hws & Hsame).
  wp_step. eapply wp_mono; [apply (do_update_wp F "t_orgunit" u _ d t_orgunit r); [done|done|exact (Hk _ _ _ Hr)|]|].
  - intros H. destruct H. split; [by apply NoDup_singleton|]. split; [cbn; by rewrite list_elem_of_singleton|]. exists ws. split; [done|].
    split; [by eapply same_satisfies|by constructor].
  - cbv beta. intros q d1 (r' & -> & (ws' & Hws' & ->) & Hid & Hc & _). rewrite Hws in Hws'. injection Hws' as <-.
    wp_step. cbn [mapM]. wp_step. eapply wp_mono; [by apply (trg_audit_wp F v _ d1 t_orgunit)|]. cbv beta. intros [] d2 Hlog.
    do 3 wp_step. right. do 4 eexists. split; [done|]. split; [done|]. split; [done|]. split; [exact Hsame|]. split; [exact Hc|exact Hlog].
Qed.

(** ** The triggers of an event *)

(** What a checked event asks of its row. *)
Definition checks (d : contents) (e : event) (def : table_def) : Prop :=
  match e with
  | Inserted _ r => Forall (refers d r) (t_columns def)
  | Updated _ r r' => Forall (fun c => column (col_name c) r <> column (col_name c) r' -> refers d r' c) (t_columns def)
  | Removed t r => exists id, row_id r = Some id /\ ~ blocked t id d
  end.
Definition fired (v : vars) (e : event) (d : contents) (q : list event) (d' : contents) : Prop :=
  exists d1 d2, changes q d d1 /\ Forall loses q /\ logged v e d1 d2 /\ refreshed v e d2 d'
    /\ match e with Removed t r => forall id, row_id r = Some id -> unreferenced t id d1 /\ Forall (caused t id) q | _ => q = [] end.

Lemma check_references_wp F t def (p : column_def -> Prop) `{forall c, Decision (p c)} r d Q :
  table_of t = Some def -> (~ Forall (fun c => p c -> refers d r c) (t_columns def) -> F) ->
  (Forall (fun c => p c -> refers d r c) (t_columns def) -> Q tt d) -> wp F (check_references t p r) Q d.
Proof.
  intros Ht HF HQ. unfold check_references. rewrite Ht. do 2 wp_step; [|done]. injection H0 as <-. do 3 wp_step.
  - apply HQ. by apply bool_decide_eq_true in H0.
  - apply HF. by rewrite bool_decide_eq_true in H0.
Qed.

Lemma rows_ok_same d d' : (forall t, table d' t = table d t) -> rows_ok d -> rows_ok d'.
Proof. intros H [Hk Hok]. split; [intros t k r; rewrite H; apply Hk|]. intros t def k r. rewrite H. apply Hok. Qed.
Lemma logged_same v e d d' : logged v e d d' -> forall t, table d' t = table d t.
Proof. intros (H & _) t. by apply table_ext. Qed.

Lemma fire_wp F v e d def : table_of (event_table e) = Some def -> rows_ok d -> (audit_user v = None -> F) -> (~ checks d e def -> F) ->
  wp F (fire v e) (fun q d' => fired v e d q d' /\ (checks d e def \/ exists t r, e = Removed t r)) d.
Proof.
  intros Ht Hok HF HC. unfold fire. wp_step.
  assert (Hrest : forall q d1, changes q d d1 -> Forall loses q ->
    match e with Removed t r => forall id, row_id r = Some id -> unreferenced t id d1 /\ Forall (caused t id) q | _ => q = [] end ->
    (checks d e def \/ exists t r, e = Removed t r) ->
    wp F (_ ← trg_audit v e; _ ← trg_localized_orgunit_refresh v e; mret q) (fun q d' => fired v e d q d' /\ (checks d e def \/ exists t r, e = Removed t r)) d1).
  { intros q d1 Hq Hl Hend Hck. wp_step. eapply wp_mono; [by apply (trg_audit_wp F v e d1 def)|]. cbv beta. intros [] d2 Hlog. wp_step.
    eapply wp_mono; [apply refresh_wp; [|done]|].
    - eapply rows_ok_same; [by eapply logged_same|]. by eapply changes_rows_ok.
    - cbv beta. intros [] d3 Href. wp_step. split; [|done]. by exists d1, d2. }
  destruct e as [t r|t r r'|t r]; cbn [event_table checks] in *.
  - wp_step. apply (check_references_wp F t def); [done| |].
    + intros H. apply HC. intros H'. apply H. eapply Forall_impl; [exact H'|]. done.
    + intros H. wp_step. apply Hrest; try done. left. eapply Forall_impl; [exact H|]. auto.
  - wp_step. apply (check_references_wp F t def); [done|done|]. intros H. wp_step. apply Hrest; try done. by left.
  - do 2 wp_step; [|apply HC; intros (id & Hid & _); unfold row_id in Hid; congruence].
    wp_step. eapply wp_mono; [apply (references_wp F t a d Hok)|].
    + intros Hbl. apply HC. intros (id & Hid & Hn). unfold row_id in Hid. rewrite H in Hid. by injection Hid as <-.
    + cbv beta. intros qs d1 (Hq & Hl & Hb & Hu). wp_step. apply Hrest; try done.
      * unfold row_id. rewrite H. by intros ? [= <-].
      * right. eauto.
Qed.
End cascade.
