(* ===== verification/Integrity.v ===== *)
(** * Integrity and the audit log (contact/db/contact_ddl.sql)

    What every statement keeps: rows satisfy their constraints, references lead to rows, and the log of an audited table, replayed
    from the empty table, gives the table.  During a statement both hold up to the events that are still queued. *)
From stdpp Require Import gmap strings.
From S2P Require Import Prelude Sql Schema Tables Changes Cascade.

(** ** References *)

(** Every reference leads to a row, or to a row whose removal is in the queue. *)
Definition linked (d : contents) (queue : list event) : Prop :=
  forall t def c k r target a i, table_of t = Some def -> c ∈ t_columns def -> col_references c = Some (target, a) ->
    table d t !! k = Some r -> column (col_name c) r = VInt i ->
    is_Some (table d target !! i) \/ exists r0, Removed target r0 ∈ queue /\ row_id r0 = Some i.

(** ** Replay *)

Fixpoint replay (m : gmap Z row) (l : list (option row * option row)) : option (gmap Z row) :=
  match l with [] => Some m | e :: l => m ← replay_one m e; replay m l end.
Definition history (d : contents) (t : String.string) : list (option row * option row) :=
  map (fun x => (old_data x, new_data x)) (log_of d (log_name t)).
Definition pending (t : String.string) (queue : list event) : list (option row * option row) :=
  map event_rows (filter (fun e => event_table e = t) queue).
Definition accounted (d : contents) (queue : list event) : Prop :=
  forall t, audited t = true -> replay ∅ (history d t ++ pending t queue) = Some (table d t).

Lemma replay_app m l k : replay m (l ++ k) = (m' ← replay m l; replay m' k).
Proof. revert m. induction l as [|e l IH]; intros m; [done|]. cbn. destruct (replay_one m e); [apply IH|done]. Qed.
Lemma pending_app t l k : pending t (l ++ k) = pending t l ++ pending t k.
Proof. unfold pending. by rewrite filter_app, map_app. Qed.
Lemma pending_own e : pending (event_table e) [e] = [event_rows e].
Proof. unfold pending. by rewrite filter_cons_True. Qed.
Lemma pending_other t e l : event_table e <> t -> pending t (e :: l) = pending t l.
Proof. intros H. unfold pending. by rewrite filter_cons_False. Qed.
Lemma pending_none t l : (forall e, e ∈ l -> event_table e <> t) -> pending t l = [].
Proof.
  intros H. unfold pending. induction l as [|e l IH]; [done|]. rewrite filter_cons_False by (apply H; by left). apply IH. intros e' He. apply H. by right.
Qed.

(** Two tables do not share a log. *)
Lemma log_name_table t def : table_of t = Some def -> W "t_" ++ drop 6 (log_name t) = W t.
Proof. intros H%table_of_elem%list_elem_of_In. cbn in H. repeat (destruct H as [[= <- _]|H]; [vm_compute; reflexivity|]). destruct H. Qed.
Lemma log_name_inj t u : audited t = true -> audited u = true -> log_name t = log_name u -> t = u.
Proof.
  unfold audited. destruct (table_of t) as [def|] eqn:Ht; [|done]. destruct (table_of u) as [def'|] eqn:Hu; [|done]. intros _ _ E.
  rewrite <- (String.string_of_list_ascii_of_string t), <- (String.string_of_list_ascii_of_string u). f_equal.
  rewrite <- (log_name_table t def Ht), <- (log_name_table u def' Hu). by rewrite E.
Qed.

Section integrity.
Context {C : Scalars} {P : Postgres} {L : PostgresLaws P}.

(** ** New entries *)

(** An entry has its letter, and the rows it speaks of. *)
Definition entry_shape (x : log_entry) : Prop := exists e, action x = event_action e /\ (old_data x, new_data x) = event_rows e.
Definition appended (v : vars) (d d' : contents) : Prop :=
  clock d' = clock d /\ forall log, exists new, log_of d' log = log_of d log ++ new
    /\ Forall (fun x => audit_user v = Some (action_by x) /\ action_at x = clock d /\ entry_shape x) new.

Lemma appended_refl v d d' : quiet d d' -> appended v d d'.
Proof. intros [H1 H2]. split; [done|]. intros log. exists []. unfold log_of. by rewrite H1, app_nil_r. Qed.
Lemma appended_trans v d1 d2 d3 : appended v d1 d2 -> appended v d2 d3 -> appended v d1 d3.
Proof.
  intros [H1 H2] [H3 H4]. split; [congruence|]. intros log. destruct (H2 log) as (n1 & E1 & F1), (H4 log) as (n2 & E2 & F2).
  exists (n1 ++ n2). rewrite E2, E1, app_assoc. split; [done|]. apply Forall_app. split; [done|]. by rewrite <- H1.
Qed.

Lemma logged_log v e d d' log : logged v e d d' ->
  log_of d' log = log_of d log \/ audited (event_table e) = true /\ log = log_name (event_table e) /\ exists x, entry_of v d e x /\ log_of d' log = log_of d log ++ [x].
Proof.
  intros (_ & _ & H). destruct (audited (event_table e)); [|left; unfold log_of; by rewrite H]. destruct H as (x & Hx & H).
  unfold log_of. rewrite H. destruct (decide (log = log_name (event_table e))) as [->|E].
  - right. split; [done|]. split; [done|]. exists x. by rewrite lookup_insert_eq.
  - left. by rewrite lookup_insert_ne.
Qed.
Lemma appended_logged v e d d' : logged v e d d' -> appended v d d'.
Proof.
  intros H. split; [apply H|]. intros log. destruct (logged_log v e d d' log H) as [E|(_ & _ & x & (Hact & Hu & Ha & Hrows) & E)].
  - exists []. by rewrite app_nil_r.
  - exists [x]. split; [done|]. apply Forall_singleton. split; [done|]. split; [done|]. by exists e.
Qed.
Lemma appended_refreshed v e d d' : refreshed v e d d' -> appended v d d'.
Proof.
  intros [->|(u & r & r' & d1 & _ & _ & _ & _ & [Hq _] & Hlog)]; [by apply appended_refl|].
  eapply appended_trans; [by apply appended_refl|by eapply appended_logged].
Qed.
Lemma appended_fired v e d q d' : fired v e d q d' -> appended v d d'.
Proof.
  intros (d1 & d2 & H1 & _ & H2 & H3 & _). eapply appended_trans; [by apply appended_refl, (changes_quiet q)|].
  eapply appended_trans; [by eapply appended_logged|by eapply appended_refreshed].
Qed.

(** ** The log accounts for the tables *)

Lemma accounted_changes q d d' Q : changes q d d' -> accounted d Q -> accounted d' (Q ++ q).
Proof.
  revert d Q. induction q as [|e q IH]; intros d Q; cbn [changes].
  - intros [[Hl _] Hd] H t Ht. rewrite app_nil_r, Hd. unfold history, log_of. rewrite Hl. by apply H.
  - intros (d1 & Hc & Hq) H. replace (Q ++ e :: q) with ((Q ++ [e]) ++ q) by by rewrite <- app_assoc. apply (IH d1); [done|].
    intros t Ht. specialize (H t Ht). pose proof Hc as [[Hl _] _]. unfold history, log_of in *. rewrite Hl, pending_app, app_assoc, replay_app, H.
    cbn [mbind option_bind]. destruct (decide (event_table e = t)) as [<-|E].
    + rewrite pending_own. cbn [replay]. rewrite (change_own _ _ _ Hc). done.
    + rewrite pending_other by done. cbn. by rewrite (change_table _ _ _ t Hc) by done.
Qed.

Lemma accounted_logged v e d d' Q : logged v e d d' -> accounted d (e :: Q) -> accounted d' Q.
Proof.
  intros Hlog H t Ht. rewrite (logged_same _ _ _ _ Hlog). specialize (H t Ht). unfold history in *.
  destruct (decide (event_table e = t)) as [E|E].
  - subst t. destruct Hlog as (_ & _ & Hl). rewrite Ht in Hl. destruct Hl as (x & (_ & _ & _ & Hx) & Hl).
    unfold log_of at 1. rewrite Hl, lookup_insert_eq. cbn [default from_option id]. rewrite map_app. cbn [map]. rewrite Hx, <- app_assoc.
    change (e :: Q) with ([e] ++ Q) in H. by rewrite pending_app, pending_own in H.
  - rewrite pending_other in H by done. destruct (logged_log v e d d' (log_name t) Hlog) as [->|(Ha & Hn & _)]; [done|].
    apply log_name_inj in Hn; [|done|done]. by subst.
Qed.

(** A refresh does not overtake an event of its unit. *)
Definition orderly (d : contents) (Q : list event) : Prop :=
  (forall e u, e ∈ Q -> event_table e = "t_localizedorgunit"%string -> column "org_unit_id" (event_row e) = VInt u -> table d "t_orgunit" !! u = None)
  \/ (forall e, e ∈ Q -> event_table e <> "t_orgunit"%string).

Lemma accounted_refreshed v e d d' Q : refreshed v e d d' -> orderly d (e :: Q) -> accounted d Q -> accounted d' Q.
Proof.
  intros [->|(u & r & r' & d1 & He & Hu & Hr & _ & Hc & Hlog)] Hord H; [done|].
  destruct Hord as [Hord|Hord]; [rewrite (Hord e u) in Hr by (done || by left); done|].
  eapply accounted_logged; [exact Hlog|]. pose proof (accounted_changes [_] d d1 Q (changes_one _ _ _ Hc) H) as H1.
  intros t Ht. specialize (H1 t Ht). rewrite pending_app in H1. change (?e :: Q) with ([e] ++ Q). rewrite pending_app.
  destruct (decide (t = "t_orgunit"%string)) as [->|E].
  - rewrite (pending_none "t_orgunit" Q) in * by (intros; apply Hord; by right). by rewrite app_nil_r.
  - rewrite (pending_other t (Updated "t_orgunit" r r') []) in * by done. by rewrite app_nil_r in H1.
Qed.

Lemma accounted_fired v e d q d' Q : fired v e d q d' -> accounted d (e :: Q) ->
  (forall d1, changes q d d1 -> orderly d1 (e :: Q ++ q)) -> accounted d' (Q ++ q).
Proof.
  intros (d1 & d2 & Hq & _ & Hlog & Href & _) Hacc Hord. eapply accounted_refreshed; [exact Href| |].
  - specialize (Hord d1 Hq). unfold orderly in *. by setoid_rewrite (logged_same _ _ _ _ Hlog).
  - eapply accounted_logged; [exact Hlog|]. exact (accounted_changes q d d1 (e :: Q) Hq Hacc).
Qed.

(** ** References during a deletion *)

Lemma linked_shrinks d d' Q q : linked d Q -> shrinks d d' ->
  (forall t k, is_Some (table d t !! k) -> table d' t !! k = None -> exists r, Removed t r ∈ q /\ row_id r = Some k) -> linked d' (Q ++ q).
Proof.
  intros Hl Hs Hgone t def c k r' target a i Ht Hc Href (r & Hr & Hw & _)%Hs Hcol.
  destruct (references_shape t def c target a Ht Hc Href) as (_ & Hsv & _).
  assert (Hcol' : column (col_name c) r = VInt i) by (destruct (Hw _ Hsv) as [|[]]; congruence).
  destruct (Hl t def c k r target a i Ht Hc Href Hr Hcol') as [Hi|(r0 & H0 & Hid)].
  - destruct (table d' target !! i) as [x|] eqn:Hx; [left; by eexists|]. right. destruct (Hgone target i Hi Hx) as (r0 & H0 & Hid).
    exists r0. split; [apply elem_of_app; by right|done].
  - right. exists r0. split; [apply elem_of_app; by left|done].
Qed.

Lemma refreshed_tables v e d d' : refreshed v e d d' -> shrinks d d' /\ (forall t k, is_Some (table d t !! k) -> is_Some (table d' t !! k))
  /\ (forall t, t <> "t_orgunit"%string -> table d' t = table d t) /\ (rows_ok d -> rows_ok d').
Proof.
  intros [->|(u & r & r' & d1 & _ & _ & Hr & Hsame & Hc & Hlog)]; [split; [apply shrinks_refl|done]|].
  pose proof (logged_same _ _ _ _ Hlog) as Hd. pose proof Hc as Hc0. apply change_updated in Hc as (id & Hid & Hid' & Hr' & E).
  split; [|split; [|split]].
  - intros t k x. rewrite Hd. destruct (decide (t = "t_orgunit"%string)) as [->|Ht].
    + rewrite E. intros [[<- <-]|[_ Hx]]%lookup_insert_Some; [exists r; split; [done|split; [by apply same_weaker|done]]|]. exists x. split; [done|split; [by left|done]].
    + rewrite (change_table _ _ _ t Hc0) by done. intros Hx. exists x. split; [done|split; [by left|done]].
  - intros t k. rewrite Hd. destruct (decide (t = "t_orgunit"%string)) as [->|Ht]; [|by rewrite (change_table _ _ _ t Hc0)].
    rewrite E. intros Hx. destruct (decide (id = k)) as [->|]; [rewrite lookup_insert_eq; by eexists|by rewrite lookup_insert_ne].
  - intros t Ht. by rewrite Hd, (change_table _ _ _ t Hc0).
  - intros Hok. eapply rows_ok_same; [exact Hd|]. by eapply change_rows_ok.
Qed.

(** The head of the queue excuses no reference once nothing refers to it. *)
Lemma linked_done d e Q : linked d (e :: Q) ->
  match e with Removed t r => forall id, row_id r = Some id -> unreferenced t id d | _ => True end -> linked d Q.
Proof.
  intros Hl He t def c k r target a i Ht Hc Href Hr Hcol.
  destruct (Hl t def c k r target a i Ht Hc Href Hr Hcol) as [Hi|(r0 & H0 & Hid)]; [by left|].
  apply elem_of_cons in H0 as [<-|H0]; [|right; by exists r0].
  assert (Hin : (t, col_name c, a) ∈ references_to target) by (apply references_to_elem; by exists def, c).
  assert (H : referring (col_name c) i (table d t) !! k = Some r) by (unfold referring; by apply map_lookup_filter_Some).
  rewrite (He i Hid _ _ _ Hin) in H. by apply lookup_empty_Some in H.
Qed.

Lemma changes_removed q d d' t r k : changes q d d' -> Forall loses q -> Removed t r ∈ q -> row_id r = Some k -> table d' t !! k = None.
Proof.
  revert d. induction q as [|e q IH]; intros d Hc Hl Hin Hid; [by apply not_elem_of_nil in Hin|].
  destruct Hc as (d1 & H & Hc). apply Forall_cons in Hl as [He Hl]. apply elem_of_cons in Hin as [<-|Hin]; [|by eapply IH].
  apply change_removed in H as (id & Hid' & _ & E). rewrite Hid in Hid'. injection Hid' as <-.
  eapply shrinks_absent; [by eapply changes_shrinks|]. rewrite E. apply lookup_delete_eq.
Qed.

(** ** A queue of deletions *)

Record deleting (d : contents) (Q : list event) : Prop := mk_deleting {
  del_rows : rows_ok d;
  del_loses : Forall loses Q;
  del_tables : Forall (fun e => is_Some (table_of (event_table e)) /\ is_Some (row_id (event_row e))) Q;
  del_absent : forall t r k, Removed t r ∈ Q -> row_id r = Some k -> table d t !! k = None;
  del_linked : linked d Q;
  del_orderly : orderly d Q }.

Lemma caused_table t id e : caused t id e ->
  is_Some (table_of (event_table e)) /\ (event_table e = "t_orgunit"%string -> t = "t_orgunit"%string)
  /\ (event_table e <> "t_orgunit"%string -> position t < position (event_table e))
  /\ event_table e <> "t_locale"%string /\ event_table e <> "t_contactqualifier"%string
  /\ (event_table e = "t_localizedorgunit"%string -> t = "t_orgunit"%string /\ (loses e -> column "org_unit_id" (event_row e) = VInt id)).
Proof.
  intros (c & a & (def & col & Ht & Hcol & <- & Href)%references_to_elem & Ha & Hr).
  destruct (references_shape _ def col t a Ht Hcol Href) as (_ & _ & _ & _ & Hu & Hpos & Hn & _ & Hloc).
  split; [by eexists|]. split; [|split; [done|split; [by apply Hn|split; [by apply Hn|]]]].
  - intros E. specialize (Hu E). subst col. cbn in Href. by injection Href as <- _.
  - intros E. destruct (Hloc E Ha) as [-> Hname]. split; [done|]. destruct e as [? r|? r r'|? r]; [done| |].
    + intros (E' & _). cbn in E. congruence.
    + intros _. cbn in *. rewrite Hname in Hr. by destruct Hr.
Qed.

Lemma orderly_changes t r id q d d1 Q :
  row_id r = Some id -> table d t !! id = None -> Forall (caused t id) q -> Forall loses q -> changes q d d1 ->
  orderly d (Removed t r :: Q) -> orderly d1 (Removed t r :: Q ++ q).
Proof.
  intros Hid Hn Hca Hl Hq Ho. pose proof (changes_shrinks _ _ _ Hq Hl) as Hs. rewrite Forall_forall in Hca, Hl.
  destruct (decide (t = "t_orgunit"%string)) as [->|Ht].
  - left. destruct Ho as [Ho|Ho]; [|by destruct (Ho (Removed "t_orgunit" r) ltac:(by left))].
    intros e u He Heq Hu. eapply shrinks_absent; [exact Hs|]. apply elem_of_cons in He as [->|[He|He]%elem_of_app]; [done|by apply (Ho e); [right|..]|].
    destruct (caused_table _ _ _ (Hca e He)) as (_ & _ & _ & _ & _ & Hloc). destruct (Hloc Heq) as [_ Hu'].
    rewrite (Hu' (Hl e He)) in Hu. injection Hu as <-. done.
  - assert (Hnew : forall e, e ∈ q -> event_table e <> "t_orgunit"%string /\ event_table e <> "t_localizedorgunit"%string).
    { intros e He. destruct (caused_table _ _ _ (Hca e He)) as (_ & Hu & _ & _ & _ & Hloc). split; [auto|]. intros E. by destruct (Hloc E). }
    destruct Ho as [Ho|Ho]; [left|right].
    + intros e u He Heq Hu. eapply shrinks_absent; [exact Hs|]. apply elem_of_cons in He as [->|[He|He]%elem_of_app].
      * by apply (Ho (Removed t r)); [left|..].
      * by apply (Ho e); [right|..].
      * by destruct (Hnew e He).
    + intros e He. apply elem_of_cons in He as [->|[He|He]%elem_of_app]; [done|apply Ho; by right|by apply Hnew].
Qed.

Lemma orderly_later d d' e Q : shrinks d d' -> orderly d (e :: Q) -> orderly d' Q.
Proof.
  intros Hs [Ho|Ho]; [left|right].
  - intros e' u He Heq Hu. eapply shrinks_absent; [exact Hs|]. apply (Ho e'); [by right|done|done].
  - intros e' He. apply Ho. by right.
Qed.

Lemma same_weight d d' : (forall t, table d' t = table d t) -> weight d' = weight d.
Proof. intros H. unfold weight, parents. rewrite H. f_equal. apply total_rows_same. intros t. by rewrite H. Qed.

Lemma refreshed_weight v e d d' : refreshed v e d d' -> weight d' = weight d.
Proof.
  intros [->|(u & r & r' & d1 & _ & _ & Hr & Hsame & Hc & Hlog)]; [done|]. rewrite (same_weight d1 d') by by eapply logged_same.
  pose proof Hc as Hc0. apply change_updated in Hc as (id & Hid & Hid' & Hr' & E). unfold weight. f_equal.
  - apply total_rows_same. intros t. destruct (decide (t = "t_orgunit"%string)) as [->|Ht]; [|by rewrite (change_table _ _ _ t Hc0)].
    rewrite E. apply map_size_insert_Some. by eexists.
  - unfold parents. rewrite E, map_filter_insert. assert (Hp : column "parent_id" r' = column "parent_id" r) by by apply Hsame.
    case_decide as Hd; cbn [snd] in Hd.
    + apply map_size_insert_Some. exists r. apply map_lookup_filter_Some. split; [done|]. cbn. congruence.
    + rewrite map_filter_delete, delete_id; [done|]. apply map_lookup_filter_None. right. intros x Hx. cbn. congruence.
Qed.

(** Changes speak of rows that have keys, and only of the tables they name. *)
Lemma changes_have_ids q d d1 : changes q d d1 -> rows_ok d -> forall e, e ∈ q -> is_Some (row_id (event_row e)).
Proof.
  revert d. induction q as [|x q IH]; intros d Hq Hok e He; [by apply not_elem_of_nil in He|].
  destruct Hq as (d3 & Hx & Hq). apply elem_of_cons in He as [->|He]; [|eapply IH; [exact Hq|by eapply change_rows_ok|done]].
  destruct x as [t r|t r r'|t r]; cbn;
    [apply change_inserted in Hx as (? & -> & _)|apply change_updated in Hx as (? & _ & -> & _)|apply change_removed in Hx as (? & -> & _)]; by eexists.
Qed.
Lemma changes_elsewhere q d d1 t : changes q d d1 -> Forall (fun e => t <> event_table e) q -> table d1 t = table d t.
Proof.
  intros Hq Hfar. revert d Hq. induction Hfar as [|x q Hx _ IH]; intros d Hq; [by destruct Hq as [_ Hq]|].
  destruct Hq as (d3 & Hc & Hq). rewrite (IH _ Hq). by rewrite (change_table _ _ _ t Hc).
Qed.
Lemma orderly_same d d' Q : (forall t, table d' t = table d t) -> orderly d Q -> orderly d' Q.
Proof. intros H. unfold orderly. by setoid_rewrite H. Qed.

Lemma fired_deleting v e d q d' Q : fired v e d q d' -> deleting d (e :: Q) ->
  deleting d' (Q ++ q) /\ shrinks d d' /\ weight d' + length q <= weight d /\ (accounted d (e :: Q) -> accounted d' (Q ++ q))
  /\ (forall t, t <> "t_orgunit"%string -> position t <= position (event_table e) ->
        table d' t = table d t /\ Forall (fun e' => position t <= position (event_table e')) q)
  /\ Forall (fun e' => event_table e' <> "t_locale"%string /\ event_table e' <> "t_contactqualifier"%string) q.
Proof.
  intros Hf [Hok Hl Ht Ha Hlk Ho]. pose proof Hf as (d1 & d2 & Hq & Hlq & Hlog & Href & He).
  pose proof (logged_same _ _ _ _ Hlog) as H12. destruct (refreshed_tables _ _ _ _ Href) as (Hs2 & Hk2 & Ho2 & Hr2).
  assert (Hsh : shrinks d d1) by by eapply changes_shrinks. assert (Hs12 : shrinks d1 d2) by by apply shrinks_same.
  assert (Hs' : shrinks d d') by eauto using shrinks_trans.
  apply Forall_cons in Ht as [[Hte Hide] Ht], Hl as [Hle Hl].
  assert (Hcase : q = [] \/ exists t r id, e = Removed t r /\ row_id r = Some id /\ table d t !! id = None /\ unreferenced t id d1 /\ Forall (caused t id) q).
  { destruct e as [t r|t r r'|t r]; [by left|by left|]. destruct Hide as [id Hid]. destruct (He id Hid) as [Hu Hca]. right. exists t, r, id.
    split; [done|]. split; [done|]. split; [by apply (Ha t r); [left|]|done]. }
  assert (Ho1 : orderly d1 (e :: Q ++ q)).
  { destruct Hcase as [->|(t & r & id & -> & Hid & Hn & _ & Hca)]; [|by eapply orderly_changes]. rewrite app_nil_r. destruct Hq as [_ Hq].
    by apply (orderly_same d). }
  split; [split|split; [done|split; [|split; [|split]]]].
  - apply Hr2. eapply rows_ok_same; [exact H12|]. by eapply changes_rows_ok.
  - by apply Forall_app.
  - apply Forall_app. split; [done|]. destruct Hcase as [->|(t & r & id & -> & Hid & Hn & _ & Hca)]; [constructor|].
    rewrite Forall_forall in *. intros e' He'. split; [by eapply caused_table, Hca|by eapply changes_have_ids].
  - intros t r k [Hin|Hin]%elem_of_app Hid.
    + eapply shrinks_absent; [exact Hs'|]. by apply (Ha t r); [right|].
    + eapply shrinks_absent; [eapply shrinks_trans; [exact Hs12|exact Hs2]|]. by eapply changes_removed.
  - assert (H1 : linked d1 ((e :: Q) ++ q)) by (eapply linked_shrinks; [done|done|]; intros; by eapply changes_gone).
    assert (H2 : linked d1 (Q ++ q)).
    { eapply (linked_done d1 e); [exact H1|]. destruct e as [t r|t r r'|t r]; [done|done|]. intros id Hid. by apply He. }
    rewrite <- (app_nil_r (Q ++ q)). eapply linked_shrinks; [exact H2|by eapply shrinks_trans|].
    intros t k Hk Hn. destruct (Hk2 t k) as [x Hx]; [by rewrite H12|congruence].
  - eapply orderly_later; [|exact Ho1]. by eapply shrinks_trans.
  - rewrite (refreshed_weight _ _ _ _ Href), (same_weight d1 d2 H12). by apply changes_weight.
  - intros Hacc. eapply accounted_fired; [exact Hf|exact Hacc|]. intros d3 Hq'. destruct Hcase as [->|(t & r & id & -> & Hid & Hn & _ & Hca)].
    + rewrite app_nil_r. destruct Hq' as [_ Hq']. by apply (orderly_same d).
    + by eapply orderly_changes.
  - intros t Htu Hpos. rewrite Ho2, H12 by done. destruct Hcase as [->|(te & r & id & -> & Hid & Hn & _ & Hca)]; [by destruct Hq|].
    assert (Hfar : Forall (fun e' => t <> event_table e' /\ position t <= position (event_table e')) q).
    { eapply Forall_impl; [exact Hca|]. intros e' He'. destruct (caused_table _ _ _ He') as (_ & _ & Hp & _). cbn [event_table] in Hpos.
      destruct (decide (event_table e' = "t_orgunit"%string)) as [E|E]; [|specialize (Hp E); split; [intros ->|]; lia].
      destruct (caused_table _ _ _ He') as (_ & Hu & _). specialize (Hu E). rewrite E in *. subst te. split; [congruence|done]. }
    split; [|eapply Forall_impl; [exact Hfar|]; by intros ? []]. eapply changes_elsewhere; [exact Hq|]. eapply Forall_impl; [exact Hfar|]. by intros ? [].
  - destruct Hcase as [->|(te & r & id & -> & Hid & Hn & _ & Hca)]; [constructor|].
    eapply Forall_impl; [exact Hca|]. intros e' He'. destruct (caused_table _ _ _ He') as (_ & _ & _ & H1 & H2 & _). done.
Qed.

(** The rows of languages and qualifiers are the only ones whose deletion is refused. *)
Definition refusable (t : String.string) : Prop := t = "t_locale"%string \/ t = "t_contactqualifier"%string.
Lemma blocked_refusable t id d : blocked t id d -> refusable t.
Proof.
  intros (t' & c & (def & col & Ht & Hcol & <- & Href)%references_to_elem & _).
  destruct (references_shape t' def col t NoAction Ht Hcol Href) as (_ & _ & _ & _ & _ & _ & _ & [H _] & _).
  destruct (H eq_refl) as [->|[-> _]]; [by left|by right].
Qed.

(** What a queue of deletions leaves: with enough fuel it only fails when the audit refuses the user, or when a row that
    is deleted is referred to by another whose reference has no action. *)
Lemma run_deleting F v fuel d Q :
  deleting d Q -> weight d + length Q <= fuel -> (audit_user v = None -> F) -> ((exists e, e ∈ Q /\ refusable (event_table e)) -> F) ->
  wp F (run fuel v Q) (fun _ d' => deleting d' [] /\ appended v d d' /\ shrinks d d' /\ (accounted d Q -> accounted d' [])
    /\ forall t, t <> "t_orgunit"%string -> Forall (fun e => position t <= position (event_table e)) Q -> table d' t = table d t) d.
Proof.
  revert d Q. induction fuel as [|fuel IH]; intros d [|e Q] Hdel Hfuel HF HR; cbn [length] in Hfuel; try lia; cbn [run].
  - wp_step. split; [done|]. split; [by apply appended_refl|]. by split; [apply shrinks_refl|].
  - wp_step. split; [done|]. split; [by apply appended_refl|]. by split; [apply shrinks_refl|].
  - wp_step. pose proof Hdel as [Hok _ Ht _ _ _]. apply Forall_cons in Ht as [[[def Ht] [id Hid]] _].
    eapply wp_mono; [apply (fire_wp F v e d def Ht Hok HF)|].
    + intros Hn. apply HR. exists e. split; [by left|]. pose proof (del_loses _ _ Hdel) as [He _]%Forall_cons.
      destruct e as [t r|t r r'|t r]; [done| |]; cbn [checks event_row event_table] in *.
      * exfalso. apply Hn. destruct He as (-> & _ & Hp & _). cbn in Ht. injection Ht as <-. rewrite Forall_forall. intros c Hc Hne.
        unfold refers. destruct (col_references c) as [[target a]|] eqn:Href; [|done].
        destruct (references_shape "t_orgunit" t_orgunit c target a eq_refl Hc Href) as (_ & _ & _ & _ & Hcol & _).
        rewrite (Hcol eq_refl). cbn. by rewrite Hp.
      * apply dec_stable. intros Href. apply Hn. exists id. split; [done|]. intros Hb. apply Href. by eapply blocked_refusable.
    + cbv beta. intros q d1 [Hf _]. destruct (fired_deleting v e d q d1 Q Hf Hdel) as (Hdel1 & Hs & Hw & Hacc & Hfr & Hnr).
      eapply wp_mono; [apply (IH d1 (Q ++ q) Hdel1)|].
      * rewrite length_app. lia.
      * done.
      * intros (e' & [He'|He']%elem_of_app & Hr); [apply HR; exists e'; split; [by right|done]|].
        rewrite Forall_forall in Hnr. destruct (Hnr e' He') as [H1 H2]. by destruct Hr.
      * cbv beta. intros _ d2 (H1 & H2 & H3 & H4 & H5). split; [done|]. split; [eapply appended_trans; [by eapply appended_fired|done]|].
        split; [by eapply shrinks_trans|]. split; [auto|]. intros t Htu [He HQ]%Forall_cons. destruct (Hfr t Htu He) as [E HQ'].
        rewrite H5, E by (done || by apply Forall_app). done.
Qed.

(** ** Statements *)

Definition consistent (d : contents) : Prop := rows_ok d /\ linked d [].

(** A row that was stored or changed, and whose references were checked, is linked like the others. *)
Lemma linked_checked e def d0 d :
  linked d0 [] -> change e d0 d -> table_of (event_table e) = Some def -> checks d e def -> (forall t r, e <> Removed t r) -> linked d [].
Proof.
  intros Hl Hc Ht Hck Hnr t def' c k r target a i Ht' Hcol Href Hr Hi.
  assert (Hgrow : forall u j, is_Some (table d0 u !! j) -> is_Some (table d u !! j)).
  { intros u j Hs. destruct (decide (u = event_table e)) as [->|E]; [|by rewrite (change_table _ _ _ u Hc)].
    destruct e as [te x|te x x'|te x]; [apply change_inserted in Hc as (id & _ & _ & E)|apply change_updated in Hc as (id & _ & _ & _ & E)|by destruct (Hnr te x)];
      cbn; rewrite E; (destruct (decide (id = j)) as [->|]; [rewrite lookup_insert_eq; by eexists|by rewrite lookup_insert_ne]). }
  assert (Hold : forall r0, table d0 t !! k = Some r0 -> column (col_name c) r0 = VInt i -> is_Some (table d target !! i)).
  { intros r0 Hr0 Hi0. destruct (Hl t def' c k r0 target a i Ht' Hcol Href Hr0 Hi0) as [H|(x & H & _)]; [by apply Hgrow|by apply not_elem_of_nil in H]. }
  left. destruct (decide (t = event_table e)) as [->|E]; [|rewrite (change_table _ _ _ t Hc) in Hr by done; by eapply Hold].
  rewrite Ht in Ht'. injection Ht' as <-.
  destruct e as [te x|te x x'|te x]; cbn [event_table checks] in *; [| |by destruct (Hnr te x)]; rewrite Forall_forall in Hck.
  - apply change_inserted in Hc as (id & Hid & _ & E). rewrite E in Hr. apply lookup_insert_Some in Hr as [[<- <-]|[_ Hr]]; [|by eapply Hold].
    specialize (Hck c Hcol). unfold refers in Hck. by rewrite Href, Hi in Hck.
  - apply change_updated in Hc as (id & Hid & Hid' & Hx & E). rewrite E in Hr. apply lookup_insert_Some in Hr as [[<- <-]|[_ Hr]]; [|by eapply Hold].
    destruct (decide (column (col_name c) x = column (col_name c) x')) as [Heq|Hne]; [eapply Hold; [done|congruence]|].
    specialize (Hck c Hcol Hne). unfold refers in Hck. by rewrite Href, Hi in Hck.
Qed.

Lemma run_checked F v n d0 d e def :
  consistent d0 -> change e d0 d -> table_of (event_table e) = Some def -> (forall t r, e <> Removed t r) ->
  (audit_user v = None -> F) -> (~ checks d e def -> F) ->
  wp F (run (S n) v [e]) (fun _ d' => consistent d' /\ appended v d0 d' /\ (accounted d0 [] -> accounted d' [])
    /\ exists d1 d2, (forall t, table d1 t = table d t) /\ quiet d d1 /\ logged v e d1 d2 /\ refreshed v e d2 d') d.
Proof.
  intros [Hok Hlk] Hc Ht Hnr HF HC. cbn [run]. wp_step. assert (Hok1 : rows_ok d) by by eapply change_rows_ok.
  eapply wp_mono; [by apply (fire_wp F v e d def Ht Hok1)|]. cbv beta.
  intros q d' [Hf Hck]. pose proof Hf as (d1 & d2 & Hq & _ & Hlog & Href & He).
  assert (Hq0 : q = []) by (destruct e; [done|done|by destruct (Hnr t r)]). subst q. cbn [app].
  assert (Hend : forall Q, Q d' -> wp F (run n v []) (fun _ => Q) d') by (intros Q HQ; destruct n; cbn [run]; by wp_step). apply Hend. clear Hend.
  destruct Hq as [Hqd Hd1]. assert (H2 : forall t, table d2 t = table d t) by (intros t; by rewrite (logged_same _ _ _ _ Hlog), Hd1).
  destruct Hck as [Hck|(t & r & ->)]; [|by destruct (Hnr t r)]. pose proof (linked_checked e def d0 d Hlk Hc Ht Hck Hnr) as Hlk1.
  destruct (refreshed_tables _ _ _ _ Href) as (Hs & Hk & _ & Hr).
  split; [split|split; [|split]].
  - apply Hr. eapply rows_ok_same; [exact H2|done].
  - rewrite <- (app_nil_r []). eapply linked_shrinks; [exact Hlk1|eapply shrinks_trans; [by apply shrinks_same|exact Hs]|].
    intros t k Hx Hn. destruct (Hk t k) as [y Hy]; [by rewrite H2|congruence].
  - eapply appended_trans; [by apply appended_refl, Hc|by eapply appended_fired].
  - intros Hacc. pose proof (accounted_changes [e] d0 d [] (changes_one _ _ _ Hc) Hacc) as Ha. cbn [app] in Ha.
    rewrite <- (app_nil_r []). eapply accounted_fired; [exact Hf|exact Ha|]. intros d3 _. rewrite app_nil_r.
    destruct (decide (event_table e = "t_orgunit"%string)) as [E|E].
    + left. intros e' u ->%list_elem_of_singleton E'. congruence.
    + right. by intros e' ->%list_elem_of_singleton.
  - by exists d1, d2.
Qed.

Lemma deletion_starts t def r id d d1 : consistent d -> table_of t = Some def -> change (Removed t r) d d1 -> row_id r = Some id -> deleting d1 [Removed t r].
Proof.
  intros [Hok Hlk] Ht Hc Hid. pose proof (changes_one _ _ _ Hc) as Hq. assert (Hl : Forall loses [Removed t r]) by by apply Forall_singleton.
  split.
  - by eapply change_rows_ok.
  - done.
  - apply Forall_singleton. split; by eexists.
  - intros t' r' k Hin Hk. by eapply changes_removed.
  - rewrite <- (app_nil_l [_]). eapply linked_shrinks; [exact Hlk|by eapply changes_shrinks|]. intros. by eapply changes_gone.
  - destruct (decide (t = "t_orgunit"%string)) as [->|E].
    + left. by intros e u ->%list_elem_of_singleton E'.
    + right. by intros e ->%list_elem_of_singleton.
Qed.

Lemma delete_wp F v t id d def r :
  consistent d -> table_of t = Some def -> table d t !! id = Some r -> (audit_user v = None -> F) -> (refusable t -> F) ->
  wp F (queue ← do_delete t id; finish v queue) (fun _ d' => consistent d' /\ appended v d d' /\ shrinks d d' /\ (accounted d [] -> accounted d' [])
    /\ table d' t !! id = None /\ (t <> "t_orgunit"%string -> table d' t = delete id (table d t))) d.
Proof.
  intros Hcon Ht Hr HF HR. pose proof (proj1 (proj1 Hcon) _ _ _ Hr) as Hid. wp_step.
  eapply wp_mono; [by apply (do_delete_change F t id d def r)|]. cbv beta. intros q d1 [-> Hc].
  pose proof (deletion_starts t def r id d d1 Hcon Ht Hc Hid) as Hdel.
  pose proof (changes_one _ _ _ Hc) as Hq. assert (Hl : Forall loses [Removed t r]) by by apply Forall_singleton.
  assert (Hgone : table d1 t !! id = None) by by apply (del_absent _ _ Hdel t r); [left|].
  unfold finish. do 2 wp_step. eapply wp_mono; [apply (run_deleting F v _ d1 [Removed t r] Hdel)|].
  - unfold enough. pose proof (weight_le d1). lia.
  - done.
  - intros (e & ->%list_elem_of_singleton & H). by apply HR.
  - cbv beta. intros [] d' (H1 & H2 & H3 & H4 & H5). split; [split; [apply H1|apply H1]|]. split; [eapply appended_trans; [by apply appended_refl, Hc|done]|].
    split; [eapply shrinks_trans; [by eapply changes_shrinks|done]|].
    split; [intros Ha; apply H4; exact (accounted_changes [_] d d1 [] Hq Ha)|].
    split; [by eapply shrinks_absent|]. intros Hne. rewrite H5 by (done || by apply Forall_singleton).
    apply change_removed in Hc as (id' & Hid' & _ & E). congruence.
Qed.

(** What is taken away with a row: what refers to it by a cascade, and so on. *)
Inductive depends (d : contents) (t : String.string) (id : Z) : String.string -> Z -> Prop :=
  | depends_self : depends d t id t id
  | depends_cascade u j t' c j' r : depends d t id u j -> (t', c, Cascade) ∈ references_to u -> table d t' !! j' = Some r ->
      column c r = VInt j -> depends d t id t' j'.

Lemma changes_from q d d1 t r : changes q d d1 -> Forall loses q -> Removed t r ∈ q ->
  exists k r0, row_id r = Some k /\ table d t !! k = Some r0 /\ weaker r0 r.
Proof.
  revert d. induction q as [|e q IH]; intros d Hc Hl Hin; [by apply not_elem_of_nil in Hin|].
  destruct Hc as (d2 & H & Hc). apply Forall_cons in Hl as [He Hl]. apply elem_of_cons in Hin as [<-|Hin].
  - apply change_removed in H as (k & Hid & Hr & _). exists k, r. split; [done|]. split; [done|apply weaker_refl].
  - destruct (IH d2 Hc Hl Hin) as (k & r0 & Hid & Hr0 & Hw). destruct (change_shrinks _ _ _ H He t k r0 Hr0) as (r1 & Hr1 & Hw1 & _).
    exists k, r1. split; [done|]. split; [done|by eapply weaker_trans].
Qed.

(** A row that has lost its parent has its event. *)
Definition orphaned (d d' : contents) (j : Z) : Prop :=
  exists k x y, table d "t_orgunit" !! k = Some x /\ table d' "t_orgunit" !! k = Some y /\ column "parent_id" x = VInt j /\ column "parent_id" y <> VInt j.
Lemma changes_orphaned q d d' j : changes q d d' -> Forall loses q -> orphaned d d' j ->
  exists r r', Updated "t_orgunit" r r' ∈ q /\ column "parent_id" r = VInt j.
Proof.
  intros Hq Hl (k & x & y & Hx & Hy & Hp & Hn). revert d x Hq Hx Hp. induction q as [|e q IH]; intros d x; cbn [changes].
  - intros [_ Hd] Hx Hp. rewrite Hd in Hy. congruence.
  - intros (d1 & Hc & Hq) Hx Hp. apply Forall_cons in Hl as [He Hl]. destruct (changes_shrinks q d1 d' Hq Hl _ _ _ Hy) as (z & Hz & _).
    assert (Hrest : column "parent_id" z = VInt j -> exists r r', Updated "t_orgunit" r r' ∈ e :: q /\ column "parent_id" r = VInt j).
    { intros Hpz. destruct (IH Hl d1 z Hq Hz Hpz) as (r & r' & Hin & Hr). exists r, r'. split; [by right|done]. }
    destruct (decide (event_table e = "t_orgunit"%string)) as [E|E]; [|apply Hrest; rewrite (change_table _ _ _ _ Hc) in Hz by done; congruence].
    destruct e as [t r|t r r'|t r]; [done| |]; cbn [event_table] in E; subst t.
    + apply change_updated in Hc as (id & _ & _ & Hr & Hd1). cbn [event_table] in Hd1. rewrite Hd1 in Hz.
      apply lookup_insert_Some in Hz as [[<- <-]|[_ Hz]]; [|apply Hrest; congruence]. exists r, r'. split; [by left|congruence].
    + apply change_removed in Hc as (id & _ & _ & Hd1). cbn [event_table] in Hd1. rewrite Hd1 in Hz. apply lookup_delete_Some in Hz as [_ Hz]. apply Hrest. congruence.
Qed.
Lemma orphaned_split d d1 d' j : shrinks d1 d' -> orphaned d d' j -> orphaned d d1 j \/ orphaned d1 d' j.
Proof.
  intros Hs (k & x & y & Hx & Hy & Hp & Hn). destruct (Hs _ _ _ Hy) as (z & Hz & _).
  destruct (decide (column "parent_id" z = VInt j)) as [E|E]; [right; by exists k, z, y|left; by exists k, x, z].
Qed.
Lemma not_orphaned_refreshed v e d d' j : refreshed v e d d' -> ~ orphaned d d' j.
Proof.
  intros H (k & x & y & Hx & Hy & Hp & Hn). destruct H as [->|(u & r & r' & d1 & _ & _ & Hr & Hsame & Hc & Hlog)]; [congruence|].
  rewrite (logged_same _ _ _ _ Hlog) in Hy. apply change_updated in Hc as (id & _ & _ & Hr' & E). cbn [event_table] in E. rewrite E in Hy.
  apply lookup_insert_Some in Hy as [[<- <-]|[_ Hy]]; [|congruence]. specialize (Hsame "parent_id"%string ltac:(done)). congruence.
Qed.

(** What the triggers of an event take away, or take the parent of, depends on what was taken away before. *)
Lemma fired_depends v t id d0 d e q d1 Q :
  fired v e d q d1 -> deleting d (e :: Q) -> shrinks d0 d -> (forall u r k, Removed u r ∈ e :: Q -> row_id r = Some k -> depends d0 t id u k) ->
  (forall u r k, Removed u r ∈ q -> row_id r = Some k -> depends d0 t id u k) /\ (forall j, orphaned d d1 j -> depends d0 t id "t_orgunit" j).
Proof.
  intros Hf Hdel Hs HQ. pose proof Hdel as [_ _ Ht _ _ _]. apply Forall_cons in Ht as [[_ [i Hi]] _].
  destruct Hf as (d2 & d3 & Hq & Hlq & Hlog & Href & He). pose proof (logged_same _ _ _ _ Hlog) as H23.
  assert (Hcase : forall x, x ∈ q -> exists te re, e = Removed te re /\ caused te i x).
  { intros x Hin. destruct e as [te re|te re re'|te re]; [by subst; apply not_elem_of_nil in Hin|by subst; apply not_elem_of_nil in Hin|].
    exists te, re. split; [done|]. destruct (He i Hi) as [_ Hca]. rewrite Forall_forall in Hca. by apply Hca. }
  split.
  - intros u r k Hin Hk. destruct (Hcase _ Hin) as (te & re & -> & c & a & Href' & _ & -> & Hcol).
    destruct (changes_from q d d2 u r Hq Hlq Hin) as (k' & r1 & Hk' & Hr1 & Hw1). rewrite Hk in Hk'. injection Hk' as <-.
    destruct (Hs u k r1 Hr1) as (r0 & Hr0 & Hw0 & _). pose proof (weaker_trans _ _ _ Hw0 Hw1 c (reference_column _ _ _ _ Href')) as Hc.
    eapply (depends_cascade d0 t id te i); [apply (HQ te re i); [by left|done]|exact Href'|exact Hr0|]. destruct Hc as [|[]]; congruence.
  - intros j Ho. destruct (refreshed_tables _ _ _ _ Href) as (Hs3 & _). apply (orphaned_split d d3 d1 j Hs3) in Ho as [Ho|Ho]; [|by destruct (not_orphaned_refreshed _ _ _ _ _ Href Ho)].
    assert (Ho2 : orphaned d d2 j) by (destruct Ho as (k & x & y & ? & Hy & ?); rewrite H23 in Hy; by exists k, x, y).
    destruct (changes_orphaned q d d2 j Hq Hlq Ho2) as (r & r' & Hin & Hr). destruct (Hcase _ Hin) as (te & re & -> & c & a & Href' & _ & -> & Hcol).
    apply references_to_elem in Href' as (def & col & Ht' & Hcol' & <- & Href').
    destruct (references_shape "t_orgunit" def col te SetNull Ht' Hcol' Href') as (_ & _ & _ & _ & Hpar & _). specialize (Hpar eq_refl). subst col.
    injection Href' as <-. cbn [col_name references nullable_col] in Hcol. rewrite Hr in Hcol. injection Hcol as ->. apply (HQ "t_orgunit"%string re i); [by left|done].
Qed.

Lemma run_depends v fuel t id d0 d Q :
  deleting d Q -> shrinks d0 d -> (forall u r k, Removed u r ∈ Q -> row_id r = Some k -> depends d0 t id u k) ->
  wp True (run fuel v Q) (fun _ d' => shrinks d d' /\ (forall u k, is_Some (table d u !! k) -> table d' u !! k = None -> depends d0 t id u k)
    /\ forall j, orphaned d d' j -> depends d0 t id "t_orgunit" j) d.
Proof.
  assert (Hend : forall d, shrinks d d /\ (forall u k, is_Some (table d u !! k) -> table d u !! k = None -> depends d0 t id u k)
    /\ forall j, orphaned d d j -> depends d0 t id "t_orgunit" j).
  { intros dd. split; [apply shrinks_refl|]. split; [by intros u k [x ->]|]. intros j (k & x & y & Hx & Hy & Hp & Hn). congruence. }
  revert d Q. induction fuel as [|fuel IH]; intros d [|e Q] Hdel Hs HQ; cbn [run]; try done.
  - wp_step. apply Hend.
  - wp_step. apply Hend.
  - wp_step. pose proof Hdel as [Hok _ Ht _ _ _]. apply Forall_cons in Ht as [[[def Ht] _] _].
    eapply wp_mono; [by apply (fire_wp True v e d def Ht Hok)|]. cbv beta. intros q d1 [Hf _].
    destruct (fired_deleting v e d q d1 Q Hf Hdel) as (Hdel1 & Hs1 & _). destruct (fired_depends v t id d0 d e q d1 Q Hf Hdel Hs HQ) as [Hnew Horph].
    eapply wp_mono; [apply (IH d1 (Q ++ q) Hdel1)|].
    + by eapply shrinks_trans.
    + intros u r k [Hin|Hin]%elem_of_app Hk; [apply (HQ u r k); [by right|done]|by eapply Hnew].
    + cbv beta. intros _ d' (Hs' & Hrest & Horest). split; [by eapply shrinks_trans|]. split.
      * intros u k Hsome Hnone. destruct (table d1 u !! k) as [x|] eqn:Hx; [by apply Hrest; [rewrite Hx|]|].
        destruct Hf as (d2 & d3 & Hq & Hlq & Hlog & Href & _).
        destruct (refreshed_tables _ _ _ _ Href) as (_ & Hkeep & _). pose proof (logged_same _ _ _ _ Hlog) as H23.
        destruct (changes_gone q d d2 u k Hq Hlq Hsome) as (r & Hin & Hk); [|by eapply Hnew].
        apply eq_None_not_Some. intros Hs2. rewrite <- H23 in Hs2. apply Hkeep in Hs2 as [y Hy]. congruence.
      * intros j [Ho|Ho]%(orphaned_split d d1 d' j Hs'); auto.
Qed.

(** Every statement keeps the database consistent, and its log complete. *)
Lemma modify_wp v s b d : consistent d ->
  wp True (modify v s b) (fun _ d' => consistent d' /\ appended v d d' /\ (accounted d [] -> accounted d' [])) d.
Proof.
  intros Hcon. destruct s as [t sets|t sets e|t e| | | | |]; try done; cbn [modify].
  - do 2 wp_step; [|done]. wp_step. eapply wp_mono; [apply do_insert_change|]. cbv beta. intros [id q] d1 (r & Hq & Hid & Hc). cbn [fst snd] in *. subst q.
    wp_step. unfold finish. do 2 wp_step. unfold enough. cbn [length]. rewrite Nat.add_1_r. pose proof Hc as (_ & m & def & _ & _ & Ht & _).
    eapply wp_mono; [by apply (run_checked True v _ d d1 (Inserted t r) def)|]. cbv beta. intros [] d2 (H1 & H2 & H3 & _). by wp_step.
  - do 2 wp_step; [|done]. do 2 wp_step. destruct (table d t !! a) as [r|] eqn:Hr; [|wp_step; split; [done|split; [by apply appended_refl|done]]].
    do 2 wp_step; [|done]. wp_step. destruct (table_of t) as [def|] eqn:Ht; [|unfold wp, do_update, mbind, tx_bind, try; by rewrite Ht].
    eapply wp_mono; [apply (do_update_wp True t a _ d def r); [done|done|exact (proj1 (proj1 Hcon) _ _ _ Hr)|done]|].
    cbv beta. intros q d1 (r' & -> & _ & _ & Hc & _). wp_step. unfold finish. do 2 wp_step. unfold enough. cbn [length]. rewrite Nat.add_1_r.
    eapply wp_mono; [by apply (run_checked True v _ d d1 (Updated t r r') def)|]. cbv beta. intros [] d2 (H1 & H2 & H3 & _). by wp_step.
  - do 2 wp_step; [|done]. do 2 wp_step. destruct (table d t !! a) as [r|] eqn:Hr; [|wp_step; split; [done|split; [by apply appended_refl|done]]].
    destruct (table_of t) as [def|] eqn:Ht; [|unfold wp, do_delete, mbind, tx_bind, try; by rewrite Ht].
    apply wp_bind_assoc. wp_step. eapply wp_mono; [by apply (delete_wp True v t a d def r)|].
    cbv beta. intros [] d' (H1 & H2 & _ & H3 & _). by wp_step.
Qed.

Lemma depends_gone d d' t id : shrinks d d' -> linked d' [] -> table d' t !! id = None -> forall u k, depends d t id u k -> table d' u !! k = None.
Proof.
  intros Hs Hl Hn u k. induction 1 as [|u j t' c j' r _ IH Hin Hr Hc]; [done|]. apply eq_None_not_Some. intros [r' Hr'].
  destruct (Hs t' j' r' Hr') as (r0 & Hr0 & _ & Hsame). rewrite Hr in Hr0. injection Hr0 as <-.
  apply references_to_elem in Hin as (def & col & Ht & Hcol & <- & Href).
  destruct (references_shape t' def col u Cascade Ht Hcol Href) as (_ & _ & _ & [_ Hu] & _).
  rewrite (Hsame ltac:(intros E; by specialize (Hu E))) in Hr'.
  destruct (Hl t' def col j' r u Cascade j Ht Hcol Href Hr' Hc) as [[x Hx]|(x & Hx & _)]; [congruence|by apply not_elem_of_nil in Hx].
Qed.

(** A deletion succeeds, unless the row is a language or a qualifier or the audit refuses the user; it takes away exactly what depends on the row. *)
Lemma delete_total v t b e id d def r :
  consistent d -> eval ∅ b e = Some (VInt id) -> table_of t = Some def -> table d t !! id = Some r -> audit_user v <> None -> ~ refusable t ->
  exists d', modify v (Delete t e) b d = (d', Some [[VInt id]]) /\ consistent d' /\ appended v d d' /\ shrinks d d'
    /\ (accounted d [] -> accounted d' []) /\ table d' t !! id = None /\ (t <> "t_orgunit"%string -> table d' t = delete id (table d t))
    /\ (forall u k, is_Some (table d u !! k) -> (table d' u !! k = None <-> depends d t id u k))
    /\ forall j, orphaned d d' j -> depends d t id "t_orgunit" j.
Proof.
  intros Hcon He Ht Hr Hu Hnr. pose proof (proj1 (proj1 Hcon) _ _ _ Hr) as Hid.
  assert (H : wp False (modify v (Delete t e) b) (fun out d' => (out = [[VInt id]] /\ consistent d' /\ appended v d d' /\ shrinks d d'
    /\ (accounted d [] -> accounted d' []) /\ table d' t !! id = None /\ (t <> "t_orgunit"%string -> table d' t = delete id (table d t)))
    /\ (forall u k, is_Some (table d u !! k) -> table d' u !! k = None -> depends d t id u k) /\ forall j, orphaned d d' j -> depends d t id "t_orgunit" j) d).
  { apply wp_and.
    - cbn [modify]. rewrite He. do 2 wp_step; [|done]. injection H as <-. do 2 wp_step. rewrite Hr. apply wp_bind_assoc. wp_step.
      eapply wp_mono; [by apply (delete_wp False v t id d def r)|]. cbv beta. intros [] d' (H1 & H2 & H3 & H4 & H5 & H6). by wp_step.
    - cbn [modify]. rewrite He. do 2 wp_step; [|done]. injection H as <-. do 2 wp_step. rewrite Hr. wp_step.
      eapply wp_mono; [by apply (do_delete_change True t id d def r)|]. cbv beta. intros q d1 [-> Hc].
      pose proof (deletion_starts t def r id d d1 Hcon Ht Hc Hid) as Hdel. pose proof (changes_one _ _ _ Hc) as Hq.
      assert (Hl : Forall loses [Removed t r]) by by apply Forall_singleton.
      assert (Hself : forall u r' k, Removed u r' ∈ [Removed t r] -> row_id r' = Some k -> depends d t id u k).
      { intros u r' k [= -> ->]%list_elem_of_singleton Hk. rewrite Hid in Hk. injection Hk as <-. constructor. }
      wp_step. unfold finish. do 2 wp_step. eapply wp_mono; [by apply (run_depends v _ t id d d1 [Removed t r] Hdel); [eapply changes_shrinks|]|].
      cbv beta. intros [] d' (Hs' & Hrest & Horest). wp_step. split.
      + intros u k Hsome Hnone. destruct (table d1 u !! k) as [x|] eqn:Hx; [by apply Hrest; [rewrite Hx|]|].
        destruct (changes_gone _ d d1 u k Hq Hl Hsome Hx) as (r' & Hin & Hk). by eapply Hself.
      + intros j [Ho|Ho]%(orphaned_split d d1 d' j Hs'); [|by apply Horest]. destruct (changes_orphaned _ d d1 j Hq Hl Ho) as (x & y & Hin & _).
        by apply list_elem_of_singleton in Hin. }
  apply wp_total in H as (d' & out & Hm & (-> & H1 & H2 & H3 & H4 & H5 & H6) & H7 & H8). exists d'.
  repeat (split; [done|]). split; [|done]. intros u k Hsome. split; [by apply H7|]. by eapply depends_gone; [|apply H1|].
Qed.

(** ** Statements that succeed *)

(** The values given are stored as they are, in columns of the table that are neither the key nor written by a trigger. *)
Definition storable (def : table_def) (vs : list (String.string * sval)) : Prop :=
  NoDup vs.*1 /\ "id"%string ∉ vs.*1 /\ "search_vector"%string ∉ vs.*1
  /\ Forall (fun p => exists c, find_column def (fst p) = Some c /\ store (col_type c) (snd p) = Some (snd p)) vs.
Definition next_key (d : contents) (t : String.string) : Z := (default 0 (serial d !! W t) + 1)%Z.
(** A new row of these columns can be stored: the next key of the sequence is free, the row it makes satisfies the constraints, and what it refers to exists. *)
Definition insertable (d : contents) (t : String.string) (vs : list (String.string * sval)) : Prop :=
  exists def r, table_of t = Some def /\ t_serial def = true /\ storable def vs
    /\ (0 < next_key d t)%Z /\ table d t !! next_key d t = None
    /\ new_row def (("id"%string, VInt (next_key d t)) :: vs) = Some r
    /\ let r' := before d t None r in
       acceptable_row def (table d t) (next_key d t) r' /\ Forall (refers d r') (t_columns def).
(** The row of this key, if there is one, can take these columns. *)
Definition updatable (d : contents) (t : String.string) (id : Z) (vs : list (String.string * sval)) : Prop :=
  exists def, table_of t = Some def /\ storable def vs /\ forall r, table d t !! id = Some r ->
    let r' := before d t (Some vs.*1) (list_to_map vs ∪ r) in
    acceptable_row def (table d t) id r' /\ Forall (fun c => column (col_name c) r <> column (col_name c) r' -> refers d r' c) (t_columns def).

Lemma assigned_storable def vs : storable def vs -> assigned def vs = Some vs.
Proof.
  intros (_ & _ & _ & H). unfold assigned. induction H as [|[n v] vs (c & Hc & Hs) _ IH]; [done|]. cbn in *. rewrite Hc. cbn. rewrite Hs. cbn. by rewrite IH.
Qed.

Lemma new_row_lookup t def vs r c : table_of t = Some def -> new_row def vs = Some r -> c ∈ t_columns def ->
  exists w, r !! col_name c = Some w /\ store (col_type c) (default (default_of c) (lookup_bind vs (col_name c))) = Some w.
Proof.
  intros Ht (l & Hl & ->)%fmap_Some. pose proof (columns_distinct t def Ht) as Hd.
  apply mapM_Some in Hl. clear Ht. induction Hl as [|c0 p cs l Hp Hl IH]; intros Hc; [by apply not_elem_of_nil in Hc|].
  apply fmap_Some in Hp as (w & Hw & ->). cbn in Hd. apply NoDup_cons in Hd as [Hn Hd]. apply elem_of_cons in Hc as [->|Hc]; cbn.
  - exists w. by rewrite lookup_insert_eq.
  - rewrite lookup_insert_ne; [by apply IH|]. intros E. apply Hn. rewrite E. by apply list_elem_of_fmap_2.
Qed.

Lemma key_column t def : table_of t = Some def -> exists c, c ∈ t_columns def /\ col_name c = "id"%string /\ (col_type c = CBigint \/ col_type c = CSmallint).
Proof.
  intros Ht. pose proof (schema_forall (fun _ def => match t_columns def with
    | c :: _ => bool_decide (col_name c = "id"%string) && match col_type c with CBigint | CSmallint => true | _ => false end | [] => false end) t def eq_refl Ht) as H.
  cbv beta in H. destruct (t_columns def) as [|c cs]; [done|]. apply andb_true_iff in H as [Hn%bool_decide_eq_true Hty]. exists c.
  split; [by left|]. split; [done|]. destruct (col_type c); try discriminate Hty; auto.
Qed.

Lemma lookup_bind_map vs n v : NoDup vs.*1 -> (list_to_map vs : row) !! n = Some v -> lookup_bind vs n = Some v.
Proof.
  induction vs as [|[m w] vs IH]; cbn; [done|]. intros [Hn Hd]%NoDup_cons. destruct (decide (m = n)) as [->|E];
    [by rewrite lookup_insert_eq|rewrite lookup_insert_ne by done; by apply IH].
Qed.

Lemma store_int ty z w : ty = CBigint \/ ty = CSmallint -> store ty (VInt z) = Some w -> w = VInt z.
Proof. intros [->| ->]; unfold store; destruct (in_signed _ z); [by intros [= <-]|done|by intros [= <-]|done]. Qed.

Lemma new_row_given t def vs n r : table_of t = Some def -> storable def vs -> new_row def (("id"%string, VInt n) :: vs) = Some r ->
  row_id r = Some n /\ list_to_map vs ⊆ r.
Proof.
  intros Ht (Hd & Hid & _ & Hst) Hr. split.
  - destruct (key_column t def Ht) as (c & Hc & Hn & Hty). destruct (new_row_lookup t def _ r c Ht Hr Hc) as (w & Hw & Hs).
    rewrite Hn in *. unfold row_id, column. rewrite Hw. by rewrite (store_int _ _ _ Hty Hs).
  - apply map_subseteq_spec. intros m v Hm. pose proof (lookup_bind_map _ _ _ Hd Hm) as Hb.
    apply elem_of_list_to_map_2 in Hm. rewrite Forall_forall in Hst. destruct (Hst _ Hm) as (c & Hc & Hs). cbn in Hc, Hs.
    apply find_column_Some in Hc as [Hc Hn]. destruct (new_row_lookup t def _ r c Ht Hr Hc) as (w & Hw & Hs'). rewrite Hn in *.
    assert (Hne : "id"%string <> m) by (intros <-; apply Hid; by apply (list_elem_of_fmap_2 fst) in Hm).
    cbn [lookup_bind] in Hs'. rewrite decide_False in Hs' by done. rewrite Hb in Hs'. cbn [default from_option id] in Hs'. rewrite Hs in Hs'. by injection Hs' as <-.
Qed.

Lemma before_subset d t names (vs r : row) : vs !! "search_vector"%string = None -> vs ⊆ r -> vs ⊆ before d t names r.
Proof.
  intros Hn Hs. apply map_subseteq_spec. intros c v Hc. rewrite before_lookup; [by eapply lookup_weaken|]. intros ->. congruence.
Qed.
Lemma no_vector def vs : storable def vs -> (list_to_map vs : row) !! "search_vector"%string = None.
Proof. intros (_ & _ & H & _). by apply not_elem_of_list_to_map_1. Qed.

Lemma refers_mono d d' r c : (forall t k, is_Some (table d t !! k) -> is_Some (table d' t !! k)) -> refers d r c -> refers d' r c.
Proof. intros H. unfold refers. repeat case_match; auto. Qed.

Lemma do_insert_wp d t vs def r :
  table_of t = Some def -> t_serial def = true -> storable def vs -> table d t !! next_key d t = None ->
  new_row def (("id"%string, VInt (next_key d t)) :: vs) = Some r -> acceptable_row def (table d t) (next_key d t) (before d t None r) ->
  wp False (do_insert t vs) (fun p d' => p = (next_key d t, [Inserted t (before d t None r)])
    /\ table d' t = <[next_key d t := before d t None r]> (table d t)) d.
Proof.
  intros Ht Hser Hst Hfree Hr [Hsat Hkeys]. pose proof Hst as (Hd & Hid & _ & Hcols). unfold do_insert. rewrite Ht.
  do 2 wp_step; [|done]. injection H as <-. do 2 wp_step.
  2: { apply H. split; [done|]. apply Forall_forall. intros n ([m v] & -> & Hm)%list_elem_of_fmap. rewrite Forall_forall in Hcols.
       destruct (Hcols _ Hm) as (c & Hc & _). by exists c. }
  rewrite Hser, bool_decide_eq_false_2 by done. cbn [negb andb]. do 2 wp_step. unfold wp at 1. cbn [nextval]. fold (next_key d t). wp_step. wp_step.
  rewrite Hr. wp_step; [|done]. injection H0 as <-. do 2 wp_step. change (before (mk_contents _ _ _ _) t None r) with (before d t None r).
  do 2 wp_step; [|done]. do 2 wp_step.
  2: { destruct (new_row_given t def vs _ r Ht Hst Hr) as [Hrid _]. unfold row_id in Hrid. rewrite before_column in H1 by done. congruence. }
  destruct (new_row_given t def vs _ r Ht Hst Hr) as [Hrid _]. unfold row_id in Hrid. rewrite before_column in H1 by done. rewrite Hrid in H1. injection H1 as <-.
  do 2 wp_step. change (table (mk_contents _ _ _ _) t) with (table d t). do 2 wp_step; [|done]. do 2 wp_step; [|done]. do 3 wp_step. split; [done|].
  by rewrite table_set, decide_True.
Qed.

(** The refresh of an inserted or updated row leaves the row's own table alone. *)
Lemma refreshed_own v e d1 d' : refreshed v e d1 d' -> table d' (event_table e) = table d1 (event_table e).
Proof.
  intros [->|(u & r & r' & d2 & He & _ & _ & _ & Hc & Hlog)]; [done|]. rewrite (logged_same _ _ _ _ Hlog).
  apply (change_table _ _ _ _ Hc). cbn. by rewrite He.
Qed.

(** The entry of an inserted row. *)
Definition creation_of (v : vars) (now : Z) (r : row) (x : log_entry) : Prop :=
  action x = "C"%char /\ audit_user v = Some (action_by x) /\ action_at x = now /\ old_data x = None /\ new_data x = Some r.
Lemma audited_not_localized t : audited t = true -> t <> "t_localizedorgunit"%string.
Proof. by intros H ->. Qed.

Lemma insert_total v t sets b vs d : consistent d -> audit_user v <> None -> assign b ∅ sets = Some vs -> insertable d t vs ->
  exists d' r', modify v (Insert t sets) b d = (d', Some [[VInt (next_key d t)]]) /\ table d' t = <[next_key d t := r']> (table d t) /\ list_to_map vs ⊆ r'
    /\ (audited t = true -> exists x, creation_of v (clock d) r' x /\ log_of d' (log_name t) = log_of d (log_name t) ++ [x]).
Proof.
  intros Hcon Hu Hvs (def & r & Ht & Hser & Hst & _ & Hfree & Hr & Hacc & Href). set (r' := before d t None r) in *.
  assert (Hsub : list_to_map vs ⊆ r') by (eapply before_subset; [by eapply no_vector|by eapply new_row_given]).
  assert (H : wp False (modify v (Insert t sets) b) (fun out d' => out = [[VInt (next_key d t)]] /\ table d' t = <[next_key d t := r']> (table d t)
    /\ (audited t = true -> exists x, creation_of v (clock d) r' x /\ log_of d' (log_name t) = log_of d (log_name t) ++ [x])) d).
  { cbn [modify]. rewrite Hvs. do 2 wp_step; [|done]. injection H as <-. wp_step.
    eapply wp_mono; [apply wp_and; [by apply (do_insert_wp d t vs def r)|apply do_insert_change]|]. cbv beta.
    intros [id q] d1 [[E Hd1] (r1 & Hq & _ & Hc)]. cbn [fst snd] in *. fold r' in E, Hd1.
    assert (id = next_key d t) as -> by congruence. assert (q = [Inserted t r']) as -> by congruence. assert (r1 = r') as -> by congruence.
    wp_step. unfold finish. do 2 wp_step. unfold enough. cbn [length]. rewrite Nat.add_1_r.
    eapply wp_mono; [apply (run_checked False v _ d d1 (Inserted t r') def Hcon Hc Ht)|]; [done|done| |].
    - intros Hn. apply Hn. cbn [checks]. eapply Forall_impl; [exact Href|]. intros c. apply refers_mono. intros u k.
      destruct (decide (u = t)) as [->|Hne]; [|by rewrite (change_table _ _ _ u Hc)]. rewrite Hd1.
      destruct (decide (next_key d t = k)) as [->|]; [rewrite lookup_insert_eq; by eexists|by rewrite lookup_insert_ne].
    - cbv beta. intros [] d' (_ & _ & _ & d2 & d3 & Hd2 & Hq2 & Hlog & Hrf). wp_step. split; [done|]. split.
      + pose proof (refreshed_own _ _ _ _ Hrf) as Ho. cbn in Ho. by rewrite Ho, (logged_same _ _ _ _ Hlog), Hd2.
      + intros Ha. destruct Hrf as [->|(? & ? & ? & ? & Hl & _)]; [|by apply audited_not_localized in Ha].
        pose proof Hc as [Hq1 _]. destruct (quiet_trans _ _ _ Hq1 Hq2) as [Hlogs Hclock].
        destruct Hlog as (_ & _ & Hlog). cbn [event_table] in Hlog. rewrite Ha in Hlog. destruct Hlog as (x & (Hx1 & Hx2 & Hx3 & Hx4) & Hl).
        exists x. injection Hx4 as Ho Hn. split.
        { split; [exact Hx1|]. split; [exact Hx2|]. split; [by rewrite Hx3|]. split; [exact Ho|exact Hn]. }
        unfold log_of at 1. rewrite Hl, lookup_insert_eq. cbn. unfold log_of. by rewrite Hlogs. }
  apply wp_total in H as (d' & out & Hm & -> & Htab & Hx). by exists d', r'.
Qed.

Lemma update_total v t sets b e id vs d r : consistent d -> audit_user v <> None -> eval ∅ b e = Some (VInt id) -> table d t !! id = Some r ->
  assign b r sets = Some vs -> updatable d t id vs ->
  exists d' r', modify v (Update t sets e) b d = (d', Some [[VInt id]]) /\ table d' t = <[id := r']> (table d t) /\ list_to_map vs ⊆ r'.
Proof.
  intros Hcon Hu He Hr Hvs (def & Ht & Hst & Hall). destruct (Hall r Hr) as [Hacc Href]. set (r' := before d t (Some vs.*1) (list_to_map vs ∪ r)) in *.
  assert (Hsub : list_to_map vs ⊆ r') by (eapply before_subset; [by eapply no_vector|apply map_union_subseteq_l]).
  assert (H : wp False (modify v (Update t sets e) b) (fun out d' => out = [[VInt id]] /\ table d' t = <[id := r']> (table d t)) d).
  { cbn [modify]. rewrite He. do 2 wp_step; [|done]. injection H as <-. do 2 wp_step. rewrite Hr. do 2 wp_step; [|congruence].
    rewrite Hvs in H. injection H as <-. wp_step.
    eapply wp_mono; [apply (do_update_wp False t id vs d def r Ht Hr (proj1 (proj1 Hcon) _ _ _ Hr))|].
    - intros Hn. apply Hn. split; [apply Hst|]. split; [apply Hst|]. exists vs. split; [by apply assigned_storable|exact Hacc].
    - cbv beta. intros q d1 (r1 & -> & (ws & Hws & ->) & _ & Hc & Hd1). rewrite (assigned_storable def vs Hst) in Hws. injection Hws as <-. fold r' in Hc, Hd1.
      wp_step. unfold finish. do 2 wp_step. unfold enough. cbn [length]. rewrite Nat.add_1_r.
      eapply wp_mono; [apply (run_checked False v _ d d1 (Updated t r r') def Hcon Hc Ht)|]; [done|done| |].
      + intros Hn. apply Hn. cbn [checks]. eapply Forall_impl; [exact Href|]. intros c Hck Hne. specialize (Hck Hne). revert Hck. apply refers_mono. intros u k.
        rewrite Hd1, table_set. case_decide as E; [|done]. subst u.
        destruct (decide (id = k)) as [->|]; [rewrite lookup_insert_eq; by eexists|by rewrite lookup_insert_ne].
      + cbv beta. intros [] d' (_ & _ & _ & d2 & d3 & Hd2 & _ & Hlog & Hrf). wp_step. split; [done|]. apply refreshed_own in Hrf. cbn in Hrf.
        by rewrite Hrf, (logged_same _ _ _ _ Hlog), Hd2, Hd1, table_set, decide_True. }
  apply wp_total in H as (d' & out & Hm & -> & Htab). by exists d', r'.
Qed.
End integrity.
