(* ===== verification/Catalog.v ===== *)
(** * The catalogue of the schema (contact/db/contact_ddl.sql)

    What the DDL declares, written down a second time as plain tables: every column with its type and whether it may be NULL, every
    foreign key with its action, every unique key, the checks and the audited tables.  The theorems about the database speak of
    these; the lemmas here say that the tables of Schema, which the statements run on, agree with them. *)
From stdpp Require Import gmap strings.
From S2P Require Import Prelude Sql Schema Tables Changes Cascade Integrity.

(** ** What is declared *)

(** The columns: name, type, and whether it is NOT NULL. *)
Definition catalogue : list (String.string * list (String.string * coltype * bool)) :=
  [("t_locale", [("id", CSmallint, true); ("code", CVarchar 10, true); ("is_default", CBoolean, true)]);
   ("t_person", [("id", CBigint, true); ("first_name", CVarchar 50, true); ("middle_name", CVarchar 50, false); ("last_name", CVarchar 100, true);
     ("federal_tax_id", CVarchar 20, false); ("identification_number", CVarchar 30, false); ("passport_number", CVarchar 30, false);
     ("passport_country", CChar 2, false); ("passport_expiry", CDate, false); ("photo", CBytea, false); ("date_of_birth", CDate, false);
     ("keywords", CText, false); ("search_vector", CTsvector, false)]);
   ("t_orgunit", [("id", CBigint, true); ("parent_id", CBigint, false); ("org_type", CVarchar 20, true); ("federal_tax_id", CVarchar 20, false);
     ("is_active", CBoolean, true); ("keywords", CText, false); ("search_vector", CTsvector, false)]);
   ("t_localizedorgunit", [("id", CBigint, true); ("org_unit_id", CBigint, true); ("locale_id", CSmallint, true); ("name", CVarchar 200, true)]);
   ("t_contactqualifier", [("id", CSmallint, true)]);
   ("t_localizedcontactqualifier", [("id", CBigint, true); ("qualifier_id", CSmallint, true); ("locale_id", CSmallint, true); ("name", CVarchar 50, true)]);
   ("t_phone", [("id", CBigint, true); ("person_id", CBigint, false); ("org_unit_id", CBigint, false); ("country_code", CVarchar 5, true);
     ("area_code", CVarchar 5, false); ("number", CVarchar 20, true); ("extension", CVarchar 10, false); ("is_mobile", CBoolean, true);
     ("qualifier_id", CSmallint, false); ("is_preferred", CBoolean, true)]);
   ("t_email", [("id", CBigint, true); ("person_id", CBigint, false); ("org_unit_id", CBigint, false); ("email", CVarchar 254, true);
     ("qualifier_id", CSmallint, false); ("is_preferred", CBoolean, true); ("is_verified", CBoolean, true)]);
   ("t_address", [("id", CBigint, true); ("person_id", CBigint, false); ("org_unit_id", CBigint, false); ("street_line1", CVarchar 200, true);
     ("street_line2", CVarchar 200, false); ("city", CVarchar 100, true); ("state_province", CVarchar 100, false); ("postal_code", CVarchar 20, false);
     ("country", CChar 2, true); ("qualifier_id", CSmallint, false); ("is_preferred", CBoolean, true); ("latitude", CDecimal 9 6, false);
     ("longitude", CDecimal 9 6, false)]);
   ("t_socialmedia", [("id", CBigint, true); ("person_id", CBigint, false); ("org_unit_id", CBigint, false); ("platform", CVarchar 50, true);
     ("handle", CVarchar 100, true); ("url", CVarchar 500, false); ("qualifier_id", CSmallint, false); ("is_preferred", CBoolean, true)]);
   ("t_website", [("id", CBigint, true); ("person_id", CBigint, false); ("org_unit_id", CBigint, false); ("url", CVarchar 500, true); ("title", CVarchar 100, false);
     ("qualifier_id", CSmallint, false); ("is_preferred", CBoolean, true)]);
   ("t_role", [("id", CBigint, true); ("org_unit_id", CBigint, false); ("is_active", CBoolean, true)]);
   ("t_localizedrole", [("id", CBigint, true); ("role_id", CBigint, true); ("locale_id", CSmallint, true); ("name", CVarchar 100, true); ("description", CText, false)]);
   ("t_personorgrelation", [("id", CBigint, true); ("person_id", CBigint, true); ("org_unit_id", CBigint, true);
     ("relationship", CEnum [W "Employee"; W "Trainee"; W "MinorApprentice"; W "ThirdParty"], true); ("start_date", CDate, true);
     ("end_date", CDate, false); ("is_active", CBoolean, true)]);
   ("t_personrole", [("id", CBigint, true); ("person_id", CBigint, true); ("role_id", CBigint, true); ("assigned_date", CDate, false); ("end_date", CDate, false);
     ("is_primary", CBoolean, true)]);
   ("t_datavisibility", [("id", CBigint, true); ("owner_person_id", CBigint, true); ("data_category", CVarchar 50, true); ("viewer_person_id", CBigint, false);
     ("viewer_role_id", CBigint, false); ("viewer_org_unit_id", CBigint, false); ("can_view", CBoolean, true); ("can_edit", CBoolean, true)])]%string.

(** REFERENCES: the table and the column that refer, the table referred to, ON DELETE. *)
Definition foreign_keys : list (String.string * String.string * String.string * on_delete) :=
  [("t_orgunit", "parent_id", "t_orgunit", SetNull); ("t_localizedorgunit", "org_unit_id", "t_orgunit", Cascade);
   ("t_localizedorgunit", "locale_id", "t_locale", NoAction); ("t_localizedcontactqualifier", "qualifier_id", "t_contactqualifier", Cascade);
   ("t_localizedcontactqualifier", "locale_id", "t_locale", NoAction); ("t_phone", "person_id", "t_person", Cascade);
   ("t_phone", "org_unit_id", "t_orgunit", Cascade); ("t_phone", "qualifier_id", "t_contactqualifier", NoAction);
   ("t_email", "person_id", "t_person", Cascade); ("t_email", "org_unit_id", "t_orgunit", Cascade);
   ("t_email", "qualifier_id", "t_contactqualifier", NoAction); ("t_address", "person_id", "t_person", Cascade);
   ("t_address", "org_unit_id", "t_orgunit", Cascade); ("t_address", "qualifier_id", "t_contactqualifier", NoAction);
   ("t_socialmedia", "person_id", "t_person", Cascade); ("t_socialmedia", "org_unit_id", "t_orgunit", Cascade);
   ("t_socialmedia", "qualifier_id", "t_contactqualifier", NoAction); ("t_website", "person_id", "t_person", Cascade);
   ("t_website", "org_unit_id", "t_orgunit", Cascade); ("t_website", "qualifier_id", "t_contactqualifier", NoAction);
   ("t_role", "org_unit_id", "t_orgunit", Cascade); ("t_localizedrole", "role_id", "t_role", Cascade);
   ("t_localizedrole", "locale_id", "t_locale", NoAction); ("t_personorgrelation", "person_id", "t_person", Cascade);
   ("t_personorgrelation", "org_unit_id", "t_orgunit", Cascade); ("t_personrole", "person_id", "t_person", Cascade);
   ("t_personrole", "role_id", "t_role", Cascade); ("t_datavisibility", "owner_person_id", "t_person", Cascade);
   ("t_datavisibility", "viewer_person_id", "t_person", Cascade); ("t_datavisibility", "viewer_role_id", "t_role", Cascade);
   ("t_datavisibility", "viewer_org_unit_id", "t_orgunit", Cascade)]%string.

(** UNIQUE, in a table or as an index. *)
Definition unique_keys : list (String.string * list String.string) :=
  [("t_locale", ["code"]); ("t_person", ["federal_tax_id"]); ("t_localizedorgunit", ["org_unit_id"; "locale_id"]);
   ("t_localizedcontactqualifier", ["qualifier_id"; "locale_id"]); ("t_email", ["email"]); ("t_localizedrole", ["role_id"; "locale_id"]);
   ("t_personorgrelation", ["person_id"; "org_unit_id"; "relationship"]); ("t_personrole", ["person_id"; "role_id"])]%string.

(** The tables of contacts, the columns of the viewer of a rule, and the types of units. *)
Definition contact_tables : list String.string := ["t_phone"; "t_email"; "t_address"; "t_socialmedia"; "t_website"]%string.
Definition viewers : list String.string := ["viewer_person_id"; "viewer_role_id"; "viewer_org_unit_id"]%string.
Definition unit_types : list String.string := ["Group"; "Company"; "Department"; "Division"; "Team"]%string.

(** The tables with a log. *)
Definition audited_names : list String.string :=
  ["t_person"; "t_orgunit"; "t_phone"; "t_email"; "t_address"; "t_socialmedia"; "t_website"; "t_role"; "t_personorgrelation"; "t_personrole";
   "t_datavisibility"]%string.

(** The values of a type.  A length counts characters. *)
Definition of_type `{Postgres} (ty : coltype) (v : sval) : Prop :=
  match ty, v with
  | _, VNull => True
  | CBigint, VInt z => (- 2 ^ 63 <= z < 2 ^ 63)%Z
  | CSmallint, VInt z => (- 2 ^ 15 <= z < 2 ^ 15)%Z
  | CVarchar n, VText s => NULL_CHAR ∉ s /\ length (characters s) <= n
  | CChar n, VText s => NULL_CHAR ∉ s /\ length (characters s) = n
  | (CText | CTsvector), VText s => NULL_CHAR ∉ s
  | CEnum names, VText s => s ∈ names
  | CBytea, VText _ | CBoolean, VBool _ | CDate, VDate _ => True
  | CDecimal p s, VReal x => numeric p s x = Some x
  | _, _ => False
  end.

(** What is lost with a row: the rows that refer to it by a foreign key that cascades, and what is lost with them. *)
Inductive lost (d : contents) (t : String.string) (id : Z) : String.string -> Z -> Prop :=
  | lost_itself : lost d t id t id
  | lost_with u j t' c k r : lost d t id u j -> (t', c, u, Cascade) ∈ foreign_keys -> table d t' !! k = Some r -> column c r = VInt j ->
      lost d t id t' k.

(** ** The schema agrees *)

Lemma schema_columns : map (fun p => (fst p, map (fun c => (col_name c, col_type c, col_not_null c)) (t_columns (snd p)))) schema = catalogue.
Proof. reflexivity. Qed.
Lemma schema_references :
  flat_map (fun p => flat_map (fun c => match col_references c with Some (target, a) => [(fst p, col_name c, target, a)] | None => [] end)
    (t_columns (snd p))) schema = foreign_keys.
Proof. reflexivity. Qed.
Lemma schema_keys : flat_map (fun p => map (pair (fst p)) (t_unique (snd p))) schema = unique_keys.
Proof. reflexivity. Qed.
Lemma schema_audited : map fst (List.filter (fun p => t_audited (snd p)) schema) = audited_names.
Proof. reflexivity. Qed.

Lemma catalogue_table t cols : (t, cols) ∈ catalogue -> exists def, table_of t = Some def
  /\ forall c ty nn, (c, ty, nn) ∈ cols -> exists col, col ∈ t_columns def /\ col_name col = c /\ col_type col = ty /\ col_not_null col = nn.
Proof.
  rewrite <- schema_columns. intros ([t' def] & [= -> ->] & Ht%table_of_schema)%list_elem_of_fmap. exists def. split; [done|].
  intros c ty nn (col & [= -> -> ->] & Hcol)%list_elem_of_fmap. by exists col.
Qed.
Lemma foreign_key t c target a : (t, c, target, a) ∈ foreign_keys <->
  exists def col, table_of t = Some def /\ col ∈ t_columns def /\ col_name col = c /\ col_references col = Some (target, a).
Proof.
  rewrite <- schema_references, list_elem_of_In, in_flat_map. split.
  - intros ([t' def] & Ht%list_elem_of_In%table_of_schema & (col & Hcol%list_elem_of_In & H)%in_flat_map). cbn [fst snd] in *.
    destruct (col_references col) as [[t0 a0]|] eqn:Hr; [|done]. destruct H as [[= <- <- <- <-]|[]]. by exists def, col.
  - intros (def & col & Ht & Hcol & <- & Hr). exists (t, def). split; [by apply list_elem_of_In, table_of_elem|].
    apply in_flat_map. exists col. split; [by apply list_elem_of_In|]. rewrite Hr. by left.
Qed.
Lemma foreign_key_to target t c a : (t, c, target, a) ∈ foreign_keys <-> (t, c, a) ∈ references_to target.
Proof. by rewrite foreign_key, references_to_elem. Qed.
Lemma lost_depends d t id u k : lost d t id u k <-> depends d t id u k.
Proof.
  split; (induction 1 as [|u j t' c k r _ IH Hc Hr Hj]; [constructor|]); [eapply depends_cascade|eapply lost_with]; try done; by apply foreign_key_to.
Qed.
Lemma unique_key t key : (t, key) ∈ unique_keys -> exists def, table_of t = Some def /\ key ∈ t_unique def.
Proof.
  rewrite <- schema_keys. intros ([t' def] & Ht%list_elem_of_In%table_of_schema & (k & [= -> ->] & Hk%list_elem_of_In)%in_map_iff)%list_elem_of_In%in_flat_map.
  by exists def.
Qed.
Lemma audited_name t : t ∈ audited_names -> audited t = true.
Proof.
  rewrite <- schema_audited. intros ([t' def] & -> & [Ht%list_elem_of_In%table_of_schema Ha]%list_elem_of_In%List.filter_In)%list_elem_of_fmap.
  unfold audited. cbn [fst snd] in *. by rewrite Ht.
Qed.

(** ** What a column keeps is of its type *)

Section values.
Context {C : Scalars} {P : Postgres} {L : PostgresLaws P}.

Lemma store_of_type ty v : store ty v = Some v -> of_type ty v.
Proof.
  destruct ty, v; cbn [store of_type]; try done; unfold in_signed, no_nul; repeat case_bool_decide; try done.
  - intros (s' & Hs & [= ->])%fmap_Some. split; [done|]. by apply store_varchar_idem in Hs as [_ Hs].
  - intros (s' & (u & Hu & [= <-])%bind_Some & [= ->])%fmap_Some. split; [done|]. apply store_varchar_idem in Hu as [_ Hl].
    rewrite characters_spaces, length_app, length_replicate. lia.
  - by intros (x & Hx & [= ->])%fmap_Some.
Qed.

(** A text that is stored in a varchar is cut after the number of characters, and only spaces are cut off. *)
Lemma blanks_concat gs : forallb blank gs = true -> concat gs = replicate (length gs) " "%char.
Proof. induction gs as [|g gs IH]; [done|]. cbn. intros [Hg%bool_decide_eq_true Hgs]%andb_true_iff. subst g. by rewrite IH. Qed.
Lemma store_varchar_cut n s t : store_varchar n s = Some t ->
  (exists k, s = t ++ replicate k " "%char) /\ (length (characters s) <= n -> t = s).
Proof.
  unfold store_varchar. destruct (Nat.leb_spec (length (characters s)) n) as [Hl|Hl].
  - intros [= <-]. split; [exists 0; by rewrite app_nil_r|done].
  - destruct (forallb blank (drop n (characters s))) eqn:Hb; [|done]. intros [= <-]. split; [|lia].
    exists (length (drop n (characters s))). by rewrite <- (blanks_concat _ Hb), <- concat_app, take_drop, characters_concat.
Qed.

(** The user an entry of the log names, given the variable of the session. *)
Definition user_named (variable : option str) (by_ : str) : Prop :=
  match variable with
  | None | Some [] => by_ = session_user
  | Some u => (exists k, u = by_ ++ replicate k " "%char) /\ (length (characters u) <= 100 -> by_ = u)
  end.
Lemma audit_user_named v u : audit_user v = Some u -> user_named (v !! APP_USER) u.
Proof.
  unfold audit_user, current_user, D_AuditUser. generalize (v !! APP_USER) as o. intros o. cbn [store]. case_bool_decide; [|done].
  destruct (store_varchar 100 _) as [t|] eqn:Ht; cbn; [|done]. intros [= <-]. apply store_varchar_cut in Ht as [Hk Hs].
  pose proof (characters_length session_user). pose proof (proj2 session_user_law). destruct o as [[|c s]|]; cbn [user_named]; [|by split|]; apply Hs; lia.
Qed.

(** ** Rows *)

Lemma typed_value def r col : typed def r -> col ∈ t_columns def -> of_type (col_type col) (column (col_name col) r).
Proof.
  unfold typed. rewrite Forall_forall. intros H Hc. destruct (H col Hc) as (v & Hv & Hs). unfold column. rewrite Hv. by apply store_of_type.
Qed.
Lemma required_value def r col : satisfies def r -> col ∈ t_columns def -> col_not_null col = true -> column (col_name col) r <> VNull.
Proof. intros [H _] Hc. rewrite Forall_forall in H. by apply H. Qed.
Lemma checked def r check : satisfies def r -> check ∈ t_checks def -> check r = true.
Proof. intros [_ H]. rewrite Forall_forall in H. apply H. Qed.

Lemma one_owner r : chk_owner r = true -> column "person_id" r = VNull <-> column "org_unit_id" r <> VNull.
Proof. unfold chk_owner, is_null. repeat case_bool_decide; naive_solver. Qed.
Lemma one_viewer r : chk_single_viewer r = true ->
  exists c, c ∈ viewers /\ column c r <> VNull /\ forall c', c' ∈ viewers -> column c' r <> VNull -> c' = c.
Proof.
  assert (Hv : forall c, c ∈ viewers <-> c = "viewer_person_id"%string \/ c = "viewer_role_id"%string \/ c = "viewer_org_unit_id"%string)
    by (intros c; unfold viewers; rewrite !elem_of_cons, elem_of_nil; tauto).
  unfold chk_single_viewer, is_null. repeat case_bool_decide; try done; intros _; eexists; rewrite Hv;
    (split; [|split; [eassumption|intros c' [->|[->| ->]]%Hv]]); naive_solver.
Qed.
Lemma unit_type r : chk_org_type r = true -> column "org_type" r <> VNull -> exists ty, ty ∈ unit_types /\ column "org_type" r = VText (W ty).
Proof.
  unfold chk_org_type, is_null. intros [H%bool_decide_eq_true|H%bool_decide_eq_true]%orb_true_iff Hn; [done|].
  change (column "org_type" r ∈ map (fun ty => VText (W ty)) unit_types) in H. apply list_elem_of_fmap in H as (ty & E & Hty). by exists ty.
Qed.
Lemma contact_checks t def : t ∈ contact_tables -> table_of t = Some def -> chk_owner ∈ t_checks def.
Proof.
  intros Ht. unfold contact_tables in Ht. rewrite !elem_of_cons, elem_of_nil in Ht.
  repeat (destruct Ht as [->|Ht]; [intros [= <-]; by left|]). done.
Qed.
End values.
