(* ===== verification/History.v ===== *)
(** * The life of the database (contact/db/contact_ddl.sql)

    The installation with its first rows, and the statements, the passing of time and the purges that follow.  In every state that is
    reached the database is consistent; while nothing is purged, the log of a table is its history.  The functions of the audit
    are read off it. *)
From stdpp Require Import gmap strings.
From S2P Require Import Prelude Sql Database Schema Tables Changes Cascade Integrity Catalog.

(** ** Installation *)

Definition row_values (columns : list String.string) (values : list expr) : list (String.string * expr) := zip columns values.
(* src: contact/db/contact_ddl.sql:79-84 T_Locale *)
Definition seed_locales : list stmt :=
  map (fun p => Insert "t_locale" (row_values ["code"; "is_default"]%string [Text (W (fst p)); Bool (snd p)]))
    [("pt-BR", true); ("en-US", false); ("es-AR", false); ("es-MX", false); ("fr-FR", false)]%string.
(* src: contact/db/contact_ddl.sql:395-395 T_ContactQualifier *)
Definition seed_qualifiers : list stmt := map (fun z => Insert "t_contactqualifier" (row_values ["id"]%string [Int z])) [1; 2; 3]%Z.
(* src: contact/db/contact_ddl.sql:407-410 T_LocalizedContactQualifier *)
Definition seed_labels : list stmt :=
  map (fun p => let '(q, l, name) := p in
        Insert "t_localizedcontactqualifier" (row_values ["qualifier_id"; "locale_id"; "name"]%string [Int q; Int l; Text (W name)]))
    [(1, 1, "Casa"); (1, 2, "Home"); (1, 3, "Hogar"); (1, 4, "Hogar"); (1, 5, "Maison");
     (2, 1, "Comercial"); (2, 2, "Business"); (2, 3, "Comercial"); (2, 4, "Comercial"); (2, 5, "Professionnel");
     (3, 1, "Outro"); (3, 2, "Other"); (3, 3, "Otro"); (3, 4, "Otro"); (3, 5, "Autre")]%Z%string.
Definition audited_tables : list String.string := map fst (filter (fun p => t_audited (snd p) = true) schema).
(** The tables as they are created: empty, with an empty log for those [create_audit_log] was called for. *)
Definition created (now : Z) : contents := mk_contents ∅ ∅ (list_to_map (map (fun t => (log_name t, [])) audited_tables)) now.

Section history.
Context {C : Scalars} {P : Postgres}.

Definition execute (v : vars) (s : stmt) (b : binds) : tx (list (list sval)) := atomically (modify v s b).
Definition install : list stmt -> contents -> contents := fold_left (fun d s => fst (execute ∅ s [] d)).
Definition installed (now : Z) : contents := install (seed_locales ++ seed_qualifiers ++ seed_labels) (created now).

(** ** The functions of the audit *)

(* src: contact/db/contact_ddl.sql:195-207 fn_purge_audit_log *)
Definition fn_purge_audit_log (log : str) (before : Z) : tx Z := fun d =>
  match logs d !! log with
  | None => (d, None)
  | Some l => (mk_contents (data d) (serial d) (<[log := filter (fun x => ~ (action_at x < before)%Z) l]> (logs d)) (clock d),
               Some (Z.of_nat (length (filter (fun x => (action_at x < before)%Z) l))))
  end.

(** LIKE: a percent sign stands for any text, an underscore for one character; letters are compared as they are. *)
Fixpoint like (p s : str) : bool :=
  match p with
  | [] => bool_decide (s = [])
  | c :: p =>
      if decide (c = "%"%char) then (fix any s := like p s || match s with [] => false | _ :: s => any s end) s
      else match s with [] => false | d :: s => (bool_decide (c = "_"%char) || bool_decide (c = d)) && like p s end
  end.
(** The names of the tables, as unquoted identifiers are folded; [information_schema.tables] has them. *)
Definition table_names : list str := map (fun p => W (fst p)) schema ++ map log_name audited_tables.

Definition is_text (o : option str) (x : str) : Prop := match o with None => True | Some y => x = y end.
Definition time_in (from_ to_ : option Z) (x : Z) : Prop :=
  match from_ with None => True | Some a => (a <= x)%Z end /\ match to_ with None => True | Some b => (x < b)%Z end.
#[export] Instance is_text_dec o x : Decision (is_text o x).
Proof. destruct o; simpl; apply _. Defined.
#[export] Instance time_in_dec f t x : Decision (time_in f t x).
Proof. unfold time_in. destruct f, t; apply _. Defined.
Definition later (x y : str * log_entry) : Prop := (action_at (snd y) <= action_at (snd x))%Z.
#[export] Instance later_dec x y : Decision (later x y).
Proof. unfold later. apply _. Defined.
(* src: contact/db/contact_ddl.sql:213-256 fn_search_all_audit_logs *)
Definition fn_search_all_audit_logs (d : contents) (act by_ : option str) (from_ to_ : option Z) (limit : nat) : list (str * log_entry) :=
  let tables := filter (fun t => like (W "T_LOG_%") t = true) table_names in
  let rows := flat_map (fun t => map (pair t) (filter (fun x => is_text act [action x] /\ is_text by_ (action_by x) /\ time_in from_ to_ (action_at x))
    (log_of d t))) tables in
  take limit (merge_sort later rows).
(** The tables [contact_app] is given rights on. *)
(* src: contact/db/contact_ddl.sql:904-911 GRANT *)
Definition granted_tables : list str := filter (fun t => like (W "T_%") t = true) table_names.

(** [(data->>'id')::bigint = id]. *)
Definition speaks_of (id : Z) (o : option row) : Prop := (o ≫= row_id) = Some id.
#[export] Instance speaks_of_dec id o : Decision (speaks_of id o) := decide ((o ≫= row_id) = Some id).
(** ORDER BY action_at LIMIT 1, and ORDER BY action_at DESC LIMIT 1. *)
Definition not_after (x y : log_entry) : Prop := (action_at x <= action_at y)%Z.
#[export] Instance not_after_dec x y : Decision (not_after x y).
Proof. unfold not_after. apply _. Defined.
Definition not_before (x y : log_entry) : Prop := (action_at y <= action_at x)%Z.
#[export] Instance not_before_dec x y : Decision (not_before x y).
Proof. unfold not_before. apply _. Defined.
Definition earliest (l : list log_entry) : option log_entry := head (merge_sort not_after l).
Definition latest (l : list log_entry) : option log_entry := head (merge_sort (not_before) l).
(* src: contact/db/contact_ddl.sql:879-892 fn_entity_timestamps *)
Definition fn_entity_timestamps (d : contents) (log : str) (id : Z) : option (option (Z * str) * option (Z * str)) :=
  let stamp x := (action_at x, action_by x) in
  l ← logs d !! log;
  Some (stamp <$> earliest (filter (fun x => action x = "C"%char /\ speaks_of id (new_data x)) l),
        stamp <$> latest (filter (fun x => speaks_of id (new_data x) \/ speaks_of id (old_data x)) l)).

(** ** What can happen *)

(** With [purging] false no log is purged. *)
Inductive reachable (purging : bool) : contents -> Prop :=
  | reach_installed now : reachable purging (installed now)
  | reach_statement v s b d : reachable purging d -> reachable purging (fst (execute v s b d))
  | reach_later d now : reachable purging d -> (clock d <= now)%Z -> reachable purging (mk_contents (data d) (serial d) (logs d) now)
  | reach_purged log before d : purging = true -> reachable purging d -> reachable purging (fst (fn_purge_audit_log log before d)).

(** ** What every state has *)
Context {L : PostgresLaws P}.

Lemma execute_spec v s b d : consistent d ->
  let d' := fst (execute v s b d) in consistent d' /\ appended v d d' /\ (accounted d [] -> accounted d' []).
Proof.
  intros Hcon. pose proof (modify_wp v s b d Hcon) as H. unfold execute, atomically, wp in *.
  destruct (modify v s b d) as [d' [out|]]; cbn [fst]; [done|].
  assert (Hs : forall t, table (mk_contents (data d) (serial d') (logs d) (clock d)) t = table d t) by done.
  destruct Hcon as [[Hk Hok] Hl]. split; [by split; [split|]|]. split; [by apply appended_refl|done].
Qed.

Lemma created_empty now t : table (created now) t = ∅.
Proof. done. Qed.
Lemma created_log now log : log_of (created now) log = [].
Proof.
  unfold log_of, created. cbn [logs]. destruct (_ !! log) as [l|] eqn:E; [|done].
  apply elem_of_list_to_map_2, list_elem_of_In, in_map_iff in E as (t & [= _ <-] & _). done.
Qed.

Lemma created_sound now : consistent (created now) /\ accounted (created now) [].
Proof.
  split; [split; [split|]|].
  - intros t k r. by rewrite created_empty.
  - intros t def k r _. by rewrite created_empty.
  - intros t def c k r target a i _ _ _. by rewrite created_empty.
  - intros t _. unfold history. by rewrite created_log, created_empty.
Qed.

(** Entries have their letters, and are not later than now. *)
Definition timely (d : contents) : Prop := forall log x, x ∈ log_of d log -> (action_at x <= clock d)%Z /\ entry_shape x.

Lemma timely_appended v d d' : timely d -> appended v d d' -> timely d'.
Proof.
  intros Ht [Hc Ha] log x Hx. destruct (Ha log) as (new & E & Hn). rewrite Hc. rewrite E in Hx. apply elem_of_app in Hx as [Hx|Hx]; [by apply (Ht log)|].
  rewrite Forall_forall in Hn. destruct (Hn x Hx) as (_ & -> & Hs). split; [lia|done].
Qed.

Lemma install_sound l d : consistent d -> accounted d [] -> timely d -> consistent (install l d) /\ accounted (install l d) [] /\ timely (install l d).
Proof.
  revert d. induction l as [|s l IH]; intros d H1 H2 H3; [done|]. cbn. destruct (execute_spec ∅ s [] d H1) as (H4 & H5 & H6).
  apply IH; [done|auto|by eapply timely_appended].
Qed.

Lemma reachable_sound p d : reachable p d -> consistent d /\ (p = false -> accounted d []) /\ timely d.
Proof.
  induction 1 as [now|v s b d _ (H1 & H2 & H3)|d now _ (H1 & H2 & H3) Hle|log before d -> _ (H1 & H2 & H3)].
  - destruct (created_sound now) as [H1 H2]. destruct (install_sound (seed_locales ++ seed_qualifiers ++ seed_labels) _ H1 H2) as (H3 & H4 & H5); [|done].
    intros log x. rewrite created_log. by intros ?%not_elem_of_nil.
  - destruct (execute_spec v s b d H1) as (H4 & H5 & H6). split; [done|]. split; [auto|by eapply timely_appended].
  - split; [done|]. split; [done|]. intros log x Hx. destruct (H3 log x Hx). cbn. split; [lia|done].
  - unfold fn_purge_audit_log. destruct (logs d !! log) as [l|] eqn:Hl; cbn [fst]; [|done]. split; [done|]. split; [done|].
    intros log' x. unfold log_of. cbn [logs clock]. destruct (decide (log = log')) as [<-|E].
    + rewrite lookup_insert_eq. cbn. intros [_ Hx]%list_elem_of_filter. apply (H3 log). unfold log_of. by rewrite Hl.
    + rewrite lookup_insert_ne by done. apply H3.
Qed.

(** ** The theorems *)

Lemma reference_types t def c target a : table_of t = Some def -> c ∈ t_columns def -> col_references c = Some (target, a) ->
  col_type c = CBigint \/ col_type c = CSmallint.
Proof.
  intros Ht Hc Href. pose proof (column_forall (fun _ c => match col_references c, col_type c with None, _ | _, CBigint | _, CSmallint => true | _, _ => false end)
    t def c eq_refl Ht Hc) as H. cbv beta in H. rewrite Href in H. destruct (col_type c); try discriminate H; auto.
Qed.

(** Every reference of the catalogue is NULL or leads to a row. *)
Lemma reference_value d t c target a k r : consistent d -> (t, c, target, a) ∈ foreign_keys -> table d t !! k = Some r ->
  column c r = VNull \/ exists i, column c r = VInt i /\ is_Some (table d target !! i).
Proof.
  intros [[_ Hok] Hl] (def & col & Ht & Hcol & <- & Href)%foreign_key Hr. destruct (Hok t def k r Ht Hr) as (Hty & _).
  pose proof (typed_value def r col Hty Hcol) as Hv. destruct (column (col_name col) r) as [|i| | | |] eqn:Hc; [by left|right| | | |];
    try by destruct (reference_types t def col target a Ht Hcol Href) as [E|E]; rewrite E in Hv.
  exists i. split; [done|]. by destruct (Hl t def col k r target a i Ht Hcol Href Hr Hc) as [Hi|(x & Hx & _)]; [|apply not_elem_of_nil in Hx].
Qed.

(** A unit that stays loses its parent exactly when the parent is gone. *)
Lemma survivor_columns d d' t id k x y :
  consistent d -> weaker x y -> shrinks d d' -> table d "t_orgunit" !! k = Some x -> table d' "t_orgunit" !! k = Some y ->
  (forall u k, is_Some (table d u !! k) -> (table d' u !! k = None <-> depends d t id u k)) -> (forall j, orphaned d d' j -> depends d t id "t_orgunit" j) ->
  (forall j, column "parent_id" y = VInt j -> is_Some (table d' "t_orgunit" !! j)) ->
  (forall c, c <> "parent_id"%string -> c <> "search_vector"%string -> column c y = column c x)
  /\ (forall j, column "parent_id" x = VInt j -> depends d t id "t_orgunit" j -> column "parent_id" y = VNull)
  /\ ((forall j, column "parent_id" x = VInt j -> ~ depends d t id "t_orgunit" j) -> column "parent_id" y = column "parent_id" x).
Proof.
  intros Hcon Hw Hs Hx Hy Hgone Horph Hlink. split; [|split].
  - intros c Hp Hv. by destruct (Hw c Hv) as [|[]].
  - intros j Hj Hdep. destruct (Hw "parent_id"%string ltac:(done)) as [E|[_ E]]; [|done]. rewrite Hj in E. destruct (Hlink j E) as [z Hz].
    destruct (Hs _ _ _ Hz) as (z0 & Hz0 & _). apply (Hgone "t_orgunit"%string j ltac:(by eexists)) in Hdep. congruence.
  - intros Hno. destruct (Hw "parent_id"%string ltac:(done)) as [E|[_ E]]; [done|].
    destruct (reference_value d "t_orgunit" "parent_id" "t_orgunit" SetNull k x Hcon) as [E'|(j & E' & _)]; [by left|done|congruence|].
    destruct (Hno j E'). apply Horph. exists k, x, y. by rewrite E.
Qed.

(** C5. In every state the database can reach - after its installation, any statements, whether they succeed or fail, any passing of time, and any purges of the logs -
    each row is stored under its key and is what the catalogue of the DDL says: each column holds NULL or a value of its type (an integer in range, a text of at most so many characters and without NUL, ...)
    and is not NULL where NOT NULL is declared; a phone, an email, an address, a social media account and a website have exactly one of the person and the unit as owner,
    a visibility rule has exactly one of the three viewers, a unit is of one of the five types; no other row has the same values in the columns of a unique key, none of them
    NULL; and every foreign key is NULL or the key of a row that exists. *)
Theorem integrity_invariant (p : bool) (d : contents) (H : reachable p d) t cols k r (Ht : (t, cols) ∈ catalogue) (Hr : table d t !! k = Some r) :
  column "id" r = VInt k
  /\ (forall c ty nn, (c, ty, nn) ∈ cols -> of_type ty (column c r) /\ (nn = true -> column c r <> VNull))
  /\ (t ∈ contact_tables -> column "person_id" r = VNull <-> column "org_unit_id" r <> VNull)
  /\ (t = "t_datavisibility"%string -> exists c, c ∈ viewers /\ column c r <> VNull /\ forall c', c' ∈ viewers -> column c' r <> VNull -> c' = c)
  /\ (t = "t_orgunit"%string -> exists ty, ty ∈ unit_types /\ column "org_type" r = VText (W ty))
  /\ (forall key k' s, (t, key) ∈ unique_keys -> table d t !! k' = Some s ->
        (forall c, c ∈ key -> column c r <> VNull /\ column c s = column c r) -> k' = k)
  /\ (forall c target a, (t, c, target, a) ∈ foreign_keys ->
        column c r = VNull \/ exists i, column c r = VInt i /\ is_Some (table d target !! i)).
Proof.
  destruct (reachable_sound p d H) as (Hcon & _ & _). pose proof Hcon as [[Hk Hok] _]. destruct (catalogue_table t cols Ht) as (def & Hdef & Hcols).
  destruct (Hok t def k r Hdef Hr) as (Hty & Hsat & Hfree). split.
  { specialize (Hk _ _ _ Hr). unfold row_id in Hk. destruct (column "id" r); by simplify_eq/=. }
  split; [|split; [|split; [|split; [|split]]]].
  - intros c ty nn Hc. destruct (Hcols c ty nn Hc) as (col & Hcol & <- & <- & <-). split; [by eapply typed_value|by eapply required_value].
  - intros Hin. by eapply one_owner, checked, contact_checks.
  - intros ->. injection Hdef as <-. by apply one_viewer, (checked _ _ _ Hsat), list_elem_of_singleton.
  - intros ->. injection Hdef as <-. apply unit_type; [by apply (checked _ _ _ Hsat), list_elem_of_singleton|].
    apply (required_value _ _ (not_null "org_type" D_OrgType) Hsat); [|done]. apply list_elem_of_In. cbn. tauto.
  - intros key k' s (def' & Hdef' & Hkey)%unique_key Hs Hsame. rewrite Hdef in Hdef'. injection Hdef' as <-.
    unfold free_keys in Hfree. rewrite Forall_forall in Hfree. destruct (Hfree key Hkey k' s Hs) as [|Hno]; [done|].
    destruct Hno. apply Forall_forall. intros c Hc. by destruct (Hsame c Hc).
  - intros c target a Hf. by eapply reference_value.
Qed.

(** C6. The log of an audited table is its history: as long as nothing is purged, replaying it from the empty table gives the table as it is,
    each entry fitting the rows the entries before it left.  Every statement adds to it exactly its own changes, cascades and refreshed
    search vectors included: each entry has the letter of its change (C without an old row, D without a new one, U with both), the time of the transaction,
    and the user that app.current_user holds, less any spaces beyond a hundred characters - or the session's role when the variable is not set or empty.
    The audited tables are the eleven that create_audit_log is called for. *)
Theorem audit_log_is_history (d : contents) (H : reachable false d) :
  (forall t, t ∈ audited_names -> replay ∅ (history d t) = Some (table d t))
  /\ forall v s b t, t ∈ audited_names -> let d' := fst (execute v s b d) in exists new,
       log_of d' (log_name t) = log_of d (log_name t) ++ new
       /\ replay (table d t) (map (fun x => (old_data x, new_data x)) new) = Some (table d' t)
       /\ forall x, x ∈ new -> action_at x = clock d
            /\ match old_data x, new_data x with
               | None, Some _ => action x = "C"%char | Some _, Some _ => action x = "U"%char | Some _, None => action x = "D"%char | None, None => False
               end
            /\ match v !! APP_USER with
               | None | Some [] => action_by x = session_user
               | Some u => (exists k, u = action_by x ++ replicate k " "%char) /\ (length (characters u) <= 100 -> action_by x = u)
               end.
Proof.
  destruct (reachable_sound false d H) as (Hcon & Hacc & _). specialize (Hacc eq_refl).
  assert (Hrep : forall d t, accounted d [] -> t ∈ audited_names -> replay ∅ (history d t) = Some (table d t)).
  { intros d0 t Ha Ht%audited_name. specialize (Ha t Ht). by rewrite app_nil_r in Ha. }
  split; [by intros t Ht; apply Hrep|]. intros v s b t Ht d'. destruct (execute_spec v s b d Hcon) as (_ & [_ Happ] & Hacc').
  destruct (Happ (log_name t)) as (new & E & Hnew). exists new. split; [exact E|]. split.
  - pose proof (Hrep d' t (Hacc' Hacc) Ht) as Hd'. unfold history in Hd'. unfold d' in Hd' at 1. rewrite E, map_app, replay_app in Hd'.
    pose proof (Hrep d t Hacc Ht) as Hd. unfold history in Hd. rewrite Hd in Hd'. exact Hd'.
  - intros x Hx. rewrite Forall_forall in Hnew. destruct (Hnew x Hx) as (Hu & Ha & e & Hact & Hrows). split; [done|]. split.
    + destruct e; injection Hrows as -> ->; exact Hact.
    + exact (audit_user_named v _ Hu).
Qed.

(** C7. Deleting a row that exists succeeds, whatever refers to it, unless it is a language or a qualifier (or the audit refuses the user).  The rows lost are exactly the row and, again and again, those that
    refer to a lost row by a foreign key the DDL declares ON DELETE CASCADE.  A row that stays is unchanged, unless it is a unit: its columns are
    unchanged too, apart from its search vector, and from its parent, which becomes NULL when the parent is lost and only then.  No row appears, and no foreign key is left
    that leads nowhere. *)
Theorem deletion_cascades (p : bool) (d : contents) (H : reachable p d) v t b e id def r
    (He : eval ∅ b e = Some (VInt id)) (Ht : table_of t = Some def) (Hr : table d t !! id = Some r)
    (Hu : audit_user v <> None) (Hn : t <> "t_locale"%string /\ t <> "t_contactqualifier"%string) :
  exists d', execute v (Delete t e) b d = (d', Some [[VInt id]])
    /\ (forall u k x, table d u !! k = Some x -> lost d t id u k -> table d' u !! k = None)
    /\ (forall u k x, table d u !! k = Some x -> ~ lost d t id u k -> exists y, table d' u !! k = Some y
          /\ (u <> "t_orgunit"%string -> y = x)
          /\ (u = "t_orgunit"%string ->
                (forall c, c <> "parent_id"%string -> c <> "search_vector"%string -> column c y = column c x)
                /\ (forall j, column "parent_id" x = VInt j -> lost d t id "t_orgunit" j -> column "parent_id" y = VNull)
                /\ ((forall j, column "parent_id" x = VInt j -> ~ lost d t id "t_orgunit" j) -> column "parent_id" y = column "parent_id" x)))
    /\ (forall u k, table d u !! k = None -> table d' u !! k = None)
    /\ (forall u c target a k y i, (u, c, target, a) ∈ foreign_keys -> table d' u !! k = Some y -> column c y = VInt i ->
          is_Some (table d' target !! i)).
Proof.
  destruct (reachable_sound p d H) as (Hcon & _ & _). setoid_rewrite lost_depends.
  assert (Hnr : ~ refusable t) by (intros [->| ->]; destruct Hn; done).
  destruct (delete_total v t b e id d def r Hcon He Ht Hr Hu Hnr) as (d' & Hm & Hcon' & _ & Hs & _ & _ & _ & Hdep & Horph).
  assert (Hlink : forall u c target a k y i, (u, c, target, a) ∈ foreign_keys -> table d' u !! k = Some y -> column c y = VInt i ->
    is_Some (table d' target !! i)).
  { intros u c target a k y i Hf Hy Hi. destruct (reference_value d' u c target a k y Hcon' Hf Hy) as [E|(i' & E & Hi')]; [congruence|].
    rewrite Hi in E. by injection E as <-. }
  exists d'. split; [unfold execute, atomically; by rewrite Hm|]. split; [|split; [|split; [|exact Hlink]]].
  - intros u k x Hx. by apply (Hdep u k).
  - intros u k x Hx Hnd. destruct (table d' u !! k) as [y|] eqn:Hy; [|destruct Hnd; by apply (Hdep u k)].
    exists y. split; [done|]. destruct (Hs u k y Hy) as (x' & Hx' & Hw & Hsame). rewrite Hx in Hx'. injection Hx' as <-. split; [exact Hsame|].
    intros ->. apply (survivor_columns d d' t id k x y); try done. intros j Hj. apply (Hlink "t_orgunit"%string "parent_id"%string "t_orgunit"%string SetNull k y j); [by left|done|done].
  - intros u k. by apply shrinks_absent.
Qed.

(** ** Timestamps *)

#[export] Instance not_after_total : Total not_after.
Proof. intros x y. unfold not_after. lia. Qed.
#[export] Instance not_after_trans : Transitive not_after.
Proof. intros x y z. unfold not_after. lia. Qed.

#[export] Instance not_before_total : Total not_before.
Proof. intros x y. unfold not_before. lia. Qed.
#[export] Instance not_before_trans : Transitive not_before.
Proof. intros x y z. unfold not_before. lia. Qed.

(** The head of a sorted list comes before the others. *)
Lemma head_sorted {A} (R : relation A) `{forall x y, Decision (R x y)} `{!Total R} `{!Transitive R} l : l <> [] ->
  exists x, head (merge_sort R l) = Some x /\ x ∈ l /\ forall y, y ∈ l -> x = y \/ R x y.
Proof.
  intros Hl. pose proof (merge_sort_Permutation R l) as Hp. pose proof (StronglySorted_merge_sort R l) as Hs.
  destruct (merge_sort R l) as [|x k]; [by apply Permutation_nil_l in Hp|]. exists x. split; [done|]. split; [rewrite <- Hp; by left|].
  intros y Hy. rewrite <- Hp in Hy. apply elem_of_cons in Hy as [->|Hy]; [by left|right]. apply StronglySorted_inv in Hs as [_ Hs].
  rewrite List.Forall_forall in Hs. apply Hs. by apply list_elem_of_In.
Qed.

Lemma replay_created m l m' id r : replay m l = Some m' -> m' !! id = Some r -> is_Some (m !! id) \/ exists r0, (None, Some r0) ∈ l /\ row_id r0 = Some id.
Proof.
  revert m. induction l as [|e l IH]; intros m; cbn; [intros [= ->] Hr; left; by eexists|].
  destruct (replay_one m e) as [m1|] eqn:He; [|done]. cbn. intros Hl Hr. destruct (IH m1 Hl Hr) as [Hm|(r0 & Hin & Hid)]; [|right; exists r0; split; [by right|done]].
  destruct e as [[r0|] [r1|]]; cbn [replay_one] in He; [| | |done];
    apply bind_Some in He as (k & Hk & He); case_decide as Hd; try done; injection He as <-.
  - left. destruct Hd as [Hd _]. destruct (decide (k = id)) as [->|E]; [by eexists|]. by rewrite lookup_insert_ne in Hm.
  - left. destruct (decide (k = id)) as [->|E]; [by eexists|]. by rewrite lookup_delete_ne in Hm.
  - destruct (decide (k = id)) as [->|E]; [right; exists r1; split; [by left|done]|]. left. by rewrite lookup_insert_ne in Hm.
Qed.

End history.

(** ** Examples *)
#[local] Existing Instance memory_scalars.
#[local] Existing Instance plain_postgres.

(** A statement by a user of the application. *)
Definition as_user (u : str) : vars := {[ APP_USER := u ]}.
Definition add_person : stmt := Insert "t_person" [("first_name"%string, Text (W "Ana")); ("last_name"%string, Text (W "Lima"))].
Definition add_phone : stmt :=
  Insert "t_phone" [("person_id"%string, Int 1); ("country_code"%string, Text (W "55")); ("number"%string, Text (W "11 5555"))].
Definition after_adding : contents := fst (execute (as_user (W "ana")) add_phone [] (fst (execute (as_user (W "ana")) add_person [] (installed 7)))).

Lemma after_adding_reachable p : reachable p after_adding.
Proof. apply reach_statement, reach_statement, reach_installed. Qed.

Example installed_tables :
  size (table (installed 7) "t_locale") = 5 /\ size (table (installed 7) "t_contactqualifier") = 3 /\ size (table (installed 7) "t_localizedcontactqualifier") = 15.
Proof. vm_compute. done. Qed.
Example logged_creation : map action_by (log_of after_adding (log_name "t_person")) = [W "ana"].
Proof. vm_compute. done. Qed.

(** ** The theorems at this database *)

Lemma added_person : is_Some (table after_adding "t_person" !! 1%Z).
Proof. apply (bool_decide_unpack _). vm_compute. exact Logic.I. Qed.
Lemma added_phone : exists r, table after_adding "t_phone" !! 1%Z = Some r /\ column "person_id" r = VInt 1.
Proof.
  assert (H : column "person_id" <$> table after_adding "t_phone" !! 1%Z = Some (VInt 1)) by (vm_compute; reflexivity).
  apply fmap_Some in H as (r & Hr & H). exact (ex_intro _ r (conj Hr (eq_sym H))).
Qed.

Lemma integrity_invariant_witness :
  exists r, table after_adding "t_phone" !! 1%Z = Some r /\ column "id" r = VInt 1
    /\ (of_type (CVarchar 5) (column "country_code" r) /\ column "country_code" r <> VNull) /\ column "org_unit_id" r = VNull
    /\ (column "person_id" r = VNull \/ exists i, column "person_id" r = VInt i /\ is_Some (table after_adding "t_person" !! i)).
Proof.
  destruct added_phone as (r & Hr & Hp). exists r. split; [exact Hr|].
  destruct (integrity_invariant false after_adding (after_adding_reachable false) "t_phone" _ 1 r (list_elem_of_lookup_2 catalogue 6 _ eq_refl) Hr)
    as (H1 & H2 & H3 & _ & _ & _ & H7).
  split; [exact H1|]. split; [|split].
  - destruct (H2 "country_code"%string (CVarchar 5) true ltac:(apply list_elem_of_In; cbn; tauto)) as [H4 H5]. split; [exact H4|exact (H5 eq_refl)].
  - destruct (decide (column "org_unit_id" r = VNull)) as [E|E]; [exact E|]. apply (proj2 (H3 (list_elem_of_lookup_2 contact_tables 0 _ eq_refl))) in E. congruence.
  - apply (H7 "person_id"%string "t_person"%string Cascade). exact (list_elem_of_lookup_2 foreign_keys 5 _ eq_refl).
Defined.

Lemma audit_log_is_history_witness :
  replay ∅ (history after_adding "t_phone") = Some (table after_adding "t_phone") /\ length (history after_adding "t_phone") = 1.
Proof.
  split; [|vm_compute; reflexivity]. apply (proj1 (audit_log_is_history after_adding (after_adding_reachable false))).
  exact (list_elem_of_lookup_2 audited_names 2 _ eq_refl).
Defined.

Lemma deletion_cascades_witness :
  exists d', execute (as_user (W "ana")) (Delete "t_person" (Int 1)) [] after_adding = (d', Some [[VInt 1]])
    /\ table after_adding "t_phone" !! 1%Z <> None /\ table d' "t_phone" !! 1%Z = None.
Proof.
  destruct added_person as [r Hr], added_phone as (s & Hs & Hp).
  destruct (deletion_cascades false after_adding (after_adding_reachable false) (as_user (W "ana")) "t_person" [] (Int 1) 1 t_person r
    eq_refl eq_refl Hr ltac:(vm_compute; discriminate) ltac:(split; discriminate)) as (d' & He & Hd & _).
  exists d'. split; [exact He|]. split; [by rewrite Hs|]. apply (Hd _ _ _ Hs).
  apply (lost_with _ "t_person" 1 "t_person" 1 "t_phone" "person_id" 1 s); [constructor| |exact Hs|exact Hp].
  exact (list_elem_of_lookup_2 foreign_keys 5 _ eq_refl).
Defined.

