(* ===== verification/Hierarchy.v ===== *)
(** * The hierarchy of units (contact/db/contact_ddl.sql, fn_org_hierarchy)

    A recursive query: the roots, then level after level the children of the last level, until a level is empty.  A unit takes
    part under its name in the language asked for.  The query ends in every consistent database, cycles among parents included,
    and lists exactly the units that are reached from a root through units with a name. *)
From stdpp Require Import gmap strings.
From S2P Require Import Prelude Sql Schema Tables Changes Cascade Integrity.

(* src: contact/db/contact_ddl.sql:839-840 fn_org_hierarchy *)
Record org_node := mk_node { node_id : Z; node_parent : sval; node_name : sval; node_type : sval; node_keywords : sval; node_depth : Z; node_path : list Z }.
#[export] Instance org_node_eq_dec : EqDecision org_node.
Proof. solve_decision. Defined.

Section hierarchy.
Variables (d : contents) (code : str).

(** [l.id = loc.locale_id AND l.code = p_locale_code]. *)
Definition is_locale (locale : sval) : Prop :=
  match locale with VInt l => match table d "t_locale" !! l with Some r => column "code" r = VText code | None => False end | _ => False end.
#[export] Instance is_locale_dec l : Decision (is_locale l).
Proof. destruct l; simpl; try apply _. case_match; apply _. Defined.
(** The names of a unit in the language. *)
(* src: contact/db/contact_ddl.sql:847-848 fn_org_hierarchy *)
Definition localized_names (unit_id : Z) : gmap Z row :=
  filter (fun p => column "org_unit_id" (snd p) = VInt unit_id /\ is_locale (column "locale_id" (snd p))) (table d "t_localizedorgunit").
Definition units_with (parent : sval) : gmap Z row := filter (fun p => column "parent_id" (snd p) = parent) (table d "t_orgunit").
(** The units of a parent, with their names, as rows of the query. *)
Definition nodes_under (parent : sval) (depth : Z) (path : list Z) : list org_node :=
  map_to_list (units_with parent) ≫= fun p =>
    (fun q => mk_node (fst p) (column "parent_id" (snd p)) (column "name" (snd q)) (column "org_type" (snd p)) (column "keywords" (snd p)) depth (path ++ [fst p]))
      <$> map_to_list (localized_names (fst p)).
(* src: contact/db/contact_ddl.sql:844-849 fn_org_hierarchy *)
Definition roots : list org_node := nodes_under VNull 1 [].
(* src: contact/db/contact_ddl.sql:851-856 fn_org_hierarchy *)
Definition children (t : org_node) : list org_node := nodes_under (VInt (node_id t)) (node_depth t + 1) (node_path t).
(** WITH RECURSIVE: the rows of a step are the input of the next one. *)
(* src: contact/db/contact_ddl.sql:843-857 fn_org_hierarchy *)
Fixpoint org_tree (fuel : nat) (working : list org_node) : option (list org_node) :=
  match working with
  | [] => Some []
  | _ => match fuel with 0 => None | Datatypes.S fuel => rest ← org_tree fuel (working ≫= children); Some (working ++ rest) end
  end.
(** The steps are no more than the units. *)
(* src: contact/db/contact_ddl.sql:838-860 fn_org_hierarchy *)
Definition fn_org_hierarchy : option (list org_node) := org_tree (size (table d "t_orgunit")) roots.

(** ** Chains of units *)

Definition unit_of (k : Z) : row := default ∅ (table d "t_orgunit" !! k).
Definition named (k : Z) : Prop := is_Some (table d "t_orgunit" !! k) /\ localized_names k <> ∅.
(** A path from a root, every unit of it with a name and under the one before it. *)
Inductive chain : list Z -> Prop :=
  | chain_root k : named k -> column "parent_id" (unit_of k) = VNull -> chain [k]
  | chain_child p j k : chain (p ++ [j]) -> named k -> column "parent_id" (unit_of k) = VInt j -> chain (p ++ [j; k]).

Lemma chain_inv p k : chain (p ++ [k]) -> named k /\
  ((p = [] /\ column "parent_id" (unit_of k) = VNull) \/ exists q j, p = q ++ [j] /\ chain p /\ column "parent_id" (unit_of k) = VInt j).
Proof.
  intros H. inversion H as [k' Hn Hp E|q j k' Hc Hn Hp E].
  - change [k'] with ([] ++ [k']) in E. apply app_inj_tail in E as [<- <-]. split; [done|by left].
  - change [j; k'] with ([j] ++ [k']) in E. rewrite app_assoc in E. apply app_inj_tail in E as [<- <-]. split; [done|]. right. by exists q, j.
Qed.
Lemma chain_snoc p k : chain p -> p <> [] -> named k -> column "parent_id" (unit_of k) = VInt (default 0%Z (last p)) -> chain (p ++ [k]).
Proof.
  intros Hc Hp Hn Hk. destruct p as [|j p _] using rev_ind; [done|]. rewrite <- app_assoc. rewrite last_snoc in Hk. by apply chain_child.
Qed.

(** A unit has one parent, so there is one path to it. *)
Lemma chain_unique p q k : chain (p ++ [k]) -> chain (q ++ [k]) -> p = q.
Proof.
  revert q k. induction p as [|j p IH] using rev_ind; intros q k [_ [[Hp E]|(p' & i & Hp & Hc & E)]]%chain_inv [_ [[Hq E']|(q' & i' & Hq & Hc' & E')]]%chain_inv;
    try congruence; subst; try done.
  - by destruct p'.
  - apply app_inj_tail in Hp as [<- <-]. assert (i' = j) by congruence. subst i'. f_equal. by eapply IH.
Qed.

Lemma chain_prefix p q : chain (p ++ q) -> p <> [] -> chain p.
Proof.
  revert p. induction q as [|k q IH] using rev_ind; intros p Hc Hp; [by rewrite app_nil_r in Hc|].
  rewrite app_assoc in Hc. apply chain_inv in Hc as [_ [[E _]|(p' & j & E & Hc & _)]]; [by destruct p|]. by apply IH.
Qed.

Lemma chain_NoDup p : chain p -> NoDup p.
Proof.
  induction p as [|k p IH] using rev_ind; intros Hc; [constructor|]. apply NoDup_app. split; [|split; [|apply NoDup_singleton]].
  - destruct (decide (p = [])) as [->|Hp]; [constructor|]. apply IH. by apply (chain_prefix p [k]).
  - intros x Hx Hk%list_elem_of_singleton. subst x. apply list_elem_of_split in Hx as (a & b & ->).
    assert (Ha : chain (a ++ [k])).
    { replace ((a ++ k :: b) ++ [k]) with ((a ++ [k]) ++ (b ++ [k])) in Hc by by rewrite <- !app_assoc. eapply chain_prefix; [exact Hc|]. by destruct a. }
    pose proof (chain_unique _ _ _ Ha Hc) as E. apply (f_equal length) in E. rewrite length_app in E. simpl in E. lia.
Qed.

Lemma chain_named p k : chain p -> k ∈ p -> named k.
Proof.
  induction p as [|j p IH] using rev_ind; intros Hc Hk; [by apply not_elem_of_nil in Hk|]. apply elem_of_app in Hk as [Hk|Hk%list_elem_of_singleton].
  - apply IH; [|done]. apply (chain_prefix p [j]); [done|]. intros ->. by apply not_elem_of_nil in Hk.
  - subst. by apply chain_inv in Hc as [? _].
Qed.

Lemma chain_length p : chain p -> length p <= size (table d "t_orgunit").
Proof.
  intros Hc. rewrite <- length_map_to_list, <- (length_fmap fst). apply submseteq_length, NoDup_submseteq; [by apply chain_NoDup|].
  intros k Hk. destruct (chain_named p k Hc Hk) as [[r Hr] _]. apply list_elem_of_fmap. exists (k, r). split; [done|]. by apply elem_of_map_to_list.
Qed.

(** ** The rows of the query *)

(** A row stands for a chain. *)
Definition node_for (p : list Z) (t : org_node) : Prop :=
  node_path t = p /\ last p = Some (node_id t) /\ node_depth t = Z.of_nat (length p)
  /\ node_parent t = column "parent_id" (unit_of (node_id t)) /\ node_type t = column "org_type" (unit_of (node_id t))
  /\ node_keywords t = column "keywords" (unit_of (node_id t))
  /\ exists i r, localized_names (node_id t) !! i = Some r /\ node_name t = column "name" r.

Lemma nodes_under_elem parent depth path t : t ∈ nodes_under parent depth path <->
  column "parent_id" (unit_of (node_id t)) = parent /\ is_Some (table d "t_orgunit" !! node_id t)
  /\ node_path t = path ++ [node_id t] /\ node_depth t = depth /\ node_parent t = column "parent_id" (unit_of (node_id t))
  /\ node_type t = column "org_type" (unit_of (node_id t)) /\ node_keywords t = column "keywords" (unit_of (node_id t))
  /\ exists i r, localized_names (node_id t) !! i = Some r /\ node_name t = column "name" r.
Proof.
  unfold nodes_under. rewrite list_elem_of_bind. split.
  - intros ([k r] & ([i s] & -> & Hs%elem_of_map_to_list)%list_elem_of_fmap & Hk%elem_of_map_to_list). cbn [fst snd node_id node_path node_depth node_parent node_type node_keywords node_name] in *.
    unfold units_with in Hk. apply map_lookup_filter_Some in Hk as [Hk Hp]. unfold unit_of. rewrite Hk. cbn [default from_option id] in *. eauto 12.
  - intros (Hp & [r Hr] & H1 & H2 & H3 & H4 & H5 & i & s & Hs & H6). unfold unit_of in *. rewrite Hr in *. cbn [default from_option id] in *.
    exists (node_id t, r). split.
    + apply list_elem_of_fmap. exists (i, s). split; [|by apply elem_of_map_to_list]. destruct t. cbn in *. by subst.
    + apply elem_of_map_to_list. unfold units_with. by apply map_lookup_filter_Some.
Qed.

(** The level of a row is the length of its chain. *)
Definition level (n : nat) (ts : list org_node) : Prop := forall t, t ∈ ts <-> exists p, chain p /\ length p = Datatypes.S n /\ node_for p t.

Lemma named_nonempty k i r : is_Some (table d "t_orgunit" !! k) -> localized_names k !! i = Some r -> named k.
Proof. intros Hk Hi. split; [done|]. intros E. rewrite E in Hi. by apply lookup_empty_Some in Hi. Qed.

Lemma level_roots : level 0 roots.
Proof.
  intros t. unfold roots. rewrite nodes_under_elem. split.
  - intros (Hp & Hk & Hpath & Hd & H1 & H2 & H3 & i & r & Hi & Hn). exists [node_id t]. split; [apply chain_root; [by eapply named_nonempty|done]|].
    split; [done|]. repeat (split; [done|]). eauto.
  - intros (p & Hc & Hl & Hpath & Hlast & Hd & H1 & H2 & H3 & i & r & Hi & Hn). destruct p as [|k [|? ?]]; try done. injection Hlast as ->.
    change [node_id t] with ([] ++ [node_id t]) in Hc. apply chain_inv in Hc as [[Hk _] [[_ Hp]|(q & j & E & _)]]; [|by destruct q].
    repeat (split; [done|]). eauto.
Qed.

Lemma level_children n ts : level n ts -> level (Datatypes.S n) (ts ≫= children).
Proof.
  intros Hl t. rewrite list_elem_of_bind. split.
  - intros (u & Hu & (p & Hc & Hlen & Hpath & Hlast & Hd & _)%Hl). unfold children in Hu.
    apply nodes_under_elem in Hu as (Hp & Hk & Hpt & Hdt & H1 & H2 & H3 & i & r & Hi & Hn). exists (p ++ [node_id t]).
    split; [apply chain_snoc; [done|by destruct p|by eapply named_nonempty|by rewrite Hlast]|]. split; [rewrite length_app; simpl; lia|].
    split; [by rewrite Hpt, Hpath|]. split; [apply last_snoc|]. split; [rewrite Hdt, Hd, length_app; simpl; lia|]. repeat (split; [done|]). eauto.
  - intros (p & Hc & Hlen & Hpath & Hlast & Hd & H1 & H2 & H3 & i & r & Hi & Hn).
    destruct p as [|k p _] using rev_ind; [done|]. rewrite last_snoc in Hlast. injection Hlast as ->. rewrite length_app in *. simpl in *.
    apply chain_inv in Hc as [[Hk _] [[-> _]|(q & j & -> & Hc & Hp)]]; [simpl in Hlen; lia|].
    pose proof (chain_inv _ _ Hc) as [[Hj Hnj] _]. apply map_choose in Hnj as (i' & r' & Hi').
    exists (mk_node j (column "parent_id" (unit_of j)) (column "name" r') (column "org_type" (unit_of j)) (column "keywords" (unit_of j)) (Z.of_nat (length (q ++ [j]))) (q ++ [j])).
    split.
    + unfold children. apply nodes_under_elem. cbn [node_id node_depth node_path]. split; [done|]. split; [done|]. split; [done|]. split; [lia|].
      repeat (split; [done|]). eauto.
    + apply Hl. exists (q ++ [j]). split; [done|]. split; [lia|]. split; [done|]. split; [by rewrite last_snoc|]. repeat (split; [done|]). eauto.
Qed.

(** ** The query *)

Lemma chain_node p : chain p -> p <> [] -> exists t, node_for p t.
Proof.
  intros Hc Hp. destruct p as [|k p _] using rev_ind; [done|]. apply chain_inv in Hc as [[_ Hn] _]. apply map_choose in Hn as (i & r & Hi).
  exists (mk_node k (column "parent_id" (unit_of k)) (column "name" r) (column "org_type" (unit_of k)) (column "keywords" (unit_of k)) (Z.of_nat (length (p ++ [k]))) (p ++ [k])).
  split; [done|]. split; [apply last_snoc|]. repeat (split; [done|]). eauto.
Qed.

Lemma level_empty n p : level n [] -> chain p -> length p <= n.
Proof.
  intros Hl Hc. destruct (decide (n < length p)) as [Hlt|]; [|lia]. exfalso.
  assert (Hne : take (Datatypes.S n) p <> []) by (destruct p; simpl in *; [lia|done]).
  assert (Hc' : chain (take (Datatypes.S n) p)).
  { rewrite <- (take_drop (Datatypes.S n) p) in Hc. eapply chain_prefix; [exact Hc|]. by destruct p. }
  destruct (chain_node _ Hc') as [t Ht]; [by destruct p; simpl in *; [lia|]|].
  apply (not_elem_of_nil t), Hl. exists (take (Datatypes.S n) p). split; [done|]. split; [rewrite length_take; lia|done].
Qed.

(** It ends, and has every chain. *)
Lemma org_tree_level fuel n ts : level n ts -> size (table d "t_orgunit") <= n + fuel ->
  exists l, org_tree fuel ts = Some l /\ forall t, t ∈ l <-> exists p, chain p /\ n < length p /\ node_for p t.
Proof.
  revert n ts. induction fuel as [|fuel IH]; intros n [|t0 ts] Hl Hf.
  1, 3: exists []; split; [done|]; intros t; split; [by intros ?%not_elem_of_nil|]; intros (p & Hc & Hp & _); pose proof (level_empty n p Hl Hc); lia.
  - destruct (proj1 (Hl t0) ltac:(by left)) as (p & Hc & Hp & _). pose proof (chain_length p Hc). lia.
  - pose proof (level_children n _ Hl) as Hl'. destruct (IH (Datatypes.S n) _ Hl' ltac:(lia)) as (l & E & Hmem).
    exists ((t0 :: ts) ++ l). split; [cbn [org_tree]; rewrite E; done|]. intros t. rewrite elem_of_app, Hmem, (Hl t). split.
    + intros [(p & ? & ? & ?)|(p & ? & ? & ?)]; exists p; (split; [done|split; [lia|done]]).
    + intros (p & Hc & Hp & Ht). destruct (decide (length p = Datatypes.S n)); [left|right]; exists p; (split; [done|split; [lia|done]]).
Qed.

(** A language names a unit once, so a row is determined by its chain and is there once. *)
Hypothesis names_unique : forall k i j r s, localized_names k !! i = Some r -> localized_names k !! j = Some s -> i = j.

Lemma node_for_unique p t u : node_for p t -> node_for p u -> t = u.
Proof.
  intros (H1 & H2 & H3 & H4 & H5 & H6 & i & r & Hi & Hr) (K1 & K2 & K3 & K4 & K5 & K6 & j & s & Hj & Hs).
  assert (E : node_id t = node_id u) by congruence. rewrite E in *. pose proof (names_unique _ i j r s Hi Hj) as <-.
  assert (r = s) by congruence. destruct t, u. cbn in *. congruence.
Qed.

Lemma nodes_under_NoDup parent depth path : NoDup (nodes_under parent depth path).
Proof.
  unfold nodes_under. apply NoDup_bind; [| |apply NoDup_map_to_list].
  - intros [k r] [k' r'] t H1%elem_of_map_to_list H2%elem_of_map_to_list ([i x] & E & _)%list_elem_of_fmap ([j y] & E' & _)%list_elem_of_fmap.
    cbn in *. assert (k = k') by (rewrite E in E'; congruence). subst k'. congruence.
  - intros [k r] _. cbn. apply NoDup_fmap_2_strong; [|apply NoDup_map_to_list]. intros [i x] [j y] Hi%elem_of_map_to_list Hj%elem_of_map_to_list _.
    pose proof (names_unique _ _ _ _ _ Hi Hj). simplify_eq. done.
Qed.

Lemma level_NoDup n ts : level n ts -> NoDup ts -> NoDup (ts ≫= children).
Proof.
  intros Hl Hd. apply NoDup_bind; [|intros t _; apply nodes_under_NoDup|done].
  intros t u x (p & _ & _ & Hp)%Hl (q & _ & _ & Hq)%Hl Ht%nodes_under_elem Hu%nodes_under_elem.
  destruct Ht as (_ & _ & E1 & _), Hu as (_ & _ & E2 & _). rewrite E1 in E2. apply app_inj_tail in E2 as [E _].
  assert (H : p = q) by (destruct Hp as (<- & _), Hq as (<- & _); done). subst q. by apply (node_for_unique p).
Qed.

Lemma org_tree_NoDup fuel n ts l : level n ts -> NoDup ts -> org_tree fuel ts = Some l -> size (table d "t_orgunit") <= n + fuel ->
  NoDup l /\ StronglySorted (fun t u => (node_depth t <= node_depth u)%Z) l.
Proof.
  revert n ts l. induction fuel as [|fuel IH]; intros n [|t0 ts] l Hl Hd E Hf; cbn [org_tree] in E; try (injection E as <-; by split; constructor); [done|].
  apply bind_Some in E as (rest & E & [= <-]). pose proof (level_children n _ Hl) as Hl'.
  destruct (IH _ _ rest Hl' (level_NoDup n _ Hl Hd) E ltac:(lia)) as [Hr Hs].
  destruct (org_tree_level fuel _ _ Hl' ltac:(lia)) as (l' & E' & Hmem). rewrite E in E'. injection E' as <-.
  assert (Hdepth : forall t, t ∈ t0 :: ts -> node_depth t = Z.of_nat (Datatypes.S n)) by (intros t (p & _ & Hp & _ & _ & -> & _)%Hl; by rewrite Hp).
  assert (Hdeep : forall t, t ∈ rest -> (Z.of_nat (Datatypes.S n) < node_depth t)%Z) by (intros t (p & _ & Hp & _ & _ & -> & _)%Hmem; lia).
  split.
  - change (t0 :: ts ++ rest) with ((t0 :: ts) ++ rest). apply NoDup_app. split; [done|]. split; [|done]. intros t Ht%Hdepth Hr'%Hdeep. lia.
  - change (t0 :: ts ++ rest) with ((t0 :: ts) ++ rest). clear - Hs Hdepth Hdeep. induction (t0 :: ts) as [|t us IH]; [done|]. cbn. constructor.
    + apply IH. intros u Hu. apply Hdepth. by right.
    + apply List.Forall_forall. intros u [Hu%list_elem_of_In|Hu%list_elem_of_In]%in_app_iff; rewrite (Hdepth t) by (by left).
      * by rewrite (Hdepth u) by (by right).
      * specialize (Hdeep u Hu). lia.
Qed.
End hierarchy.

(** In a consistent database the names are unique: a code is one language, and a unit has one name in each. *)
Section theorems.
Context {C : Scalars} {P : Postgres} {L : PostgresLaws P}.

Lemma key_unique d t def key k1 k2 r1 r2 : consistent d -> table_of t = Some def -> key ∈ t_unique def ->
  table d t !! k1 = Some r1 -> table d t !! k2 = Some r2 -> same_key key r1 r2 -> k1 = k2.
Proof.
  intros [[_ Hok] _] Ht Hkey H1 H2 Hs. destruct (Hok t def k1 r1 Ht H1) as (_ & _ & Hfree). unfold free_keys in Hfree. rewrite Forall_forall in Hfree.
  by destruct (Hfree key Hkey k2 r2 H2).
Qed.

Lemma consistent_names d code : consistent d -> forall k i j r s, localized_names d code k !! i = Some r -> localized_names d code k !! j = Some s -> i = j.
Proof.
  intros Hcon k i j r s [Hr [Hr1 Hr2]]%map_lookup_filter_Some [Hs [Hs1 Hs2]]%map_lookup_filter_Some. cbn [snd] in *.
  unfold is_locale in *. destruct (column "locale_id" r) as [|l| | | |] eqn:El, (column "locale_id" s) as [|m| | | |] eqn:Em; try done.
  destruct (table d "t_locale" !! l) as [x|] eqn:Hx; [|done]. destruct (table d "t_locale" !! m) as [y|] eqn:Hy; [|done].
  assert (l = m) as ->.
  { eapply (key_unique d "t_locale" t_locale ["code"%string]); [done|done|by left|done|done|]. apply Forall_singleton. by rewrite Hr2, Hs2. }
  eapply (key_unique d "t_localizedorgunit" t_localizedorgunit); [done|done|by left|done|done|].
  apply Forall_cons. split; [by rewrite Hr1, Hs1|]. apply Forall_singleton. by rewrite El, Em.
Qed.

(** The recursive query of [fn_org_hierarchy] ends in every consistent database, cycles among the parents of units included.  It lists every unit that is reached
    from a root through units with a name in the language, once, with its depth and the path of ids that leads to it, level after level;
    and no other unit - one without a name in the language, one below it, or one whose ancestors form a cycle is left out. *)
Lemma org_hierarchy_complete (d : contents) (code : str) (H : consistent d) :
  exists l, fn_org_hierarchy d code = Some l /\ NoDup (map node_id l)
    /\ (forall k, k ∈ map node_id l <-> exists p, chain d code (p ++ [k]))
    /\ (forall t, t ∈ l -> chain d code (node_path t) /\ node_for d code (node_path t) t)
    /\ StronglySorted (fun t u => (node_depth t <= node_depth u)%Z) l.
Proof.
  pose proof (consistent_names d code H) as Hn. pose proof (level_roots d code) as Hl.
  destruct (org_tree_level d code (size (table d "t_orgunit")) 0 _ Hl ltac:(lia)) as (l & E & Hmem).
  destruct (org_tree_NoDup d code Hn _ 0 _ l Hl (nodes_under_NoDup d code Hn _ _ _) E ltac:(lia)) as [Hd Hs].
  assert (Hfor : forall t, t ∈ l -> chain d code (node_path t) /\ node_for d code (node_path t) t).
  { intros t (p & Hc & _ & Ht)%Hmem. by pose proof Ht as (-> & _). }
  exists l. split; [done|]. split; [|split; [|split; [done|done]]].
  - apply (NoDup_fmap_2_strong node_id); [|done]. intros t u Ht Hu Eid. destruct (Hfor t Ht) as [Ht1 Ht2], (Hfor u Hu) as [Hu1 Hu2].
    pose proof Ht2 as (_ & Tl & _). pose proof Hu2 as (_ & Ul & _). apply last_Some in Tl as [p Tp], Ul as [q Uq]. rewrite Eid in Tp.
    rewrite Tp in Ht1, Ht2. rewrite Uq in Hu1, Hu2. rewrite (chain_unique d code p q _ Ht1 Hu1) in Ht2. exact (node_for_unique d code Hn _ t u Ht2 Hu2).
  - intros k. rewrite list_elem_of_fmap. split.
    + intros (t & -> & Ht). destruct (Hfor t Ht) as [Hc (_ & Hlast & _)]. apply last_Some in Hlast as [p Hp]. exists p. by rewrite <- Hp.
    + intros [p Hp]. destruct (chain_node d code _ Hp) as [t Ht]; [by destruct p|]. exists t. split.
      * destruct Ht as (_ & Hlast & _). rewrite last_snoc in Hlast. congruence.
      * apply Hmem. exists (p ++ [k]). split; [done|]. split; [rewrite length_app; simpl; lia|done].
Qed.
End theorems.
