(* ===== verification/Queries.v ===== *)
(** * What the reading data access objects return (contact/data/org_dao.hpp, role_dao.hpp, locale_dao.hpp, search_dao.hpp, audit_dao.hpp)

    Theorems on the operations of OrgDao and AuditDao that read: relations of persons to units, locales, and
    the queries that ask a function of the server - the hierarchy in a language, the searches, the history
    of an entity.  A function of the server is the operation [table_fn] of the class [Server]. *)
From stdpp Require Import gmap strings.
From S2P Require Import Prelude Sql Database Dao OrgDao AuditDao.

Section queries.
Context {S : Server} {L : ServerLaws S}.

(** ** The shapes: one row of a query, the rows of a function *)

Lemma slice_head {T} (b : binds) (q : query) (l ys : list T) : slice b q l = Some ys ->
  (offset q = None) -> (limit q = None \/ limit q = Some (Int 1)) -> head ys = head l.
Proof.
  unfold slice. intros H Ho Hl. rewrite Ho in H. cbn [mbind option_bind] in H. destruct Hl as [Hl|Hl]; rewrite Hl in H; cbn in H; injection H as <-.
  - by rewrite drop_0.
  - rewrite drop_0. by destruct l.
Qed.

(** [Q] relates an object to the row it is read from; [xs0] are the objects of the table. *)
Section rows_of.
Context {T : Type} (Q : T -> row -> Prop) (b : binds) (q : query) (P : T -> Prop) `{!forall x, Decision (P x)}.
Hypothesis HP : forall x r, Q x r -> holds_for b (where_ q) r <-> P x.

Lemma filter_rows xs l : Forall2 Q xs l -> Forall2 Q (filter P xs) (filter (holds_for b (where_ q)) l).
Proof.
  induction 1 as [|x r xs l Hxr _ IH]; [done|]. rewrite !filter_cons.
  pose proof (HP x r Hxr). destruct (decide (P x)), (decide (holds_for b (where_ q) r)); try tauto. by constructor.
Qed.

Lemma selected_rows w xs0 sel : Forall2 Q xs0 (snd <$> map_to_list (rows (w_db w) (from q))) ->
  sel ≡ₚ matching (rows (w_db w) (from q)) b (where_ q) -> exists xs, xs ≡ₚ filter P xs0 /\ Forall2 Q xs sel.
Proof.
  intros Hf Hp. symmetry in Hp. destruct (Forall2_permute _ _ _ _ (filter_rows _ _ Hf) Hp) as (xs & Hxs & Hf2).
  exists xs. split; [by symmetry|done].
Qed.

Lemma select_all_rows w pos v (read : list sval -> outcome T) xs0 (R : T -> T -> Prop) :
  ready w pos v -> offset q = None -> limit q = None -> Forall2 Q xs0 (snd <$> map_to_list (rows (w_db w) (from q))) ->
  (forall x r, Q x r -> reads (columns q) b read r x) ->
  (forall x y r s, Q x r -> Q y s -> ordered (order_by q) r s = true -> R x y) ->
  exists xs, xs ≡ₚ filter P xs0 /\ StronglySorted R xs
    /\ session [] [] (fun pos => select_all pos (Select q) b read) w = (after pos v w (w_db w), Ret xs).
Proof.
  intros Hr Hoff Hlim Hf Hreads HR. destruct (select_session w pos v [] q b read Hr (not_elem_of_nil _)) as (sel & Hp & Hsort & He).
  destruct (selected_rows w xs0 sel Hf Hp) as (xs & Hxs & Hf2). exists xs. split; [done|]. split.
  - clear -Hf2 Hsort HR. induction Hf2 as [|x r xs rs Hxr Hrest IH]; [constructor|].
    apply StronglySorted_inv in Hsort as [Hs Hh]. constructor; [by apply IH|].
    clear -Hrest Hh HR Hxr. induction Hrest as [|y s ys ss Hys _ IH]; inversion Hh; subst; constructor; [by eapply HR|by apply IH].
  - apply (He sel); [unfold slice; rewrite Hoff, Hlim; cbn; by rewrite drop_0|].
    apply (Forall2_impl (fun r x => Q x r)); [by apply Forall2_flip|intros r x Hx; by apply Hreads].
Qed.

Lemma select_one_rows {U} w pos v (read : list sval -> outcome U) (f : T -> U) xs0 :
  ready w pos v -> offset q = None -> (limit q = None \/ limit q = Some (Int 1)) ->
  Forall2 Q xs0 (snd <$> map_to_list (rows (w_db w) (from q))) -> (forall x r, Q x r -> reads (columns q) b read r (f x)) ->
  exists xs, xs ≡ₚ filter P xs0
    /\ session [] [] (fun pos => select_one pos (Select q) b read) w = (after pos v w (w_db w), Ret (f <$> head xs)).
Proof.
  intros Hr Hoff Hlim Hf Hreads. destruct (select_law (session_vars [] [] v) (w_db w) b q) as (sel & Hp & _ & He).
  destruct (selected_rows w xs0 sel Hf Hp) as (xs & Hxs & Hf2). exists xs. split; [done|].
  assert (Hsl : exists l', slice b q sel = Some l' /\ Forall (fun r => exists x, Q x r) l').
  { assert (Hall : Forall (fun r => exists x, Q x r) sel) by (clear -Hf2; induction Hf2; constructor; eauto).
    unfold slice. rewrite Hoff. destruct Hlim as [-> | ->]; cbn; eexists; (split; [done|]); rewrite drop_0; [done|]. by apply Forall_take. }
  destruct Hsl as (l' & Hl' & Hall). pose proof (slice_head _ _ _ _ Hl' Hoff Hlim) as Hhd.
  assert (exists outs, mapM (fun r => evals r b (columns q)) l' = Some outs) as [outs Houts].
  { clear -Hall Hreads. induction Hall as [|r l' [x Hx] _ [outs IH]]; [by eexists|]. destruct (Hreads _ _ Hx) as (out & Ho & _).
    exists (out :: outs). cbn. rewrite Ho. cbn. by rewrite IH. }
  rewrite Hl' in He. specialize (He outs Houts).
  apply session_ready; [done|apply not_elem_of_nil|apply not_elem_of_nil|apply contained_one|].
  intros u. unfold select_one, mbind, dao_bind. rewrite (sql_inside _ _ _ _ _ _ _ _ _ ltac:(eapply lookup_lt_Some, Hr) He).
  destruct l' as [|r l']; cbn in Houts.
  - injection Houts as <-. destruct Hf2; [done|discriminate Hhd].
  - destruct Hf2 as [|x r' xs sel Hxr]; [discriminate Hhd|]. injection Hhd as <-.
    destruct (Hreads _ _ Hxr) as (out & Ho & Hx). rewrite Ho in Houts. cbn in Houts.
    destruct (mapM _ l') as [outs'|]; [|done]. injection Houts as <-. unfold lift. by rewrite Hx.
Qed.
End rows_of.

Lemma reads_all {T} es b (read : list sval -> outcome T) rs xs : Forall2 (reads es b read) rs xs ->
  exists outs, mapM (fun r => evals r b es) rs = Some outs /\ Forall2 (fun out x => read out = Ret x) outs xs.
Proof.
  induction 1 as [|r x rs xs (out & H1 & H2) _ (outs & IH1 & IH2)]; [by exists []|].
  exists (out :: outs). cbn. rewrite H1. cbn. rewrite IH1. split; [done|by constructor].
Qed.

Lemma function_session {T} w pos v locale es f args b vs (read : list sval -> outcome T) xs :
  ready w pos v -> NULL_CHAR ∉ locale -> evals ∅ b args = Some vs ->
  Forall2 (reads es b read) (table_fn (session_vars [] locale v) (w_db w) f vs) xs ->
  session [] locale (fun pos => select_all pos (SelectFrom es f args) b read) w = (after pos v w (w_db w), Ret xs).
Proof.
  intros Hr Hlo Ha Hf. destruct (reads_all _ _ _ _ _ Hf) as (outs & Ho & Hx).
  apply session_ready; [done|apply not_elem_of_nil|done|apply contained_all|]. intros u. unfold select_all, mbind, dao_bind.
  rewrite (sql_inside _ _ _ _ _ _ _ _ _ ltac:(eapply lookup_lt_Some, Hr) (select_from_law _ _ _ _ _ _ _ _ Ha Ho)).
  unfold lift. by rewrite (fetch_Forall2 _ _ _ Hx).
Qed.

Lemma function_one_session {T} w pos v es f args b vs (read : list sval -> outcome T) xs :
  ready w pos v -> evals ∅ b args = Some vs -> Forall2 (reads es b read) (table_fn (session_vars [] [] v) (w_db w) f vs) xs ->
  session [] [] (fun pos => select_one pos (SelectFrom es f args) b read) w = (after pos v w (w_db w), Ret (head xs)).
Proof.
  intros Hr Ha Hf. destruct (reads_all _ _ _ _ _ Hf) as (outs & Ho & Hx).
  apply session_ready; [done|apply not_elem_of_nil|apply not_elem_of_nil|apply contained_one|]. intros u. unfold select_one, mbind, dao_bind.
  rewrite (sql_inside _ _ _ _ _ _ _ _ _ ltac:(eapply lookup_lt_Some, Hr) (select_from_law _ _ _ _ _ _ _ _ Ha Ho)).
  destruct Hx as [|out x outs xs Hx _]; [done|]. unfold lift. by rewrite Hx.
Qed.

(** ** Relations of persons to units *)

#[export] Instance relation_entity : Entity PersonOrgRelationDTO := {|
  e_table := "t_personorgrelation"; e_id := re_id; e_select := relation_columns; e_read := read_relation;
  e_with_id id r := mk_relation_dto id (re_person_id r) (re_org_unit_id r) (re_relationship r) (re_start_date r) (re_end_date r) (re_is_active r);
  e_columns r := ["person_id" ::= VInt (re_person_id r); "org_unit_id" ::= VInt (re_org_unit_id r); "relationship" ::= VText (re_relationship r);
    "start_date" ::= VDate (re_start_date r); "end_date" ::= nullable_date (re_end_date r); "is_active" ::= VBool (re_is_active r)];
  e_ok r := parse_date (re_start_date r) = Some (re_start_date r) /\ date_text (re_end_date r) = Some (re_end_date r) |}.

Lemma eval_label_text (r : row) b c s : r !! c = Some (VText s) -> eval r b (Cast (Col c) TText) = Some (VText s).
Proof. simpl. by intros ->. Qed.

Lemma eval_own_date (r : row) b n s d : lookup_bind b n = Some (VText s) -> parse_date s = Some d -> eval r b (Cast (Bind n) TDate) = Some (VDate d).
Proof. intros H1 H2. simpl. rewrite H1. simpl. by rewrite H2. Qed.

#[export] Instance relation_laws : EntityLaws PersonOrgRelationDTO.
Proof.
  split; [|done|done|done|by intros []]. intros o id r b Hsub Hid _.
  eexists. split.
  - repeat (eapply evals_cons; [first [eval_column Hsub Hid|apply eval_date_text; apply (stored _ _ _ _ Hsub); reflexivity
      |apply eval_label_text; apply (stored _ _ _ _ Hsub); reflexivity]|]); apply evals_nil.
  - cbn [e_read relation_entity]. unfold read_relation. by read_columns.
Qed.

Definition with_dates (r : PersonOrgRelationDTO) (start end_ : str) : PersonOrgRelationDTO :=
  mk_relation_dto (re_id r) (re_person_id r) (re_org_unit_id r) (re_relationship r) start end_ (re_is_active r).

(** The relations of persons to units, through [RoleDAO], are a finite map.  A relation whose kind is a label of
    the server's type, with a start date - the empty text is none - is stored under a fresh positive id with
    its dates in ISO form.  A person's relations are that person's, each once, in no earlier order of their
    start dates than the server's; the relations themselves do not change. *)
Theorem relation_table_refines_map w pos v (M : gmap Z PersonOrgRelationDTO) username (Hr : ready w pos v) (Hu : acceptable username)
    (HM : represents (w_db w) M) :
  (forall r a e, cast_named "relationship_type" (VText (re_relationship r)) = Some (VText (re_relationship r)) ->
     parse_date (re_start_date r) = Some a -> date_text (re_end_date r) = Some e ->
     fits (w_db w) "t_personorgrelation" None (e_columns (with_dates r a e)) ->
     exists d' id, insert_person_org_relation r username w = (after pos v w d', Ret id) /\ (0 < id)%Z /\ M !! id = None
       /\ represents d' (<[id := e_with_id id (with_dates r a e)]> M))
  /\ (forall pid, exists xs, relations_for_person pid w = (after pos v w (w_db w), Ret xs)
        /\ StronglySorted (fun x y => sql_le (VDate (re_start_date y)) (VDate (re_start_date x)) = true) xs
        /\ xs ≡ₚ filter (fun r => re_person_id r = pid) (snd <$> map_to_list M)).
Proof.
  split.
  - intros r a e Hk Ha He Hf. refine (insert_refines w pos v username relation_values _ M _ Hr Hu HM _ Hf _).
    + unfold relation_values. repeat (eapply assign_cons; [first
        [ eapply eval_date; [reflexivity|eassumption] | apply eval_flag; reflexivity | apply eval_bind; reflexivity | idtac ]|]);
      [exact Hk|by eapply eval_own_date|apply assign_nil].
    + split; [by apply date_canonical_law in Ha as [_ ?]|by eapply date_text_idemp].
  - intros pid. destruct (select_refines w pos v [] relations_of [use (VInt pid) "pid"] M (fun r => re_person_id r = pid)
      (fun x y => sql_le (VDate (re_start_date y)) (VDate (re_start_date x)) = true) Hr (not_elem_of_nil _) HM eq_refl eq_refl) as (xs & H1 & H2 & H3).
    + intros x r (Hx & _). apply key_condition; [|done]. by apply (stored _ _ _ _ Hx).
    + intros x y r s (Hx & _) (Hy & _). unfold ordered, column; cbn.
      rewrite (stored _ _ "start_date" (VDate (re_start_date x)) Hx eq_refl), (stored _ _ "start_date" (VDate (re_start_date y)) Hy eq_refl).
      cbn. by intros [? _]%andb_true_iff.
    + exists xs. split; [by apply H3|]. by split.
Qed.

(** ** Locales *)

(** A row of T_Locale, whose id is a SMALLINT. *)
Definition locale_row (l : LocaleDTO) (r : row) : Prop :=
  r !! "id"%string = Some (VInt (lc_id l)) /\ r !! "code"%string = Some (VText (lc_code l)) /\ r !! "is_default"%string = Some (VBool (lc_is_default l))
  /\ in_signed 16 (lc_id l) = true.

Lemma locale_row_reads b l r : locale_row l r -> reads locale_columns b read_locale r l.
Proof.
  intros (H1 & H2 & H3 & H4). exists [VInt (lc_id l); VText (lc_code l); VBool (lc_is_default l)]. split.
  - unfold evals, locale_columns. cbn. by rewrite H1, H2, H3.
  - unfold read_locale. read_columns. by destruct l.
Qed.

Lemma locale_row_default b l r : locale_row l r ->
  reads locale_columns b (fun r => id ← get_int16 r 0; code ← get get_string r 1; Ret (mk_locale id code true)) r (mk_locale (lc_id l) (lc_code l) true).
Proof.
  intros (H1 & H2 & H3 & H4). exists [VInt (lc_id l); VText (lc_code l); VBool (lc_is_default l)]. split.
  - unfold evals, locale_columns. cbn. by rewrite H1, H2, H3.
  - by read_columns.
Qed.

Lemma text_condition (r : row) b c n s k :
  r !! c = Some (VText s) -> lookup_bind b n = Some (VText k) -> holds_for b (Eq (Col c) (Bind n)) r <-> s = k.
Proof.
  intros H1 H2. unfold holds_for. simpl. rewrite H1, H2. split; [|intros ->; by rewrite bool_decide_eq_true_2].
  intros [= H%bool_decide_eq_true_1]. by injection H.
Qed.
Lemma flag_condition (r : row) b c x : r !! c = Some (VBool x) -> holds_for b (Eq (Col c) (Bool true)) r <-> x = true.
Proof. intros H. unfold holds_for. simpl. rewrite H. by destruct x. Qed.

(** The locales: [list_all] returns each locale once, by id; [find_by_code] one with the code, or none when there is
    none; [get_default] one that is marked as the default, or none.  Nothing changes in the database. *)
Theorem locale_queries w pos v (ls : list LocaleDTO) (code : str) (Hr : ready w pos v)
    (Hls : Forall2 locale_row ls (snd <$> map_to_list (rows (w_db w) "t_locale"))) :
  (exists xs, locale_list_all w = (after pos v w (w_db w), Ret xs) /\ xs ≡ₚ ls /\ StronglySorted (fun x y => lc_id x <= lc_id y)%Z xs)
  /\ (exists o, find_by_code code w = (after pos v w (w_db w), Ret o)
       /\ match o with Some l => l ∈ ls /\ lc_code l = code | None => forall l, l ∈ ls -> lc_code l <> code end)
  /\ (exists o, get_default w = (after pos v w (w_db w), Ret o)
       /\ match o with Some l => l ∈ ls /\ lc_is_default l = true | None => forall l, l ∈ ls -> lc_is_default l = false end).
Proof.
  assert (Hone : forall xs (P : LocaleDTO -> Prop) `{!forall x, Decision (P x)}, xs ≡ₚ filter P ls ->
    match head xs with Some l => l ∈ ls /\ P l | None => forall l, l ∈ ls -> ~ P l end).
  { intros [|x xs] P ? Hx; cbn.
    - intros l Hl HPl. apply Permutation_nil_l in Hx. assert (Hin : l ∈ filter P ls) by (by apply list_elem_of_filter).
      rewrite <- Hx in Hin. by apply not_elem_of_nil in Hin.
    - assert (Hin : x ∈ filter P ls) by (rewrite <- Hx; by left). apply list_elem_of_filter in Hin. tauto. }
  split; [|split].
  - destruct (select_all_rows locale_row [] (mk_query locale_columns "t_locale" Always [("id"%string, false)] None None) (fun _ => True)
      ltac:(intros; split; done) w pos v read_locale ls (fun x y => lc_id x <= lc_id y)%Z Hr eq_refl eq_refl Hls) as (xs & H1 & H2 & H3).
    + intros x r Hx. by apply locale_row_reads.
    + intros x y r s (Hx & _) (Hy & _). by apply ordered_by_id.
    + exists xs. split; [exact H3|]. split; [|exact H2]. etrans; [exact H1|]. clear. induction ls as [|l ls IH]; [done|].
      rewrite filter_cons_True by done. by constructor.
  - destruct (select_one_rows locale_row [use (VText code) "c"] (mk_query locale_columns "t_locale" (Eq (Col "code") (Bind "c")) [] None None)
      (fun l => lc_code l = code) ltac:(intros x r (_ & H & _); by apply text_condition) w pos v read_locale id ls Hr eq_refl
      ltac:(by left) Hls) as (xs & H1 & H2).
    + intros x r Hx. by apply locale_row_reads.
    + exists (head xs). rewrite option_fmap_id in H2. split; [exact H2|]. exact (Hone xs _ _ H1).
  - destruct (select_one_rows locale_row [] (mk_query locale_columns "t_locale" (Eq (Col "is_default") (Bool true)) [] (Some (Int 1)) None)
      (fun l => lc_is_default l = true) ltac:(intros x r (_ & _ & H & _); by apply flag_condition) w pos v
      (fun r => id ← get_int16 r 0; code ← get get_string r 1; Ret (mk_locale id code true))
      (fun l => mk_locale (lc_id l) (lc_code l) true) ls Hr eq_refl ltac:(by right) Hls) as (xs & H1 & H2).
    + intros x r Hx. by apply locale_row_default.
    + exists ((fun l => mk_locale (lc_id l) (lc_code l) true) <$> head xs). split; [exact H2|]. specialize (Hone xs _ _ H1).
      destruct (head xs) as [l|]; cbn.
      * destruct Hone as [Hin Hd]. split; [|done]. destruct l; cbn in *. by subst.
      * intros l Hl. specialize (Hone l Hl). by destruct (lc_is_default l).
Qed.

(** ** Functions of the server *)

(** The rows of fn_org_hierarchy, of the searches, and of fn_entity_timestamps. *)
Definition hierarchy_row (r : row) (h : OrgHierarchyDTO) : Prop :=
  list_to_map ["id" ::= VInt (hi_id h); "parent_id" ::= nullable_id (hi_parent_id h); "name" ::= VText (hi_name h);
    "org_type" ::= VText (hi_org_type h); "keywords" ::= nullable (hi_keywords h); "depth" ::= VInt (hi_depth h)] ⊆ r
  /\ in_signed 32 (hi_depth h) = true.
(** The rank is a double in the row and a float in the object. *)
Definition person_hit (r : row) (p : PersonSearchResultDTO) : Prop := exists rank,
  list_to_map ["id" ::= VInt (ps_id p); "first_name" ::= VText (ps_first_name p); "last_name" ::= VText (ps_last_name p);
    "keywords" ::= nullable (ps_keywords p); "rank" ::= VReal rank] ⊆ r /\ ps_rank p = to_float rank.
Definition org_hit (r : row) (o : OrgSearchResultDTO) : Prop := exists rank,
  list_to_map ["id" ::= VInt (os_id o); "name" ::= VText (os_name o); "org_type" ::= VText (os_org_type o);
    "keywords" ::= nullable (os_keywords o); "rank" ::= VReal rank] ⊆ r /\ os_rank o = to_float rank.
Definition contact_hit (r : row) (c : SearchResultDTO) : Prop := exists rank,
  list_to_map ["entity_type" ::= VText (se_entity_type c); "entity_id" ::= VInt (se_entity_id c); "display_name" ::= VText (se_display_name c);
    "keywords" ::= nullable (se_keywords c); "rank" ::= VReal rank] ⊆ r /\ se_rank c = to_float rank.
Definition timestamps_row (r : row) (t : EntityTimestampDTO) : Prop :=
  list_to_map ["created_at" ::= nullable (ts_created_at t); "created_by" ::= nullable (ts_created_by t);
    "updated_at" ::= nullable (ts_updated_at t); "updated_by" ::= nullable (ts_updated_by t)] ⊆ r.

Lemma eval_coalesce_text_cast (r : row) b c s : r !! c = Some (nullable s) -> eval r b (Coalesce (Cast (Col c) TText) (Text [])) = Some (VText s).
Proof. intros H. simpl. rewrite H. unfold nullable. destruct (decide (VText s = VText [])) as [[= ->]|E]; [done|]. cbn. by case_decide. Qed.

Ltac eval_row H := repeat (eapply evals_cons;
  [first [ apply eval_coalesce_id; apply (stored _ _ _ _ H); reflexivity | apply eval_coalesce_text_cast; apply (stored _ _ _ _ H); reflexivity
         | apply eval_coalesce_text; apply (stored _ _ _ _ H); reflexivity | apply eval_col; apply (stored _ _ _ _ H); reflexivity ]|]); apply evals_nil.

Lemma hierarchy_reads b r h : hierarchy_row r h ->
  reads [Col "id"; Coalesce (Col "parent_id") (Int 0); Col "name"; Col "org_type"; Coalesce (Col "keywords") (Text []); Col "depth"] b read_hierarchy r h.
Proof.
  intros [H Hd]. eexists. split; [eval_row H|]. unfold read_hierarchy. read_columns.
  rewrite get_int_law by done. by destruct h.
Qed.

Lemma Forall2_reads {T} (Q : row -> T -> Prop) es b (read : list sval -> outcome T) rs xs :
  (forall r x, Q r x -> reads es b read r x) -> Forall2 Q rs xs -> Forall2 (reads es b read) rs xs.
Proof. intros H Hf. by eapply Forall2_impl. Qed.

(** What a function of the server returns is read row by row, in its order.  The hierarchy is asked for in a
    session whose language is the one given, which the function can see; the searches get the text, the limit
    and the configuration as they are, in a session without a language or a user; an entity without a history has
    no timestamps. *)
Theorem function_queries w pos v (Hr : ready w pos v) :
  (forall locale hs, NULL_CHAR ∉ locale ->
     Forall2 hierarchy_row (table_fn (session_vars [] locale v) (w_db w) "fn_org_hierarchy" [VText locale]) hs ->
     org_hierarchy locale w = (after pos v w (w_db w), Ret hs))
  /\ (forall query limit config c, cast_named "regconfig" (VText config) = Some c ->
       (forall ps, Forall2 person_hit (table_fn (session_vars [] [] v) (w_db w) "fn_search_persons" [VText query; VInt limit; c]) ps ->
          search_persons query limit config w = (after pos v w (w_db w), Ret ps))
       /\ (forall os, Forall2 org_hit (table_fn (session_vars [] [] v) (w_db w) "fn_search_orgunits" [VText query; VInt limit; c]) os ->
          search_orgunits query limit config w = (after pos v w (w_db w), Ret os))
       /\ (forall cs, Forall2 contact_hit (table_fn (session_vars [] [] v) (w_db w) "fn_search_contacts" [VText query; VInt limit; c]) cs ->
          search_contacts query limit config w = (after pos v w (w_db w), Ret cs)))
  /\ (forall log_table id ts, Forall2 timestamps_row (table_fn (session_vars [] [] v) (w_db w) "fn_entity_timestamps" [VText log_table; VInt id]) ts ->
       entity_timestamps log_table id w = (after pos v w (w_db w), Ret (head ts))).
Proof.
  assert (Hargs : forall query limit config c, cast_named "regconfig" (VText config) = Some c ->
    evals ∅ (search_binds query config limit) search_args = Some [VText query; VInt limit; c]).
  { intros query limit config c Hc. repeat (eapply evals_cons; [first [apply eval_bind; reflexivity|exact Hc]|]). apply evals_nil. }
  split; [|split].
  - intros locale hs Hlo Hh. eapply (function_session w pos v locale); [done|done|reflexivity|].
    eapply Forall2_reads; [|exact Hh]. intros r h. apply hierarchy_reads.
  - intros query limit config c Hc. pose proof (Hargs query limit config c Hc) as Ha. split; [|split].
    + intros ps Hp. eapply (function_session w pos v []); [done|apply not_elem_of_nil|exact Ha|]. eapply Forall2_reads; [|exact Hp].
      intros r p (rank & H & He). eexists. split; [eval_row H|]. unfold get_rank. read_columns. rewrite <- He. by destruct p.
    + intros os Hp. eapply (function_session w pos v []); [done|apply not_elem_of_nil|exact Ha|]. eapply Forall2_reads; [|exact Hp].
      intros r p (rank & H & He). eexists. split; [eval_row H|]. unfold get_rank. read_columns. rewrite <- He. by destruct p.
    + intros cs Hp. eapply (function_session w pos v []); [done|apply not_elem_of_nil|exact Ha|]. eapply Forall2_reads; [|exact Hp].
      intros r p (rank & H & He). eexists. split; [eval_row H|]. unfold get_rank. read_columns. rewrite <- He. by destruct p.
  - intros log_table id ts Ht. eapply (function_one_session w pos v); [done|reflexivity|]. eapply Forall2_reads; [|exact Ht].
    intros r p H. eexists. split; [eval_row H|]. unfold read_timestamps. read_columns. by destruct p.
Qed.

(** ** Names in a language, and purging *)

(** The name of a unit or of a role in a language is stored in a new row with exactly the columns given, an empty
    description as NULL; a purge leaves what the server's function leaves and answers the number it answers. *)
Theorem localized_and_purge w pos v username (Hr : ready w pos v) (Hu : acceptable username) :
  (forall l, fits (w_db w) "t_localizedorgunit" None
       ["org_unit_id" ::= VInt (lo_org_unit_id l); "locale_id" ::= VInt (lo_locale_id l); "name" ::= VText (lo_name l)] ->
     exists d' id r, org_insert_localized l username w = (after pos v w d', Ret id) /\ (0 < id)%Z
       /\ rows (w_db w) "t_localizedorgunit" !! id = None /\ rows d' "t_localizedorgunit" = <[id := r]> (rows (w_db w) "t_localizedorgunit")
       /\ r !! "org_unit_id"%string = Some (VInt (lo_org_unit_id l)) /\ r !! "locale_id"%string = Some (VInt (lo_locale_id l))
       /\ r !! "name"%string = Some (VText (lo_name l)))
  /\ (forall l, fits (w_db w) "t_localizedrole" None
       ["role_id" ::= VInt (lr_role_id l); "locale_id" ::= VInt (lr_locale_id l); "name" ::= VText (lr_name l); "description" ::= nullable (lr_description l)] ->
     exists d' id r, insert_localized_role l username w = (after pos v w d', Ret id) /\ (0 < id)%Z
       /\ rows d' "t_localizedrole" = <[id := r]> (rows (w_db w) "t_localizedrole")
       /\ r !! "role_id"%string = Some (VInt (lr_role_id l)) /\ r !! "locale_id"%string = Some (VInt (lr_locale_id l))
       /\ r !! "name"%string = Some (VText (lr_name l)) /\ r !! "description"%string = Some (nullable (lr_description l)))
  /\ (forall table before c d' n, cast_named "timestamptz" (VText before) = Some c ->
     call_fn (session_vars [] [] v) (w_db w) "fn_purge_audit_log" [VText table; c] = (d', Ret (VInt n)) ->
     audit_purge table before w = (after pos v w d', Ret n)).
Proof.
  split; [|split].
  - intros l Hf. destruct (insert_session w pos v username "t_localizedorgunit"
      ["org_unit_id" ::= Bind "org_unit_id"; "locale_id" ::= Bind "locale_id"; "name" ::= Bind "name"]
      [use (VInt (lo_org_unit_id l)) "org_unit_id"; use (VInt (lo_locale_id l)) "locale_id"; use (VText (lo_name l)) "name"] _ Hr Hu
      ltac:(reflexivity) Hf) as (d' & id & r & He & Hid & Hn & Hd & Hsub).
    exists d', id, r. split; [exact He|]. split; [done|]. split; [done|]. split; [done|].
    split; [|split]; by apply (stored _ _ _ _ Hsub).
  - intros l Hf. destruct (insert_session w pos v username "t_localizedrole"
      ["role_id" ::= Bind "rid"; "locale_id" ::= Bind "lid"; "name" ::= Bind "name"; "description" ::= Nullif (Bind "desc") []]
      [use (VInt (lr_role_id l)) "rid"; use (VInt (lr_locale_id l)) "lid"; use (VText (lr_name l)) "name"; use (VText (lr_description l)) "desc"]
      _ Hr Hu ltac:(assign_columns) Hf) as (d' & id & r & He & Hid & Hn & Hd & Hsub).
    exists d', id, r. split; [exact He|]. split; [done|]. split; [done|].
    split; [|split; [|split]]; by apply (stored _ _ _ _ Hsub).
  - intros table before c d' n Hc Hcall. unfold audit_purge.
    assert (Ha : evals ∅ [use (VText table) "tbl"; use (VText before) "before"] [Bind "tbl"; Cast (Bind "before") (TNamed "timestamptz")] = Some [VText table; c]).
    { eapply evals_cons; [by apply eval_bind|]. eapply evals_cons; [exact Hc|apply evals_nil]. }
    pose proof (call_law (session_vars [] [] v) (w_db w) [use (VText table) "tbl"; use (VText before) "before"] "fn_purge_audit_log" _ _ Ha) as He.
    rewrite Hcall in He. cbn [fst snd mbind outcome_bind] in He. apply session_ready; [done|apply not_elem_of_nil|apply not_elem_of_nil| |].
    + apply contained_bind; [apply contained_sql|]. intros. apply contained_into.
    + intros u. unfold mbind, dao_bind. rewrite (sql_inside _ _ _ _ _ _ _ _ _ ltac:(eapply lookup_lt_Some, Hr) He).
      unfold into, lift. by rewrite get_long_law.
Qed.
End queries.

(** ** Examples *)
Definition brazil : row := {[ "code"%string := VText (W "pt_BR"); "is_default"%string := VBool true ]}.
Definition unit_row : row := {[ "parent_id"%string := VNull; "name"%string := VText (W "Sede"); "org_type"%string := VText (W "company");
  "keywords"%string := VNull; "depth"%string := VInt 0 ]}.
Definition one_locale : World (S := memory true) :=
  new_DbConnection (S := memory true) {[ "t_locale"%string := {[ 1%Z := brazil ]}; "fn_org_hierarchy"%string := {[ 7%Z := unit_row ]} ]} 2.

Lemma one_locale_ready : ready one_locale 0 ∅.
Proof. by repeat split. Qed.

Lemma locale_queries_witness :
  Forall2 locale_row [mk_locale 1 (W "pt_BR") true] (snd <$> map_to_list (rows (w_db one_locale) "t_locale"))
  /\ exists o, get_default (S := memory true) one_locale = (after 0 ∅ one_locale (w_db one_locale), Ret o).
Proof.
  assert (H : Forall2 locale_row [mk_locale 1 (W "pt_BR") true] (snd <$> map_to_list (rows (w_db one_locale) "t_locale"))).
  { vm_compute (snd <$> _). repeat constructor. }
  split; [exact H|].
  destruct (locale_queries (L := memory_laws) one_locale 0 ∅ _ (W "en") one_locale_ready H) as (_ & _ & o & Ho & _). exists o. exact Ho.
Defined.

Lemma function_queries_witness :
  NULL_CHAR ∉ W "pt_BR"
  /\ org_hierarchy (S := memory true) (W "pt_BR") one_locale
     = (after 0 ∅ one_locale (w_db one_locale), Ret [mk_org_hierarchy 7 0 (W "Sede") (W "company") [] 0]).
Proof.
  assert (Hn : NULL_CHAR ∉ W "pt_BR") by (apply (bool_decide_unpack _); vm_compute; exact Logic.I). split; [exact Hn|].
  apply (function_queries (L := memory_laws) one_locale 0 ∅ one_locale_ready); [exact Hn|].
  vm_compute (table_fn _ _ _ _). repeat constructor. apply (bool_decide_unpack _). vm_compute. exact Logic.I.
Defined.

Lemma relation_table_refines_map_witness :
  acceptable (W "admin") /\ exists xs, relations_for_person (S := memory true) 3 empty_world = (after 0 ∅ empty_world ∅, Ret xs).
Proof.
  assert (Hu : acceptable (W "admin")) by (apply (bool_decide_unpack _); vm_compute; exact Logic.I). split; [exact Hu|].
  destruct (relation_table_refines_map (L := memory_laws) empty_world 0 ∅ ∅ (W "admin") (conj eq_refl (conj eq_refl Logic.I)) Hu ltac:(intros id; exact Logic.I)) as [_ H].
  destruct (H 3%Z) as (xs & Hx & _). exists xs. exact Hx.
Defined.

Lemma localized_and_purge_witness :
  acceptable (W "admin") /\ audit_purge (S := memory true) (W "log_person") (W "2020-01-01") empty_world = (after 0 ∅ empty_world ∅, Ret 0%Z).
Proof.
  assert (Hu : acceptable (W "admin")) by (apply (bool_decide_unpack _); vm_compute; exact Logic.I). split; [exact Hu|].
  destruct (localized_and_purge (L := memory_laws) empty_world 0 ∅ (W "admin") (conj eq_refl (conj eq_refl Logic.I)) Hu) as (_ & _ & H).
  exact (H (W "log_person") (W "2020-01-01") _ ∅ 0%Z eq_refl eq_refl).
Defined.
