(* ===== verification/SchemaServer.v ===== *)
(** * The data layer over its own schema (contact/db/contact_ddl.sql, contact/data)

    [on_schema] is a server that holds the tables of the schema, with their triggers and functions, and takes from another server what
    is not in the schema: connections, SET, casts, dates, the driver.  It meets every law the theorems about the data layer ask for,
    so they hold of the program with its own schema; and its [fits] is what the schema asks of a row. *)
From stdpp Require Import gmap strings.
From S2P Require Import Prelude Sql Database Dao PersonDao OrgDao AuditDao Queries Schema Tables Changes Cascade Integrity History Hierarchy.

Section schema_server.
Context {B : Server} {LB : ServerLaws B} {P : Postgres} {LP : PostgresLaws P}.
(** A query given as text. *)
Variable text_query : vars -> contents -> str -> outcome (list (list sval)).

(** The type of the schema is known to the casts. *)
Definition schema_scalars : Scalars := {|
  parse_date := @parse_date (@server_scalars B); today := @today (@server_scalars B);
  cast_named n v := if decide (n = "relationship_type"%string)
                    then match v with VText s => if bool_decide (s ∈ relationship_type) then Some v else None | VNull => Some VNull | _ => None end
                    else @cast_named (@server_scalars B) n v;
  ilike := @ilike (@server_scalars B); sql_le := @sql_le (@server_scalars B) |}.
Context {OB : SqlOrder schema_scalars}.
#[local] Existing Instance schema_scalars | 0.

(** ** The functions that return tables *)

(** A row that has no columns: reading it is the error of a call that fails. *)
Definition failing : list row := [∅].
Definition by_rank (r s : row) : Prop := @sql_le schema_scalars (column "rank" s) (column "rank" r) = true.
#[local] Instance by_rank_dec r s : Decision (by_rank r s) := decide (@sql_le schema_scalars (column "rank" s) (column "rank" r) = true).
(** ORDER BY rank DESC LIMIT. *)
Definition best (limit : Z) (l : list row) : list row := if (limit <? 0)%Z then failing else take (Z.to_nat limit) (merge_sort by_rank l).
Definition found (config : sval) (query : str) (r : row) : Prop := ts_match (text_or_empty (column "search_vector" r)) config query = true.
#[local] Instance found_dec config query r : Decision (found config query r) := decide (ts_match (text_or_empty (column "search_vector" r)) config query = true).
Definition rank (config : sval) (query : str) (r : row) : sval := VReal (ts_rank (text_or_empty (column "search_vector" r)) config query).
(* src: contact/db/contact_ddl.sql:616-637 fn_search_persons *)
Definition fn_search_persons (d : contents) (query : str) (limit : Z) (config : sval) : list row :=
  best limit ((fun r => list_to_map ["id" ::= column "id" r; "first_name" ::= column "first_name" r; "last_name" ::= column "last_name" r;
      "keywords" ::= column "keywords" r; "rank" ::= rank config query r])
    <$> filter (found config query) (snd <$> map_to_list (table d "t_person"))).
(** The units with their name in the default language: with several default languages a unit is there several times. *)
Definition default_names (d : contents) (unit_id : sval) : list row :=
  filter (fun r => column "org_unit_id" r = unit_id /\ is_default_locale d (column "locale_id" r)) (snd <$> map_to_list (table d "t_localizedorgunit")).
(* src: contact/db/contact_ddl.sql:640-663 fn_search_orgunits *)
Definition fn_search_orgunits (d : contents) (query : str) (limit : Z) (config : sval) : list row :=
  best limit (filter (found config query) (snd <$> map_to_list (table d "t_orgunit")) ≫= fun r =>
    (fun loc => list_to_map ["id" ::= column "id" r; "name" ::= column "name" loc; "org_type" ::= column "org_type" r; "keywords" ::= column "keywords" r;
      "rank" ::= rank config query r]) <$> default_names d (column "id" r)).
Definition trim (s : str) : str :=
  let drop := drop_while (fun c => bool_decide (c = " "%char)) in reverse (drop (reverse (drop s))).
(* src: contact/db/contact_ddl.sql:666-700 fn_search_contacts *)
Definition fn_search_contacts (d : contents) (query : str) (limit : Z) (config : sval) : list row :=
  best limit (((fun r => list_to_map ["entity_type" ::= VText (W "Person"); "entity_id" ::= column "id" r;
        "display_name" ::= VText (trim (text_or_empty (column "first_name" r) ++ W " " ++ text_or_empty (column "last_name" r)));
        "keywords" ::= column "keywords" r; "rank" ::= rank config query r])
      <$> filter (found config query) (snd <$> map_to_list (table d "t_person")))
    ++ (filter (found config query) (snd <$> map_to_list (table d "t_orgunit")) ≫= fun r =>
      (fun loc => list_to_map ["entity_type" ::= VText (W "OrgUnit"); "entity_id" ::= column "id" r; "display_name" ::= column "name" loc;
        "keywords" ::= column "keywords" r; "rank" ::= rank config query r]) <$> default_names d (column "id" r))).

(** The rows of the hierarchy; the path, which the data layer does not read, is left out. *)
Definition hierarchy_of (t : org_node) : row :=
  list_to_map ["id" ::= VInt (node_id t); "parent_id" ::= node_parent t; "name" ::= node_name t; "org_type" ::= node_type t;
    "keywords" ::= node_keywords t; "depth" ::= VInt (node_depth t)].
Definition optional_text (v : sval) : option str := match v with VText s => Some s | _ => None end.
Definition json (o : option row) : sval := match o with Some r => VText (json_text r) | None => VNull end.
Definition log_row (p : str * log_entry) : row :=
  let x := snd p in
  list_to_map ["source_table" ::= VText (fst p); "log_id" ::= VInt (log_id x); "action" ::= VText [action x]; "action_by" ::= VText (action_by x);
    "action_at" ::= VText (timestamp_text (action_at x)); "old_data" ::= json (old_data x); "new_data" ::= json (new_data x)].
Definition stamp_columns (o : option (Z * str)) : sval * sval :=
  match o with Some (t, u) => (VText (timestamp_text t), VText u) | None => (VNull, VNull) end.
Definition schema_table_fn (v : vars) (d : contents) (f : String.string) (args : list sval) : list row :=
  if decide (f = "fn_search_persons"%string) then match args with [VText q; VInt l; c] => fn_search_persons d q l c | _ => failing end
  else if decide (f = "fn_search_orgunits"%string) then match args with [VText q; VInt l; c] => fn_search_orgunits d q l c | _ => failing end
  else if decide (f = "fn_search_contacts"%string) then match args with [VText q; VInt l; c] => fn_search_contacts d q l c | _ => failing end
  else if decide (f = "fn_org_hierarchy"%string) then
    match args with [VText code] => match fn_org_hierarchy d code with Some l => map hierarchy_of l | None => failing end | _ => failing end
  else if decide (f = "fn_search_all_audit_logs"%string) then
    match args with
    | [a; u; t1; t2; VInt l] => map log_row (fn_search_all_audit_logs d (optional_text a) (optional_text u) (timestamp_of t1) (timestamp_of t2) (Z.to_nat l))
    | _ => failing end
  else if decide (f = "fn_entity_timestamps"%string) then
    match args with
    | [VText log; VInt id] =>
        match fn_entity_timestamps d log id with
        | Some (c, u) => [list_to_map ["created_at" ::= fst (stamp_columns c); "created_by" ::= snd (stamp_columns c);
            "updated_at" ::= fst (stamp_columns u); "updated_by" ::= snd (stamp_columns u)]]
        | None => failing end
    | _ => failing end
  else failing.

(** ** The server *)

(** A database of the schema is consistent. *)
Definition database : Type := { d : contents | consistent d }.
Definition sql_error {A} : outcome A := Throw (RuntimeError (W "error")).
Definition step (v : vars) (s : stmt) (b : binds) (d : database) : database * outcome (list (list sval)) :=
  (exist _ (fst (execute v s b (proj1_sig d))) (proj1 (execute_spec v s b (proj1_sig d) (proj2_sig d))),
   match snd (execute v s b (proj1_sig d)) with Some out => Ret out | None => sql_error end).
Definition schema_rows (d : database) (t : String.string) : gmap Z row := table (proj1_sig d) t.

Lemma purge_consistent log t d : consistent d -> consistent (fst (fn_purge_audit_log log t d)).
Proof. intros H. unfold fn_purge_audit_log. by case_match. Qed.
Definition purge (log : str) (t : Z) (d : database) : database * outcome sval :=
  (exist _ (fst (fn_purge_audit_log log t (proj1_sig d))) (purge_consistent log t _ (proj2_sig d)),
   match snd (fn_purge_audit_log log t (proj1_sig d)) with Some n => Ret (VInt n) | None => sql_error end).
(** A purge up to an unknown time deletes nothing.  The materialized views are not part of the contents. *)
Definition schema_call_fn (v : vars) (d : database) (f : String.string) (args : list sval) : database * outcome sval :=
  if decide (f = "fn_purge_audit_log"%string) then
    match args with
    | [VText log; t] => match timestamp_of t with Some t => purge log t d | None => (d, Ret (VInt 0)) end
    | _ => (d, sql_error) end
  else if decide (f = "fn_refresh_locale_mvs"%string) then (d, Ret VNull)
  else (d, sql_error).

Definition absent (d : database) (t : String.string) (e : expr) (b : binds) : bool :=
  match eval (C := schema_scalars) ∅ b e with Some (VInt id) => bool_decide (schema_rows d t !! id = None) | _ => false end.
Definition schema_exec (v : vars) (d : database) (s : stmt) (b : binds) : database * outcome (list (list sval)) :=
  match s with
  | Insert _ _ => step v s b d
  | Update t _ e | Delete t e => if absent d t e b then (d, Ret []) else step v s b d
  | Select q =>
      let sel := merge_sort (ordered_rel (C := schema_scalars) (order_by q)) (matching (C := schema_scalars) (schema_rows d (from q)) b (where_ q)) in
      (d, of_option (l ← slice (C := schema_scalars) b q sel; mapM (fun r => evals (C := schema_scalars) r b (columns q)) l))
  | Count t c => (d, Ret [[VInt (Z.of_nat (length (matching (C := schema_scalars) (schema_rows d t) b c)))]])
  | SelectFrom es f args =>
      (d, of_option (vs ← evals (C := schema_scalars) ∅ b args; mapM (fun r => evals (C := schema_scalars) r b es) (schema_table_fn v (proj1_sig d) f vs)))
  | SelectText text => (d, text_query v (proj1_sig d) text)
  | CallFn f args =>
      match evals (C := schema_scalars) ∅ b args with
      | Some vs => let '(d, x) := schema_call_fn v d f vs in (d, x ← x; Ret [[x]])
      | None => (d, sql_error) end
  end.

Definition on_schema : Server := {|
  server_scalars := schema_scalars; db := database; rows := schema_rows; exec := schema_exec; configure := @configure B;
  fits d t id vs := match id with None => insertable (proj1_sig d) t vs | Some id => updatable (proj1_sig d) t id vs end;
  deletable d t id := is_Some (table_of t) /\ ~ refusable t;
  table_fn v d := schema_table_fn v (proj1_sig d); select_text v d := text_query v (proj1_sig d); call_fn := schema_call_fn;
  lease := @lease B; get_long := @get_long B; get_int := @get_int B; get_string := @get_string B; get_double := @get_double B; to_float := @to_float B |}.

(** ** The laws *)

Lemma session_user_stored : store_varchar 100 session_user = Some session_user.
Proof. apply store_varchar_short. pose proof (proj2 session_user_law). lia. Qed.

(** A session whose user fits is one the audit can name: the user of the session, or the session's role. *)
Lemma audit_user_fits v : user_fits v -> audit_user v = Some (current_user v).
Proof.
  intros Hv. unfold audit_user. assert (H : no_nul (current_user v) /\ store_varchar 100 (current_user v) = Some (current_user v)).
  { unfold current_user, user_fits in *. destruct (v !! APP_USER) as [[|c u]|] eqn:E.
    - split; [apply session_user_law|apply session_user_stored].
    - destruct Hv as [Hn Hl]. split; [done|by apply store_varchar_short].
    - split; [apply session_user_law|apply session_user_stored]. }
  destruct H as [Hn Hs]. cbn [store D_AuditUser]. unfold D_AuditUser, store. by rewrite bool_decide_eq_true_2, Hs by done.
Qed.

Lemma step_eq v s b d d' out : modify v s b (proj1_sig d) = (d', Some out) -> exists H, step v s b d = (exist _ d' H, Ret out).
Proof.
  intros Hm. unfold step. assert (E : execute v s b (proj1_sig d) = (d', Some out)) by (unfold execute, atomically; by rewrite Hm).
  generalize (proj1 (execute_spec v s b (proj1_sig d) (proj2_sig d))). rewrite E. cbn [fst snd]. intros H. by exists H.
Qed.

Lemma absent_true d t e b id : eval ∅ b e = Some (VInt id) -> schema_rows d t !! id = None -> absent d t e b = true.
Proof. intros He Hn. unfold absent. rewrite He. by apply bool_decide_eq_true_2. Qed.
Lemma absent_false d t e b id : eval ∅ b e = Some (VInt id) -> is_Some (schema_rows d t !! id) -> absent d t e b = false.
Proof. intros He [r Hr]. unfold absent. rewrite He. apply bool_decide_eq_false_2. congruence. Qed.

Lemma schema_insert_law v (d : database) b t sets vs :
  user_fits v -> assign b ∅ sets = Some vs -> insertable (proj1_sig d) t vs ->
  exists d' id r, schema_exec v d (Insert t sets) b = (d', Ret [[VInt id]]) /\ (0 < id)%Z /\ schema_rows d t !! id = None
    /\ schema_rows d' t = <[id := r]> (schema_rows d t) /\ list_to_map vs ⊆ r.
Proof.
  intros Hu Hvs Hf. destruct (insert_total v t sets b vs _ (proj2_sig d) ltac:(by rewrite audit_user_fits) Hvs Hf) as (d' & r & Hm & Htab & Hsub & _).
  destruct (step_eq v _ b d d' _ Hm) as [H Hs]. pose proof Hf as (_ & _ & _ & _ & _ & Hpos & Hfree & _). cbn [schema_exec]. rewrite Hs.
  exists (exist _ d' H), (next_key (proj1_sig d) t), r. by repeat split.
Qed.

Lemma schema_update_law v (d : database) b t sets e id r vs :
  user_fits v -> eval ∅ b e = Some (VInt id) -> schema_rows d t !! id = Some r -> assign b r sets = Some vs -> updatable (proj1_sig d) t id vs ->
  exists d' r', schema_exec v d (Update t sets e) b = (d', Ret [[VInt id]]) /\ schema_rows d' t = <[id := r']> (schema_rows d t) /\ list_to_map vs ⊆ r'.
Proof.
  intros Hu He Hr Hvs Hf. destruct (update_total v t sets b e id vs _ r (proj2_sig d) ltac:(by rewrite audit_user_fits) He Hr Hvs Hf) as (d' & r' & Hm & Htab & Hsub).
  destruct (step_eq v _ b d d' _ Hm) as [H Hs]. cbn [schema_exec]. rewrite (absent_false d t e b id He) by by eexists. rewrite Hs.
  exists (exist _ d' H), r'. by repeat split.
Qed.

Lemma schema_delete_law v (d : database) b t e id :
  user_fits v -> eval ∅ b e = Some (VInt id) -> is_Some (schema_rows d t !! id) -> is_Some (table_of t) /\ ~ refusable t ->
  exists d', schema_exec v d (Delete t e) b = (d', Ret [[VInt id]]) /\ schema_rows d' t !! id = None
    /\ (t <> self_referencing -> schema_rows d' t = delete id (schema_rows d t)).
Proof.
  intros Hu He [r Hr] [[def Ht] Hn].
  destruct (delete_total v t b e id _ def r (proj2_sig d) He Ht Hr ltac:(by rewrite audit_user_fits) Hn) as (d' & Hm & _ & _ & _ & _ & Hgone & Hrest & _).
  destruct (step_eq v _ b d d' _ Hm) as [H Hs]. cbn [schema_exec]. rewrite (absent_false d t e b id He) by by eexists. rewrite Hs.
  by exists (exist _ d' H).
Qed.

Lemma row_key r k : row_id r = Some k -> r !! "id"%string = Some (VInt k).
Proof. unfold row_id, column. destruct (r !! "id"%string) as [[| | | | |]|]; cbn; congruence. Qed.

#[export] Instance schema_laws : ServerLaws on_schema.
Proof.
  split; unfold on_schema; cbn [rows exec fits deletable configure lease server_scalars get_long get_int get_string get_double table_fn call_fn select_text db].
  - apply schema_insert_law.
  - apply schema_update_law.
  - intros v d b t sets e id He Hn. cbn [schema_exec]. by rewrite (absent_true d t e b id).
  - apply schema_delete_law.
  - intros v d b t e id He Hn. cbn [schema_exec]. by rewrite (absent_true d t e b id).
  - intros v d b q. exists (merge_sort (ordered_rel (order_by q)) (matching (schema_rows d (from q)) b (where_ q))).
    split; [apply merge_sort_Permutation|]. split; [exact (StronglySorted_merge_sort (ordered_rel (order_by q)) _)|].
    intros out Hout. cbn [schema_exec]. by rewrite Hout.
  - done.
  - intros v d b es f args vs out Hvs Hout. cbn [schema_exec]. rewrite Hvs. cbn [mbind option_bind]. by rewrite Hout.
  - done.
  - intros v d b f args vs Hvs. cbn [schema_exec]. rewrite Hvs. by destruct (schema_call_fn v d f vs).
  - intros d t id r Hr. apply row_key. exact (proj1 (proj1 (proj2_sig d)) _ _ _ Hr).
  - apply set_law.
  - apply reset_law.
  - apply lease_law.
  - exact (@date_canonical_law B LB).
  - exact (@today_law B LB).
  - apply get_long_law.
  - apply get_int_law.
  - apply get_int_bool_law.
  - apply get_string_law.
  - apply get_double_law.
  - exact (@sql_le_int_law B LB).
  - exact (@sql_le_bool_law B LB).
Qed.
End schema_server.
