(* ===== verification/SchemaDao.v ===== *)
(** * What the data layer does to its own schema (contact/data over contact/db/contact_ddl.sql)

    The data access objects, their sessions, the tables and the triggers together: a person that fits its columns is stored, read back and
    logged under the session's user; the hierarchy of units is complete in the language asked for; the search across all logs
    finds nothing. *)
From stdpp Require Import gmap strings.
From S2P Require Import Prelude Sql Database Dao PersonDao OrgDao AuditDao Queries Schema Tables Changes Cascade Integrity History Hierarchy SchemaServer.

Section over_schema.
Context {B : Server} {LB : ServerLaws B} {P : Postgres} {LP : PostgresLaws P} {OB : SqlOrder schema_scalars}.
Variable text_query : vars -> contents -> str -> outcome (list (list sval)).
Abbreviation SS := (on_schema text_query).
#[local] Existing Instance schema_scalars | 0.

(** The contents of a world's database. *)
Definition contents_of (w : World (S := SS)) : contents := proj1_sig (w_db w : database).

(** ** New rows *)

Lemma new_row_total def vs : Forall (fun c => is_Some (store (col_type c) (default (default_of c) (lookup_bind vs (col_name c))))) (t_columns def) ->
  is_Some (new_row def vs).
Proof.
  intros H. unfold new_row. apply fmap_is_Some. induction H as [|c cs [w Hw] _ [l IH]]; [by eexists|]. cbn. rewrite Hw. cbn. rewrite IH. by eexists.
Qed.
Lemma new_row_column t def vs r c : table_of t = Some def -> new_row def vs = Some r -> c ∈ t_columns def ->
  store (col_type c) (default (default_of c) (lookup_bind vs (col_name c))) = Some (column (col_name c) r).
Proof. intros Ht Hr Hc. destruct (new_row_lookup t def vs r c Ht Hr Hc) as (w & Hw & Hs). unfold column. by rewrite Hw. Qed.

Lemma defaults_stored t def c : table_of t = Some def -> c ∈ t_columns def -> is_Some (store (col_type c) (default_of c)).
Proof.
  intros Ht%table_of_elem%list_elem_of_In. cbn in Ht. intros Hc%list_elem_of_In.
  repeat (destruct Ht as [[= <- <-]|Ht]; [cbn in Hc; repeat (destruct Hc as [<-|Hc]; [by eexists|]); destruct Hc|]). destruct Ht.
Qed.

(** The sequence has not run into a key that is used, nor out of keys. *)
Definition key_ready (d : contents) (t : String.string) : Prop := (0 < next_key d t < 2 ^ 63)%Z /\ table d t !! next_key d t = None.

(** The column of a new row that is given, or has a default. *)
Definition given (vs : list (String.string * sval)) (c : column_def) (r : row) : Prop :=
  store (col_type c) (default (default_of c) (lookup_bind vs (col_name c))) = Some (column (col_name c) r).

Lemma given_column def vs c name v r : storable def vs -> find_column def name = Some c -> lookup_bind vs name = Some v -> given vs c r -> column name r = v.
Proof.
  intros (_ & _ & _ & Hvs) Hc Hl Hg. pose proof (find_column_Some _ _ _ Hc) as [_ Hn]. unfold given in Hg. rewrite Hn, Hl in Hg. cbn [default from_option] in Hg.
  assert (Hin : (name, v) ∈ vs).
  { clear -Hl. induction vs as [|[m w] vs IH]; [done|]. cbn in Hl. case_decide; [simplify_eq; by left|right; auto]. }
  rewrite Forall_forall in Hvs. destruct (Hvs _ Hin) as (c' & Hc' & Hs). cbn in Hc', Hs. unfold id in Hg. congruence.
Qed.

Lemma insertable_intro d t def vs :
  table_of t = Some def -> t_serial def = true -> find_column def "id" = Some (id_column CBigint) -> storable def vs -> key_ready d t ->
  (forall r, (forall c, c ∈ t_columns def -> col_name c <> "id"%string -> col_name c <> "search_vector"%string -> given vs c r) ->
     row_id r = Some (next_key d t) -> acceptable_row def (table d t) (next_key d t) r /\ Forall (refers d r) (t_columns def)) ->
  insertable d t vs.
Proof.
  intros Ht Hser Hkey Hst [[Hpos Hmax] Hfree] Hok. pose proof Hst as (Hd & Hid & _ & Hvs).
  assert (Hr : is_Some (new_row def (("id"%string, VInt (next_key d t)) :: vs))).
  { apply new_row_total, Forall_forall. intros c Hc. cbn [lookup_bind]. case_decide as E.
    - pose proof (find_column_own t def c Ht Hc) as H1. rewrite <- E, Hkey in H1. injection H1 as <-. exists (VInt (next_key d t)).
      cbn [default from_option id_column not_null col_type]. unfold id, store, in_signed. rewrite bool_decide_eq_true_2; [done|].
      change (2 ^ (64 - 1))%Z with (2 ^ 63)%Z. lia.
    - destruct (lookup_bind vs (col_name c)) as [v|] eqn:Hl; cbn [default from_option]; unfold id; [|by eapply defaults_stored].
      assert (Hin : (col_name c, v) ∈ vs).
      { clear -Hl. induction vs as [|[m w] vs IH]; [done|]. cbn in Hl. case_decide; [simplify_eq; by left|right; auto]. }
      rewrite Forall_forall in Hvs. destruct (Hvs _ Hin) as (c' & Hc' & Hs). cbn in Hc', Hs. rewrite (find_column_own t def c Ht Hc) in Hc'.
      injection Hc' as <-. by eexists. }
  destruct Hr as [r Hr]. exists def, r. repeat (split; [done|]). destruct (new_row_given t def vs _ r Ht Hst Hr) as [Hrid _].
  apply Hok.
  - intros c Hc Hne Hsv. unfold given. rewrite before_column by done. rewrite <- (new_row_column t def _ r c Ht Hr Hc). cbn [lookup_bind].
    by rewrite decide_False.
  - unfold row_id. by rewrite before_column.
Qed.

(** ** Persons *)

(** A text the column holds as it is. *)
Definition text_fits (n : nat) (s : str) : Prop := no_nul s /\ length (characters s) <= n.
Lemma store_text n s : text_fits n s -> store (CVarchar n) (VText s) = Some (VText s).
Proof. intros [Hn Hl]. unfold store, store_varchar. rewrite bool_decide_eq_true_2, (proj2 (Nat.leb_le _ _)) by done. done. Qed.
Lemma store_nullable n s : text_fits n s -> store (CVarchar n) (nullable s) = Some (nullable s).
Proof. intros H. unfold nullable. case_decide; [done|by apply store_text]. Qed.

(** What the table asks of a person. *)
Definition person_fits (d : contents) (p : PersonDTO) : Prop :=
  text_fits 50 (pe_first_name p) /\ text_fits 50 (pe_middle_name p) /\ text_fits 100 (pe_last_name p) /\ text_fits 20 (pe_federal_tax_id p)
  /\ text_fits 30 (pe_identification_number p) /\ text_fits 30 (pe_passport_number p) /\ no_nul (pe_keywords p)
  /\ (pe_passport_country p = [] \/ no_nul (pe_passport_country p) /\ length (characters (pe_passport_country p)) = 2)
  /\ (pe_federal_tax_id p = [] \/ map_Forall (fun _ r => column "federal_tax_id" r <> VText (pe_federal_tax_id p)) (table d "t_person")).

Lemma store_country s : s = [] \/ no_nul s /\ length (characters s) = 2 -> store (CChar 2) (nullable s) = Some (nullable s).
Proof.
  intros [->|[Hn Hl]]; [done|]. unfold nullable. case_decide; [done|]. unfold store, store_char, store_varchar. rewrite bool_decide_eq_true_2, Hl by done.
  cbn [Nat.leb mbind option_bind]. rewrite Hl. cbn. by rewrite app_nil_r.
Qed.
Lemma store_keywords s : no_nul s -> store CText (nullable s) = Some (nullable s).
Proof. intros Hn. unfold nullable. case_decide; [done|]. unfold store. by rewrite bool_decide_eq_true_2. Qed.
Lemma store_date d : store CDate (nullable_date d) = Some (nullable_date d).
Proof. unfold nullable_date. by case_decide. Qed.

Lemma person_insertable d (p : PersonDTO) : person_fits d p -> key_ready d "t_person" -> insertable d "t_person" (e_columns (S := SS) p).
Proof.
  intros (H1 & H2 & H3 & H4 & H5 & H6 & H7 & H8 & H9) [[Hpos Hmax] Hfree].
  assert (Hst : storable t_person (e_columns (S := SS) p)).
  { split; [by apply (bool_decide_unpack _)|]. split; [by apply (bool_decide_unpack _)|]. split; [by apply (bool_decide_unpack _)|].
    repeat (apply Forall_cons; split; [cbn [fst snd]; eexists; split; [reflexivity|];
      first [by apply store_text|by apply store_nullable|by apply store_country|by apply store_keywords|by apply store_date]|]). constructor. }
  apply (insertable_intro d "t_person" t_person); [done|done|done|done|done|]. intros r Hgiven Hid.
  assert (Hcol : forall name c v, find_column t_person name = Some c -> name <> "id"%string -> name <> "search_vector"%string ->
    lookup_bind (e_columns (S := SS) p) name = Some v -> column name r = v).
  { intros name c v Hc Hn1 Hn2 Hv. pose proof (find_column_Some _ _ _ Hc) as [Hin Hn]. eapply given_column; [exact Hst|exact Hc|exact Hv|].
    apply Hgiven; congruence. }
  assert (Hidc : column "id" r <> VNull) by (unfold row_id in Hid; by destruct (column "id" r)).
  split; [split; [split|]|].
  - repeat (apply Forall_cons; split; [cbn [col_not_null col_name id_column not_null nullable_col]; try discriminate; intros _|]); [exact Hidc| | |constructor].
    + by rewrite (Hcol "first_name"%string _ _ eq_refl ltac:(done) ltac:(done) eq_refl).
    + by rewrite (Hcol "last_name"%string _ _ eq_refl ltac:(done) ltac:(done) eq_refl).
  - constructor.
  - apply Forall_singleton. intros k s Hs. right. intros [[E Hne] _]%Forall_cons.
    rewrite (Hcol "federal_tax_id"%string _ _ eq_refl ltac:(done) ltac:(done) eq_refl) in E, Hne. unfold nullable in E, Hne.
    case_decide; [done|]. destruct H9 as [E9|H9]; [congruence|]. by apply (H9 k s Hs).
  - repeat (apply Forall_cons; split; [done|]). constructor.
Qed.

(** An INSERT of the data layer: the row, and its entry in the log. *)
Lemma schema_insert_session w pos v username t sets b vs :
  ready w pos v -> acceptable username -> assign b ∅ sets = Some vs -> insertable (contents_of w) t vs -> audited t = true ->
  exists (d' : database) id r x, session (S := SS) username [] (fun pos => insert_returning pos t sets b) w = (after pos v w d', Ret id)
    /\ table (proj1_sig d') t = <[id := r]> (table (contents_of w) t) /\ list_to_map vs ⊆ r /\ row_id r = Some id
    /\ log_of (proj1_sig d') (log_name t) = log_of (contents_of w) (log_name t) ++ [x]
    /\ creation_of (session_vars username [] v) (clock (contents_of w)) r x.
Proof.
  intros Hr Hu Hvs Hf Ha. pose proof (session_user_fits username [] v Hu (proj2 (proj2 Hr))) as Hfits. pose proof (audit_user_fits _ Hfits) as Hau.
  destruct (insert_total (session_vars username [] v) t sets b vs (contents_of w) (proj2_sig (w_db w : database)) ltac:(by rewrite Hau) Hvs Hf) as (d' & r & Hm & Htab & Hsub & Hlog).
  destruct (Hlog Ha) as (x & Hx & Hl). destruct (step_eq (session_vars username [] v) (Insert t sets) b (w_db w : database) d' _ Hm) as [H Hs].
  assert (He : @exec SS (session_vars username [] v) (w_db w) (Insert t sets) b = (exist _ d' H, Ret [[VInt (next_key (contents_of w) t)]])) by exact Hs.
  exists (exist _ d' H), (next_key (contents_of w) t), r, x. split; [|split; [done|split; [done|split; [|by split]]]].
  - apply session_ready; [done|apply Hu|apply not_elem_of_nil|apply contained_insert|].
    intros u. unfold insert_returning, mbind, dao_bind. rewrite (sql_inside (S := SS) _ _ _ _ _ _ _ _ _ ltac:(eapply lookup_lt_Some, Hr) He).
    unfold into, lift. by rewrite (get_long_law (ServerLaws := schema_laws text_query)).
  - apply (proj1 (proj1 H) t). by rewrite Htab, lookup_insert_eq.
Qed.

(** C8. The program over its own schema.  Adding a person whose texts fit their columns, whose tax id no one has, by a user whose name the
    audit can hold, succeeds: the row is stored with a new key, [find_by_id] gives the person back as it was,
    and the log of persons has one more entry: the creation of exactly this row, by this user, at the time of the transaction. *)
Theorem person_stored_and_logged (w : World (S := SS)) pos v p username
    (Hr : ready w pos v) (Hu : acceptable username) (Hne : username <> [])
    (H1 : date_text (S := SS) (pe_passport_expiry p) = Some (pe_passport_expiry p)) (H2 : date_text (S := SS) (pe_date_of_birth p) = Some (pe_date_of_birth p))
    (Hf : person_fits (contents_of w) p) (Hk : key_ready (contents_of w) "t_person") :
  exists (d' : database) id r x, person_insert p username w = (after pos v w d', Ret id)
    /\ person_find_by_id id (after pos v w d') = (after pos (delete APP_LOCALE (delete APP_USER v)) (after pos v w d') d', Ret (Some (e_with_id id p)))
    /\ log_of (proj1_sig d') (log_name "t_person") = log_of (contents_of w) (log_name "t_person") ++ [x]
    /\ action x = "C"%char /\ action_by x = username /\ action_at x = clock (contents_of w) /\ old_data x = None /\ new_data x = Some r
    /\ table (proj1_sig d') "t_person" = <[id := r]> (table (contents_of w) "t_person").
Proof.
  assert (Hwith : PersonDao.with_dates p (pe_passport_expiry p) (pe_date_of_birth p) = p) by (by destruct p).
  pose proof (proj1 (person_assign (S := SS) p _ _ ∅ H1 H2)) as Ha. rewrite Hwith in Ha.
  destruct (schema_insert_session w pos v username "t_person" person_values (person_binds p) _ Hr Hu Ha (person_insertable _ p Hf Hk) eq_refl)
    as (d' & id & r & x & He & Htab & Hsub & Hid & Hl & Hx1 & Hx2 & Hx3 & Hx4 & Hx5).
  exists d', id, r, x. split; [exact He|]. split; [|split; [exact Hl|]].
  - assert (Hrow : row_of (S := SS) (e_with_id id p) r).
    { split; [exact Hsub|]. split; [by apply row_key|]. by split. }
    destruct (row_of_reads (S := SS) _ _ [use (VInt id) "id"] Hrow) as (out & Ho & Hread).
    destruct (select_by_id (L := schema_laws text_query) (after pos v w d') pos _ person_columns "t_person" [use (VInt id) "id"] read_person id
      (ready_after _ _ _ _ Hr) eq_refl) as [_ Hfind].
    refine (Hfind r out (e_with_id id p) _ Ho Hread). change (table (proj1_sig d') "t_person" !! id = Some r). by rewrite Htab, lookup_insert_eq.
  - split; [done|]. split; [|by repeat split]. pose proof (audit_user_fits _ (session_user_fits username [] v Hu (proj2 (proj2 Hr)))) as Hau.
    rewrite Hau in Hx2. injection Hx2 as <-. unfold current_user, session_vars. rewrite (bool_decide_eq_true_2 ([] = [])), (bool_decide_eq_false_2 (username = [])) by done.
    rewrite lookup_insert_eq. by destruct username.
Qed.

(** C9. The schema keeps every promise the data layer relies on: inserts, updates and deletions that fit, with their audit, their search vectors
    and their cascades, do to the table of the statement what the data layer expects of a server, and so all that is proved
    of the data access objects holds over the program's own tables. *)
Theorem schema_meets_laws : ServerLaws SS.
Proof. exact (schema_laws text_query). Qed.

(** ** The hierarchy of units *)

(** What a row of the hierarchy becomes. *)
Definition node_dto (t : org_node) : OrgHierarchyDTO :=
  mk_org_hierarchy (node_id t) (default 0%Z (int_of (node_parent t))) (text_or_empty (node_name t)) (text_or_empty (node_type t))
    (text_or_empty (node_keywords t)) (node_depth t).

(** The texts of a consistent database are texts. *)
Lemma text_column d t def k r c n : consistent d -> table_of t = Some def -> table d t !! k = Some r -> c ∈ t_columns def ->
  col_type c = CVarchar n \/ col_type c = CText -> column (col_name c) r = VNull \/ exists s, column (col_name c) r = VText s.
Proof.
  intros [[_ Hok] _] Ht Hr Hc Hty. destruct (Hok t def k r Ht Hr) as [Htyped _]. unfold typed in Htyped. rewrite Forall_forall in Htyped.
  destruct (Htyped c Hc) as (v & Hv & Hs). unfold column. rewrite Hv. cbn. destruct Hty as [E|E]; rewrite E in Hs; destruct v; cbn in Hs; try done; eauto.
Qed.
Lemma not_null_column d t def k r c : consistent d -> table_of t = Some def -> table d t !! k = Some r -> c ∈ t_columns def ->
  col_not_null c = true -> column (col_name c) r <> VNull.
Proof.
  intros [[_ Hok] _] Ht Hr Hc Hn. destruct (Hok t def k r Ht Hr) as (_ & [Hsat _] & _). rewrite Forall_forall in Hsat. by apply Hsat.
Qed.

Lemma unit_columns d k r : consistent d -> table d "t_orgunit" !! k = Some r ->
  (exists s, column "org_type" r = VText s) /\ (column "keywords" r = VNull \/ exists s, column "keywords" r = VText s).
Proof.
  intros Hcon Hr.
  assert (Hin : forall c, List.In c (t_columns t_orgunit) -> c ∈ t_columns t_orgunit) by (intros c; apply list_elem_of_In).
  split.
  - assert (Hc : not_null "org_type" D_OrgType ∈ t_columns t_orgunit) by (apply Hin; cbn; tauto).
    pose proof (not_null_column d "t_orgunit" t_orgunit k r _ Hcon eq_refl Hr Hc eq_refl) as Hn.
    destruct (text_column d "t_orgunit" t_orgunit k r _ 20 Hcon eq_refl Hr Hc ltac:(by left)) as [E|E]; [done|exact E].
  - apply (text_column d "t_orgunit" t_orgunit k r (nullable_col "keywords" D_Keywords) 0 Hcon eq_refl Hr); [apply Hin; cbn; tauto|by right].
Qed.
Lemma name_column d k r : consistent d -> table d "t_localizedorgunit" !! k = Some r -> exists s, column "name" r = VText s.
Proof.
  intros Hcon Hr. assert (Hc : not_null "name" D_LongName ∈ t_columns t_localizedorgunit) by (apply list_elem_of_In; cbn; tauto).
  pose proof (not_null_column d "t_localizedorgunit" t_localizedorgunit k r _ Hcon eq_refl Hr Hc eq_refl) as Hn.
  destruct (text_column d "t_localizedorgunit" t_localizedorgunit k r _ 200 Hcon eq_refl Hr Hc ltac:(by left)) as [E|E]; [done|exact E].
Qed.

(** The parent of a row of the hierarchy is the unit before it in its path. *)
Lemma node_parent_path d code t : chain d code (node_path t) -> node_for d code (node_path t) t ->
  exists p, node_path t = p ++ [node_id t] /\ node_parent t = match last p with Some j => VInt j | None => VNull end.
Proof.
  intros Hc (_ & Hlast & _ & Hp & _). apply last_Some in Hlast as [p Hpath]. exists p. split; [done|]. rewrite Hpath in Hc.
  apply chain_inv in Hc as [_ [[-> E]|(q & j & -> & _ & E)]]; rewrite Hp, E; [done|by rewrite last_snoc].
Qed.

Lemma hierarchy_row_reads d code t b : consistent d -> (Z.of_nat (size (table d "t_orgunit")) < 2 ^ 31)%Z -> chain d code (node_path t) -> node_for d code (node_path t) t ->
  reads (S := SS) [Col "id"; Coalesce (Col "parent_id") (Int 0); Col "name"; Col "org_type"; Coalesce (Col "keywords") (Text []); Col "depth"] b
    (read_hierarchy (S := SS)) (hierarchy_of t) (node_dto t).
Proof.
  intros Hcon Hsize Hc Hfor. destruct (node_parent_path _ _ _ Hc Hfor) as (p & Hpath & Hparent).
  pose proof Hfor as (_ & Hlast & Hdepth & _ & Htype & Hkey & i & s & Hs & Hname).
  pose proof (chain_length _ _ _ Hc) as Hlen.
  assert (Hu : exists r, table d "t_orgunit" !! node_id t = Some r).
  { destruct (chain_named d code (node_path t) (node_id t) Hc) as [[r Hr] _]; [rewrite Hpath; apply elem_of_app; right; by left|by exists r]. }
  destruct Hu as [r Hr]. destruct (unit_columns d _ r Hcon Hr) as [[ty Ety] Ekw]. apply map_lookup_filter_Some in Hs as [Hs _].
  destruct (name_column d _ s Hcon Hs) as [nm Enm].
  assert (Eunit : unit_of d (node_id t) = r) by (unfold unit_of; by rewrite Hr). rewrite Eunit in *.
  assert (Hd : in_signed 32 (node_depth t) = true) by (unfold in_signed; apply bool_decide_eq_true_2; rewrite Hdepth; change (2 ^ (32 - 1))%Z with (2 ^ 31)%Z; lia).
  destruct t as [id par nam typ kw dep pth]. cbn [node_id node_parent node_name node_type node_keywords node_depth node_path] in *. subst nam typ kw. rewrite Enm, Ety, Hparent.
  assert (Hkw : exists kw, eval (C := schema_scalars) (list_to_map ["keywords" ::= column "keywords" r]) b (Coalesce (Col "keywords") (Text [])) = Some (VText kw)
     /\ text_or_empty (column "keywords" r) = kw) by (destruct Ekw as [-> |[kw ->]]; eexists; by split).
  assert (Hpar : exists z, eval (C := schema_scalars) (list_to_map ["parent_id" ::= match last p with Some j => VInt j | None => VNull end]) b (Coalesce (Col "parent_id") (Int 0)) = Some (VInt z)
     /\ default 0%Z (int_of (match last p with Some j => VInt j | None => VNull end)) = z) by (destruct (last p); eexists; by split).
  destruct Hkw as (kw & Hk1 & Hk2), Hpar as (z & Hz1 & Hz2). unfold node_dto. cbn [node_id node_parent node_name node_type node_keywords node_depth text_or_empty].
  rewrite Hk2, Hz2. exists [VInt id; VInt z; VText nm; VText ty; VText kw; VInt dep]. split.
  - repeat (eapply evals_cons; [first [reflexivity|exact Hk1|exact Hz1]|]). apply evals_nil.
  - unfold read_hierarchy. read_columns. by rewrite (get_int_law (ServerLaws := schema_laws text_query)).
Qed.


(** C10. [OrgDAO::hierarchy] over the program's schema always ends, cycles among the parents of units included.  It lists every unit that is reached
    from a root through units that have a name in the language, exactly once, level after level, with its depth and its parent (zero
    for a root); a unit without a name in the language, all units below it, and units whose ancestors form a cycle are left out. *)
Theorem hierarchy_complete (w : World (S := SS)) pos v locale (Hr : ready w pos v) (Hlo : NULL_CHAR ∉ locale)
    (Hsize : (Z.of_nat (size (table (contents_of w) "t_orgunit")) < 2 ^ 31)%Z) :
  exists hs, org_hierarchy locale w = (after pos v w (w_db w), Ret hs)
    /\ NoDup (map hi_id hs)
    /\ (forall k, k ∈ map hi_id hs <-> exists p, chain (contents_of w) locale (p ++ [k]))
    /\ (forall h, h ∈ hs -> exists p, chain (contents_of w) locale (p ++ [hi_id h])
          /\ hi_depth h = Z.of_nat (Datatypes.S (length p)) /\ hi_parent_id h = default 0%Z (last p))
    /\ StronglySorted (fun g h => (hi_depth g <= hi_depth h)%Z) hs.
Proof.
  set (d := contents_of w) in *. assert (Hcon : consistent d) by exact (proj2_sig (w_db w : database)).
  destruct (org_hierarchy_complete d locale Hcon) as (l & E & Hnd & Hmem & Hfor & Hs). exists (map node_dto l).
  assert (Hids : map hi_id (map node_dto l) = map node_id l) by (rewrite map_map; by apply map_ext).
  split; [|rewrite Hids; split; [done|split; [done|split]]].
  - eapply (function_session (L := schema_laws text_query) w pos v locale); [done|done|reflexivity|].
    change (table_fn (session_vars [] locale v) (w_db w) "fn_org_hierarchy" [VText locale])
      with (match fn_org_hierarchy d locale with Some l => map hierarchy_of l | None => failing end).
    rewrite E. assert (Hall : Forall (fun t => t ∈ l) l) by by apply Forall_forall. clear Hnd Hmem Hs E Hids. induction Hall as [|t l' Ht Hl' IH]; [constructor|].
    cbn [map]. constructor; [|exact IH]. destruct (Hfor t Ht) as [Hc Hn]. by apply (hierarchy_row_reads d locale).
  - intros h (t & <- & Ht%list_elem_of_In)%list_elem_of_In%in_map_iff. destruct (Hfor t Ht) as [Hc Hn].
    destruct (node_parent_path _ _ _ Hc Hn) as (p & Hp & Hpar). exists p. rewrite Hp in Hc. split; [exact Hc|].
    destruct Hn as (_ & _ & Hd & _). cbn. rewrite Hd, Hp, length_app, Hpar. split; [simpl; lia|]. by destruct (last p).
  - clear -Hs. induction Hs as [|t l _ IH Hall]; [constructor|]. cbn. constructor; [exact IH|]. apply List.Forall_forall.
    intros h (u & <- & Hu)%in_map_iff. rewrite List.Forall_forall in Hall. by apply Hall.
Qed.

(** ** The search across the logs *)

Lemma like_finds_nothing : filter (fun t => like (W "T_LOG_%") t = true) table_names = [].
Proof. vm_compute. reflexivity. Qed.

(** C38. [AuditDAO::search_all] never finds anything: the names of the tables are in lower case, as PostgreSQL folds them, and the function compares them with
    the capitals of 'T_LOG_%'.  Whatever the logs hold and whatever is asked for, the answer is empty; for the same reason the grants
    of the schema give the application's role no table. *)
Theorem search_all_finds_nothing (w : World (S := SS)) pos v act by_ from_ to_ limit a f t (Hr : ready w pos v)
    (Ha : cast (TNamed "char") (nullable act) = Some a) (Hf : cast (TNamed "timestamptz") (nullable from_) = Some f)
    (Ht : cast (TNamed "timestamptz") (nullable to_) = Some t) :
  audit_search_all act by_ from_ to_ limit w = (after pos v w (w_db w), Ret []) /\ granted_tables = [].
Proof.
  split; [|vm_compute; reflexivity].
  eapply (function_session (L := schema_laws text_query) w pos v []); [done|apply not_elem_of_nil| |].
  - eapply evals_cons; [exact Ha|]. eapply evals_cons; [reflexivity|]. eapply evals_cons; [exact Hf|]. eapply evals_cons; [exact Ht|].
    eapply evals_cons; [reflexivity|]. apply evals_nil.
  - change (table_fn ?u (w_db w) "fn_search_all_audit_logs" [a; ?b; f; t; VInt limit])
      with (map log_row (fn_search_all_audit_logs (contents_of w) (optional_text a) (optional_text b) (timestamp_of f) (timestamp_of t) (Z.to_nat limit))).
    unfold fn_search_all_audit_logs. rewrite like_finds_nothing. cbn. rewrite take_nil. constructor.
Qed.
End over_schema.

(** ** A world to run on: the installed schema on the memory server's connections *)

Definition plain_scalars : Scalars := schema_scalars (B := memory true).
#[local] Instance plain_order : SqlOrder plain_scalars.
Proof. split; [intros x y; apply lex_le_total|intros x y z; apply lex_le_trans]. Qed.
Definition plain_server : Server := on_schema (B := memory true) (P := plain_postgres) (fun _ _ _ => Ret []).
Lemma installed_consistent now : consistent (P := plain_postgres) (installed (C := plain_scalars) (P := plain_postgres) now).
Proof. apply (reachable_sound (C := plain_scalars) false), reach_installed. Qed.
Definition plain_world : World (S := plain_server) :=
  new_DbConnection (S := plain_server) (exist _ _ (installed_consistent 7)) 2.

Lemma plain_ready : ready (S := plain_server) plain_world 0 ∅.
Proof. repeat split. Qed.

Lemma person_stored_and_logged_witness :
  let p := mk_person_dto 0 (W "Ana") [] (W "Lima") [] [] [] [] [] (W "1990-02-03") (W "vip") in
  exists d' id r x, person_insert (S := plain_server) p (W "admin") plain_world = (after 0 ∅ plain_world d', Ret id)
    /\ log_of (proj1_sig d') (log_name "t_person") = log_of (contents_of (B := memory true) (P := plain_postgres) (fun _ _ _ => Ret []) plain_world) (log_name "t_person") ++ [x]
    /\ action_by x = W "admin" /\ new_data x = Some r.
Proof.
  intros p.
  destruct (person_stored_and_logged (B := memory true) (P := plain_postgres) (OB := plain_order) (fun _ _ _ => Ret []) plain_world 0 ∅ p (W "admin"))
    as (d' & id & r & x & He & _ & Hl & _ & Hby & _ & _ & Hnew & _).
  - exact plain_ready.
  - apply (bool_decide_unpack _). vm_compute. exact Logic.I.
  - discriminate.
  - reflexivity.
  - reflexivity.
  - apply (bool_decide_unpack _). vm_compute. exact Logic.I.
  - split; apply (bool_decide_unpack _); vm_compute; exact Logic.I.
  - exists d', id, r, x. split; [exact He|]. split; [exact Hl|]. exact (conj Hby Hnew).
Defined.

(** A company with a team below it, and two groups that are each other's parents, all with a name in Portuguese. *)
Definition add_unit (parent : expr) (org_type : String.string) : stmt := Insert "t_orgunit" [("parent_id"%string, parent); ("org_type"%string, Text (W org_type))].
Definition name_unit (unit_id : Z) (name : String.string) : stmt :=
  Insert "t_localizedorgunit" [("org_unit_id"%string, Int unit_id); ("locale_id"%string, Int 1); ("name"%string, Text (W name))].
Definition some_units : list stmt :=
  [add_unit Null "Company"; add_unit (Int 1) "Team"; add_unit Null "Group"; add_unit (Int 3) "Group"; Update "t_orgunit" [("parent_id"%string, Int 4)] (Int 3);
   name_unit 1 "Pensar"; name_unit 2 "Tools"; name_unit 3 "A"; name_unit 4 "B"]%string.
Definition with_units : contents := install (C := plain_scalars) (P := plain_postgres) some_units (installed (C := plain_scalars) (P := plain_postgres) 7).
Lemma with_units_consistent : consistent (P := plain_postgres) with_units.
Proof. apply (reachable_sound (C := plain_scalars) false). do 9 apply reach_statement. apply reach_installed. Qed.
Definition units_world : World (S := plain_server) := new_DbConnection (S := plain_server) (exist _ _ with_units_consistent) 2.

(** The groups are their own ancestors and are in no hierarchy. *)
Example hierarchy_of_units : map (fun t => (node_id t, node_depth t)) <$> fn_org_hierarchy with_units (W "pt-BR") = Some [(1, 1); (2, 2)]%Z.
Proof. vm_compute. reflexivity. Qed.
Example hierarchy_without_names : fn_org_hierarchy with_units (W "en-US") = Some [].
Proof. vm_compute. reflexivity. Qed.

Lemma hierarchy_complete_witness :
  exists hs, org_hierarchy (S := plain_server) (W "pt-BR") units_world = (after 0 ∅ units_world (w_db units_world), Ret hs) /\ NoDup (map hi_id hs).
Proof.
  destruct (hierarchy_complete (B := memory true) (P := plain_postgres) (OB := plain_order) (fun _ _ _ => Ret []) units_world 0 ∅ (W "pt-BR"))
    as (hs & He & Hn & _).
  - repeat split.
  - apply (bool_decide_unpack _). vm_compute. exact Logic.I.
  - vm_compute. reflexivity.
  - exists hs. exact (conj He Hn).
Defined.

Lemma search_all_finds_nothing_witness :
  audit_search_all (S := plain_server) (W "C") [] [] [] 10 plain_world = (after 0 ∅ plain_world (w_db plain_world), Ret []).
Proof.
  apply (search_all_finds_nothing (B := memory true) (P := plain_postgres) (OB := plain_order) (fun _ _ _ => Ret []) plain_world 0 ∅ (W "C") [] [] [] 10
    (VText (W "C")) VNull VNull); [exact plain_ready|reflexivity|reflexivity|reflexivity].
Defined.

Lemma schema_meets_laws_witness : ServerLaws plain_server.
Proof. exact (schema_meets_laws (B := memory true) (P := plain_postgres) (OB := plain_order) (fun _ _ _ => Ret [])). Defined.
