(* ===== verification/Person.v ===== *)
(** * Persons (contact/person.hpp)

    A person is an [Object] whose block of data holds five e-mail addresses, the name, the date of birth and
    five phone numbers, in that order and without padding. *)
From S2P Require Import Prelude CS Bytes Buffers Streams Objects Emails.

(* src: contact/person.hpp:32-35 MAX_FIRST_NAME, MAX_MIDDLE_NAME, MAX_LAST_NAME, MAX_NAME *)
Definition MAX_PART : nat := 20.
(* src: contact/person.hpp:35-35 MAX_NAME *)
Definition MAX_NAME : nat := 20 + 20 + 20 + 2.

(* src: contact/person.hpp:38-50 PersonName *)
Record PersonName := mk_name { mfirst : str; mmiddle : str; mlast : str }.

(* src: contact/person.hpp:49-50 PersonName::PersonName *)
Definition new_name (f m l : str) : outcome PersonName :=
  f ← cs_of_S 0 MAX_PART f; m ← cs_of_S 0 MAX_PART m; l ← cs_of_S 0 MAX_PART l; Ret (mk_name f m l).
(* src: contact/person.hpp:91-94 null_person_name *)
Definition null_person_name : outcome PersonName := new_name [] [] [].

(** [mmiddle + mlast] is [S + CS]: the member [operator+] is not const; the conditional makes a C string of
    either operand. *)
(* src: contact/person.hpp:52-57 PersonName::name *)
Definition name_of (n : PersonName) : outcome str :=
  f ← cs_str (mfirst n);
  e ← cs_empty (mmiddle n);
  t ← (if e : bool then cs_str (mlast n) else m ← cs_str (mmiddle n); r ← S_plus_cs MAX_PART m (mlast n); cs_str r);
  cs_of_S 0 MAX_NAME (f ++ [SPACE] ++ t).

Section name.
Context {I : Icu}.
(* src: contact/person.hpp:59-62 PersonName::operator== *)
Definition name_eq (a b : PersonName) : outcome bool :=
  f ← cs_eq false false (mfirst a) (mfirst b);
  if negb f then Ret false else
  m ← cs_eq false false (mmiddle a) (mmiddle b);
  if negb m then Ret false else cs_eq false false (mlast a) (mlast b).
(* src: contact/person.hpp:64-67 PersonName::operator== *)
Definition name_eq_S (a : PersonName) (other : str) : outcome bool :=
  n ← name_of a; o ← cs_of_S 0 MAX_NAME other; cs_eq false false n o.
End name.

(* src: contact/person.hpp:69-75 PersonName::write *)
Definition name_write (os : str) (n : PersonName) : outcome str :=
  os ← cs_write (mfirst n) os;
  e ← cs_empty (mmiddle n);
  os ← (if negb e then os ← cs_write (mmiddle n) (os ++ [SPACE]); Ret (os ++ [SPACE]) else Ret (os ++ [SPACE]));
  cs_write (mlast n) os.
(** [is >> part]: the word read, or an empty one when the stream has failed. *)
(* src: cpp/src/cs.hpp:395-401 CS::read *)
Definition part_read (i : istream) : outcome (istream * str) :=
  let '(i, s) := extract_word i [] in d ← cs_of_S 0 MAX_PART s; Ret (i, d).
(* src: contact/person.hpp:77-87 PersonName::read *)
Definition name_read (i : istream) (n : PersonName) : outcome (istream * PersonName) :=
  '(i, f) ← part_read i;
  let i := if peek_is SPACE i then ignore i else i in
  '(i, m) ← (if negb (peek_is SPACE i) then part_read i else Ret (i, mmiddle n));
  let i := if peek_is SPACE i then ignore i else i in
  '(i, l) ← part_read i;
  Ret (i, mk_name f m l).

(** ** The block of data *)
(** A date is a year of two bytes, a month and a day. *)
(* src: cpp/src/date.hpp:15-23 Date *)
Record Date := mk_date { year : Z; month : byte; day : byte }.
(* src: cpp/src/date.hpp:25-25 NULL_DATE *)
Definition NULL_DATE : Date := mk_date 0 (byte_of_Z 0) (byte_of_Z 0).

Section data.
Context (native : endian).

(** The members memail1 to memail5 and mphone1 to mphone5 are lists of five. *)
(* src: contact/person.hpp:118-136 Person::Data *)
Record PersonData := mk_data { memail : list Email; mname : PersonName; mdate_of_birth : Date; mphone : list PhoneNumber; reserved : byte }.

(* src: contact/contact.hpp:16-16 ContactQualifier *)
Definition qualifier_byte (q : ContactQualifier) : byte := match q with Business => byte_of_Z 0 | Personal => byte_of_Z 1 | Other => byte_of_Z 2 end.
Definition qualifier_of (b : byte) : ContactQualifier :=
  if decide (b = byte_of_Z 0) then Business else if decide (b = byte_of_Z 1) then Personal else Other.
(* src: contact/e-mail.hpp:103-109 Email *)
Definition email_bytes (e : Email) : list byte := mlocal_part e ++ mdomain e ++ [qualifier_byte (mqualifier e)].
Definition email_of_bytes (bs : list byte) : Email :=
  mk_Email (take 64 bs) (take 255 (drop 64 bs)) (qualifier_of (List.hd NULL_CHAR (drop 319 bs))).
(* src: contact/phone.hpp:20-29 PhoneNumber *)
Definition phone_bytes (p : PhoneNumber) : list byte := mcountry_code p ++ mareacode p ++ mnumber p ++ [qualifier_byte (mpqualifier p)].
Definition phone_of_bytes (bs : list byte) : PhoneNumber :=
  mk_Phone (take 4 bs) (take 5 (drop 4 bs)) (take 11 (drop 9 bs)) (qualifier_of (List.hd NULL_CHAR (drop 20 bs))).
(* src: cpp/src/date.hpp:15-23 Date *)
Definition date_bytes (d : Date) : list byte := int_bytes native 2 (year d) ++ [month d; day d].
Definition date_of_bytes (bs : list byte) : Date :=
  mk_date (int_of_bytes native (take 2 bs)) (List.hd NULL_CHAR (drop 2 bs)) (List.hd NULL_CHAR (drop 3 bs)).
(* src: contact/person.hpp:41-47 PersonName *)
Definition name_bytes (n : PersonName) : list byte := mfirst n ++ mmiddle n ++ mlast n.
Definition name_of_bytes (bs : list byte) : PersonName := mk_name (take 20 bs) (take 20 (drop 20 bs)) (take 20 (drop 40 bs)).

(** [n] consecutive members of [w] bytes. *)
Fixpoint chunks (n w : nat) (bs : list byte) : list (list byte) :=
  match n with O => [] | S n => take w bs :: chunks n w (drop w bs) end.

(* src: contact/person.hpp:118-132 Person::Data *)
Definition person_bytes (d : PersonData) : list byte :=
  concat (email_bytes <$> memail d) ++ name_bytes (mname d) ++ date_bytes (mdate_of_birth d) ++ concat (phone_bytes <$> mphone d) ++ [reserved d].
Definition person_of_bytes (bs : list byte) : PersonData :=
  mk_data (email_of_bytes <$> chunks 5 320 bs) (name_of_bytes (take 60 (drop 1600 bs))) (date_of_bytes (take 4 (drop 1660 bs)))
    (phone_of_bytes <$> chunks 5 21 (drop 1664 bs)) (List.hd NULL_CHAR (drop 1769 bs)).

(** ** Person *)
(* src: contact/person.hpp:110-148 Person *)
Record Person := mk_person { p_id : Z; p_data : PersonData }.
(* src: contact/person.hpp:148-148 Person::INFO *)
Definition PERSON_INFO : ClassInfo := default blank_info (match class_info CPPLIB_NAMESPACE (W "Person") 1 1 1 with Ret i => Some i | _ => None end).
(* src: contact/person.hpp:151-159 Person::data, Person::data_size *)
Definition person_obj (p : Person) : obj := mk_obj (p_id p) (Some (person_bytes (p_data p))).
Definition obj_person (o : obj) : Person := mk_person (mid o) (person_of_bytes (default [] (mdata o))).

(** The identifier comes from the class's generator when none is given. *)
(* src: contact/person.hpp:163-164 Person::Person *)
Definition new_Person (d : PersonData) (id : Z) (generator : Generator) : outcome (Generator * Person) :=
  if (id =? NULL_ID)%Z then '(g, i) ← get_id generator; Ret (g, mk_person i d) else Ret (generator, mk_person id d).
(* src: contact/person.hpp:168-174 Person::write *)
Definition person_write (p : Person) (bb : BinaryBuffer) : BinaryBuffer := derived_write native OBJECT_INFO PERSON_INFO (person_obj p) bb.
(* src: contact/person.hpp:176-187 Person::read *)
Definition person_read (p : Person) (bb : BinaryBuffer) : BinaryBuffer * Person :=
  let '(bb, o) := derived_read native OBJECT_INFO PERSON_INFO (person_obj p) bb in (bb, obj_person o).
(* src: contact/person.hpp:193-197 Person::set_phone1, Person::set_phone2, Person::set_phone3, Person::set_phone4, Person::set_phone5 *)
Definition set_phone (k : nat) (phone : PhoneNumber) (p : Person) : Person :=
  let d := p_data p in mk_person (p_id p) (mk_data (memail d) (mname d) (mdate_of_birth d) (<[k := phone]> (mphone d)) (reserved d)).
(* src: contact/person.hpp:199-203 Person::set_email1, Person::set_email2, Person::set_email3, Person::set_email4, Person::set_email5 *)
Definition set_email (k : nat) (email : Email) (p : Person) : Person :=
  let d := p_data p in mk_person (p_id p) (mk_data (<[k := email]> (memail d)) (mname d) (mdate_of_birth d) (mphone d) (reserved d)).
(* src: contact/person.hpp:211-215 Person::email1, Person::email2, Person::email3, Person::email4, Person::email5 *)
Definition get_email (k : nat) (p : Person) : option Email := memail (p_data p) !! k.
(* src: contact/person.hpp:205-209 Person::phone1, Person::phone2, Person::phone3, Person::phone4, Person::phone5 *)
Definition get_phone (k : nat) (p : Person) : option PhoneNumber := mphone (p_data p) !! k.
(** The ids are not compared. *)
(* src: contact/person.hpp:219-225 Person::equals *)
Definition person_equals (a b : Person) : bool := bool_decide (person_bytes (p_data a) = person_bytes (p_data b)).
(** The implicit copy constructor: [Object]'s, then the block. *)
Definition person_copy (p : Person) : outcome Person := obj_person <$> obj_copy native (person_obj p).
(* src: contact/person.hpp:97-100 operator<< *)
Definition name_out (os : str) (n : PersonName) : outcome str := name_write os n.
(* src: contact/person.hpp:102-105 operator>> *)
Definition name_in (i : istream) (n : PersonName) : outcome (istream * PersonName) := name_read i n.
(* src: contact/person.hpp:229-230 Person::read, Person::write *)
Definition person_write_text (os : str) (p : Person) : outcome str := name_write (os ++ decimal (p_id p)) (mname (p_data p)).
(* src: contact/person.hpp:229-229 Person::read *)
Definition person_read_text (i : istream) (p : Person) : outcome (istream * Person) :=
  let '(i, id) := extract_int 64 i (p_id p) in
  let d := p_data p in
  '(i, n) ← name_read i (mname d);
  Ret (i, mk_person id (mk_data (memail d) n (mdate_of_birth d) (mphone d) (reserved d))).
(* src: contact/person.hpp:236-239 operator>> *)
Definition person_in (i : istream) (p : Person) : outcome (istream * Person) := person_read_text i p.
(* src: contact/person.hpp:241-244 operator<< *)
Definition person_out (os : str) (p : Person) : outcome str := person_write_text os p.

(** The members have their declared sizes. *)
Definition email_sized (e : Email) : Prop := length (mlocal_part e) = 64 /\ length (mdomain e) = 255.
Definition phone_sized (p : PhoneNumber) : Prop := length (mcountry_code p) = 4 /\ length (mareacode p) = 5 /\ length (mnumber p) = 11.
Definition name_sized (n : PersonName) : Prop := length (mfirst n) = 20 /\ length (mmiddle n) = 20 /\ length (mlast n) = 20.
Definition data_sized (d : PersonData) : Prop :=
  length (memail d) = 5 /\ Forall email_sized (memail d) /\ name_sized (mname d) /\ in_signed 16 (year (mdate_of_birth d)) = true
  /\ length (mphone d) = 5 /\ Forall phone_sized (mphone d).
Definition person_ok (p : Person) : Prop := in_signed 64 (p_id p) = true /\ data_sized (p_data p).
End data.

(** ** Facts *)
Section facts.
Context (native : endian).

Lemma qualifier_roundtrip q : qualifier_of (qualifier_byte q) = q.
Proof. by destruct q. Qed.

Lemma email_bytes_length e : email_sized e -> length (email_bytes e) = 320.
Proof. intros [H1 H2]. unfold email_bytes. rewrite !length_app, H1, H2. done. Qed.
Lemma email_roundtrip_bytes e : email_sized e -> email_of_bytes (email_bytes e) = e.
Proof.
  intros [H1 H2]. destruct e as [l d q]; simpl in *. unfold email_of_bytes, email_bytes; cbn [mlocal_part mdomain mqualifier].
  rewrite take_app_length' by done. rewrite drop_app_length' by done. rewrite take_app_length' by done.
  replace (drop 319 (l ++ d ++ [qualifier_byte q])) with [qualifier_byte q]; [by rewrite <- (qualifier_roundtrip q) at 2|].
  rewrite app_assoc, drop_app_length'; [done|]. by rewrite length_app, H1, H2.
Qed.

Lemma phone_bytes_length p : phone_sized p -> length (phone_bytes p) = 21.
Proof. intros (H1 & H2 & H3). unfold phone_bytes. by rewrite !length_app, H1, H2, H3. Qed.
Lemma phone_roundtrip_bytes p : phone_sized p -> phone_of_bytes (phone_bytes p) = p.
Proof.
  intros (H1 & H2 & H3). destruct p as [c a n q]; simpl in *. unfold phone_of_bytes, phone_bytes; cbn [mcountry_code mareacode mnumber mpqualifier].
  rewrite take_app_length', drop_app_length' by done. rewrite take_app_length' by done.
  replace (drop 9 (c ++ a ++ n ++ [qualifier_byte q])) with (n ++ [qualifier_byte q]) by (rewrite app_assoc, drop_app_length'; [done|by rewrite length_app, H1, H2]).
  rewrite take_app_length' by done.
  replace (drop 20 (c ++ a ++ n ++ [qualifier_byte q])) with [qualifier_byte q]; [by rewrite <- (qualifier_roundtrip q) at 2|].
  rewrite !app_assoc, drop_app_length'; [done|]. by rewrite !length_app, H1, H2, H3.
Qed.

Lemma name_bytes_length n : name_sized n -> length (name_bytes n) = 60.
Proof. intros (H1 & H2 & H3). unfold name_bytes. by rewrite !length_app, H1, H2, H3. Qed.
Lemma name_roundtrip_bytes n : name_sized n -> name_of_bytes (name_bytes n) = n.
Proof.
  intros (H1 & H2 & H3). destruct n as [f m l]; simpl in *. unfold name_of_bytes, name_bytes; cbn [mfirst mmiddle mlast].
  rewrite take_app_length', drop_app_length' by done. rewrite take_app_length' by done.
  rewrite app_assoc, drop_app_length' by by rewrite length_app, H1, H2. by rewrite take_ge by lia.
Qed.

Lemma date_bytes_length d : length (date_bytes native d) = 4.
Proof. unfold date_bytes. by rewrite length_app, int_bytes_length. Qed.
Lemma date_roundtrip_bytes d : in_signed 16 (year d) = true -> date_of_bytes native (date_bytes native d) = d.
Proof.
  intros H. destruct d as [y m dd]; simpl in *. unfold date_of_bytes, date_bytes; cbn [year month day].
  rewrite take_app_length', drop_app_length' by by rewrite int_bytes_length.
  rewrite (int_of_int_bytes native 2) by (lia || done). f_equal.
  change 3 with (2 + 1). rewrite <- drop_drop, drop_app_length' by by rewrite int_bytes_length. done.
Qed.

Lemma chunks_concat (w : nat) (ls : list (list byte)) rest :
  Forall (fun l => length l = w) ls -> chunks (length ls) w (concat ls ++ rest) = ls.
Proof.
  induction 1 as [|l ls Hl _ IH]; [done|]. simpl. rewrite <- app_assoc, take_app_length', drop_app_length' by done. by rewrite IH.
Qed.
Lemma concat_length (w : nat) (ls : list (list byte)) : Forall (fun l => length l = w) ls -> length (concat ls) = length ls * w.
Proof. induction 1 as [|l ls Hl _ IH]; [done|]. simpl. by rewrite length_app, Hl, IH. Qed.

Lemma emails_sized d : data_sized d -> Forall (fun l => length l = 320) (email_bytes <$> memail d) /\ length (email_bytes <$> memail d) = 5.
Proof. intros (H & He & _). rewrite length_fmap. split; [|done]. apply Forall_fmap. eapply Forall_impl; [done|]. apply email_bytes_length. Qed.
Lemma phones_sized d : data_sized d -> Forall (fun l => length l = 21) (phone_bytes <$> mphone d) /\ length (phone_bytes <$> mphone d) = 5.
Proof. intros (_ & _ & _ & _ & H & He). rewrite length_fmap. split; [|done]. apply Forall_fmap. eapply Forall_impl; [done|]. apply phone_bytes_length. Qed.

Lemma person_bytes_length d : data_sized d -> length (person_bytes native d) = 1770.
Proof.
  intros H. destruct (emails_sized d H) as [E1 E2], (phones_sized d H) as [P1 P2]. destruct H as (_ & _ & Hn & _).
  unfold person_bytes. rewrite !length_app, (concat_length 320), (concat_length 21), E2, P2, name_bytes_length, date_bytes_length by done. done.
Qed.

Lemma fmap_inverse {A B} (f : A -> B) (g : B -> A) (P : A -> Prop) l : (forall x, P x -> g (f x) = x) -> Forall P l -> g <$> (f <$> l) = l.
Proof. intros H. induction 1 as [|x l Hx _ IH]; [done|]. rewrite !fmap_cons. by rewrite (H x Hx), IH. Qed.

Lemma person_data_roundtrip d : data_sized d -> person_of_bytes native (person_bytes native d) = d.
Proof.
  intros H. destruct (emails_sized d H) as [E1 E2], (phones_sized d H) as [P1 P2]. destruct H as (He & He' & Hn & Hy & Hp & Hp').
  pose proof (concat_length 320 _ E1) as LE. rewrite E2 in LE. pose proof (concat_length 21 _ P1) as LP. rewrite P2 in LP.
  unfold person_of_bytes, person_bytes. set (E := concat (email_bytes <$> memail d)) in *. set (P := concat (phone_bytes <$> mphone d)) in *.
  assert (D1 : drop 1600 (E ++ name_bytes (mname d) ++ date_bytes native (mdate_of_birth d) ++ P ++ [reserved d])
             = name_bytes (mname d) ++ date_bytes native (mdate_of_birth d) ++ P ++ [reserved d]) by (apply drop_app_length'; by rewrite LE).
  assert (D2 : drop 1660 (E ++ name_bytes (mname d) ++ date_bytes native (mdate_of_birth d) ++ P ++ [reserved d])
             = date_bytes native (mdate_of_birth d) ++ P ++ [reserved d]).
  { change 1660 with (1600 + 60). rewrite <- drop_drop, D1. apply drop_app_length'. by rewrite name_bytes_length. }
  assert (D3 : drop 1664 (E ++ name_bytes (mname d) ++ date_bytes native (mdate_of_birth d) ++ P ++ [reserved d]) = P ++ [reserved d]).
  { change 1664 with (1660 + 4). rewrite <- drop_drop, D2. apply drop_app_length'. by rewrite date_bytes_length. }
  assert (D4 : drop 1769 (E ++ name_bytes (mname d) ++ date_bytes native (mdate_of_birth d) ++ P ++ [reserved d]) = [reserved d]).
  { change 1769 with (1664 + 105). rewrite <- drop_drop, D3. apply drop_app_length'. by rewrite LP. }
  rewrite D1, D2, D3, D4. rewrite !take_app_length' by (by rewrite ?name_bytes_length, ?date_bytes_length).
  pose proof (fun rest => chunks_concat 320 (email_bytes <$> memail d) rest E1) as C1. rewrite E2 in C1.
  pose proof (fun rest => chunks_concat 21 (phone_bytes <$> mphone d) rest P1) as C2. rewrite P2 in C2.
  unfold E, P. rewrite C1, C2.
  rewrite name_roundtrip_bytes, date_roundtrip_bytes by done.
  rewrite (fmap_inverse _ _ _ _ email_roundtrip_bytes He'), (fmap_inverse _ _ _ _ phone_roundtrip_bytes Hp'). by destruct d.
Qed.

Lemma person_info_ok : info_ok PERSON_INFO.
Proof. by vm_compute. Qed.
Opaque PERSON_INFO.
End facts.

#[export] Instance person_io {native : endian} : BinaryBufferIO Person | 10 :=
  {| io_write := person_write native; io_read := person_read native |}.
#[export] Instance person_roundtrip_io {native : endian} : BinaryRoundTrip Person (H := @person_io native).
Proof.
  unshelve refine {| io_encoding := fun p => derived_encoding native OBJECT_INFO PERSON_INFO (person_obj native p); io_valid := person_ok |}.
  - intros p b q Hb. exact (derived_write_holds native _ _ _ _ _ Hb).
  - intros p p' b q [Hi Hp] [_ Hp'] Hb. simpl. unfold person_read. destruct static_infos as (_ & _ & H1 & _).
    destruct (derived_read_holds native OBJECT_INFO PERSON_INFO (person_obj native p) (person_obj native p') b q H1 person_info_ok) as (b' & -> & Hb').
    + done.
    + by eexists.
    + unfold data_size, obj_data; simpl. by rewrite !person_bytes_length.
    + by eexists.
    + done.
    + exists b'. split; [|done]. unfold obj_person; simpl. rewrite person_data_roundtrip by done. by destruct p.
Defined.

(** Persons written one after another to a fresh buffer are read back in order, each with its id, its five
    e-mail addresses, its name, its date of birth and its five phone numbers, and nothing is left over.  The
    block of data is 1770 bytes, and two blocks are equal exactly when all their members are. *)
Theorem person_binary_roundtrip (native : endian) (ps ps' : list Person) (d e : PersonData)
    (Hp : Forall person_ok ps) (Hp' : Forall person_ok ps') (Hl : length ps' = length ps) (Hd : data_sized d) (He : data_sized e) :
  (exists b, read_all (H := @person_io native) ps' (write_all (H := @person_io native) ps new_bb) = (b, ps) /\ contents_of b = [])
  /\ length (person_bytes native d) = 1770
  /\ (person_bytes native d = person_bytes native e <-> d = e).
Proof.
  split; [|split; [by apply person_bytes_length|]].
  - destruct (read_write_all (H0 := @person_roundtrip_io native) ps ps' new_bb Hp Hp' Hl holds_new) as (b & Hr & _ & Hb). by exists b.
  - split; [|by intros ->]. intros E. rewrite <- (person_data_roundtrip native d), <- (person_data_roundtrip native e) by done. by rewrite E.
Qed.

Definition sample_person (id : Z) : Person :=
  mk_person id (mk_data
    (replicate 5 (mk_Email (W "null" ++ replicate 60 NULL_CHAR) (W "null" ++ replicate 251 NULL_CHAR) Other))
    (mk_name (W "Ana" ++ replicate 17 NULL_CHAR) (replicate 20 NULL_CHAR) (W "Lima" ++ replicate 16 NULL_CHAR))
    (mk_date 1990 "002" "003") (replicate 5 (mk_Phone (replicate 4 NULL_CHAR) (replicate 5 NULL_CHAR) (replicate 11 NULL_CHAR) Personal)) NULL_CHAR).

Lemma sample_person_ok id : in_signed 64 id = true -> person_ok (sample_person id).
Proof.
  intros H. split; [done|]. unfold data_sized, sample_person, email_sized, name_sized, phone_sized; cbn [p_data memail mname mdate_of_birth mphone].
  split; [done|]. split; [by apply Forall_replicate|]. split; [done|]. split; [done|]. split; [done|]. by apply Forall_replicate.
Qed.

Lemma person_binary_roundtrip_witness :
  person_ok (sample_person 7)
  /\ exists b, read_all (H := @person_io big_endian) [sample_person 0] (write_all (H := @person_io big_endian) [sample_person 7] new_bb)
     = (b, [sample_person 7]) /\ contents_of b = [].
Proof.
  assert (H7 : person_ok (sample_person 7)) by (apply sample_person_ok; reflexivity).
  assert (H0 : person_ok (sample_person 0)) by (apply sample_person_ok; reflexivity).
  split; [exact H7|].
  apply (person_binary_roundtrip big_endian [sample_person 7] [sample_person 0] (p_data (sample_person 7)) (p_data (sample_person 0))
    ltac:(constructor; [exact H7|constructor]) ltac:(constructor; [exact H0|constructor]) eq_refl (proj2 H7) (proj2 H0)).
Defined.

(** [equals] compares the data and not the ids, which [Object::equals] does.  Copying a person gives the copy
    an id made of the first eight characters of the first e-mail address, so a copy equals its original and
    has another id.  A person built without an id takes the next one of the class's generator. *)
Theorem person_identity (native : endian) (p q : Person) (e : Email) (es : list Email) (g : Generator)
    (Hp : data_sized (p_data p)) (Hq : data_sized (p_data q)) (He : memail (p_data p) = e :: es) :
  (person_equals native p q = true <-> p_data p = p_data q)
  /\ (exists c, person_copy native p = Ret c /\ p_data c = p_data p /\ p_id c = int_of_bytes native (take 8 (mlocal_part e))
        /\ person_equals native p c = true)
  /\ (forall g' r, new_Person (p_data p) NULL_ID g = Ret (g', r) -> p_id r = (mvalue g + mstep g)%Z /\ current g' = p_id r /\ p_data r = p_data p)
  /\ (forall id, id <> NULL_ID -> new_Person (p_data p) id g = Ret (g, mk_person id (p_data p))).
Proof.
  assert (Heq : forall a b : Person, data_sized (p_data a) -> data_sized (p_data b) -> person_equals native a b = true <-> p_data a = p_data b).
  { intros a b Ha Hb. unfold person_equals. rewrite bool_decide_eq_true. split; [|by intros ->].
    intros E. rewrite <- (person_data_roundtrip native (p_data a)), <- (person_data_roundtrip native (p_data b)) by done. by rewrite E. }
  split; [by apply Heq|]. split; [|split].
  - unfold person_copy, obj_copy, data_size, obj_data, person_obj. cbn [mdata mid]. rewrite person_bytes_length by done.
    rewrite decide_True by lia. eexists. split; [done|]. unfold obj_person; simpl. rewrite person_data_roundtrip by done.
    split; [done|]. split; [|by apply Heq].
    f_equal. unfold person_bytes. rewrite He. destruct Hp as (_ & Hf & _). rewrite He in Hf. inversion Hf as [|? ? [Hl _] _]; subst.
    rewrite fmap_cons. cbn [concat]. unfold email_bytes at 1. rewrite <- !app_assoc. by rewrite take_app_le by lia.
  - intros g' r. unfold new_Person, get_id, id_value. change (NULL_ID =? NULL_ID)%Z with true. cbv iota.
    destruct (in_signed 64 _); [|done]. cbn [mbind outcome_bind]. intros E. injection E as <- <-. done.
  - intros id Hid. unfold new_Person. by rewrite (proj2 (Z.eqb_neq _ _) Hid).
Qed.

Lemma person_identity_witness :
  data_sized (p_data (sample_person 7)) /\ person_equals little_endian (sample_person 7) (sample_person 8) = true.
Proof.
  assert (H7 : person_ok (sample_person 7)) by (apply sample_person_ok; reflexivity).
  assert (H8 : person_ok (sample_person 8)) by (apply sample_person_ok; reflexivity).
  split; [exact (proj2 H7)|].
  apply (person_identity little_endian (sample_person 7) (sample_person 8) _ _ (new_Generator 0 0 1) (proj2 H7) (proj2 H8) eq_refl). reflexivity.
Defined.

Definition word (s : str) : Prop := s <> [] /\ no_space s /\ no_nul s /\ length s < 20.
Definition part (s : str) : str := s ++ replicate (20 - length s) NULL_CHAR.

Lemma part_spec s : no_nul s -> length s < 20 -> cs_of_S 0 MAX_PART s = Ret (part s) /\ cs_str (part s) = Ret s /\ cs_empty (part s) = Ret (bool_decide (s = [])).
Proof.
  intros Hn Hl. split; [apply cs_of_S_ok; unfold MAX_PART; lia|]. unfold part. split; [apply cs_str_padded; [done|lia]|].
  unfold cs_empty. rewrite cs_length_padded by (done || lia). cbn [mbind outcome_bind]. f_equal. apply bool_decide_ext. by destruct s.
Qed.

Lemma part_read_word s rest :
  word s -> (match rest with c :: _ => is_space c = true | [] => True end) -> part_read (mk_is (s ++ rest) true) = Ret (mk_is rest true, part s).
Proof.
  intros (Hne & Hs & Hn & Hl) Hr. unfold part_read, extract_word. cbn [is_good negb is_rest]. rewrite read_token_word by done.
  destruct (drop_while is_space (s ++ rest)) eqn:E.
  - destruct s as [|c s]; [done|]. simpl in E. inversion Hs as [|? ? Hc _]. by rewrite Hc in E.
  - by rewrite (proj1 (part_spec s Hn Hl)).
Qed.

Lemma name_write_spec os f m l :
  no_nul f -> length f < 20 -> no_nul m -> length m < 20 -> no_nul l -> length l < 20 ->
  name_write os (mk_name (part f) (part m) (part l)) = Ret (os ++ f ++ [SPACE] ++ (if bool_decide (m = []) then [] else m ++ [SPACE]) ++ l).
Proof.
  intros Hf Lf Hm Lm Hl Ll. destruct (part_spec f Hf Lf) as (_ & F & _), (part_spec m Hm Lm) as (_ & M & E), (part_spec l Hl Ll) as (_ & L & _).
  unfold name_write, cs_write; cbn [mfirst mmiddle mlast]. rewrite F, E. cbn [mbind outcome_bind].
  destruct (bool_decide (m = [])); cbn [negb mbind outcome_bind]; rewrite ?M; cbn [mbind outcome_bind]; rewrite L; cbn [mbind outcome_bind]; by rewrite <- ?app_assoc.
Qed.

(** The two printed forms of a name.  [name()] puts a space after the first name and none between the middle
    and the last, and throws when those two do not fit an array of 20 together.  The stream form of a name of
    three parts is read back; without a middle name it is not: the last name is read as the middle one, and
    the last name is left empty on a stream that has failed. *)
Theorem person_name_forms (f m l : str) (old : PersonName) (Hf : word f) (Hm : word m) (Hl : word l) :
  let full := mk_name (part f) (part m) (part l) in
  let short := mk_name (part f) (part []) (part l) in
  (name_write [] full = Ret (f ++ SPACE :: m ++ SPACE :: l) /\ name_read (mk_is (f ++ SPACE :: m ++ SPACE :: l) true) old = Ret (mk_is [] true, full))
  /\ (name_write [] short = Ret (f ++ SPACE :: l)
      /\ name_read (mk_is (f ++ SPACE :: l) true) old = Ret (mk_is [] false, mk_name (part f) (part l) (part [])))
  /\ (exists r, name_of short = Ret r /\ cs_str r = Ret (f ++ SPACE :: l))
  /\ (if decide (20 < length m + length l + 1) then exists e, name_of full = Throw e
      else exists r, name_of full = Ret r /\ cs_str r = Ret (f ++ SPACE :: m ++ l)).
Proof.
  intros full short. pose proof Hf as (Hf1 & Hf2 & Hf3 & Hf4). pose proof Hm as (Hm1 & Hm2 & Hm3 & Hm4). pose proof Hl as (Hl1 & Hl2 & Hl3 & Hl4).
  assert (Hsp : forall rest, peek_is SPACE (mk_is (SPACE :: rest) true) = true) by done.
  assert (Hnp : forall s rest, word s -> peek_is SPACE (mk_is (s ++ rest) true) = false).
  { intros s rest Hs. destruct Hs as (H1 & H2 & _). destruct s as [|c s]; [done|]. inversion H2; subst.
    unfold peek_is; simpl. apply bool_decide_eq_false. by intros ->. }
  destruct (part_spec f Hf3 Hf4) as (_ & F & _), (part_spec m Hm3 Hm4) as (_ & M & ME), (part_spec l Hl3 Hl4) as (_ & Ls & _).
  pose proof (part_read_word l [] Hl I) as Rl. pose proof (Hnp l [] Hl) as Pl. rewrite app_nil_r in Rl, Pl.
  split; [|split; [|split]].
  - split; [unfold full; rewrite name_write_spec by done; rewrite bool_decide_eq_false_2 by done; by rewrite <- app_assoc|].
    unfold name_read. rewrite part_read_word by done. cbn [mbind outcome_bind]. rewrite Hsp. cbn [ignore is_good is_rest].
    rewrite (Hnp m) by done. cbn [negb]. rewrite part_read_word by done. cbn [mbind outcome_bind]. rewrite Hsp. cbn [ignore is_good is_rest].
    by rewrite Rl.
  - split; [unfold short; rewrite name_write_spec by (done || apply not_elem_of_nil || (simpl; lia)); done|].
    unfold name_read. rewrite part_read_word by done. cbn [mbind outcome_bind]. rewrite Hsp. cbn [ignore is_good is_rest].
    rewrite Pl. cbn [negb]. by rewrite Rl.
  - unfold name_of, short; cbn [mfirst mmiddle mlast]. rewrite F. cbn [mbind outcome_bind].
    destruct (part_spec [] ltac:(apply not_elem_of_nil) ltac:(simpl; lia)) as (_ & _ & E). rewrite E. rewrite bool_decide_eq_true_2 by done. cbn [mbind outcome_bind].
    rewrite Ls. cbn [mbind outcome_bind]. rewrite cs_of_S_ok by (rewrite ?length_app; simpl; rewrite ?length_app; unfold MAX_NAME; simpl; lia).
    eexists. split; [done|]. apply cs_str_padded; [|rewrite ?length_app; simpl; unfold MAX_NAME; lia].
    unfold no_nul in *. intros [?|[?|?]%elem_of_cons]%elem_of_app; done.
  - unfold name_of, full; cbn [mfirst mmiddle mlast]. rewrite F. cbn [mbind outcome_bind]. rewrite ME, bool_decide_eq_false_2 by done. cbn [mbind outcome_bind].
    rewrite M. cbn [mbind outcome_bind]. pose proof (S_plus_cs_spec MAX_PART m l Hm3 Hl3 Hl4) as H. unfold MAX_PART in *. unfold part.
    destruct (decide (20 < length m + length l + 1)) as [Hgt|Hle].
    + destruct H as [e ->]. by exists e.
    + destruct H as (r & -> & Hr). cbn [mbind outcome_bind]. rewrite Hr. cbn [mbind outcome_bind].
      assert (Hlen : length (f ++ [SPACE] ++ m ++ l) < MAX_NAME) by (rewrite !length_app; unfold MAX_NAME; simpl; lia).
      rewrite cs_of_S_ok by lia. eexists. split; [done|]. apply cs_str_padded; [|lia].
      unfold no_nul in *. intros [?|[?|[?|?]%elem_of_app]%elem_of_cons]%elem_of_app; done.
Qed.

Lemma person_name_forms_witness :
  word (W "Ana") /\ word (W "Maria") /\ word (W "Lima")
  /\ name_read (mk_is (W "Ana Lima") true) (mk_name [] [] []) = Ret (mk_is [] false, mk_name (part (W "Ana")) (part (W "Lima")) (part [])).
Proof.
  assert (Ha : word (W "Ana")) by (split; [discriminate|split; [repeat constructor|split; [apply (bool_decide_unpack _); vm_compute; exact I|vm_compute; lia]]]).
  assert (Hm : word (W "Maria")) by (split; [discriminate|split; [repeat constructor|split; [apply (bool_decide_unpack _); vm_compute; exact I|vm_compute; lia]]]).
  assert (Hl : word (W "Lima")) by (split; [discriminate|split; [repeat constructor|split; [apply (bool_decide_unpack _); vm_compute; exact I|vm_compute; lia]]]).
  split; [exact Ha|]. split; [exact Hm|]. split; [exact Hl|].
  exact (proj2 (proj1 (proj2 (person_name_forms (W "Ana") (W "Maria") (W "Lima") (mk_name [] [] []) Ha Hm Hl)))).
Defined.
