(* ===== verification/Layout.v ===== *)
(** * Data layout checks (cpp/src/data.hpp)

    [VERIFY_DATA_STRUCT(T, members...)] is a list of static assertions on the layout of a struct;
    [StructLayoutDumper] prints the layout.  A [layout] is what [sizeof], [alignof], [offsetof] and the type
    traits say of a struct; the macros are functions of it and of the member names they are given.  [None]
    is a program that does not compile for another reason than an assertion. *)
From S2P Require Import Prelude.
Open Scope Z_scope.

(** ** Structs *)

Record member := mk_member { m_name : str; m_offset : Z; m_size : Z; m_unique : bool }.
Record layout := mk_layout {
  t_name : str; size_of : Z; align_of : Z; members : list member; is_standard_layout : bool; is_trivially_copyable : bool }.

Definition m_end (m : member) : Z := m_offset m + m_size m.

(** The members fill the struct from [o] on without a gap. *)
Fixpoint tiled (o : Z) (ms : list member) (size : Z) : bool :=
  match ms with [] => o =? size | m :: ms => (m_offset m =? o) && tiled (m_end m) ms size end.

(** [std::has_unique_object_representations_v]: trivially copyable, no padding, and so is every member; it does not
    hold of a floating-point member. *)
Definition has_unique_object_representations (t : layout) : bool :=
  is_trivially_copyable t && tiled 0 (members t) (size_of t) && forallb m_unique (members t).

Definition lookup_member (t : layout) (name : str) : option member := list_find (fun m => m_name m = name) (members t) ≫= fun p => Some (snd p).

(** ** The macros *)

(* src: cpp/src/data.hpp:98-99 MEMBER_OFFSET *)
Definition MEMBER_OFFSET (t : layout) (m : str) : option Z := m_offset <$> lookup_member t m.
(* src: cpp/src/data.hpp:101-102 MEMBER_SIZE *)
Definition MEMBER_SIZE (t : layout) (m : str) : option Z := m_size <$> lookup_member t m.
(* src: cpp/src/data.hpp:104-106 END_OF_MEMBER *)
Definition END_OF_MEMBER (t : layout) (m : str) : option Z := o ← MEMBER_OFFSET t m; s ← MEMBER_SIZE t m; Some (o + s).
(* src: cpp/src/data.hpp:108-110 TAIL_PAD_ONLY_N *)
Definition TAIL_PAD_ONLY_N (t : layout) (last : str) : option Z :=
  e ← END_OF_MEMBER t last; Some ((align_of t - e mod align_of t) mod align_of t).
(* src: cpp/src/data.hpp:112-114 TAIL_DELTA_N *)
Definition TAIL_DELTA_N (t : layout) (last : str) : option Z := e ← END_OF_MEMBER t last; Some (wrap64 (size_of t - e)).

(** What a static assertion says when it fails. *)
Inductive failure :=
  | SizeMismatch | NotStandardLayout | NotTriviallyCopyable | NotUnique | ArrayStride
  | InternalPadding (m1 m2 : str) | TailPadding (last : str).
#[export] Instance failure_eq_dec : EqDecision failure.
Proof. solve_decision. Defined.

Definition static_assert (b : bool) (f : failure) : list failure := if b then [] else [f].

(* src: cpp/src/data.hpp:116-119 ASSERT_NO_INTERNAL_PADDING *)
Definition ASSERT_NO_INTERNAL_PADDING (t : layout) (m1 m2 : str) : option (list failure) :=
  o ← MEMBER_OFFSET t m2; e ← END_OF_MEMBER t m1; Some (static_assert (o =? e) (InternalPadding m1 m2)).
(* src: cpp/src/data.hpp:121-124 ASSERT_NO_TAIL_PADDING *)
Definition ASSERT_NO_TAIL_PADDING (t : layout) (last : str) : option (list failure) :=
  p ← TAIL_PAD_ONLY_N t last; Some (static_assert (p =? 0) (TailPadding last)).

(** The eleventh of the arguments followed by 10, 9, ..., 1. *)
Inductive token := Name (s : str) | Number (n : nat).
(* src: cpp/src/data.hpp:175-177 COUNT_ARGS *)
Definition COUNT_ARGS (args : list str) : option token :=
  (map Name args ++ map Number [10; 9; 8; 7; 6; 5; 4; 3; 2; 1]%nat) !! 10%nat.
(** [CONCAT(M_, COUNT_ARGS(...))(...)]: the macro of that number is called when there is one and it has as many
    parameters as arguments. *)
(* src: cpp/src/data.hpp:179-181 CONCAT *)
Definition CONCAT {A} (M : nat -> list str -> option A) (args : list str) : option A :=
  match COUNT_ARGS args with Some (Number n) => M n args | _ => None end.

(* src: cpp/src/data.hpp:130-131 SIZEOF_MEMBER *)
Definition SIZEOF_MEMBER (t : layout) (m : str) : option Z := MEMBER_SIZE t m.
(* src: cpp/src/data.hpp:134-137 FOR_EACH_SIZEOF_2 *)
Definition add_size (t : layout) (acc : option Z) (m : str) : option Z := a ← acc; s ← SIZEOF_MEMBER t m; Some (a + s).
(* src: cpp/src/data.hpp:133-153 FOR_EACH_SIZEOF_1 *)
Definition FOR_EACH_SIZEOF (t : layout) (n : nat) (args : list str) : option Z :=
  if decide (length args = n /\ 1 <= n <= 10)%nat then
    fold_left (add_size t) args (Some 0)
  else None.
(* src: cpp/src/data.hpp:155-157 EXPECTED_SIZE_OF_MEMBERS *)
Definition EXPECTED_SIZE_OF_MEMBERS (t : layout) (args : list str) : option Z := CONCAT (FOR_EACH_SIZEOF t) args.

(* src: cpp/src/data.hpp:163-173 LAST_1 *)
Definition LAST_N (n : nat) (args : list str) : option str :=
  if decide (length args = n /\ 1 <= n <= 10)%nat then last args else None.
(* src: cpp/src/data.hpp:183-184 LAST *)
Definition LAST (args : list str) : option str := CONCAT LAST_N args.

(* src: cpp/src/data.hpp:195-197 VERIFY_NO_INTERNAL_PADDING_3 *)
Fixpoint check_pairs (t : layout) (args : list str) : option (list failure) :=
  match args with
  | m1 :: (m2 :: _) as rest => f ← ASSERT_NO_INTERNAL_PADDING t m1 m2; fs ← check_pairs t rest; Some (f ++ fs)
  | _ => Some []
  end.
(* src: cpp/src/data.hpp:190-253 VERIFY_NO_INTERNAL_PADDING_1 *)
Definition VERIFY_NO_INTERNAL_PADDING_N (t : layout) (n : nat) (args : list str) : option (list failure) :=
  if decide (length args = n /\ 1 <= n <= 10)%nat then check_pairs t args else None.
(* src: cpp/src/data.hpp:255-256 VERIFY_NO_INTERNAL_PADDING *)
Definition VERIFY_NO_INTERNAL_PADDING (t : layout) (args : list str) : option (list failure) :=
  CONCAT (VERIFY_NO_INTERNAL_PADDING_N t) args.
(* src: cpp/src/data.hpp:262-271 ASSERT_NO_TAIL_PADDING_WRAPPER *)
Definition ASSERT_NO_TAIL_PADDING_WRAPPER (t : layout) (args : list str) : option (list failure) :=
  last ← LAST args; ASSERT_NO_TAIL_PADDING t last.

Definition array_size (t : layout) (n : Z) : Z := n * size_of t.

(* src: cpp/src/data.hpp:314-317 VERIFY_DATA_STRUCT_SIZE_ONLY *)
Definition VERIFY_DATA_STRUCT_SIZE_ONLY (t : layout) (args : list str) : option (list failure) :=
  e ← EXPECTED_SIZE_OF_MEMBERS t args; Some (static_assert (size_of t =? e) SizeMismatch).
(* src: cpp/src/data.hpp:319-326 VERIFY_DATA_STRUCT_TRAITS_ONLY *)
Definition VERIFY_DATA_STRUCT_TRAITS_ONLY (t : layout) : list failure :=
  static_assert (is_standard_layout t) NotStandardLayout ++ static_assert (is_trivially_copyable t) NotTriviallyCopyable
    ++ static_assert (has_unique_object_representations t) NotUnique.
(* src: cpp/src/data.hpp:296-308 VERIFY_DATA_STRUCT *)
Definition VERIFY_DATA_STRUCT (t : layout) (args : list str) : option (list failure) :=
  e ← EXPECTED_SIZE_OF_MEMBERS t args;
  internal ← VERIFY_NO_INTERNAL_PADDING t args;
  tail ← ASSERT_NO_TAIL_PADDING_WRAPPER t args;
  Some (static_assert (size_of t =? e) SizeMismatch
    ++ static_assert (is_standard_layout t) NotStandardLayout ++ static_assert (is_trivially_copyable t) NotTriviallyCopyable
    ++ static_assert (has_unique_object_representations t) NotUnique
    ++ static_assert (array_size t 2 =? 2 * size_of t) ArrayStride ++ internal ++ tail).

(** ** The dumper *)

(* src: cpp/src/data.hpp:38-43 StructLayoutDumper *)
Record dumper := mk_dumper { prev_end_ : Z; prev_name_ : str; first_ : bool; printed : str }.

Definition LF : str := [ascii_of_nat 10].
Definition ruler : str := W "========================================" ++ LF.
(* src: cpp/src/data.hpp:46-52 StructLayoutDumper::StructLayoutDumper *)
Definition new_dumper (t : layout) (name : str) : dumper :=
  mk_dumper 0 [] true (ruler ++ W "Structure Layout: " ++ name ++ LF ++ W "  Size: " ++ decimal (size_of t) ++ W " bytes" ++ LF
    ++ W "  Alignment: " ++ decimal (align_of t) ++ W " bytes" ++ LF ++ ruler).

(** The bytes a dumper reports between the last member and the next. *)
(* src: cpp/src/data.hpp:57-60 StructLayoutDumper::add_member *)
Definition reported_padding (d : dumper) (offset : Z) : Z := if first_ d then 0 else wrap64 (offset - prev_end_ d).
(* src: cpp/src/data.hpp:60-64 StructLayoutDumper::add_member *)
Definition padding_line (padding : Z) (prev next : str) : str :=
  W "  >>> INTERNAL PADDING: " ++ decimal padding ++ W " bytes between " ++ prev ++ W " and " ++ next ++ W " <<<" ++ LF.
(* src: cpp/src/data.hpp:54-73 StructLayoutDumper::add_member *)
Definition add_member (d : dumper) (name : str) (offset size : Z) : dumper :=
  let padding := reported_padding d offset in
  let report := if 0 <? padding then padding_line padding (prev_name_ d) name else [] in
  mk_dumper (wrap64 (offset + size)) name false
    (printed d ++ report ++ W "  " ++ name ++ W ": offset=" ++ decimal offset ++ W ", size=" ++ decimal size
       ++ W ", ends=" ++ decimal (wrap64 (offset + size)) ++ LF).

(* src: cpp/src/data.hpp:76-80 StructLayoutDumper::~StructLayoutDumper *)
Definition tail_report (t : layout) (d : dumper) : Z * Z :=
  ((align_of t - prev_end_ d mod align_of t) mod align_of t, wrap64 (size_of t - prev_end_ d)).
(* src: cpp/src/data.hpp:75-87 StructLayoutDumper::~StructLayoutDumper *)
Definition finish (t : layout) (d : dumper) : str :=
  let '(tail_pad, tail_delta) := tail_report t d in
  printed d ++ (if (0 <? tail_pad) || (0 <? tail_delta)
    then W "  >>> TAIL PADDING: alignment-based=" ++ decimal tail_pad ++ W " bytes, total delta=" ++ decimal tail_delta ++ W " bytes <<<" ++ LF
    else []) ++ ruler ++ LF.
(** [FOR_EACH_MEMBER] goes on through [PARENS], which is not defined: only one member can be dumped. *)
(* src: cpp/src/data.hpp:342-362 DUMP_STRUCT_LAYOUT *)
Definition DUMP_STRUCT_LAYOUT (t : layout) (args : list str) : option str :=
  match args with
  | [m] => o ← MEMBER_OFFSET t m; s ← MEMBER_SIZE t m; Some (finish t (add_member (new_dumper t (t_name t)) m o s))
  | _ => None
  end.
(* src: cpp/src/data.hpp:28-35 dump_member_info *)
Definition dump_member_info (member_name : str) (offset size : Z) : str :=
  W "    " ++ member_name ++ W ": offset=" ++ decimal offset ++ W ", size=" ++ decimal size ++ W ", ends=" ++ decimal (wrap64 (offset + size)) ++ LF.

(** ** Layouts a compiler produces *)

(** The members follow each other from [o] within [size]. *)
Fixpoint in_order (o : Z) (ms : list member) (size : Z) : Prop :=
  match ms with [] => o <= size | m :: ms => o <= m_offset m /\ 0 < m_size m /\ in_order (m_end m) ms size end.
Record wf_layout (t : layout) : Prop := {
  wf_align : 0 < align_of t;
  wf_size : size_of t mod align_of t = 0;
  wf_small : size_of t < two64;
  wf_order : in_order 0 (members t) (size_of t);
  wf_names : NoDup (map m_name (members t)) }.

Definition sum_sizes (ms : list member) : Z := foldr (fun m n => m_size m + n) 0 ms.

Lemma in_order_bounds o ms size m : in_order o ms size -> m ∈ ms -> o <= m_offset m /\ m_end m <= size /\ 0 < m_size m.
Proof.
  revert o. induction ms as [|x ms IH]; intros o; simpl; [intros _ H; by apply not_elem_of_nil in H|].
  intros (H1 & H2 & H3) [->|Hm]%elem_of_cons.
  - split; [done|]. split; [|done]. clear -H3. revert H3. generalize (m_end x). induction ms as [|y ms IH]; intros e; simpl; [done|].
    intros (A & B & D). apply IH in D. unfold m_end in *. lia.
  - destruct (IH _ H3 Hm) as (A & B & D). unfold m_end in *. lia.
Qed.

Lemma tiled_sum o ms size : tiled o ms size = true -> size = o + sum_sizes ms.
Proof.
  revert o. induction ms as [|m ms IH]; intros o; simpl; [lia|]. rewrite andb_true_iff, Z.eqb_eq. intros [H1 H2].
  apply IH in H2. unfold m_end in H2. lia.
Qed.

Lemma tiled_order_sum o ms size : in_order o ms size -> (tiled o ms size = true <-> size = o + sum_sizes ms).
Proof.
  intros Ho. split; [apply tiled_sum|]. revert o Ho. induction ms as [|m ms IH]; intros o; simpl; [lia|]. intros (H1 & H2 & H3) Hs.
  assert (m_end m + sum_sizes ms <= size).
  { clear -H3. revert H3. generalize (m_end m). induction ms as [|x ms IH]; intros e; simpl; [lia|]. intros (A & B & D). apply IH in D. unfold m_end in *. lia. }
  unfold m_end in *. rewrite andb_true_iff, Z.eqb_eq. split; [lia|]. apply IH; [done|]. lia.
Qed.

Lemma tiled_in_order o ns size : tiled o ns size = true -> (forall m, m ∈ ns -> 0 < m_size m) -> in_order o ns size.
Proof.
  revert o. induction ns as [|n ns IH]; intros o Ht Hp; simpl in *; [lia|]. apply andb_true_iff in Ht as [Hn Ht]. apply Z.eqb_eq in Hn.
  split; [lia|]. split; [apply Hp; by left|]. apply IH; [done|]. intros m Hm. apply Hp. by right.
Qed.

(** Members that tile a struct are all its members, in their order. *)
Lemma tiles_are_all o ms ns size :
  in_order o ms size -> tiled o ns size = true -> (forall m, m ∈ ns -> m ∈ ms) -> ns = ms.
Proof.
  revert o ms. induction ns as [|n ns IH]; intros o ms Ho Ht Hin.
  - simpl in Ht. destruct ms as [|m ms]; [done|]. destruct (in_order_bounds _ _ _ m Ho) as (A & B & D); [by left|]. unfold m_end in B. lia.
  - assert (Hns : in_order o (n :: ns) size).
    { apply tiled_in_order; [done|]. intros m Hm. by apply (in_order_bounds _ _ _ _ Ho), Hin. }
    simpl in Ht. apply andb_true_iff in Ht as [Hn Ht]. apply Z.eqb_eq in Hn. destruct ms as [|m ms].
    { exfalso. eapply not_elem_of_nil, Hin. by left. }
    destruct Ho as (H1 & H2 & H3). destruct Hns as (K1 & K2 & K3). assert (n = m) as ->.
    { assert (Hn' : n ∈ m :: ms) by (apply Hin; by left). apply elem_of_cons in Hn' as [|Hn']; [done|].
      destruct (in_order_bounds _ _ _ n H3 Hn'). unfold m_end in *. lia. }
    f_equal. apply (IH (m_end m)); [done..|]. intros k Hk. assert (Hk' : k ∈ m :: ms) by (apply Hin; by right).
    apply elem_of_cons in Hk' as [->|]; [|done]. destruct (in_order_bounds _ _ _ m K3 Hk). unfold m_end in *. lia.
Qed.

(** ** What the macros compute *)

Definition resolve (t : layout) (args : list str) : option (list member) := mapM (lookup_member t) args.

Lemma lookup_member_Some t name m : lookup_member t name = Some m -> m ∈ members t /\ m_name m = name.
Proof.
  unfold lookup_member. destruct (list_find _ _) as [[i x]|] eqn:E; [|done]. intros [= ->]. apply list_find_Some in E as (E & H & _).
  split; [by eapply list_elem_of_lookup_2|done].
Qed.

Lemma lookup_member_name t m : NoDup (map m_name (members t)) -> m ∈ members t -> lookup_member t (m_name m) = Some m.
Proof.
  unfold lookup_member. induction (members t) as [|x l IH]; simpl; intros Hd Hm; [by apply not_elem_of_nil in Hm|].
  apply NoDup_cons in Hd as [Hx Hd]. apply elem_of_cons in Hm as [->|Hm]; [by rewrite decide_True|].
  rewrite decide_False; [|intros E; apply Hx; rewrite E; apply list_elem_of_In, in_map, list_elem_of_In, Hm].
  specialize (IH Hd Hm). destruct (list_find _ l) as [[i y]|]; [|done]. done.
Qed.

Lemma resolve_names t args ms : resolve t args = Some ms -> args = map m_name ms /\ forall m, m ∈ ms -> m ∈ members t.
Proof.
  unfold resolve. rewrite mapM_Some. induction 1 as [|a m args ms Ha _ IH]; [split; [done|]; intros m Hm; by apply not_elem_of_nil in Hm|].
  apply lookup_member_Some in Ha as [H1 H2]. destruct IH as [-> IH]. split; [simpl; by rewrite H2|].
  intros k [->|Hk]%elem_of_cons; auto.
Qed.

Lemma resolve_members t l : (forall m, m ∈ l -> lookup_member t (m_name m) = Some m) -> resolve t (map m_name l) = Some l.
Proof.
  intros H. unfold resolve. apply mapM_Some. induction l as [|m l IH]; simpl; constructor; [apply H; by left|].
  apply IH. intros k Hk. apply H. by right.
Qed.
Lemma resolve_all t : NoDup (map m_name (members t)) -> resolve t (map m_name (members t)) = Some (members t).
Proof. intros Hd. apply resolve_members. intros m Hm. by apply lookup_member_name. Qed.

(** Up to ten arguments are counted; of more, the eleventh is taken for the count. *)
Lemma CONCAT_spec {A} (M : nat -> list str -> option A) args :
  args <> [] -> CONCAT M args = if decide (length args <= 10)%nat then M (length args) args else None.
Proof.
  intros Hne. unfold CONCAT, COUNT_ARGS. destruct args as [|a0 l]; [done|].
  do 10 (destruct l as [|? l]; [done|]). rewrite decide_False by (simpl; lia). done.
Qed.
Lemma CONCAT_nil {A} (M : nat -> list str -> option A) : CONCAT M [] = None.
Proof. done. Qed.

(** The gaps between consecutive members. *)
Fixpoint gaps (ms : list member) : list failure :=
  match ms with
  | m1 :: (m2 :: _) as rest => static_assert (m_offset m2 =? m_end m1) (InternalPadding (m_name m1) (m_name m2)) ++ gaps rest
  | _ => []
  end.

Lemma add_size_eq t acc a : add_size t (Some acc) a = (fun m => acc + m_size m) <$> lookup_member t a.
Proof. unfold add_size, SIZEOF_MEMBER, MEMBER_SIZE. by destruct (lookup_member t a). Qed.

Lemma sizes_resolved t args ms acc :
  resolve t args = Some ms -> fold_left (add_size t) args (Some acc) = Some (acc + sum_sizes ms).
Proof.
  unfold resolve. rewrite mapM_Some. intros H. revert acc. induction H as [|a m args ms Ha _ IH]; intros acc; cbn [fold_left sum_sizes foldr]; [f_equal; lia|].
  rewrite add_size_eq, Ha. cbn. rewrite IH. unfold sum_sizes. f_equal. lia.
Qed.
Lemma sizes_None t args : fold_left (add_size t) args None = None.
Proof. by induction args. Qed.
Lemma sizes_resolve t args acc e : fold_left (add_size t) args (Some acc) = Some e -> exists ms, resolve t args = Some ms.
Proof.
  revert acc. induction args as [|a args IH]; intros acc; cbn [fold_left]; [by exists []|]. rewrite add_size_eq. unfold resolve in *. simpl.
  destruct (lookup_member t a) as [m|]; simpl; [|by rewrite sizes_None]. intros H. destruct (IH _ H) as [ms Hms].
  exists (m :: ms). by rewrite Hms.
Qed.

Lemma end_of_member t a m : lookup_member t a = Some m -> END_OF_MEMBER t a = Some (m_end m).
Proof. intros H. unfold END_OF_MEMBER, MEMBER_OFFSET, MEMBER_SIZE. by rewrite H. Qed.

Lemma check_pairs_cons t a b args : check_pairs t (a :: b :: args) = f ← ASSERT_NO_INTERNAL_PADDING t a b; fs ← check_pairs t (b :: args); Some (f ++ fs).
Proof. done. Qed.
Lemma gaps_cons m n ms : gaps (m :: n :: ms) = static_assert (m_offset n =? m_end m) (InternalPadding (m_name m) (m_name n)) ++ gaps (n :: ms).
Proof. done. Qed.

Lemma check_pairs_resolved t args ms : resolve t args = Some ms -> check_pairs t args = Some (gaps ms).
Proof.
  unfold resolve. rewrite mapM_Some. induction 1 as [|a m args ms Ha H IH]; [done|].
  destruct H as [|b n args ms Hb H]; [done|]. rewrite check_pairs_cons, gaps_cons, IH. unfold ASSERT_NO_INTERNAL_PADDING.
  rewrite (end_of_member _ _ _ Ha). unfold MEMBER_OFFSET. rewrite Hb. cbn [mbind option_bind fmap option_fmap option_map].
  by rewrite (proj2 (lookup_member_Some _ _ _ Ha)), (proj2 (lookup_member_Some _ _ _ Hb)).
Qed.

Lemma gaps_nil m ms : gaps (m :: ms) = [] <-> tiled (m_offset m) (m :: ms) (m_offset m + sum_sizes (m :: ms)) = true.
Proof.
  revert m. induction ms as [|n ms IH]; intros m.
  - simpl. rewrite Z.eqb_refl. split; [|done]. intros _. unfold m_end. apply Z.eqb_eq. lia.
  - rewrite gaps_cons. specialize (IH n). cbn [tiled] in *. rewrite !Z.eqb_refl in *. simpl in IH |- *. unfold static_assert.
    destruct (m_offset n =? m_end m) eqn:E; simpl; [|done]. rewrite IH. apply Z.eqb_eq in E.
    replace (m_offset m + (m_size m + (m_size n + sum_sizes ms))) with (m_offset n + (m_size n + sum_sizes ms)) by (unfold m_end in E; lia). done.
Qed.

Lemma tiled_last o ms size l : tiled o ms size = true -> last ms = Some l -> m_end l = size.
Proof.
  revert o. induction ms as [|m ms IH]; intros o; [done|]. simpl. rewrite andb_true_iff. intros [_ Ht]. destruct ms as [|n ms]; [|by apply (IH (m_end m))].
  intros [= <-]. simpl in Ht. by apply Z.eqb_eq.
Qed.

Lemma static_assert_nil b f : static_assert b f = [] <-> b = true.
Proof. by destruct b. Qed.

(** The whole check, of names that all exist. *)
Lemma verify_resolved t args m ms :
  resolve t args = Some (m :: ms) -> (length args <= 10)%nat ->
  exists l, last (m :: ms) = Some l /\
  VERIFY_DATA_STRUCT t args = Some (static_assert (size_of t =? sum_sizes (m :: ms)) SizeMismatch
    ++ VERIFY_DATA_STRUCT_TRAITS_ONLY t ++ gaps (m :: ms)
    ++ static_assert ((align_of t - m_end l mod align_of t) mod align_of t =? 0) (TailPadding (m_name l))).
Proof.
  intros Hr Hl. destruct (resolve_names _ _ _ Hr) as [Hn Hin].
  assert (Hlen : length args = S (length ms)) by (by rewrite Hn, length_map).
  assert (Hne : args <> []) by (by destruct args). assert (Hc : length args = length args /\ (1 <= length args <= 10)%nat) by lia.
  destruct (last (m :: ms)) as [l|] eqn:El; [|by apply last_None in El].
  exists l. split; [done|]. unfold VERIFY_DATA_STRUCT, EXPECTED_SIZE_OF_MEMBERS, VERIFY_NO_INTERNAL_PADDING, ASSERT_NO_TAIL_PADDING_WRAPPER, LAST.
  rewrite !CONCAT_spec, !decide_True by done. unfold FOR_EACH_SIZEOF, VERIFY_NO_INTERNAL_PADDING_N, LAST_N. rewrite !decide_True by done.
  rewrite (sizes_resolved _ _ _ _ Hr), (check_pairs_resolved _ _ _ Hr). cbn [mbind option_bind].
  assert (Ha : last args = Some (m_name l)). { rewrite Hn. change (map m_name (m :: ms)) with (m_name <$> m :: ms). by rewrite fmap_last, El. }
  rewrite Ha. cbn [mbind option_bind]. unfold ASSERT_NO_TAIL_PADDING, TAIL_PAD_ONLY_N.
  assert (Hll : lookup_member t (m_name l) = Some l).
  { unfold resolve in Hr. rewrite mapM_Some in Hr. rewrite last_lookup in Ha. rewrite last_lookup in El. rewrite <- (Forall2_length _ _ _ Hr) in El.
    by eapply (Forall2_lookup_lr _ _ _ _ _ _ Hr). }
  rewrite (end_of_member _ _ _ Hll). cbn. unfold VERIFY_DATA_STRUCT_TRAITS_ONLY, array_size. rewrite Z.eqb_refl. simpl. by rewrite <- !app_assoc.
Qed.

(** C35. [VERIFY_DATA_STRUCT], given the layout a compiler makes, lets a struct pass exactly when it is a standard-layout,
    trivially copyable struct of members without floating-point numbers, its members fill it without a gap at the
    end or between them, and the list names all of them, in the order of their declaration, and at most ten. *)
Theorem verify_data_struct_spec (t : layout) (args : list str) (Hwf : wf_layout t) :
  VERIFY_DATA_STRUCT t args = Some []
  <-> is_standard_layout t = true /\ is_trivially_copyable t = true /\ forallb m_unique (members t) = true
      /\ tiled 0 (members t) (size_of t) = true /\ args = map m_name (members t) /\ (1 <= length args <= 10)%nat.
Proof.
  destruct Hwf as [Ha Hs Hlt Ho Hd]. split.
  - intros H. assert (Hne : args <> []) by (intros ->; done). unfold VERIFY_DATA_STRUCT in H. pose proof H as H0.
    unfold EXPECTED_SIZE_OF_MEMBERS in H0. rewrite CONCAT_spec in H0 by done. case_decide as Hl; [|done].
    assert (Hex : exists ms, resolve t args = Some ms).
    { unfold FOR_EACH_SIZEOF in H0. case_decide; [|done]. destruct (fold_left _ args (Some 0)) eqn:E; [|done]. by eapply sizes_resolve. }
    destruct Hex as [ms Hr]. destruct (resolve_names _ _ _ Hr) as [Hn Hin]. destruct ms as [|m ms]; [by subst args|].
    destruct (verify_resolved t args m ms Hr Hl) as (l & Hlast & E). unfold VERIFY_DATA_STRUCT in E. rewrite E in H. clear E H0.
    injection H as H. unfold VERIFY_DATA_STRUCT_TRAITS_ONLY in H. apply app_nil in H as [H1 H]. apply app_nil in H as [H2 H].
    apply app_nil in H2 as [H2 H3]. apply app_nil in H3 as [H3 H4]. apply app_nil in H as [H5 H6].
    rewrite static_assert_nil in H1, H2, H3, H4. apply Z.eqb_eq in H1. apply gaps_nil in H5.
    unfold has_unique_object_representations in H4. rewrite !andb_true_iff in H4. destruct H4 as [[_ Ht] Hu].
    assert (Hall : m :: ms = members t); [|subst args; rewrite Hall, length_map in *; split_and!; try done; rewrite <- Hall; simpl; lia].
    assert (E0 : m_offset m = 0).
    { destruct (in_order_bounds _ _ _ m Ho) as (B1 & _ & _); [apply Hin; by left|].
      assert (Hm : in_order (m_offset m) (m :: ms) (m_offset m + sum_sizes (m :: ms))).
      { apply tiled_in_order; [done|]. intros k Hk. by apply (in_order_bounds _ _ _ k Ho), Hin. }
      assert (B2 : m_end l <= size_of t). { apply (in_order_bounds _ _ _ l Ho), Hin. apply last_Some_elem_of. done. }
      assert (B3 : m_offset m + sum_sizes (m :: ms) = m_end l); [|simpl in B3; lia]. symmetry. by eapply tiled_last. }
    apply (tiles_are_all 0 _ _ (size_of t) Ho); [|done]. rewrite E0, Z.add_0_l in H5. simpl in H1, H5 |- *. by rewrite H1.
  - intros (H1 & H2 & H3 & H4 & -> & Hl). pose proof (resolve_all t Hd) as Hr. rewrite length_map in Hl.
    remember (members t) as ms eqn:Em. destruct ms as [|m ms]; [simpl in Hl; lia|].
    destruct (verify_resolved t _ m ms Hr) as (l & Hlast & ->); [rewrite length_map; lia|].
    pose proof (tiled_sum _ _ _ H4) as Hsum. assert (Hm : m_offset m = 0) by (simpl in H4; apply andb_true_iff in H4 as [H4 _]; by apply Z.eqb_eq).
    unfold VERIFY_DATA_STRUCT_TRAITS_ONLY, has_unique_object_representations. rewrite <- Em, H1, H2, H3, H4.
    replace (size_of t =? sum_sizes (m :: ms)) with true by (symmetry; apply Z.eqb_eq; lia).
    rewrite (proj2 (gaps_nil m ms)) by (rewrite Hm, <- Hsum; done). rewrite (tiled_last _ _ _ _ H4 Hlast), Hs, Z.sub_0_r, Z.mod_same by lia. done.
Qed.

(** The struct of the usage note of [VERIFY_DATA_STRUCT], and one with integers in the place of its doubles. *)
Definition MyData (unique : bool) : layout :=
  mk_layout (W "MyData") 24 8 [mk_member (W "a") 0 8 unique; mk_member (W "b") 8 8 unique; mk_member (W "c") 16 4 true; mk_member (W "d") 20 4 true] true true.
Definition MyData_names : list str := [W "a"; W "b"; W "c"; W "d"].

Lemma MyData_wf u : wf_layout (MyData u).
Proof. split; try done. apply (bool_decide_unpack _). by vm_compute. Qed.

Lemma verify_data_struct_spec_witness : VERIFY_DATA_STRUCT (MyData true) MyData_names = Some [].
Proof. apply (verify_data_struct_spec _ _ (MyData_wf true)). split_and!; try reflexivity; simpl; lia. Defined.

(** The usage note itself does not pass. *)
Example usage_note_rejected : VERIFY_DATA_STRUCT (MyData false) MyData_names = Some [NotUnique].
Proof. by vm_compute. Qed.

Example eleven_members_rejected t : VERIFY_DATA_STRUCT t (replicate 11 (W "a")) = None.
Proof. done. Qed.

(** ** The dumper *)

Definition dump_member (d : dumper) (m : member) : dumper := add_member d (m_name m) (m_offset m) (m_size m).
Fixpoint paddings (d : dumper) (ms : list member) : list Z :=
  match ms with [] => [] | m :: ms => reported_padding d (m_offset m) :: paddings (dump_member d m) ms end.
Definition sum_Z (l : list Z) : Z := foldr Z.add 0 l.

Lemma wrap64_small z : 0 <= z < two64 -> wrap64 z = z.
Proof. apply Z.mod_small. Qed.

Lemma in_order_le o ms size : in_order o ms size -> o <= size.
Proof. revert o. induction ms as [|m ms IH]; intros o; simpl; [done|]. intros (A & B & D). apply IH in D. unfold m_end in D. lia. Qed.

Lemma dump_accounts d ms size :
  first_ d = false -> 0 <= prev_end_ d -> in_order (prev_end_ d) ms size -> size < two64 ->
  sum_Z (paddings d ms) + wrap64 (size - prev_end_ (fold_left dump_member ms d)) + sum_sizes ms = size - prev_end_ d
  /\ 0 <= prev_end_ (fold_left dump_member ms d) <= size /\ Forall (fun p => 0 <= p) (paddings d ms).
Proof.
  revert d. induction ms as [|m ms IH]; intros d Hf Hp Ho Hs; simpl in *.
  - rewrite wrap64_small by lia. split; [lia|]. split; [lia|constructor].
  - destruct Ho as (A & B & D). pose proof (in_order_le _ _ _ D) as Hm. unfold m_end in *.
    assert (E : prev_end_ (dump_member d m) = m_offset m + m_size m) by (apply wrap64_small; lia).
    destruct (IH (dump_member d m)) as (H1 & H2 & H3); [done|rewrite E; lia|by rewrite E|done|]. rewrite E in H1. unfold reported_padding. rewrite Hf.
    rewrite (wrap64_small (m_offset m - prev_end_ d)) by lia. split; [|split; [done|constructor; [lia|done]]]. lia.
Qed.

Lemma sum_Z_zero l : Forall (fun p => 0 <= p) l -> 0 <= sum_Z l /\ (sum_Z l = 0 <-> Forall (fun p => p = 0) l).
Proof.
  induction 1 as [|p l Hp _ [IH1 IH2]]; simpl; [split; [done|by split]|]. split; [lia|]. rewrite Forall_cons, <- IH2. lia.
Qed.

(** The dumper, given the members in their order, accounts for every byte: the padding it reports between members, the
    padding it reports at the end and the sizes add up to the size of the struct from its first member on.  It is silent
    about padding exactly for a struct whose members fill it.  A member given before the one it follows is reported with
    a padding that has wrapped around, and the macro cannot dump more than one. *)
Theorem dumper_accounts (t : layout) (m : member) (ms : list member)
    (Hwf : wf_layout t) (Hm : members t = m :: ms) (H0 : m_offset m = 0) :
  let d := fold_left dump_member (m :: ms) (new_dumper t (t_name t)) in
  let reports := paddings (new_dumper t (t_name t)) (m :: ms) in
  sum_Z reports + snd (tail_report t d) + sum_sizes (m :: ms) = size_of t
  /\ (Forall (fun p => p = 0) reports /\ snd (tail_report t d) = 0 <-> tiled 0 (members t) (size_of t) = true)
  /\ (snd (tail_report t d) = 0 -> fst (tail_report t d) = 0)
  /\ (forall d offset, first_ d = false -> 0 <= offset < prev_end_ d -> prev_end_ d < two64 ->
        reported_padding d offset = two64 - (prev_end_ d - offset))
  /\ (forall a b rest, DUMP_STRUCT_LAYOUT t (a :: b :: rest) = None).
Proof.
  intros d reports. destruct Hwf as [Ha Hs Hlt Ho Hd]. rewrite Hm in Ho |- *. simpl in Ho. destruct Ho as (A & B & D). pose proof (in_order_le _ _ _ D) as Hle. unfold m_end in *.
  set (d1 := dump_member (new_dumper t (t_name t)) m).
  assert (E1 : prev_end_ d1 = m_offset m + m_size m) by (apply wrap64_small; lia).
  destruct (dump_accounts d1 ms (size_of t)) as (H1 & H2 & H3); [done|rewrite E1; lia|by rewrite E1|done|].
  assert (Hrep : sum_Z reports = sum_Z (paddings d1 ms)) by done.
  assert (Htail : snd (tail_report t d) = wrap64 (size_of t - prev_end_ (fold_left dump_member ms d1))) by done.
  assert (Hw : wrap64 (size_of t - prev_end_ (fold_left dump_member ms d1)) = size_of t - prev_end_ (fold_left dump_member ms d1)) by (apply wrap64_small; lia).
  destruct (sum_Z_zero _ H3) as [Hn Hz]. rewrite E1 in H1. rewrite Hrep, Htail. cbn [sum_sizes foldr]. fold (sum_sizes ms).
  split; [lia|]. split; [|split; [|split]].
  - rewrite tiled_order_sum by (simpl; unfold m_end; done). cbn [sum_sizes foldr]. fold (sum_sizes ms). subst reports. cbn [paddings]. fold d1.
    rewrite Forall_cons. change (reported_padding (new_dumper t (t_name t)) (m_offset m)) with 0. rewrite <- Hz. split; [intros [[_ ?] ?]; lia|intros; split_and!; lia].
  - intros E. rewrite Hw in E. assert (Hp : prev_end_ (fold_left dump_member ms d1) = size_of t) by lia. unfold tail_report.
    change (fst _) with ((align_of t - prev_end_ (fold_left dump_member ms d1) mod align_of t) mod align_of t).
    by rewrite Hp, Hs, Z.sub_0_r, Z.mod_same by lia.
  - intros d' offset Hf Ho' Hb. unfold reported_padding. rewrite Hf. unfold wrap64. rewrite <- (Z.mod_add _ 1) by done.
    rewrite Z.mod_small by lia. lia.
  - done.
Qed.

Lemma dumper_accounts_witness :
  let d := fold_left dump_member (members (MyData true)) (new_dumper (MyData true) (W "MyData")) in
  sum_Z (paddings (new_dumper (MyData true) (W "MyData")) (members (MyData true))) + snd (tail_report (MyData true) d) + 24 = 24.
Proof. apply (dumper_accounts (MyData true) _ _ (MyData_wf true) eq_refl eq_refl). Defined.
