(* ===== verification/Concepts.v ===== *)
(** * Concepts (cpp/src/concept.hpp, equal.hpp, span_util.hpp, clone_util.hpp, command.hpp)

    A concept is a question the compiler asks of a type: is this expression valid, does it throw, what is its type?  A
    [program] answers for the types it declares; a concept is a function from a program and a type to a [bool].
    On concepts the library builds the choice of a comparison (equal.hpp) and the choice of an overload of
    [BinaryBuffer::write]. *)
From S2P Require Import Prelude Layout.

(** ** Types, expressions and programs *)

Inductive cty : Type :=
  | TVoid
  | TBool
  | TInt (name : str)
  | TFloat (bytes : Z) (iec559 : bool)
  | TEnum (name : str)
  | TPtr (const : bool) (t : cty)
  | TRef (const : bool) (t : cty)
  | TSpan (const : bool)
  | TShared (t : cty)
  | TClass (name : str).
#[export] Instance cty_eq_dec : EqDecision cty.
Proof. solve_decision. Defined.

Definition size_t : cty := TInt (W "unsigned long").
Definition int64_t : cty := TInt (W "long").
Definition TByte : cty := TEnum (W "std::byte").
Definition TChar : cty := TInt (W "char").

(** The expressions that the concepts ask about, over an object [t] of the type: [t.m(args)], [t.template m<targs>(args)],
    the same on a [const] object, [T::m(args)], [T(args)], [t[i]], [op t], [t op t], [os << t], [is >> t]. *)
Inductive expr : Type :=
  | ECall (m : str) (args : list cty)
  | ECallTemplate (m : str) (targs args : list cty)
  | EConstCall (m : str) (args : list cty)
  | EStaticCall (m : str) (args : list cty)
  | EConstruct (args : list cty)
  | EIndex (const : bool)
  | EUnary (op : str)
  | EBinary (op : str)
  | EInsert (wide : bool)
  | EExtract (wide : bool).
#[export] Instance expr_eq_dec : EqDecision expr.
Proof. solve_decision. Defined.

Inductive trait : Type :=
  | is_standard_layout_v | is_trivially_copyable_v | has_unique_object_representations_v
  | is_trivially_destructible_v | is_trivially_constructible_v | is_trivially_assignable_v (u : cty)
  | is_trivially_copy_assignable_v | is_trivially_move_assignable_v | is_trivially_move_constructible_v
  | is_trivially_copy_constructible_v | contiguous_range | sized_range | range.
#[export] Instance trait_eq_dec : EqDecision trait.
Proof. solve_decision. Defined.

(** The type of a valid expression, [decltype((e))], and whether it is [noexcept]; a static member has a type, which may be
    constant. *)
Record value := mk_value { v_type : cty; v_noexcept : bool }.

Record program := mk_program {
  valid : cty -> expr -> option value;
  static_member : cty -> str -> option (bool * cty);
  nested : cty -> str -> option cty;
  derived : cty -> cty -> bool;
  converts : cty -> cty -> bool;
  has_trait : cty -> trait -> bool }.

Section concepts.
Context (P : program).

(** *** [std::convertible_to]

    Standard conversions; those of classes, to themselves included, are the program's. *)
Definition is_arithmetic (t : cty) : bool := match t with TBool | TInt _ | TFloat _ _ => true | _ => false end.
Definition value_conv (from to : cty) : bool :=
  match from, to with
  | TPtr c t, TPtr c' t' => implb c c' && (bool_decide (t = t') || bool_decide (t' = TVoid) || derived P t t')
  | TPtr _ _, TBool => true
  | TSpan c, TSpan c' => implb c c'
  | TShared t, TShared t' => bool_decide (t = t') || bool_decide (t' = TVoid) || derived P t t'
  | TClass _, _ | _, TClass _ => converts P from to
  | TVoid, _ | _, TVoid => false
  | _, _ => bool_decide (from = to) || is_arithmetic from && is_arithmetic to
  end.
Definition convertible_to (to from : cty) : bool :=
  match from, to with
  | TVoid, TVoid => true
  | TVoid, _ | _, TVoid => false
  | TRef c t, TRef c' u => implb c c' && (bool_decide (t = u) || derived P t u) || c' && value_conv t u
  | t, TRef c' u => c' && (value_conv t u || derived P t u)
  | TRef _ t, u => value_conv t u
  | t, u => value_conv t u
  end.
Definition same_as (u t : cty) : bool := bool_decide (t = u).
Definition any_type (t : cty) : bool := true.

(** A compound requirement: the expression is valid, its type satisfies the constraint, and it does not throw where
    [noexcept] is asked for. *)
Definition compound (T : cty) (e : expr) (no_throw : bool) (constraint : cty -> bool) : bool :=
  match valid P T e with Some v => implb no_throw (v_noexcept v) && constraint (v_type v) | None => false end.
(** [{ T::m }]: the expression is an lvalue, so its type is a reference. *)
Definition static_compound (T : cty) (m : str) (constraint : cty -> bool) : bool :=
  match static_member P T m with Some (const, t) => constraint (TRef const t) | None => false end.
(** A simple requirement: a well-formed expression, whatever its value. *)
Definition simple_requirement {A} (e : A) : bool := true.
(** [typename T::n]. *)
Definition type_requirement (T : cty) (n : str) : bool := bool_decide (is_Some (nested P T n)).
Definition with_nested (T : cty) (n : str) (k : cty -> bool) : bool := match nested P T n with Some u => k u | None => false end.

(** *** Objects that check, hash and compare *)

(* src: cpp/src/concept.hpp:22-26 Checkable *)
Definition Checkable (T : cty) (Args : list cty) : bool := compound T (ECall (W "ok") Args) false (convertible_to TBool).
(* src: cpp/src/concept.hpp:29-33 Hashable *)
Definition Hashable (T : cty) : bool := compound T (ECall (W "hash") []) false (convertible_to int64_t).
(* src: cpp/src/concept.hpp:36-41 RangeCheckable *)
Definition RangeCheckable (T : cty) : bool :=
  compound T (EBinary (W ">=")) false (convertible_to TBool) && compound T (EBinary (W "<=")) false (convertible_to TBool).
(* src: cpp/src/concept.hpp:44-48 DefaultConstructible *)
Definition DefaultConstructible (T : cty) : bool := compound T (EConstruct []) true any_type.
(* src: cpp/src/concept.hpp:51-56 Initializable *)
Definition Initializable (T : cty) (Args : list cty) : bool :=
  compound T (EConstruct Args) true any_type && compound T (ECall (W "initialize") Args) true (convertible_to TBool).

(** *** Factories *)

Definition NewFactory (T : cty) : cty := TClass (W "NewFactory").
(** [std::derived_from<...>;] stands alone in the braces: it is checked for validity, not for truth. *)
(* src: cpp/src/concept.hpp:59-64 Factorable *)
Definition Factorable (T : cty) : bool :=
  type_requirement T (W "Factory") && with_nested T (W "Factory") (fun F => simple_requirement (derived P F (NewFactory T))).
Definition Factory_P (T : cty) : option cty := match nested P T (W "Factory") with Some F => nested P F (W "P") | None => None end.
(* src: cpp/src/concept.hpp:68-72 FactoryConstructible *)
Definition FactoryConstructible (T : cty) (Args : list cty) : bool :=
  Initializable T Args
  && match Factory_P T with Some p => compound T (EStaticCall (W "get") Args) true (convertible_to p) | None => false end
  && Factorable T.
(* src: cpp/src/concept.hpp:80-84 AFactory *)
Definition AFactory (T : cty) (Args : list cty) : bool := compound T (ECall (W "get") Args) true (convertible_to (TShared T)).

(** *** Containers *)

(* src: cpp/src/concept.hpp:87-94 IsLikeArray *)
Definition IsLikeArray (T : cty) : bool :=
  with_nested T (W "value_type") (fun v =>
    compound T (ECall (W "at") [size_t]) false (convertible_to (TRef false v))
    && compound T (EIndex false) false (convertible_to (TRef false v))
    && compound T (ECall (W "size") []) false (convertible_to size_t)).
(* src: cpp/src/concept.hpp:97-98 IsLikeArrayOfV *)
Definition IsLikeArrayOfV (T V : cty) : bool := IsLikeArray T && with_nested T (W "value_type") (same_as V).
(** The type of the expression is a nested type of the container. *)
Definition returns_nested (T : cty) (e : expr) (n : str) : bool := with_nested T n (fun u => compound T e false (same_as u)).
(* src: cpp/src/concept.hpp:100-119 IsContainer *)
Definition IsContainer (T : cty) : bool :=
  has_trait P T range
  && type_requirement T (W "value_type") && type_requirement T (W "reference") && type_requirement T (W "const_reference")
  && returns_nested T (ECall (W "begin") []) (W "iterator") && returns_nested T (EConstCall (W "begin") []) (W "const_iterator")
  && returns_nested T (ECall (W "end") []) (W "iterator") && returns_nested T (EConstCall (W "end") []) (W "const_iterator")
  && compound T (ECall (W "size") []) false (convertible_to size_t) && compound T (ECall (W "empty") []) false (same_as TBool)
  && returns_nested T (EIndex false) (W "reference") && returns_nested T (EIndex true) (W "const_reference")
  && returns_nested T (ECall (W "at") [size_t]) (W "reference") && returns_nested T (EConstCall (W "at") [size_t]) (W "const_reference").
(* src: cpp/src/concept.hpp:122-123 IsContainerOfV *)
Definition IsContainerOfV (T V : cty) : bool := IsContainer T && with_nested T (W "value_type") (same_as V).
(* src: cpp/src/concept.hpp:126-131 Interfaceable *)
Definition Interfaceable (T : cty) : bool := type_requirement T (W "I") && type_requirement T (W "I_RO").

(** *** Logic and streams *)

(* src: cpp/src/concept.hpp:134-138 Negatable *)
Definition Negatable (T : cty) : bool := compound T (EUnary (W "!")) true (convertible_to TBool).
(* src: cpp/src/concept.hpp:141-145 Andable *)
Definition Andable (T : cty) : bool := compound T (EBinary (W "&&")) true (convertible_to TBool).
(* src: cpp/src/concept.hpp:148-152 Orable *)
Definition Orable (T : cty) : bool := compound T (EBinary (W "||")) true (convertible_to TBool).
(* src: cpp/src/concept.hpp:155-159 Xorable *)
Definition Xorable (T : cty) : bool := compound T (EBinary (W "^")) true (convertible_to TBool).

Definition ostream (wide : bool) : cty := TClass (if wide then W "std::wostream" else W "std::ostream").
Definition istream (wide : bool) : cty := TClass (if wide then W "std::wistream" else W "std::istream").
(* src: cpp/src/concept.hpp:162-163 NarrowOutputStreamable *)
Definition NarrowOutputStreamable (T : cty) : bool := compound T (EInsert false) false (same_as (TRef false (ostream false))).
(* src: cpp/src/concept.hpp:166-167 WideOutputStreamable *)
Definition WideOutputStreamable (T : cty) : bool := compound T (EInsert true) false (same_as (TRef false (ostream true))).
(* src: cpp/src/concept.hpp:170-171 OutputStreamable *)
Definition OutputStreamable (T : cty) : bool := NarrowOutputStreamable T || WideOutputStreamable T.
(* src: cpp/src/concept.hpp:174-175 NarrowInputStreamable *)
Definition NarrowInputStreamable (T : cty) : bool := compound T (EExtract false) false (same_as (TRef false (istream false))).
(* src: cpp/src/concept.hpp:178-179 WideInputStreamable *)
Definition WideInputStreamable (T : cty) : bool := compound T (EExtract true) false (same_as (TRef false (istream true))).
(* src: cpp/src/concept.hpp:182-183 InputStreamable *)
Definition InputStreamable (T : cty) : bool := NarrowInputStreamable T || WideInputStreamable T.
(* src: cpp/src/concept.hpp:186-187 Streamable *)
Definition Streamable (T : cty) : bool := OutputStreamable T && InputStreamable T.

(** *** Bytes *)

(** [reinterpret_cast<char* >] is given the value that [t] points to, not its address: it is valid for a pointer to something that is not
    [const], and for a value of an integral or enumeration type. *)
Definition reinterpret_to_pointer (T : cty) : bool :=
  match T with TPtr false _ | TBool | TInt _ | TEnum _ => true | _ => false end.
(* src: cpp/src/concept.hpp:190-193 CharCastable *)
Definition CharCastable (T : cty) : bool := reinterpret_to_pointer T && same_as (TPtr false TChar) (TPtr false TChar).
(* src: cpp/src/concept.hpp:196-199 ByteCastable *)
Definition ByteCastable (T : cty) : bool := reinterpret_to_pointer T && same_as (TPtr false TByte) (TPtr false TByte).
(** [sizeof] asks for a complete type and has the type [size_t]. *)
(* src: cpp/src/concept.hpp:202-206 Sizeofable *)
Definition Sizeofable (T : cty) : bool := bool_decide (T <> TVoid) && same_as size_t size_t.
(* src: cpp/src/concept.hpp:209-210 Identifiable *)
Definition Identifiable (T : cty) : bool := compound T (ECall (W "id") []) false (convertible_to int64_t).
(* src: cpp/src/concept.hpp:213-214 SizeableIdentifiable *)
Definition SizeableIdentifiable (T : cty) : bool := Identifiable T && Sizeofable T.
(* src: cpp/src/concept.hpp:217-218 Countable *)
Definition Countable (T : cty) : bool := compound T (ECall (W "count") []) false (convertible_to size_t).
(* src: cpp/src/concept.hpp:221-222 Sizeable *)
Definition Sizeable (T : cty) : bool := compound T (ECall (W "size") []) false (convertible_to size_t).
(* src: cpp/src/concept.hpp:225-226 BinaryStreamable *)
Definition BinaryStreamable (T : cty) : bool := CharCastable T && Sizeofable T && Streamable T.
(* src: cpp/src/concept.hpp:229-233 ConstByteSpanConvertible *)
Definition ConstByteSpanConvertible (T : cty) : bool := compound T (ECall (W "bytes") []) false (convertible_to (TSpan true)).
(* src: cpp/src/concept.hpp:236-240 WritableByteSpanConvertible *)
Definition WritableByteSpanConvertible (T : cty) : bool := compound T (ECall (W "wbytes") []) false (convertible_to (TSpan false)).
(* src: cpp/src/concept.hpp:242-243 ByteSpanConvertible *)
Definition ByteSpanConvertible (T : cty) : bool := ConstByteSpanConvertible T && WritableByteSpanConvertible T.
(* src: cpp/src/concept.hpp:246-247 BinaryReadable *)
Definition BinaryReadable (T : cty) : bool := compound T (ECall (W "read") [TRef false (TSpan false)]) false (convertible_to TVoid).
(* src: cpp/src/concept.hpp:250-254 ObjectBinaryReadable *)
Definition ObjectBinaryReadable (T Obj : cty) : bool :=
  compound T (ECallTemplate (W "read") [Obj] [TPtr false Obj]) false (convertible_to TVoid) && BinaryReadable T.
(* src: cpp/src/concept.hpp:257-261 FactoryObjBinaryReadable *)
Definition FactoryObjBinaryReadable (T Obj : cty) (Args : list cty) : bool :=
  match Factory_P Obj with
  | Some p => compound T (ECallTemplate (W "read") (Obj :: Args) []) false (convertible_to p)
  | None => false
  end && ObjectBinaryReadable T Obj && FactoryConstructible Obj Args.
(* src: cpp/src/concept.hpp:264-269 Pointable *)
Definition Pointable (T : cty) : bool :=
  compound T (ECall (W "operator->") []) false (convertible_to (TPtr false T)) && compound T (EUnary (W "*")) false (convertible_to (TRef false T)).

(** *** Layout *)

(* src: cpp/src/concept.hpp:272-273 StandardLayout *)
Definition StandardLayout (T : cty) : bool := has_trait P T is_standard_layout_v.
(* src: cpp/src/concept.hpp:276-277 TriviallyCopyable *)
Definition TriviallyCopyable (T : cty) : bool := has_trait P T is_trivially_copyable_v.
(* src: cpp/src/concept.hpp:280-281 StdLayoutTriviallyCopyable *)
Definition StdLayoutTriviallyCopyable (T : cty) : bool := StandardLayout T && TriviallyCopyable T.
(* src: cpp/src/concept.hpp:284-285 NoPadding *)
Definition NoPadding (T : cty) : bool := has_trait P T has_unique_object_representations_v.
(* src: cpp/src/concept.hpp:288-289 StdLayoutTriviallyCopyableNoPadding *)
Definition StdLayoutTriviallyCopyableNoPadding (T : cty) : bool := StdLayoutTriviallyCopyable T && NoPadding T.
(* src: cpp/src/concept.hpp:292-295 IntegerLike *)
Definition IntegerLike (T : cty) : bool := match T with TBool | TInt _ => negb (same_as TBool T) | _ => false end.
(* src: cpp/src/concept.hpp:297-300 WireSafe *)
Definition WireSafe (T : cty) : bool := has_trait P T is_trivially_copyable_v && has_trait P T has_unique_object_representations_v.
(* src: cpp/src/concept.hpp:302-306 IEEE754Binary *)
Definition IEEE754Binary (T : cty) : bool :=
  match T with TFloat bytes iec559 => iec559 && ((bytes =? 4)%Z || (bytes =? 8)%Z) | _ => false end.
Definition Data : cty := TClass (W "pensar_digital::cpplib::Data").
(* src: cpp/src/concept.hpp:308-315 HasStdLayoutTriviallyCopyableData *)
Definition HasStdLayoutTriviallyCopyableData (T : cty) : bool :=
  compound T (ECall (W "data") []) false (convertible_to (TPtr true Data))
  && compound T (ECall (W "data_size") []) false (convertible_to size_t)
  && static_compound T (W "DATA_SIZE") (convertible_to size_t)
  && static_compound T (W "SIZE") (convertible_to size_t)
  && with_nested T (W "DataType") TriviallyCopyable && with_nested T (W "DataType") StdLayoutTriviallyCopyable.
(* src: cpp/src/concept.hpp:317-322 TriviallyPersistable *)
Definition TriviallyPersistable (T : cty) : bool :=
  compound T (ECall (W "data") []) false (convertible_to (TPtr true Data))
  && compound T (ECall (W "data_size") []) false (convertible_to size_t)
  && with_nested T (W "DataType") TriviallyCopyable && Identifiable T && Hashable T.
(* src: cpp/src/concept.hpp:325-326 TriviallyDestructible *)
Definition TriviallyDestructible (T : cty) : bool := has_trait P T is_trivially_destructible_v.
(* src: cpp/src/concept.hpp:329-330 TriviallyConstructible *)
Definition TriviallyConstructible (T : cty) : bool := has_trait P T is_trivially_constructible_v.
(* src: cpp/src/concept.hpp:333-334 TriviallyAssignable *)
Definition TriviallyAssignable (T U : cty) : bool := has_trait P T (is_trivially_assignable_v U).
(* src: cpp/src/concept.hpp:337-338 TriviallyCopyAssignable *)
Definition TriviallyCopyAssignable (T : cty) : bool := has_trait P T is_trivially_copy_assignable_v.
(* src: cpp/src/concept.hpp:341-342 TriviallyMoveAssignable *)
Definition TriviallyMoveAssignable (T : cty) : bool := has_trait P T is_trivially_move_assignable_v.
(* src: cpp/src/concept.hpp:345-346 TriviallyMoveConstructible *)
Definition TriviallyMoveConstructible (T : cty) : bool := has_trait P T is_trivially_move_constructible_v.
(* src: cpp/src/concept.hpp:349-350 TriviallyCopyConstructible *)
Definition TriviallyCopyConstructible (T : cty) : bool := has_trait P T is_trivially_copy_constructible_v.
(* src: cpp/src/concept.hpp:353-354 TriviallyMovable *)
Definition TriviallyMovable (T : cty) : bool := TriviallyMoveConstructible T && TriviallyMoveAssignable T.

(** *** Smart pointers, commands and buffers *)

Definition ClassInfo : cty := TClass (W "ClassInfo").
(** The type of the expression is asked to be [const ClassInfo], which no lvalue's is; then the type of the member is. *)
(* src: cpp/src/class_info.hpp:77-84 HasClassInfo *)
Definition HasClassInfo (T : cty) : bool :=
  static_compound T (W "INFO") (fun t => match t with TRef _ _ => false | t => same_as ClassInfo t end)
  && bool_decide (static_member P T (W "INFO") = Some (true, ClassInfo)).

(** [typename decltype(t.clone())::element_type]: a shared pointer has it, a class may. *)
Definition has_element_type (t : cty) : bool := match t with TShared _ => true | TClass _ => type_requirement t (W "element_type") | _ => false end.
(* src: cpp/src/clone_util.hpp:21-26 CloneableConcept *)
Definition CloneableConcept (T : cty) : bool := compound T (ECall (W "clone") []) false any_type && compound T (ECall (W "clone") []) false has_element_type.
(* src: cpp/src/command.hpp:31-35 CommandConcept *)
Definition CommandConcept (T : cty) : bool := compound T (ECall (W "run") []) false (same_as TVoid) && Identifiable T && CloneableConcept T.
(* src: cpp/src/command.hpp:37-41 DerivedCommandConcept *)
Definition DerivedCommandConcept (T : cty) : bool := compound T (ECall (W "_run") []) false (same_as TVoid) && CloneableConcept T.
(* src: cpp/src/command.hpp:43-47 UndoableCommandConcept *)
Definition UndoableCommandConcept (T : cty) : bool := CommandConcept T && compound T (ECall (W "undo") []) false (same_as TVoid).
(* src: cpp/src/command.hpp:49-50 DerivedUndoableCommandConcept *)
Definition DerivedUndoableCommandConcept (T : cty) : bool := DerivedCommandConcept T && UndoableCommandConcept T.

(* src: cpp/src/span_util.hpp:16-19 MemcmpSafe *)
Definition MemcmpSafe (T : cty) : bool := has_trait P T is_trivially_copyable_v && has_trait P T has_unique_object_representations_v.
(* src: cpp/src/span_util.hpp:36-39 ContiguousContainer *)
Definition ContiguousContainer (C : cty) : bool := has_trait P C contiguous_range && has_trait P C sized_range.
(** [std::as_writable_bytes] takes no span of constants. *)
Definition as_writable_bytes (s : cty) : option cty := match s with TSpan false => Some (TSpan false) | _ => None end.
(** The type of the call, when it compiles. *)
(* src: cpp/src/span_util.hpp:21-25 bytes *)
Definition bytes_call (T : cty) : option cty := if WireSafe T then Some (TSpan true) else None.
(* src: cpp/src/span_util.hpp:28-34 wbytes *)
Definition wbytes_call (T : cty) : option cty := if WireSafe T then s ← bytes_call T; as_writable_bytes s else None.
(** The bytes of a container of elements of [sizeof_T] bytes, one after the other. *)
(* src: cpp/src/span_util.hpp:41-62 ccbytes *)
Definition ccbytes (C value_type : cty) (elements : list (list byte)) : option (list byte) :=
  if ContiguousContainer C && MemcmpSafe value_type then Some (concat elements) else None.

(** *** Comparison (equal.hpp) *)

(* src: cpp/src/equal.hpp:14-15 TriviallyHashComparable *)
Definition TriviallyHashComparable (T : cty) : bool := HasStdLayoutTriviallyCopyableData T && Hashable T.
(* src: cpp/src/equal.hpp:18-21 HashComparableTag, DataComparableTag, TriviallyComparableTag, MemcmpSafeTag *)
Inductive equal_tag := HashComparableTag | DataComparableTag | TriviallyComparableTag | MemcmpSafeTag.
(* src: cpp/src/equal.hpp:24-37 EqualDispatchTag *)
Definition EqualDispatchTag (T : cty) : equal_tag :=
  if TriviallyHashComparable T then HashComparableTag
  else if HasStdLayoutTriviallyCopyableData T then DataComparableTag
  else if has_trait P T is_trivially_copyable_v then MemcmpSafeTag
  else TriviallyComparableTag.
(** Whether the overload for the tag takes the type, and its body compiles. *)
(* src: cpp/src/equal.hpp:40-65 equal_impl *)
Definition equal_impl_accepts (T : cty) (tag : equal_tag) : bool :=
  match tag with
  | HashComparableTag => TriviallyHashComparable T && HasStdLayoutTriviallyCopyableData T
  | DataComparableTag => HasStdLayoutTriviallyCopyableData T
  | TriviallyComparableTag => compound T (EBinary (W "==")) false (convertible_to TBool)
  | MemcmpSafeTag => WireSafe T
  end.
(* src: cpp/src/equal.hpp:73-77 equal *)
Definition equal_compiles (T : cty) : bool := equal_impl_accepts T (EqualDispatchTag T).

(** *** What [BinaryBuffer::write] does with an argument (binary_buffer.hpp) *)

Inductive category := Lvalue | ConstLvalue | Temporary.
#[export] Instance category_eq_dec : EqDecision category.
Proof. solve_decision. Defined.
Definition BinaryBuffer : cty := TClass (W "BinaryBuffer").
(** For a [const T] the calls are made on a constant object. *)
(* src: cpp/src/binary_buffer.hpp:28-34 BinaryBufferIO *)
Definition IsBinaryBufferIO (const : bool) (T : cty) : bool :=
  let call m := (if const then EConstCall m else ECall m) [TRef false BinaryBuffer] in
  compound T (call (W "write")) false (same_as (TRef false BinaryBuffer)) && compound T (call (W "read")) false (same_as (TRef false BinaryBuffer)).
Definition span_constness (T : cty) : option bool := match T with TSpan const => Some const | _ => None end.
Inductive write_overload := WriteConstSpan | WriteSpan | WriteObject | WritePod.
(** The object overload takes a [T&], which no temporary is; its [T] is constant for a constant argument.  The two
    templates fit exactly where they fit at all, so the spans are only tried without them; where an argument converts to
    both, the one of writable bytes is chosen, which is no template. *)
(* src: cpp/src/binary_buffer.hpp:86-105 BinaryBuffer::write *)
Definition select_write (c : category) (T : cty) : option write_overload :=
  match span_constness T with
  | Some const => Some (if const : bool then WriteConstSpan else WriteSpan)
  | None =>
      let const := bool_decide (c = ConstLvalue) in
      if IsBinaryBufferIO const T && negb (bool_decide (c = Temporary)) then Some WriteObject
      else if has_trait P T is_trivially_copyable_v && negb (IsBinaryBufferIO false T) then Some WritePod
      else match convertible_to (TSpan true) T, convertible_to (TSpan false) T && negb const with
           | _, true => Some WriteSpan
           | true, false => Some WriteConstSpan
           | false, false => None
           end
  end.
End concepts.

(** ** What the concepts imply *)

Section theorems.
Context (P : program).

Lemma compound_weaken T e b k k' : (forall t, k t = true -> k' t = true) -> compound P T e b k = true -> compound P T e false k' = true.
Proof. unfold compound. intros Hk. destruct (valid P T e); [|done]. rewrite !andb_true_iff. intros [_ H]. split; [done|by apply Hk]. Qed.

Lemma with_nested_weaken T n k k' : (forall t, k t = true -> k' t = true) -> with_nested P T n k = true -> with_nested P T n k' = true.
Proof. unfold with_nested. intros Hk. destruct (nested P T n); [apply Hk|done]. Qed.

(** Each concept against those its comment says it is made of.  The combined concepts imply their parts; data that is
    comparable by its bytes is persistent when the class has an id and a hash; what cannot hold: no class is
    [CharCastable], so no class is [BinaryStreamable]; a class whose [read] returns the buffer or itself is not [BinaryReadable]; and a
    [Factory] is only asked to exist, whatever it derives from. *)
Theorem concept_lattice (T : cty) (Args : list cty) :
  (FactoryConstructible P T Args = true -> Initializable P T Args = true /\ Factorable P T = true)
  /\ (HasStdLayoutTriviallyCopyableData P T = true -> Identifiable P T = true -> Hashable P T = true -> TriviallyPersistable P T = true)
  /\ (DerivedUndoableCommandConcept P T = true -> UndoableCommandConcept P T = true /\ CommandConcept P T = true /\ Identifiable P T = true)
  /\ (StdLayoutTriviallyCopyableNoPadding P T = true -> WireSafe P T = true /\ MemcmpSafe P T = true)
  /\ (Factorable P T = bool_decide (is_Some (nested P T (W "Factory"))))
  /\ ((exists n, T = TClass n) -> CharCastable T = false /\ BinaryStreamable P T = false)
  /\ (forall v, valid P T (ECall (W "read") [TRef false (TSpan false)]) = Some v -> BinaryReadable P T = bool_decide (v_type v = TVoid))
  /\ wbytes_call P T = None.
Proof.
  split; [|split; [|split; [|split; [|split; [|split; [|split]]]]]].
  - unfold FactoryConstructible. rewrite !andb_true_iff. tauto.
  - unfold HasStdLayoutTriviallyCopyableData, TriviallyPersistable. rewrite !andb_true_iff. tauto.
  - unfold DerivedUndoableCommandConcept, UndoableCommandConcept, CommandConcept. rewrite !andb_true_iff. tauto.
  - unfold StdLayoutTriviallyCopyableNoPadding, StdLayoutTriviallyCopyable, WireSafe, MemcmpSafe, TriviallyCopyable, NoPadding. rewrite !andb_true_iff. tauto.
  - unfold Factorable, type_requirement, with_nested. destruct (nested P T (W "Factory")); [done|]. by rewrite andb_false_r.
  - intros [n ->]. done.
  - intros v Hv. unfold BinaryReadable, compound. rewrite Hv. by destruct (v_type v).
  - unfold wbytes_call, bytes_call. by destruct (WireSafe P T).
Qed.

(** [equal<T>] compiles for a type with data, and then compares its bytes, after the hashes when it has one; without data, a
    trivially copyable type is compared by its own bytes, and only when it has no padding: one with padding, or a [double],
    is refused even if it has an [==]; the [==] is used for the other types.  So the bytes of an object are compared only
    where equal values have equal bytes. *)
Theorem equal_dispatch (T : cty) :
  equal_compiles P T
    = HasStdLayoutTriviallyCopyableData P T
      || (if TriviallyCopyable P T then NoPadding P T else compound P T (EBinary (W "==")) false (convertible_to P TBool))
  /\ (EqualDispatchTag P T = MemcmpSafeTag -> equal_compiles P T = true -> NoPadding P T = true)
  /\ (EqualDispatchTag P T = TriviallyComparableTag -> TriviallyCopyable P T = false)
  /\ (EqualDispatchTag P T = HashComparableTag <-> HasStdLayoutTriviallyCopyableData P T = true /\ Hashable P T = true).
Proof.
  unfold equal_compiles, EqualDispatchTag, TriviallyHashComparable, WireSafe, TriviallyCopyable, NoPadding.
  destruct (HasStdLayoutTriviallyCopyableData P T) eqn:D, (Hashable P T) eqn:E; cbn [andb orb equal_impl_accepts];
    unfold TriviallyHashComparable, WireSafe; rewrite ?D, ?E; try (split; [done|naive_solver]);
    destruct (has_trait P T is_trivially_copyable_v) eqn:F; cbn [andb equal_impl_accepts]; unfold WireSafe; rewrite ?F; naive_solver.
Qed.

(** What [write] does with an argument never depends on padding, but on what the class offers: a class that serializes itself
    does so, unless the argument is constant and its [read] is not, or is a temporary: then its bytes are not written either, for
    only a trivially copyable type without [write] and [read] is written as its bytes. *)
Theorem write_selection (c : category) (T : cty) :
  (select_write P c T = Some WritePod -> TriviallyCopyable P T = true /\ IsBinaryBufferIO P false T = false)
  /\ (select_write P c T = Some WriteObject -> c <> Temporary /\ IsBinaryBufferIO P (bool_decide (c = ConstLvalue)) T = true)
  /\ (IsBinaryBufferIO P false T = true -> span_constness T = None -> select_write P Lvalue T = Some WriteObject)
  /\ (IsBinaryBufferIO P false T = true -> IsBinaryBufferIO P true T = false ->
       convertible_to P (TSpan true) T = false -> convertible_to P (TSpan false) T = false -> span_constness T = None ->
       select_write P ConstLvalue T = None /\ select_write P Temporary T = None).
Proof.
  unfold select_write, TriviallyCopyable. destruct (span_constness T) as [s|] eqn:E; [by destruct s; naive_solver|].
  destruct (IsBinaryBufferIO P false T) eqn:Ef, (IsBinaryBufferIO P true T) eqn:Et, c; cbn [bool_decide decide_rel category_eq_dec];
    rewrite ?Ef, ?Et; simpl; rewrite ?Ef, ?Et; destruct (has_trait P T is_trivially_copyable_v), (convertible_to P (TSpan true) T), (convertible_to P (TSpan false) T);
    simpl; naive_solver.
Qed.
End theorems.

(** ** The program's classes

    What the public interfaces of the classes say: the expressions, static members and nested types of each, those of its
    base where it does not hide them, and the layout of its data. *)

Record class_desc := mk_class {
  c_base : option str; c_exprs : list (expr * value); c_static : list (str * (bool * cty)); c_types : list (str * cty); c_layout : option layout }.

Definition method (m : str) (args : list cty) (t : cty) (noexc : bool) : expr * value := (ECall m args, mk_value t noexc).
(** A [const] member function can be called on any object. *)
Definition const_method (m : str) (args : list cty) (t : cty) (noexc : bool) : list (expr * value) :=
  [(ECall m args, mk_value t noexc); (EConstCall m args, mk_value t noexc)].
Definition buffer_ref : cty := TRef false BinaryBuffer.
Definition Data_of (c : str) : cty := TClass (c ++ W "::Data").

(** [write(bb) const] and [read(bb)]. *)
Definition serialization : list (expr * value) := const_method (W "write") [buffer_ref] buffer_ref true ++ [method (W "read") [buffer_ref] buffer_ref true].
Definition data_members : list (str * (bool * cty)) := [(W "DATA_SIZE", (true, size_t)); (W "SIZE", (true, size_t))].
Definition INFO_member : str * (bool * cty) := (W "INFO", (true, ClassInfo)).

Definition data_layout (name : str) (align : Z) (ms : list member) : layout :=
  mk_layout name (fold_left (fun e m => m_end m) ms 0%Z) align ms true true.

(* src: cpp/src/object.hpp:131-138 Object *)
Definition Object_class : class_desc := mk_class None
  (const_method (W "data") [] (TPtr true Data) true ++ const_method (W "data_size") [] size_t true ++ const_method (W "size") [] size_t true
    ++ const_method (W "id") [] int64_t true ++ const_method (W "hash") [] int64_t true ++ const_method (W "clone") [] (TShared (TClass (W "Object"))) true
    ++ [(EConstruct [Data_of (W "Object")], mk_value (TClass (W "Object")) true); (EConstruct [], mk_value (TClass (W "Object")) true);
        method (W "initialize") [Data_of (W "Object")] TBool true;
        (EStaticCall (W "get") [Data_of (W "Object")], mk_value (TShared (TClass (W "Object"))) false);
        (EInsert false, mk_value (TRef false (ostream false)) false); (EExtract false, mk_value (TRef false (istream false)) false);
        (EBinary (W "=="), mk_value TBool true)] ++ serialization)
  (INFO_member :: data_members) [(W "DataType", Data_of (W "Object")); (W "FactoryType", TClass (W "Factory<Object>"))] None.
(* src: cpp/src/object.hpp:112-116 Object::Data *)
Definition Object_Data_layout : layout := data_layout (W "Object::Data") 8 [mk_member (W "mid") 0 8 true].

(* src: cpp/src/generator.hpp:61-71 Generator *)
Definition Generator_class : class_desc := mk_class (Some (W "Object"))
  (const_method (W "data") [] (TPtr true Data) true ++ const_method (W "data_size") [] size_t true
    ++ [method (W "clone") [] (TShared (TClass (W "Generator"))) false;
        (EConstruct [int64_t; int64_t; int64_t], mk_value (TClass (W "Generator")) true); (EConstruct [], mk_value (TClass (W "Generator")) true);
        method (W "initialize") [int64_t; int64_t; int64_t] TBool true;
        (EStaticCall (W "get") [int64_t; int64_t; int64_t], mk_value (TShared (TClass (W "Generator"))) true)] ++ serialization)
  (INFO_member :: data_members) [(W "DataType", Data_of (W "Generator")); (W "Factory", TClass (W "Factory<Generator>"))] None.
(* src: cpp/src/generator.hpp:52-58 Generator::Data *)
Definition Generator_Data_layout : layout :=
  data_layout (W "Generator::Data") 8 [mk_member (W "minitial_value") 0 8 true; mk_member (W "mvalue") 8 8 true; mk_member (W "mstep") 16 8 true].

(** A constructor that may call [get_id] does not say [noexcept]. *)
(* src: cpp/src/command.hpp:67-90 Command *)
Definition Command_class : class_desc := mk_class (Some (W "Object"))
  (const_method (W "data") [] (TPtr true Data) true ++ const_method (W "data_size") [] size_t true
    ++ const_method (W "clone") [] (TShared (TClass (W "Command"))) true ++ const_method (W "undo") [] TVoid false ++ const_method (W "ok") [] TBool false
    ++ [(EConstruct [int64_t; Data_of (W "Command")], mk_value (TClass (W "Command")) false);
        method (W "initialize") [int64_t; Data_of (W "Command")] TBool true; method (W "run") [] TVoid false] ++ serialization)
  (INFO_member :: data_members) [(W "DataType", Data_of (W "Command")); (W "Factory", TClass (W "Factory<Command>"))] None.
(* src: cpp/src/command.hpp:58-62 Command::Data *)
Definition Command_Data_layout : layout := data_layout (W "Command::Data") 1 [mk_member (W "mok") 0 1 true].

(* src: cpp/src/command.hpp:208-217 NullCommand *)
Definition NullCommand_class : class_desc := mk_class (Some (W "Command"))
  ([method (W "_run") [] TVoid false; (EConstruct [], mk_value (TClass (W "NullCommand")) false)]
    ++ const_method (W "_undo") [] TVoid false ++ const_method (W "clone") [] (TShared (TClass (W "Command"))) true)
  [INFO_member] [] None.
(* src: cpp/src/command.hpp:290-304 CompositeCommand *)
Definition CompositeCommand_class : class_desc := mk_class (Some (W "Command"))
  ([method (W "_run") [] TVoid false; (EConstruct [int64_t], mk_value (TClass (W "CompositeCommand")) false);
    method (W "initialize") [int64_t] TBool true; (EStaticCall (W "get") [int64_t], mk_value (TShared (TClass (W "CompositeCommand"))) true)]
    ++ const_method (W "_undo") [] TVoid false)
  [INFO_member; (W "DATA_SIZE", (true, size_t))] [(W "DataType", Data_of (W "CompositeCommand")); (W "Factory", TClass (W "Factory<CompositeCommand>"))] None.
(* src: cpp/src/command.hpp:262-287 CompositeCommand::Data *)
Definition CompositeCommand_Data_layout : layout :=
  data_layout (W "CompositeCommand::Data") 8 [mk_member (W "mcommands") 0 80 true; mk_member (W "mindex") 80 8 true].

(* src: contact/person.hpp:144-164 Person *)
Definition Person_class : class_desc := mk_class (Some (W "Object"))
  ([(ECall (W "data") [], mk_value (TPtr false (Data_of (W "Person"))) true); (EConstCall (W "data") [], mk_value (TPtr true Data) true)]
    ++ const_method (W "data_size") [] size_t true ++ const_method (W "size") [] size_t true
    ++ [(EConstruct [], mk_value (TClass (W "Person")) false)] ++ serialization)
  (INFO_member :: data_members) [(W "DataType", Data_of (W "Person"))] None.
(* src: contact/person.hpp:118-132 Person::Data *)
Definition Person_Data_layout : layout :=
  data_layout (W "Person::Data") 2
    (map (fun n => mk_member (W "memail" ++ decimal (n + 1)) (n * 320) 320 true)%Z [0; 1; 2; 3; 4]%Z
      ++ [mk_member (W "mname") 1600 60 true; mk_member (W "mdate_of_birth") 1660 4 true]
      ++ map (fun n => mk_member (W "mphone" ++ decimal (n + 1)) (1664 + n * 21) 21 true)%Z [0; 1; 2; 3; 4]%Z
      ++ [mk_member (W "_reserved") 1769 1 true]).

(* src: cpp/src/class_info.hpp:63-73 ClassInfo *)
Definition ClassInfo_class : class_desc := mk_class None
  (const_method (W "bytes") [] (TSpan true) true ++ [method (W "wbytes") [] (TSpan false) true; (EBinary (W "=="), mk_value TBool true)]) [] []
  (Some (data_layout (W "ClassInfo") 2 [mk_member (W "mnamespace") 0 100 true; mk_member (W "mclass_name") 100 100 true;
     mk_member (W "mpublic_interface_version") 200 2 true; mk_member (W "mprotected_interface_version") 202 2 true;
     mk_member (W "mprivate_interface_version") 204 2 true])).
(* src: cpp/src/array.hpp:25-39 Array *)
Definition Array_class : class_desc := mk_class None
  (const_method (W "at") [size_t] (TRef false int64_t) false ++ const_method (W "size") [] size_t true
    ++ [(EIndex false, mk_value (TRef false int64_t) false); (EIndex true, mk_value (TRef false int64_t) false)])
  [] [(W "value_type", int64_t)] None.

Definition classes : list (str * class_desc) :=
  [(W "Object", Object_class); (W "Generator", Generator_class); (W "Command", Command_class); (W "NullCommand", NullCommand_class);
   (W "CompositeCommand", CompositeCommand_class); (W "Person", Person_class); (W "ClassInfo", ClassInfo_class); (W "Array", Array_class);
   (W "Object::Data", mk_class None [] [] [] (Some Object_Data_layout)); (W "Generator::Data", mk_class None [] [] [] (Some Generator_Data_layout));
   (W "Command::Data", mk_class None [] [] [] (Some Command_Data_layout));
   (W "CompositeCommand::Data", mk_class None [] [] [] (Some CompositeCommand_Data_layout)); (W "Person::Data", mk_class None [] [] [] (Some Person_Data_layout));
   (W "Factory<Generator>", mk_class None [method (W "get") [int64_t; int64_t; int64_t] (TShared (TClass (W "Generator"))) false] []
      [(W "P", TShared (TClass (W "Generator")))] None);
   (W "Factory<CompositeCommand>", mk_class None [method (W "get") [int64_t] (TShared (TClass (W "CompositeCommand"))) false] []
      [(W "P", TShared (TClass (W "CompositeCommand")))] None)].

Definition find_by {A B} `{EqDecision A} (k : A) (l : list (A * B)) : option B := list_find (fun p => fst p = k) l ≫= fun p => Some (snd (snd p)).
Definition class_named (n : str) : option class_desc := find_by n classes.
(** The chain of bases has at most three classes. *)
Fixpoint member_of {B} (fuel : nat) (get : class_desc -> option B) (n : str) : option B :=
  match fuel, class_named n with
  | S fuel, Some c => match get c with Some b => Some b | None => match c_base c with Some b => member_of fuel get b | None => None end end
  | _, _ => None
  end.
Definition DEPTH : nat := 3.
Fixpoint is_base (fuel : nat) (b n : str) : bool :=
  match fuel, class_named n with
  | S fuel, Some c => match c_base c with Some m => bool_decide (m = b) || is_base fuel b m | None => false end
  | _, _ => false
  end.
(** The data of every class derives from [Data]. *)
Definition is_data (n : str) : bool := bool_decide (n ∈ map (fun c => c ++ W "::Data") [W "Object"; W "Generator"; W "Command"; W "CompositeCommand"; W "Person"]).

Definition layout_trait (l : layout) (tr : trait) : bool :=
  match tr with
  | is_standard_layout_v => Layout.is_standard_layout l
  | is_trivially_copyable_v => Layout.is_trivially_copyable l
  | has_unique_object_representations_v => has_unique_object_representations l
  | _ => false
  end.
(** A class without a described layout has virtual functions or owns memory. *)
Definition pensar : program := mk_program
  (fun T e => match T with
              | TClass n => member_of DEPTH (fun c => find_by e (c_exprs c)) n
              | TInt _ | TBool | TFloat _ _ => if bool_decide (e = EBinary (W "==")) then Some (mk_value TBool true) else None
              | _ => None
              end)
  (fun T m => match T with TClass n => member_of DEPTH (fun c => find_by m (c_static c)) n | _ => None end)
  (fun T m => match T with TClass n => member_of DEPTH (fun c => find_by m (c_types c)) n | _ => None end)
  (fun T U => match T, U with TClass n, TClass b => is_base DEPTH b n || is_data n && bool_decide (TClass b = Data) | _, _ => false end)
  (fun T U => bool_decide (T = U))
  (fun T tr => match T with
               | TClass n => match class_named n ≫= c_layout with Some l => layout_trait l tr | None => false end
               | TInt _ | TBool | TEnum _ => match tr with range | contiguous_range | sized_range => false | _ => true end
               | TFloat _ _ => match tr with range | contiguous_range | sized_range | has_unique_object_representations_v => false | _ => true end
               | _ => false
               end).

Definition named (n : str) : cty := TClass n.
Definition double_t : cty := TFloat 8 true.

(** The assertions on concepts that the program makes of its own classes and the tests of them hold.  What does not: [Object] can not be made by
    [FactoryConstructible] code, for its [Factory] is private and its [get] may throw; commands are not [Initializable], though the comments on their
    [initialize] say so, because their constructors may throw; a generator is [FactoryConstructible] although its factory does not derive from
    [NewFactory]; no factory is an [AFactory]; no class is [BinaryReadable], and none has a [HasClassInfo].  A constant object can
    not be written to a buffer, nor a temporary. *)
Theorem program_concepts :
  forallb (fun c => StdLayoutTriviallyCopyableNoPadding pensar (Data_of c)) [W "Object"; W "Generator"; W "Command"; W "CompositeCommand"; W "Person"] = true
  /\ forallb (fun c => Identifiable pensar (named c) && Hashable pensar (named c) && TriviallyPersistable pensar (named c)
                       && HasStdLayoutTriviallyCopyableData pensar (named c)) [W "Object"; W "Generator"; W "Command"; W "NullCommand"; W "CompositeCommand"; W "Person"] = true
  /\ DerivedUndoableCommandConcept pensar (named (W "NullCommand")) = true /\ WireSafe pensar ClassInfo = true
  /\ IsLikeArrayOfV pensar (named (W "Array")) int64_t = true /\ ByteSpanConvertible pensar ClassInfo = true
  /\ FactoryConstructible pensar (named (W "Object")) [Data_of (W "Object")] = false /\ Factorable pensar (named (W "Object")) = false
  /\ Initializable pensar (named (W "Command")) [int64_t; Data_of (W "Command")] = false
  /\ Initializable pensar (named (W "CompositeCommand")) [int64_t] = false
  /\ FactoryConstructible pensar (named (W "Generator")) [int64_t; int64_t; int64_t] = true
  /\ AFactory pensar (named (W "Factory<Generator>")) [int64_t; int64_t; int64_t] = false
  /\ forallb (fun c => negb (HasClassInfo pensar (named (fst c))) && negb (BinaryReadable pensar (named (fst c)))) classes = true
  /\ map (EqualDispatchTag pensar) [named (W "Object"); named (W "NullCommand"); ClassInfo; double_t; int64_t]
     = [HashComparableTag; HashComparableTag; MemcmpSafeTag; MemcmpSafeTag; MemcmpSafeTag]
  /\ equal_compiles pensar double_t = false /\ equal_compiles pensar int64_t = true
  /\ map (fun c => select_write pensar c (named (W "Person"))) [Lvalue; ConstLvalue; Temporary] = [Some WriteObject; None; None]
  /\ map (fun c => select_write pensar c size_t) [Lvalue; ConstLvalue; Temporary] = [Some WritePod; Some WritePod; Some WritePod].
Proof. vm_compute. repeat split. Qed.
