(* ===== verification/Encodings.v ===== *)
(** * Encodings (cpp/src/encoding.hpp, cpp/src/icu_util.hpp, the accent functions of cpp/src/s.hpp)

    Text conversion goes through ICU.  [IcuText] is what the code calls of it and [IcuTextLaws] what its documentation
    says of those functions: UTF-16 strings are lists of code units, a status above zero is a failure, and
    a conversion into a buffer returns the length of the whole result whatever the capacity. *)
From S2P Require Import Prelude CS CodeUtil Bytes Arrays Distance.
Open Scope Z_scope.

(** ** UTF-16 *)

Definition is_lead (u : Z) : bool := (0xD800 <=? u) && (u <=? 0xDBFF).
Definition is_trail (u : Z) : bool := (0xDC00 <=? u) && (u <=? 0xDFFF).
Definition surrogates (a b : Z) : Z := 0x10000 + (a - 0xD800) * 1024 + (b - 0xDC00).
Definition encode16 (c : Z) : list Z :=
  if c <=? 0xFFFF then [c] else [0xD800 + (c - 0x10000) / 1024; 0xDC00 + (c - 0x10000) mod 1024].
(** The code points of a string, a surrogate without a partner standing for itself. *)
Fixpoint decode16 (u : list Z) : list Z :=
  match u with
  | [] => []
  | a :: rest =>
      match rest with
      | b :: rest' => if is_lead a && is_trail b then surrogates a b :: decode16 rest' else a :: decode16 rest
      | [] => [a]
      end
  end.
(** The code point that the unit [a] between [prev] and [next] belongs to. *)
Definition code_at (prev : option Z) (a : Z) (next : option Z) : Z :=
  match next with
  | Some b => if is_lead a && is_trail b then surrogates a b else
      match prev with Some l => if is_lead l && is_trail a then surrogates l a else a | None => a end
  | None => match prev with Some l => if is_lead l && is_trail a then surrogates l a else a | None => a end
  end.

(** ** ICU *)

Definition U_ZERO_ERROR : Z := 0.
Definition U_ILLEGAL_ARGUMENT_ERROR : Z := 1.
Definition U_BUFFER_OVERFLOW_ERROR : Z := 15.
Definition U_STRING_NOT_TERMINATED_WARNING : Z := -124.
Definition U_FAILURE (status : Z) : bool := 0 <? status.

(** A conversion into a buffer: what is in the buffer, the returned length and the status. *)
Definition converted (A : Type) : Type := list A * Z * Z.

Class IcuText := {
  ucnv_open : str -> Z;                                          (* the status; a null converter when it fails *)
  ucnv_toUChars : bool -> nat -> str -> Z -> converted Z;        (* converter, capacity, source, status *)
  ucnv_fromUChars : bool -> nat -> list Z -> Z -> converted byte;
  u_strToWCS : nat -> list Z -> Z -> list Z * Z;
  from_utf8 : str -> list Z;
  to_utf8_string : list Z -> str;
  nfd_status : Z;
  normalize : list Z -> Z -> list Z * Z;
  non_spacing_mark : Z -> bool;
  char32At : list Z -> nat -> Z;
  append32 : list Z -> Z -> list Z;
  u16_length : Z -> nat;
  ucsdet_open : Z -> Z;                                          (* the status after the call *)
  ucsdet_setText : list byte -> Z -> Z;
  ucsdet_detect : list byte -> Z -> nat * Z;                     (* the match of the text *)
  ucsdet_getName : nat -> Z -> str * Z;
}.

(** The status of a conversion with [len] units for [capacity] places. *)
Definition conversion_status (len capacity : nat) (status : Z) : Z :=
  if decide (len < capacity)%nat then status
  else if decide (len = capacity) then U_STRING_NOT_TERMINATED_WARNING else U_BUFFER_OVERFLOW_ERROR.

Class IcuTextLaws (I : IcuText) : Prop := {
  toUChars_spec : forall capacity src status, status <= 0 ->
    ucnv_toUChars true capacity src status
    = (take capacity (from_utf8 src ++ [0]), Z.of_nat (length (from_utf8 src)), conversion_status (length (from_utf8 src)) capacity status);
  toUChars_null : forall capacity src status, status <= 0 -> ucnv_toUChars false capacity src status = ([], 0, U_ILLEGAL_ARGUMENT_ERROR);
  toUChars_failed : forall conv capacity src status, 0 < status -> ucnv_toUChars conv capacity src status = ([], 0, status);
  fromUChars_spec : forall capacity u status, status <= 0 ->
    ucnv_fromUChars true capacity u status
    = (take capacity (to_utf8_string u ++ [NULL_CHAR]), Z.of_nat (length (to_utf8_string u)), conversion_status (length (to_utf8_string u)) capacity status);
  to_utf8_nil : to_utf8_string [] = [];
  to_utf8_cons : forall u, u <> [] -> to_utf8_string u <> [];
  from_utf8_units : forall s u, u ∈ from_utf8 s -> 0 <= u <= 0xFFFF;
  from_utf8_no_nul : forall s, no_nul s -> 0 ∉ from_utf8 s;
  normalize_units : forall u status v, (forall x, x ∈ u -> 0 <= x <= 0xFFFF) -> v ∈ fst (normalize u status) -> 0 <= v <= 0xFFFF;
  char32At_spec : forall u i a, u !! i = Some a -> char32At u i = code_at (match i with O => None | S j => u !! j end) a (u !! S i);
  append32_spec : forall u c, 0 <= c <= 0x10FFFF -> append32 u c = u ++ encode16 c;
  u16_length_spec : forall c, u16_length c = if c <=? 0xFFFF then 1%nat else 2%nat;
}.

(** [s.c_str()] for a function that reads up to the terminator. *)
Definition c_str (s : str) : str := take (cstr_length s) s.

(** ** Encoding (encoding.hpp) *)

(* src: cpp/src/encoding.hpp:14-14 BomBytes *)
Definition BomBytes : Type := list Z.
(* src: cpp/src/encoding.hpp:15-15 NO_BOM *)
Definition NO_BOM : BomBytes := [0; 0; 0; 0].
(* src: cpp/src/encoding.hpp:16-16 BOM_UTF_8 *)
Definition BOM_UTF_8 : BomBytes := [0xEF; 0xBB; 0xBF; 0x00].
(* src: cpp/src/encoding.hpp:17-17 BOM_UTF_16_BE *)
Definition BOM_UTF_16_BE : BomBytes := [0xFE; 0xFF; 0x00; 0x00].
(* src: cpp/src/encoding.hpp:18-18 BOM_UTF_16_LE *)
Definition BOM_UTF_16_LE : BomBytes := [0xFF; 0xFE; 0x00; 0x00].
(* src: cpp/src/encoding.hpp:19-19 BOM_UTF_32_BE *)
Definition BOM_UTF_32_BE : BomBytes := [0x00; 0x00; 0xFE; 0xFF].
(* src: cpp/src/encoding.hpp:20-20 BOM_UTF_32_LE *)
Definition BOM_UTF_32_LE : BomBytes := [0xFF; 0xFE; 0x00; 0x00].

(** The name is a [CS<>], an array of twenty characters; [endian] holds one of the values of [Endian]. *)
(* src: cpp/src/encoding.hpp:24-30 Encoding *)
Record Encoding := mk_encoding { name : str; bom : BomBytes; enc_endian : Z; has_bom : Bool; bom_size : Z }.
(* src: cpp/src/endian.hpp:17-20 Endian *)
Definition NOT_APPLICABLE : Z := -2.
Definition LITTLE : Z := 0.
Definition BIG : Z := 1.
Definition CS_DEFAULT_MAX : nat := 20.

(* src: cpp/src/encoding.hpp:32-34 Encoding::Encoding *)
Definition default_encoding : Encoding := mk_encoding (cs_null CS_DEFAULT_MAX) NO_BOM NOT_APPLICABLE Bool_F 0.
(* src: cpp/src/encoding.hpp:36-42 Encoding::Encoding *)
Definition new_encoding (name_value : str) (bom_value : BomBytes) (endian_value : Z) (has_bom_value : Bool) (bom_size_value : Z) : outcome Encoding :=
  noexcept (n ← cs_of_cstr 0 CS_DEFAULT_MAX name_value; Ret (mk_encoding n bom_value endian_value has_bom_value bom_size_value)).
(* src: cpp/src/encoding.hpp:44-47 Encoding::operator== *)
Definition encoding_eq `{I : Icu} (a b : Encoding) : outcome bool := cs_eq false false (name a) (name b).

(* src: cpp/src/encoding.hpp:53-53 ASCII *)
Definition ASCII := new_encoding (W "ASCII") NO_BOM NOT_APPLICABLE Bool_F 0.
(* src: cpp/src/encoding.hpp:54-54 UTF_8 *)
Definition UTF_8 := new_encoding (W "UTF-8") NO_BOM NOT_APPLICABLE Bool_F 0.
(* src: cpp/src/encoding.hpp:55-55 UTF_8_BOM *)
Definition UTF_8_BOM := new_encoding (W "UTF-8-BOM") BOM_UTF_8 NOT_APPLICABLE Bool_T 3.
(* src: cpp/src/encoding.hpp:56-56 UTF_16_BE *)
Definition UTF_16_BE := new_encoding (W "UTF-16-BE") NO_BOM BIG Bool_F 2.
(* src: cpp/src/encoding.hpp:57-57 UTF_16_BE_BOM *)
Definition UTF_16_BE_BOM := new_encoding (W "UTF-16-BE-BOM") BOM_UTF_16_BE BIG Bool_T 2.
(* src: cpp/src/encoding.hpp:58-58 UTF_16_LE *)
Definition UTF_16_LE := new_encoding (W "UTF-16-LE") NO_BOM LITTLE Bool_F 2.
(* src: cpp/src/encoding.hpp:59-59 UTF_16_LE_BOM *)
Definition UTF_16_LE_BOM := new_encoding (W "UTF-16-LE-BOM") BOM_UTF_16_LE LITTLE Bool_F 2.
(* src: cpp/src/encoding.hpp:60-60 UTF_32_BE *)
Definition UTF_32_BE := new_encoding (W "UTF-32-BE") NO_BOM BIG Bool_F 4.
(* src: cpp/src/encoding.hpp:61-61 UTF_32_BE_BOM *)
Definition UTF_32_BE_BOM := new_encoding (W "UTF-32-BE-BOM") BOM_UTF_32_BE BIG Bool_T 4.
(* src: cpp/src/encoding.hpp:62-62 UTF_32_LE *)
Definition UTF_32_LE := new_encoding (W "UTF-32-LE") NO_BOM LITTLE Bool_F 4.
(* src: cpp/src/encoding.hpp:63-63 UTF_32_LE_BOM *)
Definition UTF_32_LE_BOM := new_encoding (W "UTF-32-LE-BOM") BOM_UTF_32_LE LITTLE Bool_T 4.

(** ** Detection (icu_util.hpp) *)

Definition byte_is (buffer : list byte) (i : nat) (v : Z) : bool :=
  match buffer !! i with Some b => byte_val b =? v | None => false end.

(** The result and the encoding, which keeps its value when no mark is found. *)
(* src: cpp/src/icu_util.hpp:301-338 check_bom *)
Definition check_bom (buffer : list byte) (encoding : Encoding) : outcome (bool * Encoding) :=
  let found e := e ← e; Ret (true, e) in
  if decide (4 <= length buffer)%nat then
    if byte_is buffer 0 0x00 && byte_is buffer 1 0x00 && byte_is buffer 2 0xFE && byte_is buffer 3 0xFF then found UTF_32_BE_BOM
    else if byte_is buffer 0 0xFF && byte_is buffer 1 0xFE && byte_is buffer 2 0x00 && byte_is buffer 3 0x00 then found UTF_32_LE_BOM
    else Ret (true, encoding)
  else if decide (3 <= length buffer)%nat then
    if byte_is buffer 0 0xEF && byte_is buffer 1 0xBB && byte_is buffer 2 0xBF then found UTF_8_BOM else Ret (true, encoding)
  else if decide (2 <= length buffer)%nat then
    if byte_is buffer 0 0xFE && byte_is buffer 1 0xFF then found UTF_16_BE_BOM
    else if byte_is buffer 0 0xFF && byte_is buffer 1 0xFE then found UTF_16_LE_BOM
    else Ret (true, encoding)
  else Ret (false, encoding).

(** The chain of comparisons, in its order. *)
Definition encoding_names : list (str * outcome Encoding) :=
  [(W "ASCII", ASCII); (W "UTF-8", UTF_8); (W "UTF-8-BOM", UTF_8_BOM); (W "UTF-16-BE", UTF_16_BE); (W "UTF-16-BE-BOM", UTF_16_BE_BOM);
   (W "UTF-16-LE", UTF_16_LE); (W "UTF-16-LE-BOM", UTF_16_LE_BOM); (W "UTF-32-BE", UTF_32_BE); (W "UTF-32-BE-BOM", UTF_32_BE_BOM);
   (W "UTF-32-LE", UTF_32_LE); (W "UTF-32-LE-BOM", UTF_32_LE_BOM)].
Definition unknown_encoding (s : str) : exn := RuntimeError (W "Error: Unknown encoding " ++ s).
(* src: cpp/src/icu_util.hpp:340-390 s_encoding_to_encoding *)
Definition s_encoding_to_encoding (s_encoding : str) : outcome Encoding :=
  match List.find (fun p => bool_decide (s_encoding = fst p)) encoding_names with
  | Some (_, e) => e
  | None => Throw (unknown_encoding s_encoding)
  end.

(* src: cpp/src/icu_util.hpp:479-480 detect_encoding *)
Definition MAX_BYTES : nat := 100 * 100.

Section icu.
Context {I : IcuText}.

(** [file] is the content of the file, if it can be opened; [bad] whether reading failed.  The detector is closed on
    every way out. *)
(* src: cpp/src/icu_util.hpp:470-530 detect_encoding *)
Definition detect_encoding (file : option (list byte)) (bad : bool) (file_name : str) : outcome Encoding :=
  match file with
  | None => Throw (RuntimeError (W "Error: Could not open file " ++ file_name))
  | Some content =>
      let buffer := overlay 0 (take MAX_BYTES content) (replicate MAX_BYTES NULL_CHAR) in
      if bad then Throw (RuntimeError (W "Error: Could not read file " ++ file_name))
      else
        '(detected, bom_encoding) ← check_bom buffer default_encoding;
        if detected : bool then Ret bom_encoding
        else
          let error := ucsdet_open U_ZERO_ERROR in
          if U_FAILURE error then Throw (RuntimeError (W "Error: Could not open ICU charset detector")) else
          let error := ucsdet_setText buffer error in
          if U_FAILURE error then Throw (RuntimeError (W "Error: Could not set text for ICU charset detector")) else
          let '(match_, error) := ucsdet_detect buffer error in
          if U_FAILURE error then Throw (RuntimeError (W "Error: Could not detect charset")) else
          let '(detected_encoding, error) := ucsdet_getName match_ error in
          if U_FAILURE error then Throw (RuntimeError (W "Error: Could not get detected charset name"))
          else s_encoding_to_encoding detected_encoding
  end.

(** ** Conversions *)

(* src: cpp/src/icu_util.hpp:46-46 max_int32_t *)
Definition max_int32_t : Z := 2147483647.

(** The messages are thrown as strings. *)
Definition throw_S {A} (msg : str) : outcome A := Throw (ErrorObject msg).

(** The converter argument is [NULL].  [dest] is returned. *)
(* src: cpp/src/icu_util.hpp:49-74 convert_utf8_to_uchar *)
Definition convert_utf8_to_uchar (src : str) (destCapacity : Z) : outcome (list Z) :=
  let '(_, destLen, status) := ucnv_toUChars false 0 (c_str src) U_ZERO_ERROR in
  let status := U_ZERO_ERROR in
  if destLen <=? destCapacity then
    let '(dest, _, status) := ucnv_toUChars false (Z.to_nat destLen) (c_str src) status in
    if U_FAILURE status then throw_S (W "convert_utf8_to_uchar: Failed to convert error message") else Ret dest
  else throw_S (W "convert_utf8_to_uchar: destination buffer is too small. Required size = " ++ decimal destLen
         ++ W " but it was " ++ decimal destCapacity).
(* src: cpp/src/icu_util.hpp:77-89 char_ptr_to_uchar_ptr *)
Definition char_ptr_to_uchar_ptr (msg : str) : outcome (list Z) :=
  if decide (BUFFER_SIZE < cstr_length msg)%nat
  then throw_S (W "char_ptr_to_uchar_ptr: Message is too big to be converted to UChar string. Max. size = " ++ decimal (Z.of_nat BUFFER_SIZE))
  else convert_utf8_to_uchar msg (Z.of_nat BUFFER_SIZE).
(** Nothing is stored through [out]. *)
(* src: cpp/src/icu_util.hpp:91-106 utf8_char_ptr_to_wchar_t_ptr *)
Definition utf8_char_ptr_to_wchar_t_ptr (msg : str) (out : list Z) : outcome (list Z) :=
  uMsg ← convert_utf8_to_uchar msg (Z.of_nat BUFFER_SIZE);
  let '(_, status) := u_strToWCS BUFFER_SIZE uMsg U_ZERO_ERROR in
  if U_FAILURE status then throw_S (W "char_ptr_to_wchar_ptr: Error converting UChar to wchar_t") else Ret out.

(** The string up to the first zero of a block; a block without one is left. *)
Definition until_nul (block : list Z) : outcome (list Z) :=
  match list_find (fun u => u = 0) block with Some (n, _) => Ret (take n block) | None => Undef OutOfBounds end.

(** [dest] has exactly [destLen] places.  When a conversion has failed the next ICU function does nothing and
    [wcharMsg] is read without having been written. *)
(* src: cpp/src/icu_util.hpp:108-136 to_wstring *)
Definition to_wstring (s : str) : outcome (list Z) :=
  let status := ucnv_open (W "utf-8") in
  let conv := negb (U_FAILURE status) in
  let '(_, destLen, _) := ucnv_toUChars conv 0 (c_str s) status in
  let status := U_ZERO_ERROR in
  let '(dest, _, status) := ucnv_toUChars conv (Z.to_nat destLen) (c_str s) status in
  if U_FAILURE status then Undef Uninitialized
  else src ← until_nul dest; let '(wcharMsg, _) := u_strToWCS BUFFER_SIZE src status in until_nul wcharMsg.

(** The first [len] code units at the address of a wide string: [wchar_t] has two bytes on Windows and four
    elsewhere, where the low half of a character comes first. *)
Definition reinterpret_units (windows : bool) (s : list Z) (len : nat) : list Z :=
  take len (if windows then s else flat_map (fun c => [Z.land c 0xFFFF; Z.shiftr c 16]) s).

(* src: cpp/src/icu_util.hpp:139-185 utf16_to_utf8 *)
Definition utf16_to_utf8 (windows : bool) (s : list Z) : outcome str :=
  let status := ucnv_open (W "utf-8") in
  if U_FAILURE status then throw_S (W "pd::icu_util::utf16_to_utf8: Error getting converter.")
  else if max_int32_t <? Z.of_nat (length s)
  then throw_S (W "pd::icu_util::utf16_to_utf8: Error converting string. Buffer size is too big.")
  else
    let source := reinterpret_units windows s (length s) in
    let '(_, destLen, _) := ucnv_fromUChars true 0 source status in
    let '(dest, _, status) := ucnv_fromUChars true (Z.to_nat (destLen + 1)) source U_ZERO_ERROR in
    if U_FAILURE status then throw_S (W "pd::icu_util::utf16_to_utf8: Error converting string.")
    else Ret (take (Z.to_nat destLen) dest).

(** The status of the first call, which only asks for the length, is checked; the UTF-32 converter is never used. *)
(* src: cpp/src/icu_util.hpp:195-264 utf32_to_utf8 *)
Definition utf32_to_utf8 (windows : bool) (s : list Z) : outcome str :=
  let status := ucnv_open (W "UTF-8") in
  if U_FAILURE status then throw_S (W "1. pd::icu_util::utf32_to_utf8: Failed to open UTF-8 converter.")
  else let status := ucnv_open (W "UTF-32") in
  if U_FAILURE status then throw_S (W "2. pd::icu_util::utf32_to_utf8: Failed to open UTF-32 converter.")
  else if max_int32_t <? Z.of_nat (length s)
  then throw_S (W "pd::icu_util::utf32_to_utf8: Error converting string. Buffer size is too big.")
  else
    let source := reinterpret_units windows s (length s) in
    let '(_, utf8Length, status) := ucnv_fromUChars true 0 source status in
    if U_FAILURE status then throw_S (W "pd::icu_util::utf32_to_utf8: Failed to calculate buffer size for UTF-8 string.")
    else
      let '(utf8String, _, status) := ucnv_fromUChars true (Z.to_nat (utf8Length + 1)) source U_ZERO_ERROR in
      if U_FAILURE status then throw_S (W "pd::icu_util::to_string: Failed to convert string from UTF-32 to UTF-8.")
      else Ret (take (Z.to_nat utf8Length) utf8String).

(* src: cpp/src/icu_util.hpp:266-277 to_utf8 *)
Definition to_utf8 (s : str) : str := s.
(* src: cpp/src/icu_util.hpp:279-283 to_unicode_string *)
Definition to_unicode_string (s : str) : list Z := from_utf8 (to_utf8 s).
(* src: cpp/src/icu_util.hpp:291-296 to_codepoints *)
Fixpoint codepoints_loop (fuel : nat) (ustr : list Z) (i : nat) (codepoints : list Z) : option (list Z) :=
  if decide (i < length ustr)%nat then
    match fuel with
    | O => None
    | S fuel => let c := char32At ustr i in codepoints_loop fuel ustr (i + u16_length c) (codepoints ++ [c])
    end
  else Some codepoints.
(* src: cpp/src/icu_util.hpp:285-299 to_codepoints *)
Definition to_codepoints (s : str) : option (list Z) :=
  let ustr := to_unicode_string s in codepoints_loop (length ustr) ustr 0 [].

(** One round for each code unit. *)
(* src: cpp/src/icu_util.hpp:441-450 remove_accents *)
Definition without_marks (normalized : list Z) : list Z :=
  fold_left (fun result i => let c := char32At normalized i in if non_spacing_mark c then result else append32 result c)
    (seq 0 (length normalized)) [].
(* src: cpp/src/icu_util.hpp:393-456 remove_accents *)
Definition remove_accents (s : str) : outcome str :=
  if U_FAILURE nfd_status then Throw (RuntimeError (W "remove_accents: Failed to get NFD normalizer instance"))
  else if max_int32_t <? Z.of_nat (length s) then Throw (RuntimeError (W "remove_accents: String is too long"))
  else
    let status := ucnv_open (W "UTF-8") in
    if U_FAILURE status then Throw (RuntimeError (W "remove_accents: Failed to open UTF-8 converter"))
    else
      let '(_, ucharLen, _) := ucnv_toUChars true 0 s status in
      let '(uchars, _, status) := ucnv_toUChars true (Z.to_nat (ucharLen + 1)) s U_ZERO_ERROR in
      if U_FAILURE status then Throw (RuntimeError (W "remove_accents: Failed to convert to UChars"))
      else
        let '(normalized, status) := normalize (take (Z.to_nat ucharLen) uchars) status in
        if U_FAILURE status then Throw (RuntimeError (W "remove_accents: Failed to normalize string"))
        else Ret (to_utf8_string (without_marks normalized)).
(* src: cpp/src/icu_util.hpp:189-192 to_string *)
Definition windows_to_string (s : list Z) : outcome str := utf16_to_utf8 true s.
(* src: cpp/src/icu_util.hpp:459-468 remove_accents *)
Definition remove_accents_wide (windows : bool) (s : list Z) : outcome (list Z) :=
  narrow ← (if windows then utf16_to_utf8 windows s else utf32_to_utf8 windows s);
  plain ← remove_accents narrow; to_wstring plain.

(** s.hpp: the string is assigned only when the conversion returns. *)
(* src: cpp/src/s.hpp:297-300 remove_accents *)
Definition s_remove_accents (s : str) : outcome str := remove_accents s.
(* src: cpp/src/s.hpp:302-307 no_accents *)
Definition no_accents (s : str) : outcome str := s_remove_accents s.
(* src: cpp/src/s.hpp:329-335 copy_remove_accents *)
Definition copy_remove_accents (s : str) : outcome str := s_remove_accents s.
(* src: cpp/src/s.hpp:423-426 to_wstring *)
Definition s_to_wstring (s : str) : outcome (list Z) := to_wstring s.
(* src: cpp/src/s.hpp:502-509 to_string *)
Definition wide_to_string (windows : bool) (s : list Z) : outcome str :=
  if windows then utf16_to_utf8 windows s else utf32_to_utf8 windows s.
End icu.

(** ** UTF-16 facts *)

Definition is_unit (u : Z) : bool := (0 <=? u) && (u <=? 0xFFFF).
(** A code point that is not a surrogate. *)
Definition is_scalar (c : Z) : bool := (0 <=? c) && (c <=? 0x10FFFF) && negb (is_lead c || is_trail c).

Ltac unit_cases := unfold is_unit, is_scalar, is_lead, is_trail, surrogates, encode16 in *; rewrite ?negb_true_iff, ?orb_false_iff, ?andb_true_iff, ?andb_false_iff, ?Z.leb_le, ?Z.leb_gt in *.

Lemma surrogates_range a b : is_lead a = true -> is_trail b = true -> 0xFFFF < surrogates a b <= 0x10FFFF.
Proof. unit_cases. lia. Qed.
Lemma encode_surrogates a b : is_lead a = true -> is_trail b = true -> encode16 (surrogates a b) = [a; b].
Proof.
  intros Ha Hb. pose proof (surrogates_range a b Ha Hb). unfold encode16. destruct (Z.leb_spec (surrogates a b) 0xFFFF); [lia|]. unit_cases.
  replace (65536 + (a - 55296) * 1024 + (b - 56320) - 65536) with ((b - 56320) + (a - 55296) * 1024) by lia.
  rewrite Z.div_add, Z.mod_add, Z.div_small, Z.mod_small by lia. repeat f_equal; lia.
Qed.
Lemma encode_unit u : u <= 0xFFFF -> encode16 u = [u].
Proof. intros. unfold encode16. by destruct (Z.leb_spec u 0xFFFF); [|lia]. Qed.

Lemma list_two_ind {A} (P : list A -> Prop) :
  P [] -> (forall a, P [a]) -> (forall a b l, P l -> P (b :: l) -> P (a :: b :: l)) -> forall l, P l.
Proof.
  intros H0 H1 H2 l. assert (H : P l /\ forall a, P (a :: l)); [|apply H]. induction l as [|b l [IH1 IH2]]; [auto|]. split; [auto|].
  intros a. auto.
Qed.

Lemma decode16_cons a b l : decode16 (a :: b :: l) = if is_lead a && is_trail b then surrogates a b :: decode16 l else a :: decode16 (b :: l).
Proof. done. Qed.

Lemma encode_decode u : forallb is_unit u = true -> flat_map encode16 (decode16 u) = u.
Proof.
  induction u as [|a|a b l IH1 IH2] using list_two_ind; [done|..].
  - simpl. rewrite andb_true_r. intros H. rewrite encode_unit; [done|]. unit_cases; lia.
  - rewrite decode16_cons. cbn [forallb]. rewrite !andb_true_iff. intros (Ha & Hb & Hl). destruct (is_lead a && is_trail b) eqn:E.
    + apply andb_true_iff in E as [E1 E2]. simpl. by rewrite encode_surrogates, IH1.
    + cbn [flat_map]. rewrite IH2 by (simpl; by rewrite Hb). rewrite encode_unit; [done|]. unit_cases; lia.
Qed.

Lemma decode_encode cps : forallb is_scalar cps = true -> decode16 (flat_map encode16 cps) = cps.
Proof.
  induction cps as [|c cps IH]; [done|]. cbn [forallb flat_map]. rewrite andb_true_iff. intros [Hc Hl]. specialize (IH Hl).
  unfold encode16 at 1. destruct (Z.leb_spec c 0xFFFF).
  - cbn [app]. destruct (flat_map encode16 cps) as [|b l]; [by rewrite <- IH|]. rewrite decode16_cons.
    assert (is_lead c = false) as ->. { unfold is_scalar in Hc. by destruct (is_lead c); [rewrite andb_false_r in Hc|]. }
    by rewrite IH.
  - assert (Hr : 0 <= c - 0x10000 < 1024 * 1024) by (unit_cases; lia).
    pose proof (Z.mod_pos_bound (c - 0x10000) 1024 ltac:(lia)) as Hm. pose proof (Z.div_mod (c - 0x10000) 1024 ltac:(lia)) as Hd.
    assert (Hq : 0 <= (c - 0x10000) / 1024 < 1024) by (split; [apply Z.div_pos; lia|apply Z.div_lt_upper_bound; lia]).
    cbn [app]. rewrite decode16_cons.
    replace (is_lead (0xD800 + (c - 0x10000) / 1024)) with true by (symmetry; unit_cases; lia).
    replace (is_trail (0xDC00 + (c - 0x10000) mod 1024)) with true by (symmetry; unit_cases; lia).
    cbn [andb]. rewrite IH. f_equal. unfold surrogates. lia.
Qed.

(** The code points at every position, after the unit [prev]. *)
Fixpoint codes_from (prev : option Z) (u : list Z) : list Z :=
  match u with [] => [] | a :: rest => code_at prev a (head rest) :: codes_from (Some a) rest end.
(** No pair of surrogates has its first half before the string. *)
Definition no_straddle (prev : option Z) (u : list Z) : Prop :=
  match prev, u with Some l, a :: _ => is_lead l && is_trail a = false | _, _ => True end.

Definition twice (c : Z) : list Z := if c <=? 0xFFFF then [c] else [c; c].

Lemma trail_not_lead a : is_trail a = true -> is_lead a = false.
Proof. unit_cases. lia. Qed.

Lemma codes_from_decode prev u :
  forallb is_unit u = true -> no_straddle prev u -> codes_from prev u = flat_map twice (decode16 u).
Proof.
  revert prev. induction u as [|a|a b l IH1 IH2] using list_two_ind; intros prev Hu Hn; [done|..].
  - assert (Ha : a <= 0xFFFF) by (simpl in Hu; unit_cases; lia). simpl. unfold code_at, twice. destruct (Z.leb_spec a 0xFFFF); [|lia].
    simpl in *. destruct prev as [p|]; [|done]. simpl in Hn. by rewrite Hn.
  - cbn [forallb] in Hu. rewrite !andb_true_iff in Hu. destruct Hu as (Ha & Hb & Hl). rewrite decode16_cons.
    destruct (is_lead a && is_trail b) eqn:E.
    + apply andb_true_iff in E as [E1 E2]. pose proof (surrogates_range a b E1 E2). cbn [codes_from head flat_map].
      rewrite (IH1 (Some b)); [|done|simpl; destruct l; [done|]; by rewrite (trail_not_lead b E2)].
      unfold twice at 2. destruct (Z.leb_spec (surrogates a b) 0xFFFF); [lia|].
      unfold code_at. rewrite E1, E2. cbn [andb app]. f_equal. f_equal. destruct (head l); [|done]. by rewrite (trail_not_lead b E2).
    + cbn [flat_map]. change (codes_from prev (a :: b :: l)) with (code_at prev a (Some b) :: codes_from (Some a) (b :: l)).
      rewrite IH2; [|simpl; by rewrite Hb|done]. unfold twice at 2. destruct (Z.leb_spec a 0xFFFF); [|unit_cases; lia].
      cbn [app]. f_equal. unfold code_at. rewrite E. destruct prev as [p|]; [|done]. simpl in Hn. by rewrite Hn.
Qed.

Section text.
Context {I : IcuText} (L : IcuTextLaws I).

Definition unit_before (u : list Z) (i : nat) : option Z := match i with O => None | S j => u !! j end.

Lemma char32At_drop u i a rest : drop i u = a :: rest -> char32At u i = code_at (unit_before u i) a (head rest).
Proof.
  intros E. assert (Ha : u !! i = Some a) by (rewrite <- (Nat.add_0_r i), <- lookup_drop, E; done).
  rewrite (char32At_spec _ _ _ Ha). f_equal. rewrite <- (Nat.add_1_r i), <- lookup_drop, E. by destruct rest.
Qed.

Lemma drop_tail {A} (u : list A) i a rest : drop i u = a :: rest -> drop (S i) u = rest /\ u !! i = Some a /\ (i < length u)%nat.
Proof.
  intros E. split_and!.
  - rewrite <- Nat.add_1_r, <- drop_drop, E. done.
  - by rewrite <- (Nat.add_0_r i), <- lookup_drop, E.
  - destruct (decide (i < length u)%nat); [done|]. rewrite drop_ge in E by lia. done.
Qed.

Lemma codepoints_loop_spec fuel u i acc :
  forallb is_unit (drop i u) = true -> no_straddle (unit_before u i) (drop i u) -> (length u <= i + fuel)%nat ->
  codepoints_loop fuel u i acc = Some (acc ++ decode16 (drop i u)).
Proof.
  revert i acc. induction fuel as [|fuel IH]; intros i acc Hu Hn Hf; cbn [codepoints_loop].
  - rewrite decide_False by lia. rewrite drop_ge by lia. by rewrite app_nil_r.
  - case_decide as Hi; [|rewrite drop_ge by lia; by rewrite app_nil_r].
    destruct (drop i u) as [|a rest] eqn:E; [apply (f_equal length) in E; rewrite length_drop in E; simpl in E; lia|].
    destruct (drop_tail _ _ _ _ E) as (E1 & Ha & _). rewrite (char32At_drop _ _ _ _ E). cbn [forallb] in Hu. apply andb_true_iff in Hu as [Hua Hur].
    assert (Hsingle : code_at (unit_before u i) a (head rest) = a -> decode16 (a :: rest) = a :: decode16 rest -> no_straddle (Some a) rest ->
      codepoints_loop fuel u (i + u16_length (code_at (unit_before u i) a (head rest))) (acc ++ [code_at (unit_before u i) a (head rest)])
      = Some (acc ++ decode16 (a :: rest))).
    { intros -> -> Hs. rewrite u16_length_spec. destruct (Z.leb_spec a 0xFFFF); [|unit_cases; lia]. rewrite Nat.add_1_r, IH; rewrite ?E1; [|done| |lia].
      - by rewrite <- app_assoc.
      - simpl. by rewrite Ha. }
    destruct rest as [|b l].
    + apply Hsingle; [|done|done]. simpl. unfold code_at. destruct (unit_before u i) as [p|]; [|done]. simpl in Hn. by rewrite Hn.
    + destruct (is_lead a && is_trail b) eqn:P; [|apply Hsingle; [|by rewrite decode16_cons, P|done]].
      * destruct (drop_tail _ _ _ _ E1) as (E2 & Hb & _). pose proof P as P'. apply andb_true_iff in P' as [Pa Pb]. rewrite decode16_cons, P. unfold code_at. cbn [head]. rewrite P.
        pose proof (surrogates_range a b Pa Pb). rewrite u16_length_spec. destruct (Z.leb_spec (surrogates a b) 0xFFFF); [lia|].
        replace (i + 2)%nat with (S (S i)) by lia. cbn [forallb] in Hur. apply andb_true_iff in Hur as [_ Hul].
        rewrite IH; rewrite ?E2; [by rewrite <- app_assoc|done| |lia]. simpl. rewrite Hb. destruct l; [done|]. simpl. by rewrite (trail_not_lead b Pb).
      * unfold code_at. cbn [head]. rewrite P. destruct (unit_before u i) as [p|]; [|done]. simpl in Hn. by rewrite Hn.
Qed.

Lemma codes_at u i : map (char32At u) (seq i (length (drop i u))) = codes_from (unit_before u i) (drop i u).
Proof.
  remember (drop i u) as v eqn:E. symmetry in E. revert i E. induction v as [|a rest IH]; intros i E; [done|]. simpl.
  destruct (drop_tail _ _ _ _ E) as (E1 & Ha & _). rewrite (char32At_drop _ _ _ _ E), (IH (S i) E1). simpl. by rewrite Ha.
Qed.

(** A code point above U+FFFF that is no mark is appended at each of its two units. *)
Definition kept (c : Z) : list Z := if non_spacing_mark c then [] else if c <=? 0xFFFF then [c] else encode16 c ++ encode16 c.

Lemma decode16_range u c : forallb is_unit u = true -> c ∈ decode16 u -> 0 <= c <= 0x10FFFF.
Proof.
  induction u as [|a|a b l IH1 IH2] using list_two_ind; intros Hu Hc.
  - by apply not_elem_of_nil in Hc.
  - apply list_elem_of_singleton in Hc as ->. simpl in Hu. unit_cases. lia.
  - rewrite decode16_cons in Hc. cbn [forallb] in Hu. rewrite !andb_true_iff in Hu. destruct Hu as (Ha & Hb & Hl).
    destruct (is_lead a && is_trail b) eqn:P.
    + apply andb_true_iff in P as [Pa Pb]. apply elem_of_cons in Hc as [->|Hc]; [|by apply IH1]. pose proof (surrogates_range a b Pa Pb). lia.
    + apply elem_of_cons in Hc as [->|Hc]; [unit_cases; lia|]. apply IH2; [|done]. simpl. by rewrite Hb.
Qed.

Lemma without_marks_spec u : forallb is_unit u = true -> without_marks u = flat_map kept (decode16 u).
Proof.
  intros Hu. unfold without_marks. set (step := fun result c => if non_spacing_mark c then result else append32 result c).
  assert (E : forall l acc, fold_left (fun result i => let c := char32At u i in if non_spacing_mark c then result else append32 result c) l acc
    = fold_left step (map (char32At u) l) acc) by (induction l; intros; simpl; [done|by rewrite IHl]).
  rewrite E. pose proof (codes_at u 0) as C. rewrite drop_0 in C. change (unit_before u 0) with (@None Z) in C. rewrite C, (codes_from_decode None u Hu Logic.I). clear E C.
  assert (R : forall c, c ∈ decode16 u -> 0 <= c <= 0x10FFFF) by (intros; by eapply decode16_range).
  revert R. generalize (decode16 u). intros cps R. change (flat_map kept cps) with ([] ++ flat_map kept cps). generalize (@nil Z).
  induction cps as [|c cps IH]; intros acc; simpl; [by rewrite app_nil_r|].
  assert (Hc : 0 <= c <= 0x10FFFF) by (apply R; by left). rewrite fold_left_app, IH by (intros x Hx; apply R; by right). unfold twice, kept.
  destruct (Z.leb_spec c 0xFFFF); simpl; unfold step; destruct (non_spacing_mark c); rewrite ?(append32_spec _ _ Hc), ?encode_unit by done; by rewrite <- ?app_assoc.
Qed.

Lemma units_of_utf8 s : forallb is_unit (from_utf8 s) = true.
Proof. apply forallb_forall. intros u Hu%list_elem_of_In. pose proof (from_utf8_units _ _ Hu). unit_cases. lia. Qed.

(** ** What the functions do *)

Context (Hopen : forall n, ucnv_open n <= 0).

Lemma open_ok n : U_FAILURE (ucnv_open n) = false.
Proof. unfold U_FAILURE. apply Z.ltb_ge, Hopen. Qed.

(** C36. [to_codepoints] always returns, the code points of the string in order - those of its UTF-16 form, each read
    once, at the first of its units; the UTF-16 form is the one they are encoded to, and a string that encodes code points
    gives exactly those back. *)
Theorem codepoints_roundtrip (s : str) :
  exists cps, to_codepoints s = Some cps /\ flat_map encode16 cps = from_utf8 s
  /\ (forall scalars, forallb is_scalar scalars = true -> from_utf8 s = flat_map encode16 scalars -> cps = scalars)
  /\ (forall t cps', to_codepoints t = Some cps' -> icu_distance (fun x => default [] (to_codepoints x)) s t = rows_distance cps cps').
Proof.
  pose proof (units_of_utf8 s) as Hu.
  assert (H : forall s, to_codepoints s = Some (decode16 (from_utf8 s))).
  { intros x. unfold to_codepoints, to_unicode_string, to_utf8. rewrite codepoints_loop_spec; rewrite ?drop_0; [done|apply units_of_utf8|done|lia]. }
  exists (decode16 (from_utf8 s)). split; [done|]. split; [by apply encode_decode|]. split.
  - intros scalars Hs ->. by apply decode_encode.
  - intros t cps' Ht. unfold icu_distance. by rewrite H, Ht.
Qed.

(** [remove_accents] returns the UTF-8 form of the normalized text without its marks - but it steps by code units and
    appends the whole code point each time, so a code point above U+FFFF that is no mark comes out twice.  Text without
    such code points is right.  A text of more than 2^31 - 1 bytes is refused. *)
Theorem remove_accents_spec (s : str) (Hn : nfd_status <= 0) (Hs : Z.of_nat (length s) <= max_int32_t) :
  let '(u, status) := normalize (from_utf8 s) U_ZERO_ERROR in
  (0 < status -> exists e, remove_accents s = Throw e)
  /\ (status <= 0 -> remove_accents s = Ret (to_utf8_string (flat_map kept (decode16 u))))
  /\ (forallb (fun c => c <=? 0xFFFF) (decode16 u) = true -> flat_map kept (decode16 u) = filter (fun c => non_spacing_mark c = false) (decode16 u))
  /\ (forall t, max_int32_t < Z.of_nat (length t) -> exists e, remove_accents t = Throw e).
Proof.
  destruct (normalize (from_utf8 s) U_ZERO_ERROR) as [u status] eqn:E.
  assert (Hr : remove_accents s = if U_FAILURE status then Throw (RuntimeError (W "remove_accents: Failed to normalize string"))
                                  else Ret (to_utf8_string (without_marks u))).
  { unfold remove_accents. rewrite open_ok. unfold U_FAILURE at 1. destruct (Z.ltb_spec 0 nfd_status); [lia|].
    destruct (Z.ltb_spec max_int32_t (Z.of_nat (length s))); [lia|]. rewrite toUChars_spec by apply Hopen.
    rewrite toUChars_spec by done. unfold conversion_status. rewrite decide_True by lia. change (U_FAILURE U_ZERO_ERROR) with false. cbv iota.
    rewrite (take_ge (_ ++ _)) by (rewrite length_app; simpl; lia). rewrite Nat2Z.id, take_app_length. by rewrite E. }
  assert (Hu : forallb is_unit u = true).
  { apply forallb_forall. intros v Hv%list_elem_of_In. pose proof (normalize_units (from_utf8 s) U_ZERO_ERROR v) as H. rewrite E in H. specialize (H (from_utf8_units s) Hv). unit_cases. lia. }
  split_and!.
  - intros H. rewrite Hr. unfold U_FAILURE. destruct (Z.ltb_spec 0 status); [eauto|lia].
  - intros H. rewrite Hr. unfold U_FAILURE. destruct (Z.ltb_spec 0 status); [lia|]. by rewrite without_marks_spec.
  - generalize (decode16 u). induction l as [|c l IH]; [done|]. cbn [forallb flat_map]. rewrite andb_true_iff. intros [Hc Hl]. rewrite (IH Hl), filter_cons.
    unfold kept. rewrite Hc. destruct (non_spacing_mark c); by case_decide.
  - intros t Ht. unfold remove_accents. rewrite (proj2 (Z.ltb_lt _ _) Ht). destruct (U_FAILURE nfd_status); by eexists.
Qed.

Lemma until_nul_none block : 0 ∉ block -> until_nul block = Undef OutOfBounds.
Proof.
  intros H. unfold until_nul. destruct (list_find _ block) as [[i x]|] eqn:E; [|done]. apply list_find_Some in E as (E & -> & _).
  exfalso. apply H. by eapply list_elem_of_lookup_2.
Qed.
Lemma c_str_no_nul s : no_nul (c_str s).
Proof.
  unfold c_str, cstr_length. destruct (nul_index s) eqn:E; simpl; [by apply nul_index_Some in E as (_ & ? & _)|].
  rewrite take_ge by lia. by apply nul_index_None.
Qed.

Lemma to_wstring_undefined s : to_wstring s = Undef OutOfBounds.
Proof.
  unfold to_wstring. rewrite open_ok. simpl negb. rewrite toUChars_spec by apply Hopen. rewrite toUChars_spec by done. rewrite Nat2Z.id.
  unfold conversion_status. rewrite decide_False by lia. rewrite decide_True by done. change (U_FAILURE U_STRING_NOT_TERMINATED_WARNING) with false. cbv iota.
  rewrite take_app_length, until_nul_none; [done|]. apply from_utf8_no_nul, c_str_no_nul.
Qed.

Lemma utf16_to_utf8_windows s : Z.of_nat (length s) <= max_int32_t -> utf16_to_utf8 true s = Ret (to_utf8_string s).
Proof.
  intros Hs. unfold utf16_to_utf8. rewrite open_ok. destruct (Z.ltb_spec max_int32_t (Z.of_nat (length s))); [lia|]. cbn [reinterpret_units].
  unfold reinterpret_units. rewrite firstn_all. rewrite fromUChars_spec by apply Hopen. rewrite fromUChars_spec by done.
  unfold conversion_status. rewrite decide_True by lia. change (U_FAILURE U_ZERO_ERROR) with false. cbv iota.
  rewrite (take_ge (_ ++ _)) by (rewrite length_app; simpl; lia). by rewrite Nat2Z.id, take_app_length.
Qed.

Lemma utf32_to_utf8_throws windows s : s <> [] -> exists e, utf32_to_utf8 windows s = Throw e.
Proof.
  intros Hs. unfold utf32_to_utf8. rewrite !open_ok. case_match; [by eexists|]. rewrite fromUChars_spec by apply Hopen.
  assert (Hu : reinterpret_units windows s (length s) <> []) by (destruct s as [|c s]; [done|]; by destruct windows).
  apply to_utf8_cons in Hu. unfold conversion_status. rewrite decide_False by lia. destruct (to_utf8_string _); [done|].
  rewrite decide_False by done. by eexists.
Qed.

(** No conversion between narrow and wide strings works outside Windows, and none to wide strings anywhere.  [to_wstring]
    gives the buffer no room for a terminator and then looks for one, leaving the buffer whatever the string;
    [utf32_to_utf8] takes the overflow with which ICU answers a request for the length for a failure and throws for every
    string that is not empty; the conversion with a null converter always throws; so removing the accents of a
    wide string never returns.  The conversion from UTF-16 is right where a wide character has two bytes. *)
Theorem wide_conversions (windows : bool) :
  (forall s, to_wstring s = Undef OutOfBounds)
  /\ (forall s, s <> [] -> exists e, utf32_to_utf8 windows s = Throw e)
  /\ (forall s capacity, 0 <= capacity -> exists e, convert_utf8_to_uchar s capacity = Throw e)
  /\ (forall s, exists e, char_ptr_to_uchar_ptr s = Throw e)
  /\ (forall s r, remove_accents_wide windows s <> Ret r)
  /\ (forall s, Z.of_nat (length s) <= max_int32_t -> utf16_to_utf8 true s = Ret (to_utf8_string s)).
Proof.
  assert (Hc : forall s capacity, 0 <= capacity -> exists e, convert_utf8_to_uchar s capacity = Throw e).
  { intros s capacity H. unfold convert_utf8_to_uchar. rewrite !toUChars_null by done. destruct (Z.leb_spec 0 capacity); [|lia]. by eexists. }
  split_and!; try done.
  - exact to_wstring_undefined.
  - exact (utf32_to_utf8_throws windows).
  - intros s. unfold char_ptr_to_uchar_ptr. case_decide; [by eexists|]. apply Hc. lia.
  - intros s r H. unfold remove_accents_wide in H. inv_ret. by rewrite to_wstring_undefined in *.
  - exact utf16_to_utf8_windows.
Qed.
End text.

(** ** A concrete ICU

    UTF-8 as it is, malformed sequences aside; normalization takes the acute accent off the letter e; marks are U+0300 to U+036F. *)

Definition nonzero (c : Z) : Z := if c =? 0 then 0xFFFD else c.
Fixpoint utf8_units (s : str) : list Z :=
  match s with
  | [] => []
  | b0 :: r0 =>
      let v0 := byte_val b0 in
      if v0 <? 0x80 then v0 :: utf8_units r0 else
      match r0 with
      | [] => [0xFFFD]
      | b1 :: r1 =>
          let v1 := byte_val b1 mod 64 in
          if v0 <? 0xE0 then nonzero ((v0 mod 32) * 64 + v1) :: utf8_units r1 else
          match r1 with
          | [] => [0xFFFD]
          | b2 :: r2 =>
              let v2 := byte_val b2 mod 64 in
              if v0 <? 0xF0 then nonzero ((v0 mod 16) * 4096 + v1 * 64 + v2) :: utf8_units r2 else
              match r2 with
              | [] => [0xFFFD]
              | b3 :: r3 => encode16 (Z.min 0x10FFFF (0x10000 + ((v0 mod 8) * 262144 + v1 * 4096 + v2 * 64 + byte_val b3 mod 64 - 0x10000) mod 0x100000)) ++ utf8_units r3
              end
          end
      end
  end.
Definition utf8_bytes (c : Z) : str :=
  map byte_of_Z (if c <? 0x80 then [c] else if c <? 0x800 then [0xC0 + c / 64; 0x80 + c mod 64]
    else if c <? 0x10000 then [0xE0 + c / 4096; 0x80 + c / 64 mod 64; 0x80 + c mod 64]
    else [0xF0 + c / 262144; 0x80 + c / 4096 mod 64; 0x80 + c / 64 mod 64; 0x80 + c mod 64]).

Definition status_of {A} (out : list A) (zero : A) (conv : bool) (capacity : nat) (status : Z) : converted A :=
  if 0 <? status then ([], 0, status) else if negb conv then ([], 0, U_ILLEGAL_ARGUMENT_ERROR)
  else (take capacity (out ++ [zero]), Z.of_nat (length out), conversion_status (length out) capacity status).

#[export] Instance utf8_text : IcuText := {|
  ucnv_open := fun _ => 0;
  ucnv_toUChars := fun conv capacity src status => status_of (utf8_units src) 0 conv capacity status;
  ucnv_fromUChars := fun conv capacity u status => status_of (flat_map utf8_bytes (decode16 u)) NULL_CHAR conv capacity status;
  u_strToWCS := fun capacity u status => (take capacity (u ++ [0]), conversion_status (length u) capacity status);
  from_utf8 := utf8_units;
  to_utf8_string := fun u => flat_map utf8_bytes (decode16 u);
  nfd_status := 0;
  normalize := fun u status => (flat_map (fun c => if c =? 0xE9 then [0x65; 0x301] else [c]) u, status);
  non_spacing_mark := fun c => (0x300 <=? c) && (c <=? 0x36F);
  char32At := fun u i => match u !! i with Some a => code_at (match i with O => None | S j => u !! j end) a (u !! S i) | None => 0xFFFF end;
  append32 := fun u c => u ++ encode16 c;
  u16_length := fun c => if c <=? 0xFFFF then 1%nat else 2%nat;
  ucsdet_open := fun status => status;
  ucsdet_setText := fun _ status => status;
  ucsdet_detect := fun _ status => (O, status);
  ucsdet_getName := fun _ status => (W "UTF-8", status);
|}.

Lemma utf8_units_range s u : u ∈ utf8_units s -> 0 <= u <= 0xFFFF /\ (no_nul s -> u <> 0).
Proof.
  assert (H : forall n s, (length s <= n)%nat -> u ∈ utf8_units s -> 0 <= u <= 0xFFFF /\ (no_nul s -> u <> 0)); [|by apply (H (length s))].
  clear s. induction n as [|n IH]; intros [|b0 r0] Hl Hu; simpl in Hl; try lia; try (by apply not_elem_of_nil in Hu).
  assert (Hrest : forall pre r, b0 :: r0 = pre ++ r -> pre <> [] -> u ∈ utf8_units r -> 0 <= u <= 0xFFFF /\ (no_nul (b0 :: r0) -> u <> 0)).
  { intros pre r E Hne Hin. destruct (IH r) as [H1 H2]; [|done|].
    - apply (f_equal length) in E. rewrite length_app in E. simpl in E. destruct pre; [done|]. simpl in E. lia.
    - split; [done|]. intros Hn. apply H2. unfold no_nul in *. rewrite E in Hn. intros Hc. apply Hn. apply elem_of_app. by right. }
  assert (Hz : forall c, 0 <= c <= 0xFFFF -> 0 <= nonzero c <= 0xFFFF /\ (no_nul (b0 :: r0) -> nonzero c <> 0)).
  { intros c Hc. unfold nonzero. destruct (Z.eqb_spec c 0); lia. }
  pose proof (byte_val_range b0). cbn [utf8_units] in Hu. destruct (Z.ltb_spec (byte_val b0) 0x80).
  { apply elem_of_cons in Hu as [->|Hu]; [|by apply (Hrest [b0] r0)]. split; [lia|]. intros Hn E. apply Hn.
    apply elem_of_cons. left. unfold NULL_CHAR. rewrite <- (byte_of_val b0), E. done. }
  destruct r0 as [|b1 r1]; [apply list_elem_of_singleton in Hu as ->; lia|]. pose proof (Z.mod_pos_bound (byte_val b1) 64 ltac:(lia)).
  destruct (Z.ltb_spec (byte_val b0) 0xE0).
  { apply elem_of_cons in Hu as [->|Hu]; [|by apply (Hrest [b0; b1] r1)]. apply Hz. pose proof (Z.mod_pos_bound (byte_val b0) 32 ltac:(lia)). lia. }
  destruct r1 as [|b2 r2]; [apply list_elem_of_singleton in Hu as ->; lia|]. pose proof (Z.mod_pos_bound (byte_val b2) 64 ltac:(lia)).
  destruct (Z.ltb_spec (byte_val b0) 0xF0).
  { apply elem_of_cons in Hu as [->|Hu]; [|by apply (Hrest [b0; b1; b2] r2)]. apply Hz. pose proof (Z.mod_pos_bound (byte_val b0) 16 ltac:(lia)). lia. }
  destruct r2 as [|b3 r3]; [apply list_elem_of_singleton in Hu as ->; lia|]. apply elem_of_app in Hu as [Hu|Hu]; [|by apply (Hrest [b0; b1; b2; b3] r3)].
  set (w := (_ - 0x10000) mod 0x100000) in Hu. assert (Hw : 0 <= w < 0x100000) by (apply Z.mod_pos_bound; lia). revert Hu. unfold encode16.
  destruct (Z.leb_spec (Z.min 0x10FFFF (0x10000 + w)) 0xFFFF); [lia|]. rewrite Z.min_r by lia. replace (0x10000 + w - 0x10000) with w by lia.
  pose proof (Z.mod_pos_bound w 1024 ltac:(lia)). assert (0 <= w / 1024 < 1024) by (split; [apply Z.div_pos; lia|apply Z.div_lt_upper_bound; lia]).
  intros [->|[->|Hu%not_elem_of_nil]%elem_of_cons]%elem_of_cons; lia || done.
Qed.

#[export] Instance utf8_laws : IcuTextLaws utf8_text.
Proof.
  split; cbn [utf8_text ucnv_toUChars ucnv_fromUChars from_utf8 to_utf8_string normalize char32At append32 u16_length]; try done.
  - intros capacity src status H. unfold status_of. by destruct (Z.ltb_spec 0 status); [lia|].
  - intros capacity src status H. unfold status_of. by destruct (Z.ltb_spec 0 status); [lia|].
  - intros conv capacity src status H. unfold status_of. by destruct (Z.ltb_spec 0 status); [|lia].
  - intros capacity u status H. unfold status_of. by destruct (Z.ltb_spec 0 status); [lia|].
  - intros u H. assert (Hd : decode16 u <> []) by (destruct u as [|a [|b l]]; [done..|]; rewrite decode16_cons; by case_match).
    destruct (decode16 u) as [|c l]; [done|]. simpl. intros [Hb _]%app_eq_nil. unfold utf8_bytes in Hb. repeat case_match; done.
  - intros s u Hu. by apply utf8_units_range in Hu as [? _].
  - intros s Hs Hu. apply utf8_units_range in Hu as [_ Hu]. by apply Hu.
  - intros u status v Hu Hv. simpl in Hv. apply list_elem_of_In, in_flat_map in Hv as (x & Hx & Hv). apply list_elem_of_In in Hx.
    pose proof (Hu x Hx). destruct (Z.eqb_spec x 0xE9); simpl in Hv; lia.
  - intros u i a H. by rewrite H.
Qed.

(** ** Witnesses *)

(** An e with an acute accent, in two bytes, and a face, in four. *)
Definition e_acute : str := map byte_of_Z [0xC3; 0xA9].
Definition face : str := map byte_of_Z [0xF0; 0x9F; 0x98; 0x80].

Lemma open_0 n : @ucnv_open utf8_text n <= 0.
Proof. done. Qed.

Lemma codepoints_roundtrip_witness : exists cps, to_codepoints (W "a" ++ face) = Some cps /\ cps = [0x61; 0x1F600].
Proof.
  destruct (codepoints_roundtrip utf8_laws (W "a" ++ face)) as (cps & H & _ & Hs & _). exists cps. split; [exact H|]. apply Hs; reflexivity.
Defined.

Lemma remove_accents_spec_witness :
  remove_accents (W "caf" ++ e_acute) = Ret (W "cafe") /\ remove_accents (W "a" ++ face) = Ret (W "a" ++ face ++ face).
Proof.
  split.
  - refine (proj1 (proj2 (remove_accents_spec utf8_laws open_0 (W "caf" ++ e_acute) _ _)) _); vm_compute; congruence.
  - refine (proj1 (proj2 (remove_accents_spec utf8_laws open_0 (W "a" ++ face) _ _)) _); vm_compute; congruence.
Defined.

Lemma wide_conversions_witness : to_wstring (W "hello") = Undef OutOfBounds /\ exists e, utf32_to_utf8 false [0x68; 0x69] = Throw e.
Proof.
  destruct (wide_conversions utf8_laws open_0 false) as (H1 & H2 & _). split; [apply H1|]. apply H2. discriminate.
Defined.

(** ** Detection *)

Lemma overlay_lookup n (content : list byte) i :
  (i < n)%nat -> overlay 0 (take n content) (replicate n NULL_CHAR) !! i = (content ++ replicate n NULL_CHAR) !! i.
Proof.
  intros Hi. unfold overlay. rewrite take_0, app_nil_l. destruct (decide (i < length content)%nat).
  - rewrite !lookup_app_l by (rewrite ?length_take; lia). by rewrite lookup_take_lt.
  - rewrite (take_ge content) by lia. rewrite !lookup_app_r by lia. simpl. rewrite lookup_drop. rewrite !lookup_replicate_2 by lia. done.
Qed.

(** The first four bytes of what is read of a file, zero past its end. *)
Definition first_bytes (content : list byte) : list Z := map byte_val (take 4 (content ++ replicate 4 NULL_CHAR)).

Lemma byte_is_first content i v :
  (i < 4)%nat -> byte_is (overlay 0 (take MAX_BYTES content) (replicate MAX_BYTES NULL_CHAR)) i v = bool_decide (first_bytes content !! i = Some v).
Proof.
  intros Hi. unfold byte_is. rewrite overlay_lookup by (unfold MAX_BYTES; lia). unfold first_bytes. rewrite list_lookup_fmap, lookup_take_lt by lia.
  assert (E : (content ++ replicate MAX_BYTES NULL_CHAR) !! i = (content ++ replicate 4 NULL_CHAR) !! i).
  { destruct (decide (i < length content)%nat); [by rewrite !lookup_app_l by lia|]. rewrite !lookup_app_r by lia. rewrite !lookup_replicate_2; [done|lia|unfold MAX_BYTES; lia]. }
  rewrite E. destruct ((content ++ replicate 4 NULL_CHAR) !! i) as [b|]; simpl; [|done].
  destruct (Z.eqb_spec (byte_val b) v); [by rewrite bool_decide_true by congruence|by rewrite bool_decide_false by congruence].
Qed.

Section detection.
Context {I : IcuText}.

(** The buffer of [detect_encoding] always has its full size, so the tests for the marks of UTF-8 and UTF-16, which
    come after the test on four bytes or more, are never reached, and neither is ICU: a file is UTF-32 with a byte order mark - or
    UTF-16 with one and then a zero character, or nothing - or else the default encoding without a name is returned,
    also when it starts with the mark of UTF-8.  On buffers of two and three bytes [check_bom] itself knows those marks.  A file that
    cannot be opened or read is an error. *)
Theorem detect_encoding_spec (content rest : list byte) (bad : bool) (file_name : str) :
  detect_encoding (Some content) false file_name
    = (if decide (first_bytes content = BOM_UTF_32_BE) then UTF_32_BE_BOM
       else if decide (first_bytes content = BOM_UTF_32_LE) then UTF_32_LE_BOM else Ret default_encoding)
  /\ detect_encoding (Some (map byte_of_Z [0xEF; 0xBB; 0xBF] ++ rest)) false file_name = Ret default_encoding
  /\ detect_encoding (Some (map byte_of_Z [0xFF; 0xFE; 0; 0] ++ rest)) false file_name = UTF_32_LE_BOM
  /\ detect_encoding (Some content) true file_name = Throw (RuntimeError (W "Error: Could not read file " ++ file_name))
  /\ detect_encoding None bad file_name = Throw (RuntimeError (W "Error: Could not open file " ++ file_name))
  /\ check_bom (map byte_of_Z [0xEF; 0xBB; 0xBF]) default_encoding = (e ← UTF_8_BOM; Ret (true, e))
  /\ check_bom (map byte_of_Z [0xFE; 0xFF]) default_encoding = (e ← UTF_16_BE_BOM; Ret (true, e))
  /\ check_bom (map byte_of_Z [0xFF; 0xFE]) default_encoding = (e ← UTF_16_LE_BOM; Ret (true, e)).
Proof.
  assert (H : forall content, detect_encoding (Some content) false file_name
    = (if decide (first_bytes content = BOM_UTF_32_BE) then UTF_32_BE_BOM
       else if decide (first_bytes content = BOM_UTF_32_LE) then UTF_32_LE_BOM else Ret default_encoding)).
  { clear. intros content. unfold detect_encoding. set (buffer := overlay _ _ _). unfold check_bom.
    assert (Hl : (4 <= length buffer)%nat). { unfold buffer. rewrite overlay_length; rewrite length_replicate, ?length_take; unfold MAX_BYTES; lia. }
    assert (Hb : forall i v, (i < 4)%nat -> byte_is buffer i v = bool_decide (first_bytes content !! i = Some v)) by (intros; by apply byte_is_first).
    clearbody buffer. rewrite (decide_True (P := (4 <= length buffer)%nat)) by done. rewrite !Hb by lia.
    assert (E : exists a b c d, first_bytes content = [a; b; c; d]).
    { unfold first_bytes. destruct content as [|x0 [|x1 [|x2 [|x3 l]]]]; by repeat eexists. }
    destruct E as (a & b & c & d & ->). simpl. unfold BOM_UTF_32_BE, BOM_UTF_32_LE.
    destruct (decide ([a; b; c; d] = [0; 0; 0xFE; 0xFF])) as [E|E].
    - injection E as -> -> -> ->. vm_compute. reflexivity.
    - destruct (decide ([a; b; c; d] = [0xFF; 0xFE; 0; 0])) as [F|F].
      + injection F as -> -> -> ->. vm_compute. reflexivity.
      + destruct (bool_decide (Some a = Some 0) && bool_decide (Some b = Some 0) && bool_decide (Some c = Some 254) && bool_decide (Some d = Some 255)) eqn:G.
        { exfalso. apply E. rewrite !andb_true_iff, !bool_decide_eq_true in G. by destruct G as [[[[= ->] [= ->]] [= ->]] [= ->]]. }
        destruct (bool_decide (Some a = Some 255) && bool_decide (Some b = Some 254) && bool_decide (Some c = Some 0) && bool_decide (Some d = Some 0)) eqn:G2; [|done].
        exfalso. apply F. rewrite !andb_true_iff, !bool_decide_eq_true in G2. by destruct G2 as [[[[= ->] [= ->]] [= ->]] [= ->]]. }
  split; [apply H|]. split; [|split; [|split; [done|split; [done|split; [by vm_compute|split; by vm_compute]]]]].
  - rewrite H. destruct rest as [|x l]; [by vm_compute|]. unfold first_bytes. simpl take. cbn [map]. rewrite !byte_val_of. by rewrite !decide_False.
  - rewrite H. unfold first_bytes. by vm_compute.
Qed.
End detection.

(** Names and encodings correspond: each of the eleven names gives the encoding of that name, every other string is
    an error, and two of the encodings are equal only when they are the same. *)
Theorem encoding_names_roundtrip `{I : Icu} :
  (forall n e, (n, e) ∈ encoding_names -> s_encoding_to_encoding n = e /\ exists enc, e = Ret enc /\ cs_str (name enc) = Ret n)
  /\ (forall s, s ∉ map fst encoding_names -> s_encoding_to_encoding s = Throw (unknown_encoding s))
  /\ (forall n m a b, (n, Ret a) ∈ encoding_names -> (m, Ret b) ∈ encoding_names -> encoding_eq a b = Ret (bool_decide (n = m))).
Proof.
  split; [|split].
  - intros n e H. unfold encoding_names in H. repeat (apply elem_of_cons in H as [H|H]; [injection H as -> ->; split; [by vm_compute|eexists; by split; vm_compute]|]).
    by apply not_elem_of_nil in H.
  - intros s H. unfold s_encoding_to_encoding. destruct (List.find _ _) as [[n e]|] eqn:E; [|done]. apply find_some in E as [E1 E2].
    apply bool_decide_eq_true in E2 as ->. exfalso. apply H. apply list_elem_of_In, in_map_iff. by exists (n, e).
  - assert (H : Forall (fun p => Forall (fun q => match snd p, snd q with Ret a, Ret b => encoding_eq a b = Ret (bool_decide (fst p = fst q)) | _, _ => True end) encoding_names) encoding_names).
    { unfold encoding_names. repeat (apply Forall_cons; split; [repeat (apply Forall_cons; split; [by vm_compute|]); apply Forall_nil; done|]). by apply Forall_nil. }
    intros n m a b Hn Hm. rewrite Forall_forall in H. specialize (H _ Hn). rewrite Forall_forall in H. apply (H _ Hm).
Qed.
