(* ===== verification/Constraints.v ===== *)
(** * Constraints (cpp/src/constraint.hpp)

    A constraint answers [ok] for an argument.  [StringConstraint] searches a regular expression, [RangeConstraint] compares
    with two bounds and [CompositeConstraint] refers to two other constraints that it does not own: [heap] says which
    constraint objects are alive.  The file's regular expressions use an alphabet of classes, anchors and
    quantifiers; [parse_regex] reads that part of the ECMAScript grammar ([None] outside it) and [regex_search] is
    [std::regex_search] without the multiline flag. *)
From stdpp Require Import gmap.
From S2P Require Import Prelude Strings Objects.

(** ** Regular expressions *)

(** A class is a list of ranges of character codes. *)
Definition char_class : Type := list (Z * Z).
Definition in_class (k : char_class) (c : ascii) : bool :=
  existsb (fun '(lo, hi) => (lo <=? byte_val c)%Z && (byte_val c <=? hi)%Z) k.

Inductive quantifier := One | Optional | Star | Plus.
Inductive item := Begin | End | Chars (k : char_class) (q : quantifier).

(** The rest of a pattern matches a prefix of the text; [first] is whether the text starts there. *)
Fixpoint matches (p : list item) (first : bool) (s : str) : bool :=
  match p with
  | [] => true
  | Begin :: p => first && matches p first s
  | End :: p => match s with [] => matches p first [] | _ => false end
  | Chars k q :: p =>
      let many := (fix many (first : bool) (s : str) : bool :=
        matches p first s || match s with c :: s => in_class k c && many false s | [] => false end) in
      match q with
      | One => match s with c :: s => in_class k c && matches p false s | [] => false end
      | Optional => matches p first s || match s with c :: s => in_class k c && matches p false s | [] => false end
      | Star => many first s
      | Plus => match s with c :: s => in_class k c && many false s | [] => false end
      end
  end.
Fixpoint search_from (p : list item) (first : bool) (s : str) : bool :=
  matches p first s || match s with _ :: s => search_from p false s | [] => false end.
Definition regex_search (s : str) (p : list item) : bool := search_from p true s.

Definition special : str := W "\.*+?()[]{}|^$".
Fixpoint parse_class (s : str) (k : char_class) : option (char_class * str) :=
  match s with
  | [] => None
  | c :: rest =>
      if bool_decide (c = "]"%char) then Some (rev k, rest) else
      if bool_decide (c ∈ ["["; "\"; "^"; "-"]%char) then None else
      match rest with
      | d :: hi :: rest' =>
          if bool_decide (d = "-"%char) then
            if bool_decide (hi ∈ ["]"; "["; "\"]%char) then None else parse_class rest' ((byte_val c, byte_val hi) :: k)
          else parse_class rest ((byte_val c, byte_val c) :: k)
      | _ => parse_class rest ((byte_val c, byte_val c) :: k)
      end
  end.
Definition parse_quantifier (s : str) : quantifier * str :=
  match s with
  | c :: rest => if bool_decide (c = "*"%char) then (Star, rest) else if bool_decide (c = "+"%char) then (Plus, rest)
                 else if bool_decide (c = "?"%char) then (Optional, rest) else (One, s)
  | [] => (One, s)
  end.
Fixpoint parse_items (fuel : nat) (s : str) : option (list item) :=
  match fuel, s with
  | _, [] => Some []
  | O, _ => None
  | S fuel, c :: rest =>
      if bool_decide (c = "^"%char) then cons Begin <$> parse_items fuel rest
      else if bool_decide (c = "$"%char) then cons End <$> parse_items fuel rest
      else
        '(k, rest) ← (if bool_decide (c = "["%char) then parse_class rest []
                      else if bool_decide (c ∈ special) then None else Some ([(byte_val c, byte_val c)], rest));
        let '(q, rest) := parse_quantifier rest in cons (Chars k q) <$> parse_items fuel rest
  end.
Definition parse_regex (s : str) : option (list item) := parse_items (length s) s.

(** ** The constants *)

(* src: cpp/src/constraint.hpp:18-18 ONLY_DIGITS_REGEX *)
Definition ONLY_DIGITS_REGEX : str := W "^[0-9]*$".
(* src: cpp/src/constraint.hpp:19-19 AT_LEAST_ONE_DIGIT_REGEX *)
Definition AT_LEAST_ONE_DIGIT_REGEX : str := W "^[0-9]+$".
(* src: cpp/src/constraint.hpp:20-20 ONLY_LETTERS_REGEX *)
Definition ONLY_LETTERS_REGEX : str := W "^[a-zA-Z]*$".
(* src: cpp/src/constraint.hpp:21-21 ONLY_LETTERS_AND_DIGITS_REGEX *)
Definition ONLY_LETTERS_AND_DIGITS_REGEX : str := W "^[a-zA-Z0-9]*$".
(* src: cpp/src/constraint.hpp:22-22 ONLY_LETTERS_AND_DIGITS_AND_UNDERSCORES_REGEX *)
Definition ONLY_LETTERS_AND_DIGITS_AND_UNDERSCORES_REGEX : str := W "^[a-zA-Z0-9_]*$".

(** ** Constraint *)

(* src: cpp/src/constraint.hpp:168-181 Constraint *)
Record Constraint := mk_constraint { c_id : Z; c_name : str }.
(* src: cpp/src/constraint.hpp:186-186 Constraint::get_name *)
Definition get_name (c : Constraint) : str := c_name c.
(* src: cpp/src/constraint.hpp:188-189 Constraint::set_name *)
Definition set_name (aname : str) (c : Constraint) : Constraint := mk_constraint (c_id c) aname.
(* src: cpp/src/constraint.hpp:191-197 Constraint::initialize *)
Definition constraint_initialize (aid : Z) (aname : str) (c : Constraint) : Constraint * bool := (mk_constraint aid aname, true).

(** The descriptions of the classes of constraints. *)
(* src: cpp/src/constraint.hpp:175-176 Constraint::INFO *)
Definition CONSTRAINT_INFO : ClassInfo := info_or_blank (class_info CPPLIB_NAMESPACE (W "Constraint") 1 1 1).
(* src: cpp/src/constraint.hpp:251-252 CompositeConstraint::INFO *)
Definition COMPOSITECONSTRAINT_INFO : ClassInfo := info_or_blank (class_info CPPLIB_NAMESPACE (W "CompositeConstraint") 1 1 1).
(* src: cpp/src/constraint.hpp:329-330 RangeConstraint::INFO *)
Definition RANGECONSTRAINT_INFO : ClassInfo := info_or_blank (class_info CPPLIB_NAMESPACE (W "RangeConstraint") 1 1 1).

(* src: cpp/src/constraint.hpp:296-310 StringConstraint *)
Record StringConstraint := mk_string_constraint { sc_base : Constraint; sc_regex : list item }.
(** A pattern outside the modelled grammar gives [None]. *)
(* src: cpp/src/constraint.hpp:306-308 StringConstraint::StringConstraint *)
Definition new_StringConstraint (aregex : str) (aid : Z) (aname : str) : option StringConstraint :=
  mk_string_constraint (mk_constraint aid aname) <$> parse_regex aregex.
(* src: cpp/src/constraint.hpp:312-315 StringConstraint::ok *)
Definition string_ok (c : StringConstraint) (s : str) : bool := regex_search s (sc_regex c).

Section range.
Context {T : Type} (geb leb : T -> T -> bool).

(* src: cpp/src/constraint.hpp:320-326 RangeConstraint *)
Record RangeConstraint := mk_range { rc_base : Constraint; mmin : T; mmax : T }.
(* src: cpp/src/constraint.hpp:332-334 RangeConstraint::RangeConstraint *)
Definition new_RangeConstraint (amin amax : T) (aid : Z) (aname : str) : RangeConstraint := mk_range (mk_constraint aid aname) amin amax.
(* src: cpp/src/constraint.hpp:336-337 RangeConstraint::RangeConstraint *)
Definition new_RangeConstraint_value (avalue : T) (aid : Z) (aname : str) : RangeConstraint := mk_range (mk_constraint aid aname) avalue avalue.
(* src: cpp/src/constraint.hpp:341-344 RangeConstraint::ok *)
Definition range_ok (c : RangeConstraint) (t : T) : bool := geb t (mmin c) && leb t (mmax c).
End range.

(** ** Operands and composites *)

(** An operand is an object with a description of its class; it holds nothing else, and what it refers to is given to its call operator. *)
(* src: cpp/src/constraint.hpp:25-31 Operand::Operand, Operand::INFO *)
Definition new_Operand (aid : Z) : ClassInfo * obj := (info_or_blank (class_info CPPLIB_NAMESPACE (W "Operand") 1 1 1), new_Object aid).
(* src: cpp/src/constraint.hpp:42-53 UnaryOperand::UnaryOperand, UnaryOperand::INFO *)
Definition new_UnaryOperand (aid : Z) : ClassInfo * obj := (info_or_blank (class_info CPPLIB_NAMESPACE (W "UnaryOperand") 1 1 1), new_Object aid).
(* src: cpp/src/constraint.hpp:63-73 NotOperand::NotOperand, NotOperand::INFO *)
Definition new_NotOperand (aid : Z) : ClassInfo * obj := (info_or_blank (class_info CPPLIB_NAMESPACE (W "NotOperand") 1 1 1), new_Object aid).
(* src: cpp/src/constraint.hpp:83-91 BinaryOperand::BinaryOperand, BinaryOperand::INFO *)
Definition new_BinaryOperand (aid : Z) : ClassInfo * obj := (info_or_blank (class_info CPPLIB_NAMESPACE (W "BinaryOperand") 1 1 1), new_Object aid).
(* src: cpp/src/constraint.hpp:101-111 AndOperand::AndOperand, AndOperand::INFO *)
Definition new_AndOperand (aid : Z) : ClassInfo * obj := (info_or_blank (class_info CPPLIB_NAMESPACE (W "AndOperand") 1 1 1), new_Object aid).
(* src: cpp/src/constraint.hpp:122-132 OrOperand::OrOperand, OrOperand::INFO *)
Definition new_OrOperand (aid : Z) : ClassInfo * obj := (info_or_blank (class_info CPPLIB_NAMESPACE (W "OrOperand") 1 1 1), new_Object aid).
(* src: cpp/src/constraint.hpp:143-153 XorOperand::XorOperand, XorOperand::INFO *)
Definition new_XorOperand (aid : Z) : ClassInfo * obj := (info_or_blank (class_info CPPLIB_NAMESPACE (W "XorOperand") 1 1 1), new_Object aid).

Section operands.
Context {A : Type}.

(* src: cpp/src/constraint.hpp:75-79 NotOperand::operator() *)
Definition NotOperand (ok : A -> bool) (args : A) : bool := negb (ok args).

(* src: cpp/src/constraint.hpp:238-239 CompositeConstraint::OpType *)
Inductive OpType := AND | OR | XOR.
(** A constraint object: one with a predicate of its own, or a composite with its two references. *)
(* src: cpp/src/constraint.hpp:234-249 CompositeConstraint *)
Inductive node := Leaf (ok : A -> bool) | CompositeConstraint (left right : nat) (op : OpType).

(** The objects that are alive, and the address of the next one. *)
Record heap := mk_heap { objects : gmap nat node; fresh : nat }.
Definition alloc (n : node) (h : heap) : heap * nat := (mk_heap (<[fresh h := n]> (objects h)) (S (fresh h)), fresh h).
Definition destroy (l : nat) (h : heap) : heap := mk_heap (delete l (objects h)) (fresh h).

(* src: cpp/src/constraint.hpp:113-117 AndOperand::operator() *)
Definition AndOperand (left right : outcome bool) : outcome bool := b ← left; if b : bool then right else Ret false.
(* src: cpp/src/constraint.hpp:134-138 OrOperand::operator() *)
Definition OrOperand (left right : outcome bool) : outcome bool := b ← left; if b : bool then Ret true else right.
(* src: cpp/src/constraint.hpp:155-159 XorOperand::operator() *)
Definition XorOperand (left right : outcome bool) : outcome bool := b ← left; c ← right; Ret (xorb b c).

(** A composite is made after the objects it refers to, so an address bounds the depth below it. *)
(* src: cpp/src/constraint.hpp:264-277 CompositeConstraint::ok *)
Fixpoint node_ok (fuel : nat) (h : heap) (l : nat) (args : A) : outcome bool :=
  match fuel with
  | O => Undef NoProgress
  | S fuel =>
      match objects h !! l with
      | None => Undef UseAfterFree
      | Some (Leaf ok) => Ret (ok args)
      | Some (CompositeConstraint a b AND) => AndOperand (node_ok fuel h a args) (node_ok fuel h b args)
      | Some (CompositeConstraint a b OR) => OrOperand (node_ok fuel h a args) (node_ok fuel h b args)
      | Some (CompositeConstraint a b XOR) => XorOperand (node_ok fuel h a args) (node_ok fuel h b args)
      end
  end.
Definition ok (h : heap) (l : nat) (args : A) : outcome bool := node_ok (S l) h l args.

(* src: cpp/src/constraint.hpp:254-261 CompositeConstraint::CompositeConstraint *)
Definition new_CompositeConstraint (h : heap) (aleft aright : nat) (aop : OpType) : heap * nat :=
  alloc (CompositeConstraint aleft aright aop) h.
(** [new C (...)] with these arguments: the constructor that takes them, or [None] where there is none and the template does not
    compile.  The one constructor of a composite has no default for its operator; a composite is also made from another. *)
Inductive argument := Ref (l : nat) | Op (op : OpType).
Definition new_C (h : heap) (args : list argument) : option (heap * nat) :=
  match args with
  | [Ref l; Ref r; Op op] => Some (new_CompositeConstraint h l r op)
  | [Ref other] => (fun n => alloc n h) <$> objects h !! other
  | _ => None
  end.
(* src: cpp/src/constraint.hpp:281-286 operator&& *)
Definition and_constraints (h : heap) (left right : nat) : option (heap * nat) :=
  '(h, leaked) ← new_C h [Ref left; Ref right]; new_C h [Ref leaked].
(** The object made by [new] is never deleted; its copy is the temporary that the expression denotes. *)
(* src: cpp/src/constraint.hpp:288-293 operator|| *)
Definition or_constraints (h : heap) (left right : nat) : option (heap * nat) :=
  '(h, leaked) ← new_C h [Ref left; Ref right; Op OR]; new_C h [Ref leaked].

(** [auto x = a || b || c;] and [auto y = a || b; auto x = y || c;]. *)
Definition or3_temporary (h : heap) (a b c : nat) : option (heap * nat) :=
  '(h, t) ← or_constraints h a b; '(h, x) ← or_constraints h t c; Some (destroy t h, x).
Definition or3_named (h : heap) (a b c : nat) : option (heap * nat) :=
  '(h, y) ← or_constraints h a b; or_constraints h y c.
End operands.

(** ** String constraints *)

Lemma matches_star k p first s :
  matches (Chars k Star :: p) first s = matches p first s || match s with c :: s => in_class k c && matches (Chars k Star :: p) false s | [] => false end.
Proof. by destruct s. Qed.

Lemma star_end k first s : matches [Chars k Star; End] first s = forallb (in_class k) s.
Proof.
  revert first. induction s as [|c s IH]; intros first; rewrite matches_star; [done|]. rewrite IH. done.
Qed.

Lemma search_anchored p s : regex_search s (Begin :: p) = matches p true s.
Proof.
  unfold regex_search. assert (H : forall s, search_from (Begin :: p) false s = false) by (intros t; induction t as [|c t IH]; simpl; done).
  destruct s as [|c s]; simpl; [apply orb_false_r|]. by rewrite H, orb_false_r.
Qed.

Lemma search_star k s : regex_search s [Begin; Chars k Star; End] = forallb (in_class k) s.
Proof. by rewrite search_anchored, star_end. Qed.
Lemma search_plus k s : regex_search s [Begin; Chars k Plus; End] = negb (bool_decide (s = [])) && forallb (in_class k) s.
Proof.
  rewrite search_anchored. destruct s as [|c s]; [done|]. rewrite bool_decide_false by done. simpl.
  f_equal. apply (star_end k false s).
Qed.

Definition is_letter (c : ascii) : bool := ((97 <=? byte_val c)%Z && (byte_val c <=? 122)%Z) || ((65 <=? byte_val c)%Z && (byte_val c <=? 90)%Z).
Definition digit_class : char_class := [(48, 57)%Z].
Definition letter_class : char_class := [(97, 122)%Z; (65, 90)%Z].

Lemma parse_constants :
  parse_regex ONLY_DIGITS_REGEX = Some [Begin; Chars digit_class Star; End]
  /\ parse_regex AT_LEAST_ONE_DIGIT_REGEX = Some [Begin; Chars digit_class Plus; End]
  /\ parse_regex ONLY_LETTERS_REGEX = Some [Begin; Chars letter_class Star; End]
  /\ parse_regex ONLY_LETTERS_AND_DIGITS_REGEX = Some [Begin; Chars (letter_class ++ digit_class) Star; End]
  /\ parse_regex ONLY_LETTERS_AND_DIGITS_AND_UNDERSCORES_REGEX = Some [Begin; Chars ((letter_class ++ digit_class) ++ [(95, 95)%Z]) Star; End].
Proof. by vm_compute. Qed.

Lemma in_digit_class c : in_class digit_class c = is_digit c.
Proof.
  unfold in_class, is_digit, digit_class. simpl. rewrite orb_false_r. destruct (Z.leb_spec 48 (byte_val c)), (Z.leb_spec (byte_val c) 57); simpl; symmetry.
  all: first [apply bool_decide_eq_true_2; lia | apply bool_decide_eq_false_2; lia].
Qed.
Lemma in_letter_class c : in_class letter_class c = is_letter c.
Proof. unfold in_class, letter_class, is_letter. simpl. by rewrite orb_false_r. Qed.
Lemma in_class_app k l c : in_class (k ++ l) c = in_class k c || in_class l c.
Proof. unfold in_class. apply existsb_app. Qed.
Lemma in_underscore c : in_class [(95, 95)%Z] c = bool_decide (c = "_"%char).
Proof.
  unfold in_class. simpl. rewrite orb_false_r. destruct (decide (c = "_"%char)) as [->|H]; [done|]. rewrite bool_decide_false by done.
  apply not_true_is_false. rewrite andb_true_iff, !Z.leb_le. intros Hc. apply H. rewrite <- (byte_of_val c). by replace (byte_val c) with 95%Z by lia.
Qed.

(** A pattern of ordinary characters is found where the text starts with it. *)
Lemma matches_literal (s t : str) first : matches (map (fun c => Chars [(byte_val c, byte_val c)] One) s) first t = is_prefix s t.
Proof.
  revert first t. induction s as [|c s IH]; intros first t; [done|]. destruct t as [|d t]; [done|]. cbn [map matches is_prefix]. rewrite IH. f_equal.
  unfold in_class. simpl. rewrite orb_false_r. destruct (decide (c = d)) as [->|H]; [rewrite bool_decide_true by done; lia|].
  rewrite bool_decide_false by done. apply not_true_is_false. rewrite andb_true_iff, !Z.leb_le. intros Hc. apply H.
  rewrite <- (byte_of_val c), <- (byte_of_val d). f_equal. lia.
Qed.

Lemma parse_quantifier_ordinary (p : str) : Forall (fun c => c ∉ special) p -> parse_quantifier p = (One, p).
Proof.
  destruct 1 as [|c p Hc _]; [done|]. unfold parse_quantifier.
  rewrite !bool_decide_false by (intros ->; apply Hc; vm_compute; repeat constructor). done.
Qed.
Lemma parse_literal (p : str) : Forall (fun c => c ∉ special) p -> parse_regex p = Some (map (fun c => Chars [(byte_val c, byte_val c)] One) p).
Proof.
  unfold parse_regex. induction 1 as [|c p Hc Hp IH]; [done|]. cbn [length parse_items].
  rewrite !bool_decide_false by first [done | intros ->; apply Hc; vm_compute; repeat constructor].
  cbn [mbind option_bind]. rewrite (parse_quantifier_ordinary p Hp), IH. done.
Qed.

Lemma search_literal (p s : str) : regex_search s (map (fun c => Chars [(byte_val c, byte_val c)] One) p) = true <-> exists u w, s = u ++ p ++ w.
Proof.
  unfold regex_search. generalize true at 1. induction s as [|c s IH]; intros first; cbn [search_from]; rewrite matches_literal, orb_true_iff, is_prefix_spec.
  - split; [intros [(w & E)|]; [by exists [], w|done]|]. intros (u & w & E). left. exists w. by destruct u.
  - rewrite IH. split.
    + intros [(w & E)|(u & w & ->)]; [by exists [], w|by exists (c :: u), w].
    + intros ([|d u] & w & E); [left; by exists w|]. injection E as <- ->. right. by exists u, w.
Qed.

(** C22. The constraints of the five patterns are the predicates of their names: all characters are digits, all are and there
    is one, all are letters, letters or digits, letters, digits or underscores - the empty string passes all but the second -
    and a pattern of ordinary characters, so without anchors, quantifiers or classes, accepts exactly the strings that contain it. *)
Theorem string_constraints_spec (id : Z) (cname s : str) :
  exists digits digit letters alnum ident,
    new_StringConstraint ONLY_DIGITS_REGEX id cname = Some digits /\ string_ok digits s = forallb is_digit s
    /\ new_StringConstraint AT_LEAST_ONE_DIGIT_REGEX id cname = Some digit /\ string_ok digit s = negb (bool_decide (s = [])) && forallb is_digit s
    /\ new_StringConstraint ONLY_LETTERS_REGEX id cname = Some letters /\ string_ok letters s = forallb is_letter s
    /\ new_StringConstraint ONLY_LETTERS_AND_DIGITS_REGEX id cname = Some alnum
    /\ string_ok alnum s = forallb (fun c => is_letter c || is_digit c) s
    /\ new_StringConstraint ONLY_LETTERS_AND_DIGITS_AND_UNDERSCORES_REGEX id cname = Some ident
    /\ string_ok ident s = forallb (fun c => is_letter c || is_digit c || bool_decide (c = "_"%char)) s
    /\ forall p, Forall (fun c => c ∉ special) p -> exists found,
         new_StringConstraint p id cname = Some found /\ (string_ok found s = true <-> exists u w, s = u ++ p ++ w).
Proof.
  destruct parse_constants as (H1 & H2 & H3 & H4 & H5). unfold new_StringConstraint. rewrite H1, H2, H3, H4, H5.
  do 5 eexists. cbn [fmap option_fmap option_map]. unfold string_ok.
  repeat (split; [reflexivity|]; try split);
    [..|intros p Hp; rewrite (parse_literal p Hp); eexists; split; [reflexivity|]; apply search_literal]; cbn [sc_regex]; rewrite ?search_star, ?search_plus; first [apply forallb_ext_elem | apply (f_equal (andb _)), forallb_ext_elem]; intros c _;
    rewrite ?in_class_app, ?in_digit_class, ?in_letter_class, ?in_underscore; done.
Qed.

(** ** Composites *)

Section composites.
Context {A : Type}.
Implicit Types (h : @heap A) (l : nat) (args : A).

(** Objects are younger than those they refer to. *)
Definition wf_heap h : Prop :=
  forall l n, objects h !! l = Some n -> l < fresh h /\ match n with CompositeConstraint a b _ => a < l /\ b < l | Leaf _ => True end.

Lemma node_ok_fuel h l args f1 f2 : wf_heap h -> l < f1 -> l < f2 -> node_ok f1 h l args = node_ok f2 h l args.
Proof.
  intros Hw. revert f2 l. induction f1 as [|f1 IH]; intros [|f2] l H1 H2; try lia. simpl.
  destruct (objects h !! l) as [[p|a b op]|] eqn:E; [done| |done]. destruct (Hw _ _ E) as (_ & Ha & Hb).
  rewrite (IH f2 a), (IH f2 b) by lia. done.
Qed.

Lemma wf_alloc h n : wf_heap h -> match n with CompositeConstraint a b _ => a < fresh h /\ b < fresh h | Leaf _ => True end -> wf_heap (fst (alloc n h)).
Proof.
  intros Hw Hn l m. simpl. destruct (decide (l = fresh h)) as [->|Hl].
  - rewrite lookup_insert_eq. intros [= <-]. split; [lia|done].
  - rewrite lookup_insert_ne by done. intros H. destruct (Hw _ _ H) as [? ?]. split; [lia|done].
Qed.
Lemma wf_destroy h l : wf_heap h -> wf_heap (destroy l h).
Proof. intros Hw k n. simpl. rewrite lookup_delete_Some. intros [_ H]. by apply Hw. Qed.

(** Making an object changes no other. *)
Lemma ok_alloc h n l args : wf_heap h -> l < fresh h -> ok (fst (alloc n h)) l args = ok h l args.
Proof.
  intros Hw. unfold ok. enough (H : forall f, l < fresh h -> node_ok f (fst (alloc n h)) l args = node_ok f h l args) by (intros; by apply H).
  intros f. revert l. induction f as [|f IH]; intros l Hl; [done|]. simpl. rewrite lookup_insert_ne by lia.
  destruct (objects h !! l) as [[p|a b op]|] eqn:E; [done| |done]. destruct (Hw _ _ E) as (_ & Ha & Hb).
  simpl in IH. rewrite (IH a), (IH b) by lia. done.
Qed.

Definition apply_op (op : OpType) (x y : bool) : bool := match op with AND => x && y | OR => x || y | XOR => xorb x y end.

Lemma ok_composite h a b op args x y :
  wf_heap h -> a < fresh h -> b < fresh h -> ok h a args = Ret x -> ok h b args = Ret y ->
  ok (fst (alloc (CompositeConstraint a b op) h)) (fresh h) args = Ret (apply_op op x y).
Proof.
  intros Hw La Lb Ha Hb. pose proof (wf_alloc h (CompositeConstraint a b op) Hw (conj La Lb)) as Hw'.
  rewrite <- (ok_alloc h (CompositeConstraint a b op) a args Hw La) in Ha. rewrite <- (ok_alloc h (CompositeConstraint a b op) b args Hw Lb) in Hb.
  unfold ok in *. set (h' := fst (alloc _ h)) in *. cbn [node_ok]. assert (E : objects h' !! fresh h = Some (CompositeConstraint a b op)) by apply lookup_insert_eq.
  rewrite E. rewrite (node_ok_fuel h' a args _ (S a)), (node_ok_fuel h' b args _ (S b)), Ha, Hb by (done || lia).
  destruct op, x; by destruct y.
Qed.

Lemma ok_dead h l args : objects h !! l = None -> ok h l args = Undef UseAfterFree.
Proof. intros H. unfold ok. cbn [node_ok]. by rewrite H. Qed.
Lemma ok_dead_left h l a b op args : wf_heap h -> objects h !! l = Some (CompositeConstraint a b op) -> objects h !! a = None -> ok h l args = Undef UseAfterFree.
Proof.
  intros Hw El Ea. unfold ok. cbn [node_ok]. rewrite El. destruct (Hw _ _ El) as (_ & Ha & _).
  assert (E : node_ok l h a args = Undef UseAfterFree) by (destruct l; [lia|]; simpl; by rewrite Ea). rewrite E. by destruct op.
Qed.

Lemma or_constraints_eq h a b : or_constraints h a b =
  Some (alloc (CompositeConstraint a b OR) (fst (alloc (CompositeConstraint a b OR) h))).
Proof. unfold or_constraints. cbn. by rewrite lookup_insert_eq. Qed.

(** What a composite answers when one of its operands is gone: it depends on whether the other operand decides. *)
Lemma ok_dead_right h l a b op args x :
  wf_heap h -> objects h !! l = Some (CompositeConstraint a b op) -> objects h !! b = None -> ok h a args = Ret x ->
  ok h l args = match op with
                | AND => if x then Undef UseAfterFree else Ret false
                | OR => if x then Ret true else Undef UseAfterFree
                | XOR => Undef UseAfterFree
                end.
Proof.
  intros Hw El Eb Ha. unfold ok in *. cbn [node_ok]. rewrite El. destruct (Hw _ _ El) as (_ & La & Lb).
  assert (E : node_ok l h b args = Undef UseAfterFree) by (destruct l; [lia|]; simpl; by rewrite Eb).
  rewrite (node_ok_fuel h a args l (S a) Hw La ltac:(lia)), Ha, E. by destruct op, x.
Qed.

(** Destroying an older object and making a younger one commute. *)
Lemma ok_alloc_destroy h n k l args : wf_heap h -> k < fresh h -> l < fresh h ->
  ok (destroy k (fst (alloc n h))) l args = ok (destroy k h) l args.
Proof.
  intros Hw Hk Hl. assert (E : destroy k (fst (alloc n h)) = fst (alloc n (destroy k h))).
  { unfold destroy, alloc. cbn. f_equal. symmetry. apply insert_delete_ne. lia. }
  rewrite E. apply ok_alloc; [by apply wf_destroy|done].
Qed.

(** C37. A composite of live constraints answers the conjunction, disjunction or exclusive disjunction of their answers, in any
    nesting of named composites.  It does not own what it refers to: asking it after its left operand has died is a use after
    free; after its right operand, on which the left one does not depend, has, it is one unless the left answer decides ([false] for AND, [true] for OR).  In [a || b || c]
    kept in a variable the temporary [a || b] is dead, so asking it is a use after free.  [a && b] finds no constructor for its two
    arguments, and does not compile. *)
Theorem composite_lifetime h (a b c : nat) args (x y z : bool)
    (Hw : wf_heap h) (La : a < fresh h) (Lb : b < fresh h) (Lc : c < fresh h)
    (Ha : ok h a args = Ret x) (Hb : ok h b args = Ret y) (Hc : ok h c args = Ret z) :
  (forall op, let '(h', l) := new_CompositeConstraint h a b op in
     ok h' l args = Ret (apply_op op x y)
     /\ ok (destroy a h') l args = Undef UseAfterFree
     /\ (ok (destroy b h) a args = Ret x ->
         ok (destroy b h') l args = match op with
                                    | AND => if x then Undef UseAfterFree else Ret false
                                    | OR => if x then Ret true else Undef UseAfterFree
                                    | XOR => Undef UseAfterFree
                                    end))
  /\ (exists h' l, or_constraints h a b = Some (h', l) /\ ok h' l args = Ret (x || y))
  /\ (exists h' l, or3_named h a b c = Some (h', l) /\ ok h' l args = Ret (x || y || z))
  /\ (exists h' l, or3_temporary h a b c = Some (h', l) /\ ok h' l args = Undef UseAfterFree)
  /\ and_constraints h a b = None.
Proof.
  set (n1 := @CompositeConstraint A a b OR). assert (N1 : a < fresh h /\ b < fresh h) by done.
  set (h1 := fst (alloc n1 h)). assert (W1 : wf_heap h1) by (by apply (wf_alloc h n1)).
  set (h2 := fst (alloc n1 h1)). assert (W2 : wf_heap h2) by (apply (wf_alloc h1 n1); [done|simpl; lia]).
  set (n2 := @CompositeConstraint A (S (fresh h)) c OR).
  set (h3 := fst (alloc n2 h2)). assert (W3 : wf_heap h3) by (apply (wf_alloc h2 n2); [done|simpl; lia]).
  set (h4 := fst (alloc n2 h3)). assert (W4 : wf_heap h4) by (apply (wf_alloc h3 n2); [done|simpl; lia]).
  assert (O1 : forall l, l < fresh h -> ok h1 l args = ok h l args) by (intros; by apply ok_alloc).
  assert (O2 : forall l, l < fresh h1 -> ok h2 l args = ok h1 l args) by (intros; by apply ok_alloc).
  assert (O3 : forall l, l < fresh h2 -> ok h3 l args = ok h2 l args) by (intros; by apply ok_alloc).
  assert (K2 : ok h2 (S (fresh h)) args = Ret (x || y)).
  { apply (ok_composite h1 a b OR args x y W1); simpl; try lia; by rewrite O1. }
  split; [intros op|split; [|split; [|split; [|done]]]].
  - set (n := @CompositeConstraint A a b op). pose proof (wf_alloc h n Hw N1) as Hw'.
    change (new_CompositeConstraint h a b op) with (fst (alloc n h), fresh h). split; [by apply (ok_composite h a b op args x y)|].
    assert (E : forall k, k < fresh h -> objects (destroy k (fst (alloc n h))) !! fresh h = Some n).
    { intros k Hk. simpl. rewrite lookup_delete_ne by lia. apply lookup_insert_eq. }
    split; [apply (ok_dead_left _ _ a b op); [by apply wf_destroy|by apply E|apply lookup_delete_eq]|].
    intros Hx. apply (ok_dead_right _ _ a b op); [by apply wf_destroy|by apply E|apply lookup_delete_eq|]. by rewrite ok_alloc_destroy.
  - rewrite or_constraints_eq. eexists _, _. split; [reflexivity|]. exact K2.
  - unfold or3_named. rewrite or_constraints_eq. cbn [mbind option_bind alloc]. rewrite or_constraints_eq. eexists _, _. split; [reflexivity|].
    apply (ok_composite h3 (S (fresh h)) c OR args (x || y) z W3); simpl; try lia.
    + by rewrite O3 by (simpl; lia).
    + by rewrite O3, O2, O1 by (simpl; lia).
  - unfold or3_temporary. rewrite or_constraints_eq. cbn [mbind option_bind alloc]. rewrite or_constraints_eq. cbn [mbind option_bind alloc].
    eexists _, _. split; [reflexivity|].
    change (ok (destroy (S (fresh h)) h4) (S (S (S (fresh h)))) args = Undef UseAfterFree).
    apply (ok_dead_left _ _ (S (fresh h)) c OR); [by apply wf_destroy| |apply lookup_delete_eq].
    simpl. rewrite lookup_delete_ne by lia. apply lookup_insert_eq.
Qed.
End composites.

(** Three ranges of ages. *)
Definition ages : @heap Z :=
  let range lo hi := Leaf (range_ok Z.geb Z.leb (new_RangeConstraint lo hi (-1) [])) in
  fst (alloc (range 11%Z 19%Z) (fst (alloc (range 3%Z 10%Z) (fst (alloc (range 0%Z 2%Z) (mk_heap ∅ 0)))))).
Lemma ages_wf : wf_heap ages.
Proof. unfold ages. repeat (apply wf_alloc; [|done]). intros l n H. simpl in H. by rewrite lookup_empty in H. Qed.

Lemma composite_lifetime_witness :
  (exists h' l, or3_named ages 0 1 2 = Some (h', l) /\ ok h' l 12%Z = Ret true)
  /\ (exists h' l, or3_temporary ages 0 1 2 = Some (h', l) /\ ok h' l 12%Z = Undef UseAfterFree)
  /\ (let '(h', l) := new_CompositeConstraint ages 0 1 OR in ok (destroy 1 h') l 12%Z = Undef UseAfterFree).
Proof.
  destruct (composite_lifetime ages 0 1 2 12%Z false false true ages_wf) as (H0 & _ & H1 & H2 & _); [simpl; lia..|reflexivity|reflexivity|reflexivity|].
  split; [exact H1|]. split; [exact H2|]. destruct (H0 OR) as (_ & _ & H3). apply H3. reflexivity.
Defined.

(** A range holds the values between its bounds; the one-value constructor holds that value; reversed bounds hold nothing. *)
Lemma range_constraint_spec (lo hi t id : Z) (s : str) :
  (range_ok Z.geb Z.leb (new_RangeConstraint lo hi id s) t = true <-> (lo <= t <= hi)%Z)
  /\ (range_ok Z.geb Z.leb (new_RangeConstraint_value lo id s) t = true <-> t = lo)
  /\ ((hi < lo)%Z -> range_ok Z.geb Z.leb (new_RangeConstraint lo hi id s) t = false).
Proof.
  unfold range_ok, new_RangeConstraint, new_RangeConstraint_value; simpl. rewrite !Z.geb_leb. split_and!.
  - rewrite andb_true_iff, !Z.leb_le. lia.
  - rewrite andb_true_iff, !Z.leb_le. lia.
  - intros H. apply not_true_is_false. rewrite andb_true_iff, !Z.leb_le. lia.
Qed.
