(* ===== verification/FileSystem.v ===== *)
(** * The file system and file streams

    What the code uses of [std::filesystem] and [std::basic_fstream], on a POSIX system without symbolic links, where a name
    before [..] is that of a directory that is there (other endings of a path are told apart): a map from
    the components of a path to files and directories, and streams with one position, a buffer of characters not
    written yet, and the fail and eof bits.  [std::ios::openmode] is a bit mask, with the values of libstdc++. *)
From stdpp Require Import gmap.
From S2P Require Import Prelude Strings.

(** ** Paths as the system reads them *)

Definition SEPARATOR : ascii := "/"%char.
Definition path_key : Type := list str.
Definition is_absolute (p : str) : bool := match p with c :: _ => bool_decide (c = SEPARATOR) | [] => false end.
Definition components (p : str) : path_key := filter (fun c => c <> [] /\ c <> W ".") (fields SEPARATOR p).
Definition walk (at_ : path_key) (c : str) : path_key := if decide (c = W "..") then take (length at_ - 1) at_ else at_ ++ [c].
Definition resolve (cwd : path_key) (p : str) : path_key := fold_left walk (components p) (if is_absolute p then [] else cwd).

Inductive entry := Directory | Regular (content : str).
#[export] Instance entry_eq_dec : EqDecision entry.
Proof. solve_decision. Defined.
Record world := mk_world { files : gmap path_key entry; cwd : path_key }.

(** The root is always there. *)
Definition lookup_entry (w : world) (k : path_key) : option entry := if decide (k = []) then Some Directory else files w !! k.
Definition set_entry (w : world) (k : path_key) (e : entry) : world := mk_world (<[k := e]> (files w)) (cwd w).
Definition file_content (w : world) (k : path_key) : str := match lookup_entry w k with Some (Regular c) => c | _ => [] end.
Definition parent_key (k : path_key) : path_key := take (length k - 1) k.

(** A path that ends with a separator, [.] or [..] is that of a directory or of nothing, and the empty path is that of nothing. *)
Definition directory_only (p : str) : bool := bool_decide (default [] (last (fields SEPARATOR p)) ∈ [[]; W "."; W ".."]).
Definition find_entry (w : world) (p : str) : option entry :=
  if decide (p = []) then None else
  match lookup_entry w (resolve (cwd w) p) with
  | Some (Regular c) => if directory_only p then None else Some (Regular c)
  | e => e
  end.
(** The last name of the path, separators after it apart. *)
Definition last_component (p : str) : str := default [] (last (filter (fun c => c <> []) (fields SEPARATOR p))).
Definition is_regular (w : world) (k : path_key) : bool := match lookup_entry w k with Some (Regular _) => true | _ => false end.
Definition prefixes (k : path_key) : list path_key := map (fun n => take n k) (seq 1 (length k)).

Definition fs_exists (w : world) (p : str) : bool := bool_decide (is_Some (find_entry w p)).
Definition fs_is_directory (w : world) (p : str) : bool := bool_decide (find_entry w p = Some Directory).
Definition fs_error {A} : outcome A := Throw (RuntimeError (W "filesystem error")).
Definition fs_file_size (w : world) (p : str) : outcome nat :=
  match find_entry w p with Some (Regular c) => Ret (length c) | _ => fs_error end.

(** One directory below one that is there, then every directory on the way. *)
Definition create_directory (w : outcome world) (k : path_key) : outcome world :=
  w ← w; match lookup_entry w k with Some Directory => Ret w | Some (Regular _) => fs_error | None => Ret (set_entry w k Directory) end.
(** An empty path is an error. *)
Definition fs_create_directories (w : world) (p : str) : outcome world :=
  if decide (p = []) then fs_error else fold_left create_directory (prefixes (resolve (cwd w) p)) (Ret w).
(** Only an empty directory is removed, not through a path that ends in [.] or [..], and not the root; nothing being there is no error, unless a
    file is where a directory should be. *)
Definition fs_remove (w : world) (p : str) : outcome (world * bool) :=
  let k := resolve (cwd w) p in
  match find_entry w p with
  | None => if decide (p <> [] /\ existsb (is_regular w) (prefixes k) = true) then fs_error else Ret (w, false)
  | Some (Regular _) => Ret (mk_world (delete k (files w)) (cwd w), true)
  | Some Directory =>
      if decide (k = [] \/ last_component p ∈ [W "."; W ".."] \/ map_Exists (fun j _ => k `prefix_of` j /\ j <> k) (files w)) then fs_error
      else Ret (mk_world (delete k (files w)) (cwd w), true)
  end.
(** Everything below the path first, and then the path itself; the number of entries removed.  When the path goes down to a directory and ends in [..],
    it leads nowhere once that directory is gone, which is no error. *)
Definition fs_remove_all (w : world) (p : str) : outcome (world * nat) :=
  let k := resolve (cwd w) p in
  let below := match find_entry w p with Some Directory => filter (fun '(j, _) => k `prefix_of` j /\ j <> k) (files w) | _ => ∅ end in
  let emptied := mk_world (files w ∖ below) (cwd w) in
  if decide (find_entry w p = Some Directory /\ last_component p = W ".." /\ Exists (fun c => c <> W "..") (components p)) then Ret (emptied, size below)
  else '(w, removed) ← fs_remove emptied p; Ret (w, size below + (if removed : bool then 1 else 0)).

(** What a [char*] shows of a string. *)
Definition cstr (s : str) : str := take (cstr_length s) s.
Lemma cstr_no_nul s : no_nul s -> cstr s = s.
Proof. intros H%nul_index_None. unfold cstr, cstr_length. rewrite H. by apply take_ge. Qed.

(** ** Open modes *)

Definition ios_app : Z := 1.
Definition ios_ate : Z := 2.
Definition ios_binary : Z := 4.
Definition ios_in : Z := 8.
Definition ios_out : Z := 16.
Definition ios_trunc : Z := 32.
Definition flag (mode f : Z) : bool := negb (Z.land mode f =? 0)%Z.

(** The table of [basic_filebuf::open]: whether the file must exist and whether it is emptied; no other combination opens. *)
Definition open_table (mode : Z) : option (bool * bool) :=
  match flag mode ios_in, flag mode ios_out, flag mode ios_app, flag mode ios_trunc with
  | true, false, false, false => Some (true, false)
  | false, true, false, _ => Some (false, true)
  | _, _, true, false => Some (false, false)
  | true, true, false, false => Some (true, false)
  | true, true, false, true => Some (false, true)
  | _, _, _, _ => None
  end.

(** ** Streams *)

Record fstream := mk_stream {
  s_file : option path_key; s_mode : Z; s_pos : nat; s_pending : str; s_fail : bool; s_eof : bool }.
Definition closed_stream : fstream := mk_stream None 0 0 [] false false.
Definition is_open (f : fstream) : bool := bool_decide (is_Some (s_file f)).
Definition set_fail (f : fstream) : fstream := mk_stream (s_file f) (s_mode f) (s_pos f) (s_pending f) true (s_eof f).

Definition open_at (w : world) (k : path_key) (mode : Z) (c : str) : world * fstream :=
  (set_entry w k (Regular c), mk_stream (Some k) mode (if flag mode ios_ate then length c else 0) [] false false).
(** Opening a stream that is open fails, as do a mode outside the table, a directory or a path that can only be one, a file that must exist
    and does not, and one whose directory does not. *)
Definition stream_open (w : world) (f : fstream) (p : str) (mode : Z) : world * fstream :=
  if is_open f || directory_only p then (w, set_fail f) else
  let k := resolve (cwd w) p in
  match open_table mode, lookup_entry w k with
  | Some (must_exist, truncate), Some (Regular c) => open_at w k mode (if truncate : bool then [] else c)
  | Some (false, _), None =>
      if bool_decide (lookup_entry w (parent_key k) = Some Directory) then open_at w k mode [] else (w, set_fail f)
  | _, _ => (w, set_fail f)
  end.

(** Writing characters at a position, which fills the gap to it with zeros. *)
Definition write_at (c : str) (at_ : nat) (s : str) : str :=
  take at_ c ++ replicate (at_ - length c) NULL_CHAR ++ s ++ drop (at_ + length s) c.
Definition stream_flush (w : world) (f : fstream) : world * fstream :=
  match s_file f with
  | Some k =>
      if decide (s_pending f = []) then (w, f) else
      let c := file_content w k in
      let at_ := if flag (s_mode f) ios_app then length c else s_pos f in
      ((if bool_decide (lookup_entry w k = None) then w else set_entry w k (Regular (write_at c at_ (s_pending f)))),
       mk_stream (Some k) (s_mode f) (at_ + length (s_pending f)) [] (s_fail f) (s_eof f))
  | None => (w, f)
  end.
Definition can_write (f : fstream) : bool := is_open f && negb (s_fail f) && (flag (s_mode f) ios_out || flag (s_mode f) ios_app).
Definition can_read (f : fstream) : bool := is_open f && negb (s_fail f) && flag (s_mode f) ios_in.
Definition stream_write (f : fstream) (s : str) : fstream :=
  if can_write f then mk_stream (s_file f) (s_mode f) (s_pos f) (s_pending f ++ s) false (s_eof f) else set_fail f.
(** [seekg(0, beg)] clears the eof bit, and moves unless the stream has failed. *)
Definition stream_rewind (w : world) (f : fstream) : world * fstream :=
  let f := mk_stream (s_file f) (s_mode f) (s_pos f) (s_pending f) (s_fail f) false in
  if s_fail f then (w, f) else
  if is_open f then let '(w, f) := stream_flush w f in (w, mk_stream (s_file f) (s_mode f) 0 [] false false) else (w, set_fail f).
(** [read(buffer, n)]: the characters read; fewer than [n] set both bits. *)
Definition stream_read (w : world) (f : fstream) (n : nat) : world * fstream * str :=
  if s_fail f || bool_decide (n = 0) then (w, f, []) else
  if can_read f then
    let '(w, f) := stream_flush w f in
    let c := match s_file f with Some k => file_content w k | None => [] end in
    let out := take n (drop (s_pos f) c) in
    let short := bool_decide (length out < n) in
    (w, mk_stream (s_file f) (s_mode f) (s_pos f + length out) [] short short, out)
  else (w, mk_stream (s_file f) (s_mode f) (s_pos f) (s_pending f) true true, []).
(** [get]: the end of the file is [None]. *)
Definition stream_get (w : world) (f : fstream) : world * fstream * option ascii :=
  let '(w, f, s) := stream_read w f 1 in (w, f, head s).
(** A new [ifstream] on the path, and the first line it gives: nothing when the file is empty. *)
Definition first_line (w : world) (p : str) : option (option str) :=
  let '(w, f) := stream_open w closed_stream p ios_in in
  match s_file f with
  | None => None
  | Some k => Some (match file_content w k with [] => None | c => Some (take_while (fun x => bool_decide (x <> "010"%char)) c) end)
  end.
(** [close] fails on a closed stream; it does not clear the bits. *)
Definition stream_close (w : world) (f : fstream) : world * fstream :=
  if is_open f then let '(w, f) := stream_flush w f in (w, mk_stream None (s_mode f) 0 [] (s_fail f) (s_eof f)) else (w, set_fail f).

(** ** Lemmas on worlds *)

Lemma lookup_set_entry w k e j : k <> [] -> lookup_entry (set_entry w k e) j = if decide (j = k) then Some e else lookup_entry w j.
Proof.
  intros Hk. unfold lookup_entry, set_entry. simpl. repeat case_decide; subst; try done.
  - by rewrite lookup_insert_eq.
  - by rewrite lookup_insert_ne by congruence.
Qed.

Lemma lookup_root w : lookup_entry w [] = Some Directory.
Proof. done. Qed.

Lemma fold_create_throw ks e : fold_left create_directory ks (Throw e) = Throw e.
Proof. by induction ks. Qed.

(** Creating directories fails when a file is in the way, and changes nothing else. *)
Lemma fold_create_spec ks w : Forall (fun k => k <> []) ks ->
  if existsb (is_regular w) ks then fold_left create_directory ks (Ret w) = fs_error
  else exists w', fold_left create_directory ks (Ret w) = Ret w' /\ cwd w' = cwd w
       /\ forall j, lookup_entry w' j = if decide (j ∈ ks) then Some Directory else lookup_entry w j.
Proof.
  revert w. induction ks as [|k ks IH]; intros w Hk; cbn [existsb fold_left].
  - exists w. split; [done|split; [done|]]. intros j. case_decide as H; [by apply not_elem_of_nil in H|done].
  - apply Forall_cons in Hk as [Hk Hks]. unfold is_regular at 1. destruct (lookup_entry w k) as [[|c]|] eqn:E; cbn [orb create_directory mbind outcome_bind]; rewrite ?E.
    + specialize (IH w Hks). case_match; [done|]. destruct IH as (w' & F & C & L). exists w'. split; [done|split; [done|]].
      intros j. rewrite L. repeat case_decide; try done; set_solver.
    + apply fold_create_throw.
    + specialize (IH (set_entry w k Directory) Hks).
      assert (existsb (is_regular (set_entry w k Directory)) ks = existsb (is_regular w) ks) as Ex.
      { clear IH Hks. induction ks as [|j ks IH]; simpl; [done|]. rewrite IH. f_equal. unfold is_regular.
        rewrite lookup_set_entry by done. case_decide; subst; [by rewrite E|done]. }
      rewrite Ex in IH. case_match; [done|]. destruct IH as (w' & F & C & L). exists w'. split; [done|split; [done|]].
      intros j. rewrite L, lookup_set_entry by done. repeat case_decide; try done; set_solver.
Qed.

Lemma prefixes_elem k j : j ∈ prefixes k <-> j `prefix_of` k /\ j <> [].
Proof.
  unfold prefixes. rewrite list_elem_of_In, in_map_iff. split.
  - intros (n & <- & [H1 H2]%in_seq). split; [apply prefix_take|]. intros E. apply (f_equal length) in E. rewrite length_take in E. simpl in E. lia.
  - intros [[t ->] Hj]. exists (length j). split; [by rewrite take_app_length|]. rewrite in_seq, length_app. destruct j; simpl in *; [done|lia].
Qed.

Lemma fs_create_directories_spec w p : p <> [] ->
  if existsb (is_regular w) (prefixes (resolve (cwd w) p)) then fs_create_directories w p = fs_error
  else exists w', fs_create_directories w p = Ret w' /\ cwd w' = cwd w
       /\ forall j, lookup_entry w' j = if decide (j `prefix_of` resolve (cwd w) p) then Some Directory else lookup_entry w j.
Proof.
  intros Hp. unfold fs_create_directories. rewrite decide_False by done.
  pose proof (fold_create_spec (prefixes (resolve (cwd w) p)) w) as F.
  assert (Forall (fun k => k <> []) (prefixes (resolve (cwd w) p))) as Hk by (apply Forall_forall; by intros j [_ ?]%prefixes_elem).
  specialize (F Hk). case_match; [done|]. destruct F as (w' & E & C & L). exists w'. split; [done|split; [done|]]. intros j. rewrite L.
  repeat case_decide; try done; rewrite prefixes_elem in *; destruct (decide (j = [])) as [->|]; try done; naive_solver.
Qed.

(** Opening a file that is not there yet, in a directory that is. *)
Lemma stream_open_creates w f p mode truncate k :
  is_open f = false -> directory_only p = false -> open_table mode = Some (false, truncate) -> resolve (cwd w) p = k -> lookup_entry w k = None ->
  lookup_entry w (parent_key k) = Some Directory -> stream_open w f p mode = open_at w k mode [].
Proof.
  intros Ho Hd Ht <- Hk Hp. unfold stream_open. rewrite Ho, Hd, Ht, Hk. by rewrite bool_decide_eq_true_2.
Qed.

(** Whatever there is lies in a directory, up to the root. *)
Definition tree (w : world) : Prop :=
  forall j k, j `prefix_of` k -> j <> k -> is_Some (lookup_entry w k) -> lookup_entry w j = Some Directory.

Lemma prefix_antisym_key (j k : path_key) : j `prefix_of` k -> k `prefix_of` j -> j = k.
Proof. intros H1 H2. apply (anti_symm prefix); done. Qed.

(** A path that can be a file's is found as its key says. *)
Lemma find_entry_file w p : directory_only p = false -> find_entry w p = lookup_entry w (resolve (cwd w) p).
Proof.
  intros H. unfold find_entry. rewrite decide_False by (intros ->; done). rewrite H. by destruct (lookup_entry _ _) as [[]|].
Qed.
Lemma find_entry_Some w p e : find_entry w p = Some e -> p <> [] /\ lookup_entry w (resolve (cwd w) p) = Some e.
Proof. unfold find_entry. case_decide; [done|]. destruct (lookup_entry _ _) as [[|c]|]; [done| |done]. by destruct (directory_only p). Qed.

Lemma last_up (p : str) : last_component p = W ".." -> W ".." ∈ components p.
Proof.
  unfold last_component, components. intros H. apply list_elem_of_filter. split; [done|].
  destruct (last (filter _ (fields SEPARATOR p))) as [c|] eqn:E; [|done]. cbn in H. subst c. apply last_Some_elem_of in E.
  by apply list_elem_of_filter in E as [_ E].
Qed.

(** What is left when a whole subtree goes. *)
Definition without (w : world) (k : path_key) (w' : world) : Prop :=
  cwd w' = cwd w /\ forall j, lookup_entry w' j = if decide (j <> [] /\ k `prefix_of` j) then None else lookup_entry w j.

Lemma fs_remove_file w p c : tree w -> find_entry w p = Some (Regular c) -> exists w', fs_remove w p = Ret (w', true) /\ without w (resolve (cwd w) p) w'.
Proof.
  intros T Hf. destruct (find_entry_Some w p _ Hf) as [_ Ek]. set (k := resolve (cwd w) p) in *. unfold fs_remove. rewrite Hf. fold k.
  eexists. split; [done|]. split; [done|]. intros j. unfold lookup_entry. cbn [files]. case_decide as Ej; [by rewrite decide_False by naive_solver|]. case_decide as D.
  - destruct (decide (j = k)) as [->|Hne]; [apply lookup_delete_eq|]. rewrite lookup_delete_ne by done.
    destruct (files w !! j) eqn:F; [|done]. exfalso. pose proof (T k j) as T'. rewrite Ek in T'. unfold lookup_entry in T'.
    rewrite decide_False, F in T' by done. discriminate T'; naive_solver.
  - rewrite lookup_delete_ne; [done|]. intros ->. naive_solver.
Qed.

Lemma fs_remove_all_directory w p : find_entry w p = Some Directory -> last_component p <> W ".." ->
  if decide (resolve (cwd w) p = [] \/ last_component p = W ".") then fs_remove_all w p = fs_error
  else exists w' n, fs_remove_all w p = Ret (w', S n) /\ without w (resolve (cwd w) p) w'.
Proof.
  intros Hf Hup. destruct (find_entry_Some w p _ Hf) as [Hp Ek]. set (k := resolve (cwd w) p) in *. unfold fs_remove_all. rewrite Hf. fold k.
  set (below := filter _ (files w)). set (w1 := mk_world (files w ∖ below) (cwd w)). rewrite (decide_False (P := _ /\ _)) by naive_solver.
  assert (Hlow : forall j, files w1 !! j = if decide (k `prefix_of` j /\ j <> k) then None else files w !! j).
  { intros j. cbn [files w1]. case_decide as D.
    - apply lookup_difference_None. destruct (files w !! j) eqn:F; [|by left]. right. exists e. by apply map_lookup_filter_Some_2.
    - destruct (files w !! j) eqn:F; [|apply lookup_difference_None; by left]. apply lookup_difference_Some. split; [done|].
      apply map_lookup_filter_None_2. right. intros x _. cbn. tauto. }
  assert (Hf1 : find_entry w1 p = Some Directory).
  { unfold find_entry. rewrite decide_False by done. change (resolve (cwd w1) p) with k.
    assert (lookup_entry w1 k = Some Directory) as ->; [|done]. unfold lookup_entry in Ek |- *. case_decide; [done|].
    by rewrite Hlow, (decide_False (P := _ /\ _)) by naive_solver. }
  unfold fs_remove. rewrite Hf1. change (resolve (cwd w1) p) with k. case_decide as Hbad.
  - rewrite decide_True; [done|]. destruct Hbad as [->|E]; [by left|]. right. left. rewrite E. by left.
  - rewrite decide_False.
    + eexists _, (size below). cbn [mbind outcome_bind]. rewrite Nat.add_1_r. split; [done|]. split; [done|]. intros j. unfold lookup_entry. cbn [files].
      case_decide as Ej; [by rewrite decide_False by naive_solver|]. destruct (decide (j = k)) as [->|Hne].
      * rewrite lookup_delete_eq. by rewrite decide_True.
      * rewrite lookup_delete_ne by done. rewrite Hlow. repeat case_decide; naive_solver.
    + intros [E|[E|(j & x & Hj & Hpre)]]; [tauto| |by rewrite Hlow, decide_True in Hj].
      apply elem_of_cons in E as [E|E]; [tauto|]. by apply list_elem_of_singleton in E.
Qed.

(** A tree stays one when a whole subtree goes, and when directories are made. *)
Lemma tree_subtree w w' k : tree w -> without w k w' -> tree w'.
Proof.
  intros T [_ L] i j Hp Hne. rewrite !L. case_decide as D; [by intros [??]|]. intros H.
  case_decide as D2; [|by apply (T i j)]. destruct D2 as [Hi Hk].
  exfalso. apply D. split; [|by etrans]. intros ->. apply Hi. by apply prefix_nil_inv.
Qed.

Lemma tree_directories w w' k : tree w -> existsb (is_regular w) (prefixes k) = false ->
  (forall j, lookup_entry w' j = if decide (j `prefix_of` k) then Some Directory else lookup_entry w j) -> tree w'.
Proof.
  intros T Hr L i j Hp Hne. rewrite !L. repeat case_decide; try done.
  - exfalso. by assert (i `prefix_of` k) by (by etrans).
  - intros Hj. by apply (T i j).
Qed.
