(* ===== verification/Paths.v ===== *)
(** * Paths (cpp/src/path.hpp)

    [Path] is a [std::filesystem::path] that is also an [Object].  The first part is what the class uses of the standard
    class, on POSIX: a path is its string, the separator is a slash, and only the root directory is a root.  The second
    is [Path], whose queries read a [world] of FileSystem and whose [create_dir] and [remove] change it. *)
From stdpp Require Import gmap.
From S2P Require Import Prelude CS Strings Objects FileSystem.

(** ** std::filesystem::path *)

Definition DOT : ascii := "."%char.
Definition last_field (ch : ascii) (s : str) : str := default [] (last (fields ch s)).

Definition filename (p : str) : str := last_field SEPARATOR p.
Definition has_filename (p : str) : bool := bool_decide (filename p <> []).
Definition remove_filename (p : str) : str := take (length p - length (filename p)) p.
Definition root_path (p : str) : str := if is_absolute p then [SEPARATOR] else [].
Definition is_separator (c : ascii) : bool := bool_decide (c = SEPARATOR).
Definition relative_part (p : str) : str := drop_while is_separator p.
Definition strip_separators (p : str) : str := rev (drop_while is_separator (rev p)).
Definition parent_path (p : str) : str :=
  if decide (relative_part p = []) then p else
  let d := strip_separators (remove_filename p) in if decide (d = []) then root_path p else d.
Definition has_parent_path (p : str) : bool := bool_decide (parent_path p <> []).

(** The extension starts at the last dot of the file name, unless the name starts there or is [.] or [..]. *)
Definition name_extension (f : str) : str :=
  if decide (f = W "." \/ f = W "..") then [] else
  let e := last_field DOT f in if decide (length f <= S (length e)) then [] else DOT :: e.
Definition extension (p : str) : str := name_extension (filename p).
Definition stem (p : str) : str := take (length (filename p) - length (extension p)) (filename p).
Definition replace_extension (p e : str) : str :=
  take (length p - length (extension p)) p ++ match e with [] => [] | c :: _ => if decide (c = DOT) then e else DOT :: e end.
Definition append (p s : str) : str :=
  if is_absolute s then s else if has_filename p then p ++ SEPARATOR :: s else p ++ s.
(** Paths are equal when their elements are: the root directory, the names, and an empty one after a last separator. *)
Definition elements (p : str) : list str :=
  (if is_absolute p then [[SEPARATOR]] else []) ++ filter (fun c => c <> []) (fields SEPARATOR p)
    ++ (if bool_decide (relative_part p <> []) && negb (has_filename p) then [[]] else []).
Definition key_path (k : path_key) : str := SEPARATOR :: join SEPARATOR k.

(** ** Path *)

(* src: cpp/src/path.hpp:48-52 Path *)
Record Path := mk_Path { std_path : str; path_id : Z }.
(* src: cpp/src/path.hpp:56-60 Path::Path *)
Definition new_Path (p : str) (id : Z) : Path := mk_Path p id.
(* src: cpp/src/path.hpp:53-54 Path::INFO *)
Definition PATH_INFO : ClassInfo := info_or_blank (class_info CPPLIB_NAMESPACE (W "Path") 1 1 1).
(** A [std::filesystem::path] converts to a [Path] without an id. *)
(* src: cpp/src/path.hpp:56-56 Path::Path *)
Definition as_Path (p : str) : Path := new_Path p NULL_ID.
(* src: cpp/src/path.hpp:75-78 Path::clone *)
Definition path_clone (p : Path) : Path := new_Path (std_path p) (path_id p).
(** A path has no [to_string] but the one of [Object]: the text of its id. *)
(* src: cpp/src/object.hpp:252-252 Object::to_string *)
Definition path_to_string (p : Path) : str := to_string false (path_id p) ","%char.
(* src: cpp/src/path.hpp:210-213 Path::debug_string *)
Definition path_debug_string (p : Path) : str := W "id = " ++ path_to_string p ++ W " path = " ++ std_path p.
(* src: cpp/src/path.hpp:302-302 Path::set_id *)
Definition path_set_id (value : Z) (p : Path) : Path := mk_Path (std_path p) value.
(* src: cpp/src/path.hpp:62-66 Path::Path *)
Definition path_copy (p : Path) (aid : Z) : Path := mk_Path (std_path p) aid.
(** [fs::relative] of the current directory is the library's, given as an argument; its error leaves a [noexcept] function. *)
(* src: cpp/src/path.hpp:121-124 Path::relative *)
Definition path_relative (fs_relative : world -> str -> outcome str) (w : world) (p : Path) : outcome Path := noexcept (as_Path <$> fs_relative w (std_path p)).
(* src: cpp/src/path.hpp:275-278 Path::operator= *)
Definition path_assign_cstr (this : Path) (s : str) : Path := mk_Path (cstr s) (path_id this).
(** [operator const char*] gives a copy of the characters up to the terminator. *)
(* src: cpp/src/path.hpp:260-260 Path::operator const char* *)
Definition path_strdup (p : Path) : str := cstr (std_path p) ++ [NULL_CHAR].
(* src: cpp/src/path.hpp:82-85 Path::is_valid *)
Definition path_is_valid (p : str) : bool := true.

(* src: cpp/src/path.hpp:88-91 Path::is_directory *)
Definition path_is_directory (w : world) (p : Path) : bool := fs_is_directory w (std_path p).
(* src: cpp/src/path.hpp:106-109 Path::exists *)
Definition path_exists (w : world) (p : Path) : bool := fs_exists w (std_path p).
(** The number of entries removed becomes a [bool]. *)
(* src: cpp/src/path.hpp:93-104 Path::remove *)
Definition path_remove (w : world) (p : Path) : outcome (world * bool) :=
  noexcept (if path_exists w p then
              if path_is_directory w p then '(w, n) ← fs_remove_all w (std_path p); Ret (w, bool_decide (n <> 0))
              else fs_remove w (std_path p)
            else Ret (w, true)).

(* src: cpp/src/path.hpp:111-114 Path::absolute *)
Definition path_absolute (w : world) (p : Path) : outcome Path :=
  noexcept (if decide (std_path p = []) then fs_error else Ret (as_Path (append (key_path (cwd w)) (std_path p)))).
(* src: cpp/src/path.hpp:116-119 Path::canonical *)
Definition path_canonical (w : world) (p : Path) : outcome Path :=
  noexcept (if fs_exists w (std_path p) then Ret (as_Path (key_path (resolve (cwd w) (std_path p)))) else fs_error).

(* src: cpp/src/path.hpp:126-129 Path::parent_path *)
Definition path_parent_path (p : Path) : Path := as_Path (parent_path (std_path p)).
(* src: cpp/src/path.hpp:131-134 Path::root_path *)
Definition path_root_path (p : Path) : Path := as_Path (root_path (std_path p)).
(* src: cpp/src/path.hpp:136-139 Path::filename *)
Definition path_filename (p : Path) : Path := as_Path (filename (std_path p)).
(* src: cpp/src/path.hpp:141-144 Path::stem *)
Definition path_stem (p : Path) : Path := as_Path (stem (std_path p)).
(* src: cpp/src/path.hpp:146-149 Path::filename_only *)
Definition path_filename_only (p : Path) : Path := path_stem p.
(* src: cpp/src/path.hpp:151-154 Path::extension *)
Definition path_extension (p : Path) : Path := as_Path (extension (std_path p)).
(* src: cpp/src/path.hpp:156-166 Path::replace_extension *)
Definition path_replace_extension (p : Path) (e : str) : Path := mk_Path (replace_extension (std_path p) e) (path_id p).
(* src: cpp/src/path.hpp:168-172 Path::make_preferred *)
Definition path_make_preferred (p : Path) : Path := p.
(* src: cpp/src/path.hpp:174-178 Path::remove_filename *)
Definition path_remove_filename (p : Path) : Path := mk_Path (remove_filename (std_path p)) (path_id p).

(** The string is a copy that ends at the first NUL; [back] of an empty string is undefined. *)
(* src: cpp/src/path.hpp:180-194 Path::remove_trailing_separator *)
Definition remove_trailing_separator (p : Path) : outcome Path :=
  if has_filename (std_path p) then Ret p else
  let s := cstr (std_path p) in
  match last s with
  | None => Undef OutOfBounds
  | Some c => Ret (if decide (c = SEPARATOR) then mk_Path (removelast s) (path_id p) else p)
  end.
(* src: cpp/src/path.hpp:196-200 Path::copy_without_trailing_separator *)
Definition copy_without_trailing_separator (p : Path) : outcome Path := remove_trailing_separator (mk_Path (std_path p) NULL_ID).

(* src: cpp/src/path.hpp:203-208 Path::initialize *)
Definition path_initialize (this : Path) (p : str) (id : Z) : Path * bool := (mk_Path p id, true).
(** Assignment keeps the id. *)
(* src: cpp/src/path.hpp:216-222 Path::operator= *)
Definition path_assign (this : Path) (p : str) : Path := mk_Path p (path_id this).

(* src: cpp/src/path.hpp:229-235 Path::create_dir *)
Definition create_dir (w : world) (p : Path) : outcome world :=
  noexcept (if has_filename (std_path p) && has_parent_path (std_path p)
            then fs_create_directories w (std_path (path_parent_path p))
            else fs_create_directories w (std_path p)).

(* src: cpp/src/path.hpp:245-245 Path::operator std::string *)
Definition path_string (p : Path) : str := std_path p.
(* src: cpp/src/path.hpp:250-257 Path::s *)
Definition path_s (p : Path) : str := std_path p.
(* src: cpp/src/path.hpp:237-237 Path::size *)
Definition path_size (p : Path) : nat := length (path_s p).
(** [strdup] of the string: what a [char*] shows of it. *)
(* src: cpp/src/path.hpp:263-272 Path::cstr, Path::str *)
Definition path_str (p : Path) : str := cstr (std_path p).
(* src: cpp/src/path.hpp:281-284 Path::operator/= *)
Definition path_append (this : Path) (s : str) : Path := mk_Path (append (std_path this) s) (path_id this).
(** [+] is [/=] on a copy. *)
(* src: cpp/src/path.hpp:287-287 Path::operator+ *)
Definition path_plus (this : Path) (s : str) : Path := path_append (mk_Path (std_path this) NULL_ID) s.
(* src: cpp/src/path.hpp:290-290 Path::operator== *)
Definition path_eq (this apath : Path) : bool := bool_decide (elements (std_path apath) = elements (std_path this)).
(* src: cpp/src/path.hpp:293-293 Path::operator!= *)
Definition path_neq (this : Path) (s : str) : bool := negb (path_eq this (as_Path s)).

(* src: cpp/src/path.hpp:296-299 Path::operator==, Path::operator!= *)
Definition path_eq_cstr (this : Path) (s : str) : bool := path_eq this (as_Path (cstr s)).

(** [PATH_MAX] of Linux. *)
(* src: cpp/src/path.hpp:29-29 MAX_PATH *)
Definition MAX_PATH : nat := 4096.
(* src: cpp/src/path.hpp:327-330 path_to_cpath *)
Definition path_to_cpath (p : Path) : outcome str := cs_of_S 0 MAX_PATH (path_s p).
(** The path of the directory one is in, unless one is given; copying an array copies it whole. *)
(* src: cpp/src/path.hpp:310-314 CPath::CPath *)
Definition new_CPath (path : option str) : outcome str := match path with Some data => Ret data | None => cs_of_S 0 MAX_PATH CURRENT_DIR end.
(* src: cpp/src/path.hpp:319-323 CPath::to_fspath, CPath::operator fs::path *)
Definition cpath_fspath (data : str) : outcome str := noexcept (cs_str data).
(* src: cpp/src/path.hpp:320-320 CPath::to_path *)
Definition cpath_to_fspath (data : str) : outcome Path := s ← noexcept (cs_str data); Ret (as_Path s).
(* src: cpp/src/path.hpp:333-336 cpath_to_path *)
Definition cpath_to_path (data : str) : outcome Path := cpath_to_fspath data.

(** [TMP=] and then the path, the characters given to [putenv], which is an argument. *)
(* src: cpp/src/path.hpp:340-348 set_tmp_env_var *)
Definition set_tmp_env_var (putenv : str -> Z) (path : Path) : outcome Path :=
  if (putenv (cstr (W "TMP=" ++ std_path path)) =? 0)%Z then Ret path
  else runtime_error (W "Error setting TMP environment variable.").

(** ** Fields and names *)

Lemma fields_app ch s t : fields ch (s ++ ch :: t) = fields ch s ++ fields ch t.
Proof.
  induction s as [|c s IH]; simpl; [by rewrite decide_True by done|]. case_decide; [by rewrite IH|].
  rewrite IH. pose proof (fields_ne ch s). by destruct (fields ch s).
Qed.

Lemma fields_single ch s : ch ∉ s -> fields ch s = [s].
Proof.
  induction s as [|c s IH]; intros H; simpl; [done|]. apply not_elem_of_cons in H as [H1 H2].
  rewrite decide_False by congruence. by rewrite IH.
Qed.

Lemma last_field_sep ch s t : ch ∉ t -> last_field ch (s ++ ch :: t) = t.
Proof. intros H. unfold last_field. by rewrite fields_app, (fields_single ch t H), last_snoc. Qed.

Lemma last_field_single ch s : ch ∉ s -> last_field ch s = s.
Proof. intros H. unfold last_field. by rewrite fields_single. Qed.

Lemma last_field_no_sep ch s : ch ∉ last_field ch s.
Proof.
  unfold last_field. destruct (last (fields ch s)) eqn:E; simpl; [|apply not_elem_of_nil].
  apply (fields_no_sep ch s). by apply last_Some_elem_of.
Qed.

Lemma join_snoc ch i f : i <> [] -> join ch (i ++ [f]) = join ch i ++ ch :: f.
Proof.
  induction i as [|g i IH]; [done|]; intros _. destruct i as [|h i]; [done|].
  change (join ch ((g :: h :: i) ++ [f])) with (g ++ ch :: join ch ((h :: i) ++ [f])). rewrite IH by done.
  simpl. by rewrite <- app_assoc.
Qed.

Lemma last_field_split ch s : s = last_field ch s \/ exists d, s = d ++ ch :: last_field ch s.
Proof.
  unfold last_field. destruct (exists_last (fields_ne ch s)) as (i & f & E).
  pose proof (join_fields ch s) as J. rewrite E in *. rewrite last_snoc. simpl. rewrite <- J.
  destruct i as [|g i]; [by left|]. right. exists (join ch (g :: i)). by apply join_snoc.
Qed.

Lemma take_before {A} (a b : list A) : take (length (a ++ b) - length b) (a ++ b) = a.
Proof. rewrite length_app. replace (length a + length b - length b) with (length a) by lia. by rewrite take_app_length. Qed.

Lemma take_tail {A} (l a b : list A) : l = a ++ b -> take (length l - length b) l = a.
Proof. intros ->. apply take_before. Qed.

Lemma remove_filename_eq p a f : p = a ++ f -> filename p = f -> remove_filename p = a.
Proof. intros E F. unfold remove_filename. rewrite F, E. apply take_before. Qed.

(** The string before the file name is empty or ends with a separator. *)
Lemma remove_filename_cases p :
  (p = filename p /\ remove_filename p = []) \/ (exists d, p = (d ++ [SEPARATOR]) ++ filename p /\ remove_filename p = d ++ [SEPARATOR]).
Proof.
  destruct (last_field_split SEPARATOR p) as [E|[d E]]; fold (filename p) in E.
  - left. split; [done|]. by apply (remove_filename_eq p [] p).
  - right. exists d. assert (p = (d ++ [SEPARATOR]) ++ filename p) as E' by (by rewrite <- app_assoc). split; [done|].
    by eapply remove_filename_eq.
Qed.

Lemma remove_filename_app p : remove_filename p ++ filename p = p.
Proof. destruct (remove_filename_cases p) as [[E ->]|(d & E & ->)]; by rewrite <- E. Qed.

Lemma filename_name p : SEPARATOR ∉ filename p.
Proof. apply last_field_no_sep. Qed.

(** ** Components *)

Lemma components_app s t : components (s ++ SEPARATOR :: t) = components s ++ components t.
Proof. unfold components. by rewrite fields_app, filter_app. Qed.

Lemma components_name f : SEPARATOR ∉ f -> f <> [] -> f <> W "." -> components f = [f].
Proof. intros H H1 H2. unfold components. rewrite fields_single by done. by rewrite filter_cons_True. Qed.

Lemma components_seps s a : Forall (fun c => is_separator c = true) a -> components (s ++ a) = components s.
Proof.
  revert s. induction a as [|c a IH]; intros s Ha; [by rewrite app_nil_r|]. apply Forall_cons in Ha as [Hc Ha].
  apply bool_decide_eq_true in Hc as ->. rewrite components_app. pose proof (IH [] Ha) as E. simpl in E. rewrite E. apply app_nil_r.
Qed.

Lemma strip_split s : exists a, s = strip_separators s ++ a /\ Forall (fun c => is_separator c = true) a.
Proof.
  unfold strip_separators. destruct (drop_while_split is_separator (rev s)) as (a & E & Ha). exists (rev a).
  split; [|by apply Forall_rev]. by rewrite <- rev_app_distr, <- E, rev_involutive.
Qed.

Lemma components_strip s : components (strip_separators s) = components s.
Proof. destruct (strip_split s) as (a & E & Ha). rewrite E at 2. by rewrite components_seps. Qed.

Lemma strip_ends s c : strip_separators (s ++ [c]) = if decide (c = SEPARATOR) then strip_separators s else s ++ [c].
Proof.
  unfold strip_separators. rewrite rev_app_distr. simpl. unfold is_separator at 1. case_bool_decide; case_decide; try done.
  simpl. by rewrite rev_involutive.
Qed.

Lemma is_absolute_app s t : s <> [] -> is_absolute (s ++ t) = is_absolute s.
Proof. by destruct s. Qed.

(** A relative part remains when there is a name. *)
Lemma relative_part_name p : filename p <> [] -> relative_part p <> [].
Proof.
  intros H E. apply H. unfold relative_part in E. destruct (drop_while_split is_separator p) as (a & Ep & Ha).
  rewrite E, app_nil_r in Ep. subst a. pose proof (filename_name p) as Hn.
  destruct (filename p) as [|c f] eqn:F; [done|]. exfalso. apply Hn. rewrite <- (remove_filename_app p), F in Ha.
  apply Forall_app in Ha as [_ Ha]. apply Forall_cons in Ha as [Hc _]. apply bool_decide_eq_true in Hc as ->. by left.
Qed.

(** The parent of a path with a name, and the directory it stands for. *)
Lemma parent_path_named p : filename p <> [] ->
  parent_path p = if decide (strip_separators (remove_filename p) = []) then root_path p else strip_separators (remove_filename p).
Proof. intros H. unfold parent_path. rewrite decide_False by by apply relative_part_name. done. Qed.

Lemma resolve_parent cwd p : filename p <> [] -> filename p <> W "." -> filename p <> W ".." ->
  resolve cwd p = resolve cwd (parent_path p) ++ [filename p].
Proof.
  intros H0 H1 H2. assert (components p = components (parent_path p) ++ [filename p] /\ is_absolute p = is_absolute (parent_path p)) as [C A].
  { rewrite parent_path_named by done. destruct (remove_filename_cases p) as [[E ->]|(d & E & ->)].
    - simpl. assert (is_absolute p = false) as A.
      { pose proof (filename_name p) as Hn. rewrite E. destruct (filename p) as [|c f]; [done|]. simpl.
        apply bool_decide_eq_false_2. intros ->. apply Hn. by left. }
      unfold root_path. rewrite A. split; [|done]. rewrite E at 1. rewrite components_name; [done|apply filename_name|done..].
    - assert (components p = components (strip_separators (d ++ [SEPARATOR])) ++ [filename p]) as C.
      { rewrite components_strip. rewrite E at 1. rewrite <- app_assoc. simpl. rewrite components_app.
        rewrite components_seps by (repeat constructor). f_equal. apply components_name; [apply filename_name|done..]. }
      rewrite C. case_decide as S.
      + rewrite S. simpl. unfold root_path. destruct (strip_split (d ++ [SEPARATOR])) as (a & Ea & Ha). rewrite S in Ea. simpl in Ea.
        assert (is_absolute p = true) as ->; [|done]. rewrite E, Ea. destruct a as [|c a]; [by destruct d|].
        apply Forall_cons in Ha as [Hc _]. simpl. done.
      + split; [done|]. rewrite E, is_absolute_app by (by destruct d).
        destruct (strip_split (d ++ [SEPARATOR])) as (a & Ea & Ha). rewrite Ea at 1. by apply is_absolute_app. }
  unfold resolve. rewrite C, <- A, fold_left_app. simpl. unfold walk at 1. by rewrite decide_False by done.
Qed.

(** ** Properties *)

Lemma prefixes_snoc k f : prefixes (k ++ [f]) = prefixes k ++ [k ++ [f]].
Proof.
  unfold prefixes. rewrite length_app. simpl. rewrite Nat.add_1_r, seq_S, map_app. simpl. f_equal.
  - apply map_ext_in. intros n Hn%in_seq. apply take_app_le. lia.
  - f_equal. apply take_ge. rewrite length_app. simpl. lia.
Qed.

Lemma parent_key_snoc (k : path_key) f : parent_key (k ++ [f]) = k.
Proof. unfold parent_key. rewrite length_app. simpl. rewrite Nat.add_sub. apply take_app_length. Qed.

Section names.
Context (w : world) (p : Path).
Hypothesis Hname : filename (std_path p) <> [] /\ filename (std_path p) <> W "." /\ filename (std_path p) <> W "..".
Let k := resolve (cwd w) (std_path p).

Lemma key_of_named : k = resolve (cwd w) (parent_path (std_path p)) ++ [filename (std_path p)].
Proof. apply resolve_parent; apply Hname. Qed.

Lemma parent_key_named : parent_key k = resolve (cwd w) (parent_path (std_path p)).
Proof. rewrite key_of_named. apply parent_key_snoc. Qed.

Lemma named_ne : std_path p <> [].
Proof. intros E. destruct Hname as [H _]. by rewrite E in H. Qed.

Lemma named_file : directory_only (std_path p) = false.
Proof.
  destruct Hname as (H0 & H1 & H2). unfold directory_only. apply bool_decide_eq_false_2. fold (last_field SEPARATOR (std_path p)). fold (filename (std_path p)).
  by intros [?|[?|?%list_elem_of_singleton]%elem_of_cons]%elem_of_cons.
Qed.

Lemma create_dir_world : lookup_entry w k = None ->
  if existsb (is_regular w) (prefixes (parent_key k)) then create_dir w p = Throw Terminate
  else exists w', create_dir w p = Ret w' /\ cwd w' = cwd w /\ forall j, lookup_entry w' j =
    if decide (j `prefix_of` (if has_parent_path (std_path p) then parent_key k else k)) then Some Directory else lookup_entry w j.
Proof.
  intros Hnew. unfold create_dir. assert (has_filename (std_path p) = true) as -> by (apply bool_decide_eq_true; apply Hname). simpl.
  destruct (has_parent_path (std_path p)) eqn:Hp.
  - pose proof (fs_create_directories_spec w (parent_path (std_path p))) as F.
    rewrite <- parent_key_named in F. assert (parent_path (std_path p) <> []) as Hne by (by apply bool_decide_eq_true in Hp).
    specialize (F Hne). case_match; [by rewrite F|]. destruct F as (w' & -> & F). by exists w'.
  - pose proof (fs_create_directories_spec w (std_path p) named_ne) as F. fold k in F. assert (prefixes k = prefixes (parent_key k) ++ [k]) as E.
    { rewrite key_of_named, parent_key_snoc. apply prefixes_snoc. }
    rewrite E, existsb_app in F. simpl in F. unfold is_regular at 2 in F. rewrite Hnew, !orb_false_r in F.
    case_match; [by rewrite F|]. destruct F as (w' & -> & F). by exists w'.
Qed.
End names.

(** [create_dir] of a path with a name that is not there yet.  When a file lies where one of its parent directories
    should be, the program ends, for [create_dir] is [noexcept].  Otherwise, when the path has a parent, every directory
    on the way is there afterwards, nothing else has changed, and opening the path in a mode that creates files makes
    an empty file there.  When the path is a bare name, however, a directory of that name is made, and the file
    can not be opened in any mode. *)
Theorem create_dir_spec (w : world) (p : Path) (mode : Z) (truncate : bool)
    (Hname : filename (std_path p) <> [] /\ filename (std_path p) <> W "." /\ filename (std_path p) <> W "..")
    (Hmode : open_table mode = Some (false, truncate))
    (Hnew : lookup_entry w (resolve (cwd w) (std_path p)) = None) :
  let k := resolve (cwd w) (std_path p) in
  if existsb (is_regular w) (prefixes (parent_key k)) then create_dir w p = Throw Terminate
  else exists w', create_dir w p = Ret w' /\ cwd w' = cwd w /\
    if has_parent_path (std_path p) then
      (forall j, lookup_entry w' j = if decide (j `prefix_of` parent_key k) then Some Directory else lookup_entry w j)
      /\ stream_open w' closed_stream (std_path p) mode = open_at w' k mode []
    else lookup_entry w' k = Some Directory
      /\ forall m, stream_open w' closed_stream (std_path p) m = (w', set_fail closed_stream).
Proof.
  intros k. pose proof (create_dir_world w p Hname Hnew) as C. fold k in C. case_match; [done|].
  destruct C as (w' & C & Ecwd & L). exists w'. split; [done|split; [done|]].
  pose proof (key_of_named w p Hname) as K. fold k in K. destruct (has_parent_path (std_path p)).
  - split; [exact L|]. apply (stream_open_creates _ _ _ _ truncate); [done|by apply named_file|done|by rewrite Ecwd| |].
    + rewrite L, decide_False; [done|]. rewrite K, parent_key_snoc. intros Hl%prefix_length. rewrite length_app in Hl. simpl in Hl. lia.
    + rewrite L. by rewrite decide_True.
  - assert (lookup_entry w' k = Some Directory) as Lk by (rewrite L; by rewrite decide_True). split; [done|].
    intros m. unfold stream_open. rewrite (named_file p Hname). simpl. rewrite Ecwd. fold k. rewrite Lk. by destruct (open_table m) as [[[] ?]|].
Qed.

Definition sample_world : world := mk_world (<[[W "home"] := Directory]> ∅) [W "home"].

Lemma create_dir_spec_witness :
  (exists w', create_dir sample_world (as_Path (W "data/new/log.txt")) = Ret w'
     /\ lookup_entry w' [W "home"; W "data"; W "new"] = Some Directory
     /\ stream_open w' closed_stream (W "data/new/log.txt") 16 = open_at w' [W "home"; W "data"; W "new"; W "log.txt"] 16 [])
  /\ (exists w', create_dir sample_world (as_Path (W "log.txt")) = Ret w' /\ lookup_entry w' [W "home"; W "log.txt"] = Some Directory).
Proof.
  split.
  - assert (filename (W "data/new/log.txt") <> [] /\ filename (W "data/new/log.txt") <> W "." /\ filename (W "data/new/log.txt") <> W "..") as H
      by (apply (bool_decide_unpack _); vm_compute; exact I).
    destruct (create_dir_spec sample_world (as_Path (W "data/new/log.txt")) 16 true H eq_refl eq_refl) as (w' & E & _ & L & O).
    exists w'. split; [exact E|]. split; [rewrite L; reflexivity|exact O].
  - assert (filename (W "log.txt") <> [] /\ filename (W "log.txt") <> W "." /\ filename (W "log.txt") <> W "..") as H
      by (apply (bool_decide_unpack _); vm_compute; exact I).
    destruct (create_dir_spec sample_world (as_Path (W "log.txt")) 16 true H eq_refl eq_refl) as (w' & E & _ & L & _).
    exists w'. split; [exact E|exact L].
Defined.

(** *** Parts of a path *)

Lemma strip_named p : filename p <> [] -> strip_separators p = p.
Proof.
  intros H. rewrite <- (remove_filename_app p). pose proof (filename_name p) as Hn. destruct (filename p) as [|x f] using rev_ind; [done|].
  rewrite app_assoc, strip_ends, decide_False; [done|]. intros ->. apply Hn. set_solver.
Qed.

Lemma filename_single s : SEPARATOR ∉ s -> filename s = s.
Proof. apply last_field_single. Qed.

Lemma filename_app d f : SEPARATOR ∉ f -> filename (d ++ SEPARATOR :: f) = f.
Proof. apply last_field_sep. Qed.

(** What replaces the tail of a file name keeps the directory. *)
Lemma filename_replace p f : SEPARATOR ∉ f -> filename (remove_filename p ++ f) = f /\ remove_filename (remove_filename p ++ f) = remove_filename p.
Proof.
  intros Hf. assert (filename (remove_filename p ++ f) = f) as F.
  { destruct (remove_filename_cases p) as [[_ ->]|(d & _ & ->)]; [by apply filename_single|]. rewrite <- app_assoc. by apply filename_app. }
  split; [done|]. by eapply remove_filename_eq.
Qed.

Lemma name_extension_cases f : (name_extension f = []) \/ (exists s e, s <> [] /\ DOT ∉ e /\ f = s ++ DOT :: e /\ name_extension f = DOT :: e).
Proof.
  unfold name_extension. case_decide; [by left|]. cbv zeta. case_decide as L; [by left|]. right.
  destruct (last_field_split DOT f) as [E|[d E]]; [rewrite E in L at 1; lia|]. exists d, (last_field DOT f).
  split; [|split; [apply last_field_no_sep|done]]. intros ->. apply L. rewrite E at 1. simpl. lia.
Qed.

Lemma name_extension_app s e : s <> [] -> e <> [] -> DOT ∉ e -> name_extension (s ++ DOT :: e) = DOT :: e.
Proof.
  intros Hs He Hd. unfold name_extension. rewrite decide_False.
  - rewrite last_field_sep by done. rewrite decide_False; [done|]. rewrite length_app. simpl. destruct s; simpl in *; [done|lia].
  - intros [E|E]; apply (f_equal length) in E; rewrite length_app in E; destruct s as [|? s], e as [|? e]; simpl in *; try done; lia.
Qed.

Lemma stem_extension p : stem p ++ extension p = filename p /\ (filename p <> [] -> stem p <> []).
Proof.
  unfold stem, extension. destruct (name_extension_cases (filename p)) as [->|(s & e & Hs & _ & E & X)].
  - simpl. rewrite Nat.sub_0_r, firstn_all, app_nil_r. done.
  - rewrite X. assert (take (length (filename p) - length (DOT :: e)) (filename p) = s) as -> by (rewrite E; apply take_before). by rewrite E.
Qed.

(** The parts of a path, and the paths made of parts.  A path is its directory with its file name, and a file name its
    stem with its extension.  Going down to a name [s] with [/=] or [+] and back with [parent_path] gives the path
    again, and [s] is the file name.  Replacing the extension of a path with a name leaves its directory and its stem
    and gives it the new extension, with or without its dot.  A trailing separator is removed; an empty path
    has none, and [back] is called on its empty string. *)
Theorem path_parts (p : Path) (s e : str)
    (Hp : filename (std_path p) <> []) (Hs : s <> [] /\ SEPARATOR ∉ s) (He : e <> [] /\ SEPARATOR ∉ e /\ DOT ∉ e) (Hz : no_nul (std_path p)) :
  (std_path p = std_path (path_remove_filename p) ++ std_path (path_filename p)
   /\ std_path (path_filename p) = std_path (path_stem p) ++ std_path (path_extension p))
  /\ (path_filename (path_append p s) = as_Path s /\ path_parent_path (path_append p s) = as_Path (std_path p)
      /\ path_plus p s = path_append (as_Path (std_path p)) s)
  /\ (forall e', e' = e \/ e' = DOT :: e ->
      path_extension (path_replace_extension p e') = as_Path (DOT :: e)
      /\ path_stem (path_replace_extension p e') = path_stem p
      /\ std_path (path_remove_filename (path_replace_extension p e')) = std_path (path_remove_filename p))
  /\ remove_trailing_separator (mk_Path (std_path p ++ [SEPARATOR]) (path_id p)) = Ret p
  /\ remove_trailing_separator (as_Path []) = Undef OutOfBounds.
Proof.
  destruct p as [p id]. simpl in *. split; [|split; [|split; [|split]]].
  - rewrite remove_filename_app. split; [done|]. symmetry. apply stem_extension.
  - destruct Hs as [Hs Hn]. assert (append p s = p ++ SEPARATOR :: s) as E.
    { unfold append. assert (is_absolute s = false) as ->.
      - destruct s; [done|]. apply bool_decide_eq_false_2. intros ->. apply Hn. by left.
      - unfold has_filename. by rewrite bool_decide_eq_true_2. }
    unfold path_plus, path_filename, path_parent_path, path_append. simpl. rewrite E, filename_app by done.
    split; [done|split; [|reflexivity]]. f_equal. rewrite parent_path_named by (by rewrite filename_app).
    assert (remove_filename (p ++ SEPARATOR :: s) = p ++ [SEPARATOR]) as ->.
    { apply (remove_filename_eq _ _ s); [by rewrite <- app_assoc|by apply filename_app]. }
    rewrite strip_ends, (decide_True (P := SEPARATOR = SEPARATOR)), strip_named by done.
    rewrite decide_False; [done|]. by intros ->.
  - intros e' Ee. destruct He as (He & Hn & Hd). unfold path_extension, path_stem, path_replace_extension. simpl.
    assert (replace_extension p e' = remove_filename p ++ stem p ++ DOT :: e) as E.
    { unfold replace_extension. destruct (stem_extension p) as [S _].
      rewrite (take_tail p (remove_filename p ++ stem p)) by (by rewrite <- app_assoc, S, remove_filename_app).
      rewrite <- app_assoc. f_equal. f_equal. destruct Ee as [->| ->]; [|by rewrite decide_True].
      destruct e; [done|]. rewrite decide_False; [done|]. intros ->. apply Hd. by left. }
    assert (SEPARATOR ∉ stem p ++ DOT :: e) as Hf.
    { pose proof (filename_name p) as F. destruct (stem_extension p) as [S _]. rewrite <- S in F. set_solver. }
    destruct (filename_replace p _ Hf) as [F R].
    assert (extension (replace_extension p e') = DOT :: e) as X.
    { unfold extension. rewrite E, F. apply name_extension_app; try done. by apply stem_extension. }
    split; [by rewrite X|split; [|by rewrite E]]. f_equal. unfold stem at 1. rewrite X, E, F. apply take_before.
  - unfold remove_trailing_separator. simpl. unfold has_filename. rewrite filename_app by apply not_elem_of_nil. simpl.
    assert (cstr (p ++ [SEPARATOR]) = p ++ [SEPARATOR]) as ->.
    { unfold cstr, cstr_length. assert (nul_index (p ++ [SEPARATOR]) = None) as ->; [|by apply take_ge].
      apply nul_index_None. unfold no_nul in *. apply not_elem_of_app. split; [done|]. by intros ?%list_elem_of_singleton. }
    rewrite last_snoc, decide_True by done. by rewrite removelast_last.
  - done.
Qed.

Lemma path_parts_witness :
  path_parent_path (path_append (as_Path (W "/home/ana.txt")) (W "x")) = as_Path (W "/home/ana.txt")
  /\ path_extension (path_replace_extension (as_Path (W "/home/ana.txt")) (W "md")) = as_Path (W ".md").
Proof.
  assert (W "x" <> [] /\ SEPARATOR ∉ W "x") as Hs by (apply (bool_decide_unpack _); vm_compute; exact I).
  assert (W "md" <> [] /\ SEPARATOR ∉ W "md" /\ DOT ∉ W "md") as He by (apply (bool_decide_unpack _); vm_compute; exact I).
  assert (filename (W "/home/ana.txt") <> []) as Hp by (apply (bool_decide_unpack _); vm_compute; exact I).
  assert (no_nul (W "/home/ana.txt")) as Hz by (apply (bool_decide_unpack _); vm_compute; exact I).
  destruct (path_parts (as_Path (W "/home/ana.txt")) (W "x") (W "md") Hp Hs He Hz) as (_ & (_ & A & _) & B & _).
  split; [exact A|]. apply (B (W "md")). left; reflexivity.
Defined.

(** C26. [remove] of a path without [..] in a tree of directories.  When there is nothing at the path, it changes nothing and returns true; so it does for a
    file's path with a separator or [.] after it, which the system does not take for the file's: the file stays.  A directory's
    path that ends in [.], and the root, end the program, for the error of [remove_all] leaves a [noexcept] function.  In every other case it
    returns true, the entry of the path and all that lies under it is gone, nothing else has changed, and what is left is a tree:
    every entry lies in a directory.  [create_dir] leaves a tree too. *)
Theorem path_remove_spec (w : world) (p : Path) (Htree : tree w) (Hup : W ".." ∉ components (std_path p)) :
  let q := std_path p in let k := resolve (cwd w) q in
  (find_entry w q = None -> path_remove w p = Ret (w, true))
  /\ (forall c, lookup_entry w k = Some (Regular c) -> directory_only q = true -> path_remove w p = Ret (w, true))
  /\ (find_entry w q = Some Directory -> k = [] \/ last_component q = W "." -> path_remove w p = Throw Terminate)
  /\ (forall e, find_entry w q = Some e -> (e = Directory -> k <> [] /\ last_component q <> W ".") ->
       exists w', path_remove w p = Ret (w', true) /\ tree w' /\ path_exists w' p = false
         /\ forall j, lookup_entry w' j = if decide (k `prefix_of` j) then None else lookup_entry w j)
  /\ forall w', create_dir w p = Ret w' -> tree w'.
Proof.
  intros q k. assert (Hlast : last_component q <> W "..") by (intros ?%last_up; done).
  assert (Hnone : find_entry w q = None -> path_remove w p = Ret (w, true)).
  { intros E. unfold path_remove, path_exists, fs_exists. fold q. by rewrite E. }
  split; [done|]. split; [|split; [|split]].
  - intros c Hc Hd. apply Hnone. unfold find_entry. fold k. rewrite Hc, Hd. by case_decide.
  - intros E Hbad. pose proof (fs_remove_all_directory w q E Hlast) as R. fold k in R. rewrite decide_True in R by done.
    unfold path_remove, path_exists, fs_exists, path_is_directory, fs_is_directory. fold q. rewrite E, (bool_decide_eq_true_2 (is_Some _)), bool_decide_eq_true_2 by (done || by eexists). by rewrite R.
  - intros e E Hok. assert (Hk : k <> []).
    { destruct e; [by apply Hok|]. apply find_entry_Some in E as [_ E]. fold k in E. intros Hk. by rewrite Hk in E. }
    assert (exists w', path_remove w p = Ret (w', true) /\ without w k w') as (w' & R & Hw).
    { unfold path_remove, path_exists, fs_exists, path_is_directory, fs_is_directory. fold q. rewrite E, (bool_decide_eq_true_2 (is_Some _)) by by eexists. destruct e.
      - rewrite bool_decide_eq_true_2 by done. pose proof (fs_remove_all_directory w q E Hlast) as R. fold k in R.
        rewrite decide_False in R by (intros [?|?]; [done|]; by destruct (Hok eq_refl)). destruct R as (w' & n & R & Hw). exists w'. split; [|done]. by rewrite R.
      - rewrite bool_decide_eq_false_2 by done. destruct (fs_remove_file w q content Htree E) as (w' & R & Hw). exists w'. split; [|done]. by rewrite R. }
    exists w'. split; [done|]. split; [by eapply tree_subtree|]. destruct Hw as [Hc Hw]. split.
    + unfold path_exists, fs_exists, find_entry. fold q. rewrite Hc. fold k. case_decide; [done|]. rewrite Hw. by rewrite decide_True.
    + intros j. rewrite Hw. destruct (decide (j = [])) as [->|Hj].
      * rewrite !decide_False; [done| |naive_solver]. by intros ?%prefix_nil_inv.
      * repeat case_decide; naive_solver.
  - intros w' E. unfold create_dir in E.
    assert (exists q, q <> [] /\ fs_create_directories w q = Ret w') as (r & Hr & F).
    { apply noexcept_Ret_inv in E. destruct (has_filename (std_path p) && has_parent_path (std_path p)); eexists; (split; [|exact E]);
        intros Hn; rewrite Hn in E; done. }
    pose proof (fs_create_directories_spec w r Hr) as S. case_match eqn:X; [by rewrite F in S|]. destruct S as (w2 & F2 & _ & L).
    rewrite F in F2. injection F2 as <-. by eapply tree_directories.
Qed.

(** A directory with a file in it: the directory goes with the file, the file does not go by a path with a separator after it, and [/a/.] ends the program. *)
Definition one_file : world := mk_world (<[[W "a"; W "b"] := Regular (W "x")]> (<[[W "a"] := Directory]> ∅)) [].
Lemma one_file_tree : tree one_file.
Proof.
  intros j k [t ->] Hne. unfold lookup_entry, one_file. cbn [files]. destruct j as [|x [|y j]]; [reflexivity|..].
  - destruct t as [|y t]; [destruct Hne; reflexivity|]. simpl app.
    destruct (decide ([x] = [W "a"])) as [->|Hx]; [reflexivity|]. rewrite decide_False by discriminate.
    rewrite lookup_insert_ne by congruence. rewrite lookup_insert_ne by congruence. intros [? ?]. discriminate.
  - simpl app. rewrite decide_False by discriminate. destruct t as [|z t]; [destruct Hne; rewrite app_nil_r; reflexivity|].
    rewrite !lookup_insert_ne by (intros E; apply (f_equal length) in E; simpl in E; rewrite ?length_app in E; simpl in E; lia).
    intros [? ?]. discriminate.
Qed.

Lemma path_remove_spec_witness :
  (exists w', path_remove one_file (as_Path (W "/a/")) = Ret (w', true) /\ path_exists w' (as_Path (W "/a/")) = false)
  /\ path_remove one_file (as_Path (W "/a/b/")) = Ret (one_file, true)
  /\ path_remove one_file (as_Path (W "/a/.")) = Throw Terminate.
Proof.
  assert (W ".." ∉ components (W "/a/") /\ W ".." ∉ components (W "/a/b/") /\ W ".." ∉ components (W "/a/.")) as (H1 & H2 & H3)
    by (apply (bool_decide_unpack _); vm_compute; exact I).
  split; [|split].
  - destruct (path_remove_spec one_file (as_Path (W "/a/")) one_file_tree H1) as (_ & _ & _ & H & _).
    destruct (H Directory eq_refl) as (w' & E & _ & X & _); [intros _; split; discriminate|]. exists w'. split; [exact E|exact X].
  - apply (path_remove_spec one_file (as_Path (W "/a/b/")) one_file_tree H2) with (c := W "x"); reflexivity.
  - apply (path_remove_spec one_file (as_Path (W "/a/.")) one_file_tree H3); [reflexivity|right; reflexivity].
Defined.

(** A path goes into a [CPath] and back unchanged, when it is shorter than [MAX_PATH]; a longer one is refused with the
    error of [CS].  The id is lost. *)
Theorem cpath_roundtrip (p : Path) (Hz : no_nul (std_path p)) :
  if decide (MAX_PATH <= path_size p) then path_to_cpath p = Throw (too_long MAX_PATH)
  else exists data, path_to_cpath p = Ret data /\ cs_wf MAX_PATH data /\ cpath_to_path data = Ret (as_Path (std_path p)).
Proof.
  pose proof (cs_of_S_long 0 MAX_PATH (std_path p)) as Hl. pose proof (cs_of_S_ok 0 MAX_PATH (std_path p)) as Ho.
  pose proof (cs_of_S_wf 0 MAX_PATH (std_path p)) as Hw. pose proof (cs_of_S_str 0 MAX_PATH (std_path p)) as Hs.
  unfold path_to_cpath, path_size, path_s, cpath_to_path, cpath_to_fspath.
  generalize dependent MAX_PATH. intros M Hl Ho Hw Hs. case_decide; [by apply Hl|].
  specialize (Ho ltac:(lia) ltac:(lia)). eexists. split; [exact Ho|]. split; [by eapply Hw|]. by erewrite Hs.
Qed.

Lemma cpath_roundtrip_witness :
  no_nul (W "/tmp/a.txt") /\ exists data, path_to_cpath (as_Path (W "/tmp/a.txt")) = Ret data /\ cpath_to_path data = Ret (as_Path (W "/tmp/a.txt")).
Proof.
  assert (no_nul (W "/tmp/a.txt")) as H by (apply (bool_decide_unpack _); vm_compute; exact I). split; [exact H|].
  pose proof (cpath_roundtrip (as_Path (W "/tmp/a.txt")) H) as C. rewrite decide_False in C.
  - destruct C as (data & E & _ & F). exists data. split; [exact E|exact F].
  - intros L. apply Nat.leb_le in L. vm_compute in L. discriminate.
Defined.
