(* ===== verification/Files.v ===== *)
(** * Files (cpp/src/file.hpp)

    [OpenMode] and its two subclasses; [File], whose state is the mode, the path, the id and one stream; [TextFile],
    [TmpTextFile] and [BinaryFile] on top of it; and the generator of random file names.  A method runs in the state
    monad [fio] over the world of FileSystem and the object, and leaves both as they are when it throws.  What [LOG]
    writes is left out (the log is in Logs), and so is the destructor of [File] after [close]: it calls [free]
    on a stream made with [new].  The results of C's [ftell], [fseek] and [errno] are arguments. *)
From stdpp Require Import gmap.
From S2P Require Import Prelude CS Strings Objects FileSystem Paths.

(** ** OpenMode *)

(* src: cpp/src/file.hpp:53-56 OpenMode::is_bin_mode, OpenMode::is_text_mode *)
Definition is_bin_mode (mode : Z) : bool := flag mode ios_binary.
(* src: cpp/src/file.hpp:55-56 OpenMode::is_text_mode *)
Definition is_text_mode (mode : Z) : bool := negb (is_bin_mode mode).

(* src: cpp/src/file.hpp:64-64 OpenMode::to_string *)
Definition add_mode (mode f : Z) (name s : str) : str :=
  if flag mode f then s ++ (if bool_decide (s = []) then name else W " | " ++ name) else s.
(* src: cpp/src/file.hpp:60-70 OpenMode::to_string *)
Definition mode_string (mode : Z) : str :=
  add_mode mode ios_trunc (W "trunc") (add_mode mode ios_ate (W "ate") (add_mode mode ios_app (W "app")
    (add_mode mode ios_binary (W "binary") (add_mode mode ios_out (W "out") (add_mode mode ios_in (W "in") []))))).
(* src: cpp/src/file.hpp:91-91 OpenMode::operator S *)
Definition mode_to_S (mode : Z) : str := mode_string mode.
(** [c_str] returns a new buffer that nothing was written into: reading it is undefined. *)
(* src: cpp/src/file.hpp:72-78 OpenMode::c_str *)
Definition mode_c_str (mode : Z) : list (option ascii) := replicate (length (mode_string mode) + 1) None.
(* src: cpp/src/file.hpp:80-84 OpenMode::operator== *)
Definition mode_eq (a b : Z) : bool := (a =? b)%Z.

(* src: cpp/src/file.hpp:121-125 BinMode::BinMode *)
Definition BinMode (mode : Z) : outcome Z :=
  if is_bin_mode mode then Ret mode else Throw (ErrorObject (W "BinMode::BinMode (): Error: Invalid binary mode: " ++ mode_string mode)).
(* src: cpp/src/file.hpp:131-135 TextMode::TextMode *)
Definition TextMode (mode : Z) : outcome Z :=
  if is_text_mode mode then Ret mode else Throw (ErrorObject (W "TextMode::TextMode(): Error: Invalid text mode: " ++ mode_string mode)).

Definition lor_all (l : list Z) : Z := fold_right Z.lor 0%Z l.
(* src: cpp/src/file.hpp:138-138 OpenMode::BIN_READ *)
Definition BIN_READ : Z := lor_all [ios_binary; ios_in].
(* src: cpp/src/file.hpp:139-139 OpenMode::BIN_WRITE *)
Definition BIN_WRITE : Z := lor_all [ios_binary; ios_out].
(* src: cpp/src/file.hpp:140-140 OpenMode::BIN_APPEND *)
Definition BIN_APPEND : Z := lor_all [ios_binary; ios_app].
(* src: cpp/src/file.hpp:141-141 OpenMode::BIN_ATE *)
Definition BIN_ATE : Z := lor_all [ios_binary; ios_ate].
(* src: cpp/src/file.hpp:142-142 OpenMode::BIN_RW *)
Definition BIN_RW : Z := lor_all [ios_binary; ios_in; ios_out].
(* src: cpp/src/file.hpp:143-143 OpenMode::BIN_RW_ATE *)
Definition BIN_RW_ATE : Z := lor_all [ios_binary; ios_in; ios_out; ios_ate].
(* src: cpp/src/file.hpp:145-145 OpenMode::TEXT_READ *)
Definition TEXT_READ : Z := ios_in.
(* src: cpp/src/file.hpp:146-146 OpenMode::TEXT_WRITE *)
Definition TEXT_WRITE : Z := ios_out.
(* src: cpp/src/file.hpp:147-147 OpenMode::TEXT_APPEND *)
Definition TEXT_APPEND : Z := ios_app.
(* src: cpp/src/file.hpp:148-148 OpenMode::TEXT_ATE *)
Definition TEXT_ATE : Z := ios_ate.
(* src: cpp/src/file.hpp:149-149 OpenMode::TEXT_RW *)
Definition TEXT_RW : Z := lor_all [ios_in; ios_out].
(* src: cpp/src/file.hpp:150-150 OpenMode::TEXT_RWA *)
Definition TEXT_RWA : Z := lor_all [ios_in; ios_out; ios_app].
(* src: cpp/src/file.hpp:151-151 OpenMode::TEXT_RW_ATE *)
Definition TEXT_RW_ATE : Z := lor_all [ios_in; ios_out; ios_ate].
(* src: cpp/src/file.hpp:153-153 OpenMode::DEFAULT_BIN_MODE *)
Definition DEFAULT_BIN_MODE : Z := BIN_RW.
(* src: cpp/src/file.hpp:154-154 OpenMode::DEFAULT_TEXT_MODE *)
Definition DEFAULT_TEXT_MODE : Z := TEXT_RWA.
(* src: cpp/src/file.hpp:155-155 OpenMode::DEFAULT_OPEN_MODE *)
Definition DEFAULT_OPEN_MODE : Z := DEFAULT_BIN_MODE.
(** The comment says 1 GB; [^] is exclusive or. *)
(* src: cpp/src/file.hpp:166-166 File::MAX_BUFFER_SIZE *)
Definition MAX_BUFFER_SIZE : Z := Z.lxor 1024 3.

(** ** File *)

(** The descriptions of the classes of files. *)
(* src: cpp/src/file.hpp:407-408 TextFile::INFO *)
Definition TEXTFILE_INFO : ClassInfo := info_or_blank (class_info CPPLIB_NAMESPACE (W "TextFile") 1 1 1).
(* src: cpp/src/file.hpp:656-657 TmpTextFile::INFO *)
Definition TMPTEXTFILE_INFO : ClassInfo := info_or_blank (class_info CPPLIB_NAMESPACE (W "TmpTextFile") 1 1 1).
(* src: cpp/src/file.hpp:685-686 BinaryFile::INFO *)
Definition BINARYFILE_INFO : ClassInfo := info_or_blank (class_info CPPLIB_NAMESPACE (W "BinaryFile") 1 1 1).

(* src: cpp/src/file.hpp:159-164 File *)
Record File := mk_File { f_mode : Z; fullpath : Path; f_id : Z; stream : fstream }.

Definition fio (A : Type) : Type := world * File -> (world * File) * outcome A.
#[export] Instance fio_ret : MRet fio := fun A a s => (s, Ret a).
#[export] Instance fio_bind : MBind fio := fun A B k m s =>
  let '(s, r) := m s in match r with Ret a => k a s | Throw e => (s, Throw e) | Undef u => (s, Undef u) end.
Definition lift {A} (r : outcome A) : fio A := fun s => (s, r).
Definition noexcept_fio {A} (m : fio A) : fio A := fun s => let '(s, r) := m s in (s, noexcept r).
Definition get_world : fio world := fun s => (s, Ret (fst s)).
Definition get_file : fio File := fun s => (s, Ret (snd s)).
Definition set_world (w : world) : fio unit := fun s => ((w, snd s), Ret tt).
Definition on_file (k : File -> File) : fio unit := fun s => ((fst s, k (snd s)), Ret tt).
Definition with_stream (f : File) (st : fstream) : File := mk_File (f_mode f) (fullpath f) (f_id f) st.
Definition on_stream {A} (k : world -> File -> (world * fstream) * A) : fio A :=
  fun s => let '((w, st), a) := k (fst s) (snd s) in ((w, with_stream (snd s) st), Ret a).
Definition ask {A} (k : File -> A) : fio A := fun s => (s, Ret (k (snd s))).
Definition unless (b : bool) (m : fio unit) : fio unit := if b then mret tt else m.

(* src: cpp/src/file.hpp:223-223 File::is_open *)
Definition file_is_open : fio bool := ask (fun f => is_open (stream f)).
(* src: cpp/src/file.hpp:233-233 File::eof *)
Definition file_eof : fio bool := ask (fun f => s_eof (stream f)).
(* src: cpp/src/file.hpp:234-234 File::fail *)
Definition file_fail : fio bool := ask (fun f => s_fail (stream f)).
(* src: cpp/src/file.hpp:225-225 File::is_bin_read *)
Definition is_bin_read (f : File) : bool := mode_eq (f_mode f) BIN_READ.
(* src: cpp/src/file.hpp:226-226 File::is_bin_write *)
Definition is_bin_write (f : File) : bool := mode_eq (f_mode f) BIN_WRITE.
(* src: cpp/src/file.hpp:227-227 File::is_bin_rw *)
Definition is_bin_rw (f : File) : bool := mode_eq (f_mode f) BIN_RW_ATE.
(* src: cpp/src/file.hpp:229-229 File::is_text_read *)
Definition is_text_read (f : File) : bool := mode_eq (f_mode f) TEXT_READ.
(* src: cpp/src/file.hpp:230-230 File::is_text_write *)
Definition is_text_write (f : File) : bool := mode_eq (f_mode f) TEXT_WRITE.
(* src: cpp/src/file.hpp:231-231 File::is_text_rw *)
Definition is_text_rw (f : File) : bool := mode_eq (f_mode f) TEXT_RW_ATE.
(* src: cpp/src/file.hpp:219-219 File::exists *)
Definition file_exists (s : world * File) : bool := path_exists (fst s) (fullpath (snd s)).
(* src: cpp/src/file.hpp:238-246 File::c_str *)
Definition file_c_str (f : File) : str := path_str (fullpath f) ++ [NULL_CHAR].
(* src: cpp/src/file.hpp:270-273 File::get_mode *)
Definition get_mode (f : File) : Z := f_mode f.

(* src: cpp/src/file.hpp:180-189 File::file_open *)
Definition file_open (mode : Z) : fio unit :=
  on_stream (fun w f => (stream_open w (stream f) (path_str (fullpath f)) mode, tt));;
  fail ← file_fail;
  if fail : bool then lift (log_and_throw (W "File::file_open(): Error: Could not open file ")) else mret tt.

(** The constructor; when it throws, the directory it made stays. *)
(* src: cpp/src/file.hpp:193-199 File::File *)
Definition new_File (full_path : Path) (id mode : Z) : fio unit :=
  on_file (fun _ => mk_File mode full_path id closed_stream);;
  w ← get_world; w ← lift (create_dir w full_path); set_world w;;
  file_open mode.

(** A failure that was there before the call counts too. *)
(* src: cpp/src/file.hpp:207-217 File::close *)
Definition file_close : fio unit :=
  noexcept_fio (
    open ← file_is_open;
    if open : bool then
      on_stream (fun w f => (stream_close w (stream f), tt));;
      fail ← file_fail;
      p ← ask fullpath;
      if fail : bool then lift (log_and_throw (W "File::~File(): Error: Could not close file " ++ path_str p)) else mret tt
    else mret tt).

(** The stream was made with [new] and is given to [free]: the end of every file is undefined. *)
(* src: cpp/src/file.hpp:201-205 File::~File *)
Definition delete_File : fio unit := noexcept_fio (file_close;; lift (Undef MismatchedFree)).
(* src: cpp/src/file.hpp:221-221 File::fullpath *)
Definition file_fullpath : fio Path := ask fullpath.

(* src: cpp/src/file.hpp:249-255 File::remove *)
Definition file_remove : fio bool :=
  open ← file_is_open;
  (if open : bool then file_close else mret tt);;
  w ← get_world; p ← ask fullpath; r ← lift (fs_remove w (std_path p));
  set_world (fst r);; mret (snd r).

(* src: cpp/src/file.hpp:260-266 File::initialize *)
Definition file_initialize (afull_path : Path) (id mode : Z) : fio bool :=
  on_file (fun f => mk_File mode (mk_Path (std_path afull_path) (path_id (fullpath f))) id (stream f));; mret true.

(* src: cpp/src/file.hpp:275-278 File::debug_string *)
Definition file_debug_string (f : File) : str := W "id = " ++ to_string false (f_id f) ","%char ++ W " path = " ++ path_str (fullpath f).
(** The path as text, by its name: it is the id of the path. *)
(* src: cpp/src/file.hpp:499-502 TextFile::fullpath_to_string *)
Definition fullpath_to_string (f : File) : str := path_to_string (fullpath f).
(* src: cpp/src/file.hpp:505-508 TextFile::operator S *)
Definition file_to_S (f : File) : str := to_string false (f_id f) ","%char.
(* src: cpp/src/file.hpp:666-669 TmpTextFile::log_error *)
Definition tmp_log_error (f : File) : str := W "Failed to remove temporary file " ++ path_s (fullpath f).

Section stdio.
Context (strerror : Z -> str).

(** The text of the system's message in a buffer of [BUFFER_SIZE] characters. *)
(* src: cpp/src/file.hpp:169-178 File::s_io_error_msg *)
Definition s_io_error_msg (error : Z) : str := take (BUFFER_SIZE - 1) (cstr (strerror error)).
(** [_fullpath.to_string()] is [Object::to_string]: the message has the id of the path and not the path. *)
(* src: cpp/src/file.hpp:295-295 File::log_and_throw_if_error *)
Definition error_message (p : Path) (error : Z) (error_msg : str) : str :=
  error_msg ++ W " in file " ++ path_to_string p ++ W " " ++ s_io_error_msg error.
(** What is given to [LOG] when there is an error. *)
(* src: cpp/src/file.hpp:280-288 File::log_if_error *)
Definition log_if_error (f : File) (error : Z) (error_msg : str) : option str :=
  if (error =? 0)%Z then None else Some (error_message (fullpath f) error error_msg).
(* src: cpp/src/file.hpp:290-299 File::log_and_throw_if_error *)
Definition log_and_throw_if_error (error : Z) (error_msg : str) : fio unit :=
  p ← ask fullpath;
  if (error =? 0)%Z then mret tt else lift (Throw (ErrorObject (error_message p error error_msg))).

(** [fseek]'s result is the error that is reported. *)
(* src: cpp/src/file.hpp:301-309 File::move_cursor *)
Definition move_cursor (fseek : Z) : fio unit :=
  if (fseek =? 0)%Z then mret tt else log_and_throw_if_error fseek (W "File::move_cursor(): Error: Could not move cursor to position.").
(* src: cpp/src/file.hpp:311-315 File::move_to_start *)
Definition move_to_start (fseek : Z) : fio unit := move_cursor fseek.
(* src: cpp/src/file.hpp:317-320 File::move_to_end *)
Definition move_to_end (fseek : Z) : fio unit := move_cursor fseek.
(* src: cpp/src/file.hpp:322-331 File::position *)
Definition position (ftell errno : Z) : fio Z :=
  (if (ftell =? -1)%Z then log_and_throw_if_error errno (W "File::position(): Error: Could not get file position ") else mret tt);;
  mret ftell.

(** [open] records the mode even when the file is open already, and does not report a failure. *)
(* src: cpp/src/file.hpp:366-374 File::open *)
Definition file_reopen (mode : Z) : fio unit :=
  on_file (fun f => mk_File mode (fullpath f) (f_id f) (stream f));;
  open ← file_is_open;
  if open : bool then mret tt else on_stream (fun w f => (stream_open w (stream f) (std_path (fullpath f)) (f_mode f), tt)).

(** The [pos] that is tested after opening is the outer one, still zero. *)
(* src: cpp/src/file.hpp:333-347 File::set_binary_mode *)
Definition set_binary_mode (ftell errno fseek : Z) : fio unit :=
  noexcept_fio (
    let pos := 0%Z in
    open ← file_is_open;
    (if open : bool then pos ← position ftell errno; file_close else mret tt);;
    on_file (fun f => mk_File BIN_RW (fullpath f) (f_id f) (stream f));;
    file_reopen DEFAULT_OPEN_MODE;;
    if (0 <? pos)%Z then move_cursor fseek else mret tt).
(* src: cpp/src/file.hpp:349-363 File::set_text_mode *)
Definition set_text_mode (ftell errno fseek : Z) : fio unit :=
  let pos := 0%Z in
  open ← file_is_open;
  (if open : bool then pos ← position ftell errno; file_close else mret tt);;
  on_file (fun f => mk_File TEXT_RW (fullpath f) (f_id f) (stream f));;
  file_reopen DEFAULT_OPEN_MODE;;
  if (0 <? pos)%Z then move_cursor fseek else mret tt.

(* src: cpp/src/file.hpp:376-379 File::size *)
Definition file_size : fio nat := noexcept_fio (w ← get_world; p ← ask fullpath; lift (fs_file_size w (std_path p))).
(** [size_t] of the [long] that [ftell] gives: minus one becomes the largest number. *)
(* src: cpp/src/file.hpp:381-393 File::size *)
Definition file_size_of (ftell fseek : Z) : fio Z := noexcept_fio (move_to_end fseek;; mret (wrap64 ftell)).
(* src: cpp/src/file.hpp:395-399 File::get_stream *)
Definition get_stream : fio unit := file_reopen DEFAULT_OPEN_MODE.

(** ** TextFile *)

(* src: cpp/src/file.hpp:462-486 TextFile::write *)
Definition text_write (content : str) (flushes : bool) : fio unit :=
  open ← file_is_open;
  (if open : bool then mret tt else file_reopen DEFAULT_OPEN_MODE);;
  on_stream (fun w f => ((w, stream_write (stream f) content), tt));;
  fail ← file_fail;
  if fail : bool then lift (log_and_throw (W "TextFile::write(): Error: Could not write to the file ")) else
  if flushes then
    on_stream (fun w f => (stream_flush w (stream f), tt));;
    fail ← file_fail;
    if fail : bool then lift (log_and_throw (W "TextFile::write(): Error: Could not flush the file ")) else mret tt
  else mret tt.
(* src: cpp/src/file.hpp:487-497 TextFile::append *)
Definition text_append (content : str) : fio unit :=
  open ← file_is_open;
  (if open : bool then mret tt else file_reopen DEFAULT_OPEN_MODE);;
  text_write content true.

(** [File]'s constructor has opened the file, so the branch for a file that is not there is reached only when opening
    made none. *)
(* src: cpp/src/file.hpp:409-429 TextFile::TextFile *)
Definition new_TextFile (full_path : Path) (content : str) (mode id : Z) : fio unit :=
  new_File full_path id mode;;
  s ← (fun s => (s, Ret s));
  if file_exists s then
    if bool_decide (content <> []) then text_append content else file_reopen mode
  else file_reopen mode;; text_write content true;; file_close.

(** The character, and whether it is other than [EOF], which is -1 as a [char]. *)
(* src: cpp/src/file.hpp:438-445 TextFile::get_char *)
Definition text_get_char : fio (option ascii * bool) :=
  open ← file_is_open; mode ← ask f_mode;
  if negb open || negb (is_text_mode mode) then mret (None, false) else
  c ← on_stream (fun w f => stream_get w (stream f));
  let c := default "255"%char c in mret (Some c, negb (char_val c =? -1)%Z).

(** The first line of the file, through a stream of its own; the line of the caller is emptied when there is none. *)
(* src: cpp/src/file.hpp:447-460 TextFile::read_line *)
Definition text_read_line (line : str) : fio (str * bool) :=
  open ← file_is_open; mode ← ask f_mode;
  if negb open || negb (is_text_mode mode) then mret (line, false) else
  w ← get_world; p ← ask fullpath;
  match first_line w (path_str p) with
  | None => mret (line, false)
  | Some None => mret ([], false)
  | Some (Some l) => mret (l, true)
  end.

(** What is read becomes a string up to its first NUL. *)
(* src: cpp/src/file.hpp:511-542 TextFile::read *)
Definition text_read : fio str :=
  open ← file_is_open;
  (if open : bool then mret tt else file_reopen TEXT_READ);;
  count ← file_size;
  on_stream (fun w f => (stream_rewind w (stream f), tt));;
  content ← on_stream (fun w f => stream_read w (stream f) count);
  if bool_decide (length content <> count) then lift (log_and_throw (W "TextFile::read(): Error: Could not read the file ")) else
  mret (cstr content).

(** The constructor from strings puts the name below the directory for temporary files; the one from pointers takes it
    as it is. *)
(* src: cpp/src/file.hpp:658-661 TmpTextFile::TmpTextFile *)
Definition new_TmpTextFile (TMP_PATH : Path) (file_name content : str) (id : Z) : fio unit :=
  new_TextFile (as_Path (append (std_path TMP_PATH) file_name)) content DEFAULT_TEXT_MODE id.
(* src: cpp/src/file.hpp:663-664 TmpTextFile::TmpTextFile *)
Definition new_TmpTextFile_cstr (file_name content : str) (id : Z) : fio unit :=
  new_TextFile (as_Path (cstr file_name)) (cstr content) DEFAULT_TEXT_MODE id.
(** The body of the destructor; the result is whether the file is gone, which is logged when it is not. *)
(* src: cpp/src/file.hpp:671-678 TmpTextFile::~TmpTextFile *)
Definition tmp_text_file_destroy : fio bool := noexcept_fio file_remove.

(** ** BinaryFile *)

(* src: cpp/src/file.hpp:705-722 BinaryFile::append *)
Definition binary_append (data : option str) (errno : Z) : fio unit :=
  match data with
  | Some data =>
      if bool_decide (0 < length data) then
        open ← file_is_open;
        (if open : bool then mret tt else file_reopen BIN_RW_ATE);;
        on_stream (fun w f => ((w, stream_write (stream f) data), tt));;
        fail ← file_fail;
        if fail : bool then log_and_throw_if_error errno (W "BinaryFile::append(): Error: Could not append data to the file ") else mret tt
      else mret tt
  | None => mret tt
  end.
(* src: cpp/src/file.hpp:688-701 BinaryFile::BinaryFile *)
Definition new_BinaryFile (full_path : Path) (mode : Z) (data : option str) (id errno : Z) : fio unit :=
  new_File full_path id mode;; binary_append data errno.
End stdio.

(** ** RandomFileNameGenerator

    The draws of [Random] are a function of their number; the distribution keeps them within the characters. *)

(* src: cpp/src/file.hpp:586-586 RandomFileNameGenerator::random_string *)
Definition CHARS : str := W "0123456789ABCDEFGHIJKLMNOPQRSTUVWXYZabcdefghijklmnopqrstuvwxyz".
(* src: cpp/src/file.hpp:551-551 RandomFileNameGenerator::DEFAULT_LENGTH *)
Definition DEFAULT_LENGTH : nat := 8.
(* src: cpp/src/file.hpp:552-552 RandomFileNameGenerator::DEFAULT_TEXT_FILE_EXTENSION *)
Definition DEFAULT_TEXT_FILE_EXTENSION : str := W "txt".
(* src: cpp/src/file.hpp:556-556 RandomFileNameGenerator::ExtensionType *)
Inductive ExtensionType := FIXED | RANDOM | NONE | NUMERIC_SEQUENCE | CHAR_SEQUENCE | FUNCTION.
(* src: cpp/src/file.hpp:564-581 RandomFileNameGenerator *)
Record RandomFileNameGenerator := mk_gen { mextension_type : ExtensionType; mextension : str; mcustom_ext_function : str }.
(* src: cpp/src/file.hpp:640-643 RandomFileNameGenerator::RandomFileNameGenerator *)
Definition new_RandomFileNameGenerator : RandomFileNameGenerator := mk_gen FIXED DEFAULT_TEXT_FILE_EXTENSION [].

Section random.
Context (draw : nat -> nat).

Definition random_char (i : nat) : ascii := nth (draw i) CHARS NULL_CHAR.

(* src: cpp/src/file.hpp:594-594 RandomFileNameGenerator::random_string *)
Definition MAX_TRIES : nat := 1000.
(** [while (c is a digit)]: the next draw, then one less on the count, which ends the search even when the
    last draw is a letter. *)
(* src: cpp/src/file.hpp:592-607 RandomFileNameGenerator::random_string *)
Fixpoint first_char (count i : nat) : outcome (ascii * nat) :=
  if is_digit (random_char i) then
    match count with
    | O => Undef NoProgress
    | S count =>
        if decide (count = 0) then
          runtime_error (W "RandomFileNameGenerator::random_string(): Error: Could not generate a random string after 1000 tries.")
        else first_char count (S i)
    end
  else Ret (random_char i, i).
(** For a length of zero the counter wraps around, and characters are added until the memory ends. *)
(* src: cpp/src/file.hpp:584-614 RandomFileNameGenerator::random_string *)
Definition random_string (len : nat) : outcome str :=
  c ← first_char MAX_TRIES 0;
  if decide (len = 0) then Undef NoProgress else
  Ret (fst c :: map random_char (seq (S (snd c)) (len - 1))).

(* src: cpp/src/file.hpp:616-635 RandomFileNameGenerator::get_extension *)
Definition get_extension (g : RandomFileNameGenerator) : outcome str :=
  match mextension_type g with
  | FIXED => Ret (mextension g)
  | RANDOM => random_string DEFAULT_LENGTH
  | NONE => Ret []
  | CHAR_SEQUENCE => Ret []
  | FUNCTION => Ret (mcustom_ext_function g)
  | NUMERIC_SEQUENCE => Ret []
  end.
End random.

(** Every call makes a [Random] of its own: the draws of the name and of the extension are two functions.  The argument
    [extension] has no use. *)
(* src: cpp/src/file.hpp:646-649 RandomFileNameGenerator::operator() *)
Definition random_file_name (g : RandomFileNameGenerator) (draw draw' : nat -> nat) (name_prefix name_suffix extension : str) (path : Path) : outcome Path :=
  n ← random_string draw DEFAULT_LENGTH; e ← get_extension draw' g;
  Ret (as_Path (append (std_path path) (name_prefix ++ n ++ name_suffix ++ W "." ++ e))).

(** ** A text file opened to append *)

Lemma write_at_end c s : write_at c (length c) s = c ++ s.
Proof. unfold write_at. rewrite firstn_all, Nat.sub_diag, drop_ge by lia. simpl. by rewrite app_nil_r. Qed.

(** The file [k] is open in the default text mode and holds [c]; nothing waits to be written. *)
Record appending (k : path_key) (c : str) (s : world * File) : Prop := mk_appending {
  app_key : k <> [];
  app_stream : exists pos, stream (snd s) = mk_stream (Some k) TEXT_RWA pos [] false false;
  app_entry : lookup_entry (fst s) k = Some (Regular c);
  app_file : directory_only (std_path (fullpath (snd s))) = false;
  app_path : resolve (cwd (fst s)) (std_path (fullpath (snd s))) = k }.
(** Only [k] has changed. *)
Definition only (k : path_key) (w w' : world) : Prop := cwd w' = cwd w /\ forall j, j <> k -> lookup_entry w' j = lookup_entry w j.

Lemma only_trans k w1 w2 w3 : only k w1 w2 -> only k w2 w3 -> only k w1 w3.
Proof. intros [E1 L1] [E2 L2]. split; [congruence|]. intros j Hj. by rewrite L2, L1. Qed.

Lemma only_set k w e : k <> [] -> only k w (set_entry w k e).
Proof. intros Hk. split; [done|]. intros j Hj. rewrite lookup_set_entry by done. by rewrite decide_False. Qed.

Lemma fio_bind_ret {A B} (m : fio A) (f : A -> fio B) s s' a : m s = (s', Ret a) -> (m ≫= f) s = f a s'.
Proof. intros H. unfold mbind, fio_bind. by rewrite H. Qed.

Section default_text_stream.
Context (k : path_key) (pos : nat).
Let st (pending : str) := mk_stream (Some k) TEXT_RWA pos pending false false.

Lemma write_default x : stream_write (st []) x = st x.
Proof. reflexivity. Qed.

Lemma flush_default w c x : k <> [] -> lookup_entry w k = Some (Regular c) ->
  exists w' pos', stream_flush w (st x) = (w', mk_stream (Some k) TEXT_RWA pos' [] false false)
    /\ lookup_entry w' k = Some (Regular (c ++ x)) /\ only k w w'.
Proof.
  intros Hk He. unfold stream_flush. cbn [s_file s_pending st s_mode s_pos s_fail s_eof]. case_decide as Hx.
  - subst x. exists w, pos. by rewrite app_nil_r.
  - unfold file_content. rewrite He, bool_decide_eq_false_2 by done. change (flag TEXT_RWA ios_app) with true. cbv iota.
    rewrite write_at_end. eexists _, _. split; [reflexivity|]. split; [|by apply only_set].
    rewrite lookup_set_entry by done. by rewrite decide_True.
Qed.
End default_text_stream.

Lemma read_default k w c : lookup_entry w k = Some (Regular c) ->
  stream_read w (mk_stream (Some k) TEXT_RWA 0 [] false false) (length c) = (w, mk_stream (Some k) TEXT_RWA (length c) [] false false, c).
Proof.
  intros He. unfold stream_read. cbn [s_fail orb]. case_bool_decide as Hc; [by destruct c|].
  change (can_read _) with true. cbv iota. change (stream_flush w _) with (w, mk_stream (Some k) TEXT_RWA 0 [] false false).
  cbn [s_file s_pos s_mode]. unfold file_content. rewrite He, drop_0, firstn_all.
  by rewrite (bool_decide_eq_false_2 (length c < length c)) by lia.
Qed.

(** One step of a method. *)
Ltac step := erewrite fio_bind_ret by reflexivity.

Lemma text_write_eq x w f : is_open (stream f) = true -> can_write (stream f) = true -> text_write x true (w, f) =
  (let '(w', st) := stream_flush w (stream_write (stream f) x) in
   ((w', with_stream f st), if s_fail st then log_and_throw (W "TextFile::write(): Error: Could not flush the file ") else Ret tt)).
Proof.
  intros Ho Hw. assert (s_fail (stream_write (stream f) x) = false) as Hf by (unfold stream_write; by rewrite Hw).
  unfold text_write, file_is_open, ask, file_fail, on_stream, mbind, fio_bind, mret, fio_ret. cbn [fst snd]. rewrite Ho.
  cbn -[stream_write stream_flush log_and_throw]. rewrite Hf. cbn -[stream_write stream_flush log_and_throw].
  destruct (stream_flush w _) as [w' st]. cbn -[log_and_throw]. by destruct (s_fail st).
Qed.

Lemma text_write_appending k c s x : appending k c s ->
  exists s', text_write x true s = (s', Ret tt) /\ appending k (c ++ x) s' /\ only k (fst s) (fst s').
Proof.
  destruct s as [w [fm p id st]]. intros [Hk [pos E] He Hf Hp]. simpl in E, He, Hf, Hp. subst st.
  destruct (flush_default k pos w c x Hk He) as (w' & pos' & F & He' & Ho).
  exists (w', mk_File fm p id (mk_stream (Some k) TEXT_RWA pos' [] false false)).
  split; [|split; [constructor; [done|by eexists|done|done|]|done]].
  - rewrite text_write_eq by done. cbn [stream]. by rewrite write_default, F.
  - simpl. destruct Ho as [-> _]. exact Hp.
Qed.

Lemma text_append_appending k c s x : appending k c s ->
  exists s', text_append x s = (s', Ret tt) /\ appending k (c ++ x) s' /\ only k (fst s) (fst s').
Proof.
  intros H. destruct (text_write_appending k c s x H) as (s' & E & R). exists s'. split; [|exact R].
  rewrite <- E. destruct s as [w [fm p id st]]. destruct H as [_ [pos Es] _ _ _]. simpl in Es. subst st. unfold text_append. by do 2 step.
Qed.

Lemma text_read_eq k c s : appending k c s ->
  text_read s = ((fst s, with_stream (snd s) (mk_stream (Some k) TEXT_RWA (length c) [] false false)), Ret (cstr c)).
Proof.
  destruct s as [w [fm p id st]]. intros [Hk [pos E] He Hf Hp]. simpl in E, He, Hf, Hp. subst st.
  pose proof (read_default k w c He) as R.
  unfold text_read. do 2 step. erewrite (fio_bind_ret file_size).
  2:{ unfold file_size, noexcept_fio. do 2 step. unfold lift, fs_file_size. cbn [fst snd fullpath]. rewrite (find_entry_file _ _ Hf), Hp, He. reflexivity. }
  step. erewrite fio_bind_ret.
  2:{ unfold on_stream. cbn [fst snd stream with_stream f_mode fullpath f_id].
      change (stream_read _ _ _) with (stream_read w (mk_stream (Some k) TEXT_RWA 0 [] false false) (length c)).
      rewrite R. reflexivity. }
  by rewrite bool_decide_eq_false_2 by (intros X; by apply X).
Qed.

Lemma text_read_appending k c s : appending k c s -> exists s', text_read s = (s', Ret (cstr c)) /\ appending k c s' /\ fst s' = fst s.
Proof.
  intros H. rewrite (text_read_eq k c s H). eexists. split; [reflexivity|]. split; [|done].
  destruct s as [w [fm p id st]], H. by constructor; [|eexists| | |].
Qed.

(** *** Histories of a text file *)

Inductive text_op := OpWrite (s : str) | OpAppend (s : str) | OpRead.
Definition run_op (op : text_op) : fio (list str) :=
  match op with
  | OpWrite s => text_write s true;; mret []
  | OpAppend s => text_append s;; mret []
  | OpRead => s ← text_read; mret [s]
  end.
Fixpoint run_ops (ops : list text_op) : fio (list str) :=
  match ops with [] => mret [] | op :: ops => a ← run_op op; b ← run_ops ops; mret (a ++ b) end.

(** A text file as its content: the content after the operations, and what was read. *)
Definition spec_op (op : text_op) (c : str) : str * list str :=
  match op with OpWrite s | OpAppend s => (c ++ s, []) | OpRead => (c, [cstr c]) end.
Fixpoint spec_ops (ops : list text_op) (c : str) : str * list str :=
  match ops with [] => (c, []) | op :: ops => let '(c, a) := spec_op op c in let '(c, b) := spec_ops ops c in (c, a ++ b) end.

Lemma run_op_appending k c s op : appending k c s ->
  exists s', run_op op s = (s', Ret (snd (spec_op op c))) /\ appending k (fst (spec_op op c)) s' /\ only k (fst s) (fst s').
Proof.
  intros H. destruct op as [x|x|]; simpl.
  - destruct (text_write_appending k c s x H) as (s' & E & R). exists s'. by rewrite (fio_bind_ret _ _ _ _ _ E).
  - destruct (text_append_appending k c s x H) as (s' & E & R). exists s'. by rewrite (fio_bind_ret _ _ _ _ _ E).
  - destruct (text_read_appending k c s H) as (s' & E & R & F). exists s'. rewrite (fio_bind_ret _ _ _ _ _ E). by rewrite F.
Qed.

Lemma run_ops_appending k ops c s : appending k c s ->
  exists s', run_ops ops s = (s', Ret (snd (spec_ops ops c))) /\ appending k (fst (spec_ops ops c)) s' /\ only k (fst s) (fst s').
Proof.
  revert c s. induction ops as [|op ops IH]; intros c s H; [by exists s|]. cbn [run_ops spec_ops].
  destruct (run_op_appending k c s op H) as (s1 & E1 & A1 & O1). destruct (spec_op op c) as [c1 a]. simpl in E1, A1.
  destruct (IH c1 s1 A1) as (s2 & E2 & A2 & O2). destruct (spec_ops ops c1) as [c2 b]. simpl in E2, A2.
  exists s2. rewrite (fio_bind_ret _ _ _ _ _ E1), (fio_bind_ret _ _ _ _ _ E2). split; [done|]. split; [done|by eapply only_trans].
Qed.

Lemma file_open_eq mode w f : file_open mode (w, f) =
  (let '(w2, st) := stream_open w (stream f) (path_str (fullpath f)) mode in
   ((w2, with_stream f st), if s_fail st then log_and_throw (W "File::file_open(): Error: Could not open file ") else Ret tt)).
Proof.
  unfold file_open, on_stream, mbind, fio_bind. cbn [fst snd]. destruct (stream_open _ _ _ _) as [w2 st].
  cbn. by destruct (s_fail st).
Qed.

(** The constructor on a path with a name and a parent, where nothing is yet. *)
Section construction.
Context (w : world) (p : Path) (f0 : File).
Hypothesis Hname : filename (std_path p) <> [] /\ filename (std_path p) <> W "." /\ filename (std_path p) <> W "..".
Hypothesis Hparent : has_parent_path (std_path p) = true.
Hypothesis Hz : no_nul (std_path p).
Let k := resolve (cwd w) (std_path p).
Hypothesis Hnew : lookup_entry w k = None.
Hypothesis Hfree : existsb (is_regular w) (prefixes (parent_key k)) = false.

(** The world with the directories of the path. *)
Definition made_parents (w' : world) : Prop :=
  cwd w' = cwd w /\ forall j, lookup_entry w' j = if decide (j `prefix_of` parent_key k) then Some Directory else lookup_entry w j.

Lemma new_File_steps id mode : exists w', made_parents w' /\
  new_File p id mode (w, f0) =
    (let '(w2, st) := stream_open w' closed_stream (std_path p) mode in
     ((w2, mk_File mode p id st),
      if s_fail st then log_and_throw (W "File::file_open(): Error: Could not open file ") else Ret tt)).
Proof.
  pose proof (create_dir_world w p Hname Hnew) as C. fold k in C. rewrite Hfree, Hparent in C. destruct C as (w' & C & Ec & L).
  exists w'. split; [done|]. unfold new_File. do 2 step. unfold lift at 1. cbn [fst snd]. erewrite fio_bind_ret by (rewrite C; reflexivity).
  step. rewrite file_open_eq. cbn [fst snd stream fullpath]. unfold path_str. by rewrite cstr_no_nul by done.
Qed.

Lemma key_new w' : made_parents w' -> lookup_entry w' k = None /\ lookup_entry w' (parent_key k) = Some Directory /\ k <> [].
Proof.
  intros [_ L]. pose proof (key_of_named w p Hname) as K. fold k in K. split; [|split].
  - rewrite L, decide_False; [done|]. rewrite K, parent_key_snoc. intros X%prefix_length. rewrite length_app in X. simpl in X. lia.
  - rewrite L. by rewrite decide_True.
  - rewrite K. intros [_ X]%app_nil. done.
Qed.

Lemma new_TextFile_appending content id : exists s', new_TextFile p content DEFAULT_TEXT_MODE id (w, f0) = (s', Ret tt)
  /\ appending k content s' /\ cwd (fst s') = cwd w
  /\ forall j, j <> k -> lookup_entry (fst s') j = if decide (j `prefix_of` parent_key k) then Some Directory else lookup_entry w j.
Proof.
  destruct (new_File_steps id DEFAULT_TEXT_MODE) as (w' & M & E). destruct (key_new w' M) as (K1 & K2 & K3).
  rewrite (stream_open_creates w' closed_stream (std_path p) DEFAULT_TEXT_MODE false k) in E; try done; [|by apply named_file|by destruct M as [-> _]].
  cbn in E. set (f1 := mk_File _ _ _ _) in E. set (w1 := set_entry w' k (Regular [])) in E.
  assert (appending k [] (w1, f1)) as A.
  { constructor; [done|by eexists| |by apply named_file|].
    - cbn [fst]. unfold w1. rewrite lookup_set_entry by done. by rewrite decide_True.
    - simpl. by destruct M as [-> _]. }
  assert (cwd w1 = cwd w /\ forall j, j <> k -> lookup_entry w1 j = if decide (j `prefix_of` parent_key k) then Some Directory else lookup_entry w j) as [C1 L1].
  { destruct M as [M1 M2]. split; [done|]. intros j Hj. unfold w1. rewrite lookup_set_entry by done. rewrite decide_False by done. apply M2. }
  unfold new_TextFile. rewrite (fio_bind_ret _ _ _ _ _ E). step.
  assert (file_exists (w1, f1) = true) as ->.
  { unfold file_exists, path_exists, fs_exists. destruct A as [_ _ Ae Af Ap]. cbn [fst snd f1 fullpath] in *. rewrite (find_entry_file _ _ Af), Ap, Ae. done. }
  case_bool_decide as Hc.
  - destruct (text_append_appending k [] (w1, f1) content A) as (s' & Es & As & [Oc Ol]). exists s'. split; [exact Es|].
    split; [done|]. split; [by rewrite Oc|]. intros j Hj. rewrite Ol by done. by apply L1.
  - assert (content = []) as -> by (by destruct (decide (content = []))). exists (w1, f1). split; [reflexivity|done].
Qed.
End construction.

(** C19. A text file in the default mode refines the sequence of what was written.  Made on a path whose name is new and whose parent
    directories can be made, it holds the initial content; any history of writes, appends and reads then succeeds, the
    file holds what was written in order, each read gives the whole content of that moment, up to its first NUL,
    and no other entry changes, the directories of the path apart. *)
Theorem text_file_refines_content (w : world) (p : Path) (f0 : File) (content : str) (id : Z) (ops : list text_op)
    (Hname : filename (std_path p) <> [] /\ filename (std_path p) <> W "." /\ filename (std_path p) <> W "..")
    (Hparent : has_parent_path (std_path p) = true) (Hz : no_nul (std_path p))
    (Hnew : lookup_entry w (resolve (cwd w) (std_path p)) = None)
    (Hfree : existsb (is_regular w) (prefixes (parent_key (resolve (cwd w) (std_path p)))) = false) :
  let k := resolve (cwd w) (std_path p) in
  exists s', (new_TextFile p content DEFAULT_TEXT_MODE id;; run_ops ops) (w, f0) = (s', Ret (snd (spec_ops ops content)))
    /\ lookup_entry (fst s') k = Some (Regular (fst (spec_ops ops content)))
    /\ forall j, j <> k -> lookup_entry (fst s') j = if decide (j `prefix_of` parent_key k) then Some Directory else lookup_entry w j.
Proof.
  intros k. destruct (new_TextFile_appending w p f0 Hname Hparent Hz Hnew Hfree content id) as (s1 & E1 & A1 & C1 & L1).
  destruct (run_ops_appending k ops content s1 A1) as (s2 & E2 & A2 & [_ O2]). exists s2.
  rewrite (fio_bind_ret _ _ _ _ _ E1). split; [done|]. split; [by destruct A2|]. intros j Hj. rewrite O2 by done. by apply L1.
Qed.

Definition sample_file : File := mk_File 0 (as_Path []) 0 closed_stream.

Lemma text_file_refines_content_witness :
  exists s', (new_TextFile (as_Path (W "data/log.txt")) (W "ab") DEFAULT_TEXT_MODE 1;; run_ops [OpRead; OpAppend (W "cd"); OpRead]) (sample_world, sample_file)
      = (s', Ret [W "ab"; W "abcd"])
    /\ lookup_entry (fst s') [W "home"; W "data"; W "log.txt"] = Some (Regular (W "abcd")).
Proof.
  assert (filename (W "data/log.txt") <> [] /\ filename (W "data/log.txt") <> W "." /\ filename (W "data/log.txt") <> W "..") as H
    by (apply (bool_decide_unpack _); vm_compute; exact I).
  assert (no_nul (W "data/log.txt")) as Hz by (apply (bool_decide_unpack _); vm_compute; exact I).
  destruct (text_file_refines_content sample_world (as_Path (W "data/log.txt")) sample_file (W "ab") 1
    [OpRead; OpAppend (W "cd"); OpRead] H eq_refl Hz eq_refl eq_refl) as (s' & E & L & _).
  exists s'. split; [exact E|exact L].
Defined.

(** C39. The modes that open only what exists, among them the default of [File] and the mode [BinaryFile] reopens with, can not make
    a file: the constructor on a path whose name is new makes the parent directories and then throws.  The two modes
    with [ate] alone are in no row of the standard's table and open nothing at all.  Each class of modes
    takes exactly the constants of its kind. *)
Theorem modes_that_do_not_create (w : world) (p : Path) (f0 : File) (id mode : Z)
    (Hname : filename (std_path p) <> [] /\ filename (std_path p) <> W "." /\ filename (std_path p) <> W "..")
    (Hparent : has_parent_path (std_path p) = true) (Hz : no_nul (std_path p))
    (Hnew : lookup_entry w (resolve (cwd w) (std_path p)) = None)
    (Hfree : existsb (is_regular w) (prefixes (parent_key (resolve (cwd w) (std_path p)))) = false)
    (Hmode : mode ∈ [BIN_READ; BIN_RW; BIN_RW_ATE; BIN_ATE; TEXT_READ; TEXT_RW; TEXT_RW_ATE; TEXT_ATE; DEFAULT_BIN_MODE; DEFAULT_OPEN_MODE]) :
  (exists w', (forall j, lookup_entry w' j =
       if decide (j `prefix_of` parent_key (resolve (cwd w) (std_path p))) then Some Directory else lookup_entry w j)
    /\ new_File p id mode (w, f0) = ((w', mk_File mode p id (set_fail closed_stream)),
         Throw (ErrorObject (W "File::file_open(): Error: Could not open file "))))
  /\ (forall w f q, s_fail (snd (stream_open w f q BIN_ATE)) = true /\ s_fail (snd (stream_open w f q TEXT_ATE)) = true)
  /\ Forall (fun m => BinMode m = Ret m /\ exists e, TextMode m = Throw e) [BIN_READ; BIN_WRITE; BIN_APPEND; BIN_ATE; BIN_RW; BIN_RW_ATE]
  /\ Forall (fun m => TextMode m = Ret m /\ exists e, BinMode m = Throw e) [TEXT_READ; TEXT_WRITE; TEXT_APPEND; TEXT_ATE; TEXT_RW; TEXT_RWA; TEXT_RW_ATE].
Proof.
  split; [|split; [|split]].
  - destruct (new_File_steps w p f0 Hname Hparent Hz Hnew Hfree id mode) as (w' & M & E). exists w'. split; [apply M|]. rewrite E.
    destruct (key_new w p Hname Hnew w' M) as (K1 & _). destruct M as [M _].
    assert (stream_open w' closed_stream (std_path p) mode = (w', set_fail closed_stream)) as ->; [|done].
    unfold stream_open. rewrite (named_file p Hname). cbn [is_open closed_stream s_file]. rewrite M, K1.
    repeat (apply elem_of_cons in Hmode as [->|Hmode]; [reflexivity|]). by apply elem_of_nil in Hmode.
  - intros w2 f q. unfold stream_open. by destruct (is_open f || directory_only q).
  - repeat constructor; eexists; reflexivity.
  - repeat constructor; eexists; reflexivity.
Qed.

Lemma modes_that_do_not_create_witness :
  exists w', new_File (as_Path (W "data/x.bin")) 1 DEFAULT_OPEN_MODE (sample_world, sample_file)
    = ((w', mk_File DEFAULT_OPEN_MODE (as_Path (W "data/x.bin")) 1 (set_fail closed_stream)),
       Throw (ErrorObject (W "File::file_open(): Error: Could not open file "))).
Proof.
  assert (filename (W "data/x.bin") <> [] /\ filename (W "data/x.bin") <> W "." /\ filename (W "data/x.bin") <> W "..") as H
    by (apply (bool_decide_unpack _); vm_compute; exact I).
  assert (no_nul (W "data/x.bin")) as Hz by (apply (bool_decide_unpack _); vm_compute; exact I).
  assert (DEFAULT_OPEN_MODE ∈ [BIN_READ; BIN_RW; BIN_RW_ATE; BIN_ATE; TEXT_READ; TEXT_RW; TEXT_RW_ATE; TEXT_ATE; DEFAULT_BIN_MODE; DEFAULT_OPEN_MODE]) as M
    by (apply (bool_decide_unpack _); vm_compute; exact I).
  destruct (modes_that_do_not_create sample_world (as_Path (W "data/x.bin")) sample_file 1 DEFAULT_OPEN_MODE H eq_refl Hz eq_refl eq_refl M) as [(w' & _ & E) _].
  exists w'. exact E.
Defined.

(** *** After closing, and at the end of the file *)

Lemma file_close_appending k c s : appending k c s ->
  file_close s = ((fst s, with_stream (snd s) (mk_stream None TEXT_RWA 0 [] false false)), Ret tt).
Proof. destruct s as [w [fm p id st]]. intros [Hk [pos E] He Hf Hp]. simpl in E. subst st. reflexivity. Qed.

Lemma open_existing w f p mode truncate must k c : is_open f = false -> directory_only p = false -> open_table mode = Some (must, truncate) ->
  resolve (cwd w) p = k -> lookup_entry w k = Some (Regular c) -> stream_open w f p mode = open_at w k mode (if truncate then [] else c).
Proof. intros Ho Hd Ht <- Hk. unfold stream_open. rewrite Ho, Hd, Ht, Hk. by destruct must. Qed.

Lemma file_reopen_eq mode w f : is_open (stream f) = false -> file_reopen mode (w, f) =
  (let '(w', st) := stream_open w (stream f) (std_path (fullpath f)) mode in ((w', mk_File mode (fullpath f) (f_id f) st), Ret tt)).
Proof.
  intros H. unfold file_reopen, on_file, file_is_open, ask, mbind, fio_bind. cbn [fst snd stream]. rewrite H.
  unfold on_stream. cbn [fst snd stream fullpath f_mode]. by destruct (stream_open _ _ _ _).
Qed.

Lemma flush_in_place w k mode c x : flag mode ios_app = false -> k <> [] -> lookup_entry w k = Some (Regular c) ->
  exists w' pos, stream_flush w (mk_stream (Some k) mode 0 x false false) = (w', mk_stream (Some k) mode pos [] false false)
    /\ lookup_entry w' k = Some (Regular (x ++ drop (length x) c)).
Proof.
  intros Hm Hk He. unfold stream_flush. cbn [s_file s_pending s_mode s_pos s_fail s_eof]. case_decide as Hx.
  - subst x. by exists w, 0.
  - unfold file_content. rewrite He, bool_decide_eq_false_2 by done. rewrite Hm. eexists _, _. split; [reflexivity|].
    rewrite lookup_set_entry by done. by rewrite decide_True.
Qed.

(** A text file that was closed is opened again by the next write or append, in the default mode of [File]: at its start, and as a
    binary file.  What is appended lies over the first characters, and from then on [get_char] and
    [read_line] give nothing. *)
Theorem append_after_close (k : path_key) (c x line : str) (s : world * File) (Hs : appending k c s) :
  exists s', (file_close;; text_append x) s = (s', Ret tt)
    /\ lookup_entry (fst s') k = Some (Regular (x ++ drop (length x) c))
    /\ f_mode (snd s') = BIN_RW
    /\ text_get_char s' = (s', Ret (None, false)) /\ text_read_line line s' = (s', Ret (line, false)).
Proof.
  rewrite (fio_bind_ret _ _ _ _ _ (file_close_appending k c s Hs)).
  destruct s as [w [fm p id st]]. destruct Hs as [Hk _ He Hf Hp]. simpl in He, Hf, Hp. cbn [fst snd with_stream f_mode fullpath f_id].
  assert (exists w1, file_reopen DEFAULT_OPEN_MODE (w, mk_File fm p id (mk_stream None TEXT_RWA 0 [] false false))
    = ((w1, mk_File BIN_RW p id (mk_stream (Some k) BIN_RW 0 [] false false)), Ret tt)
    /\ lookup_entry w1 k = Some (Regular c) /\ cwd w1 = cwd w) as (w1 & R & He1 & Hc1).
  { exists (set_entry w k (Regular c)). split; [|split; [|done]].
    - rewrite file_reopen_eq by done. cbn [stream fullpath f_id].
      rewrite (open_existing w _ (std_path p) DEFAULT_OPEN_MODE false true k c) by done. reflexivity.
    - rewrite lookup_set_entry by done. by rewrite decide_True. }
  destruct (flush_in_place w1 k BIN_RW c x eq_refl Hk He1) as (w2 & pos & F & L).
  exists (w2, mk_File BIN_RW p id (mk_stream (Some k) BIN_RW pos [] false false)). split; [|done].
  unfold text_append. step. cbn [is_open stream snd s_file]. change (bool_decide (is_Some None)) with false. cbv iota.
  rewrite (fio_bind_ret _ _ _ _ _ R), text_write_eq by done. cbn [stream].
  change (stream_flush w1 (stream_write (mk_stream (Some k) BIN_RW 0 [] false false) x)
    = (w2, mk_stream (Some k) BIN_RW pos [] false false)) in F. by rewrite F.
Qed.

Definition open_sample : world * File :=
  (set_entry sample_world [W "home"; W "a"] (Regular (W "abcdef")),
   mk_File TEXT_RWA (as_Path (W "a")) 1 (mk_stream (Some [W "home"; W "a"]) TEXT_RWA 6 [] false false)).
Lemma open_sample_appending : appending [W "home"; W "a"] (W "abcdef") open_sample.
Proof. constructor; [discriminate|eexists; reflexivity|reflexivity|reflexivity|reflexivity]. Defined.

Lemma append_after_close_witness :
  exists s', (file_close;; text_append (W "XY")) open_sample = (s', Ret tt)
    /\ lookup_entry (fst s') [W "home"; W "a"] = Some (Regular (W "XYcdef")).
Proof.
  destruct (append_after_close [W "home"; W "a"] (W "abcdef") (W "XY") [] open_sample open_sample_appending) as (s' & E & L & _).
  exists s'. split; [exact E|exact L].
Defined.

Lemma text_get_char_eq w f : is_open (stream f) = true -> is_text_mode (f_mode f) = true -> text_get_char (w, f) =
  (let '(w', st, c) := stream_get w (stream f) in
   let c := default "255"%char c in ((w', with_stream f st), Ret (Some c, negb (char_val c =? -1)%Z))).
Proof.
  intros Ho Hm. unfold text_get_char, file_is_open, ask, on_stream, mbind, fio_bind. cbn [fst snd]. rewrite Ho, Hm.
  cbn [fst snd negb orb]. by destruct (stream_get w (stream f)) as [[w' st] c].
Qed.

(** Reading a text file one character at a time.  After a [read] nothing is left: [get_char] says so, with the character -1.  It also
    marks the stream as failed, nothing clears the mark, and [close], which is [noexcept], takes it for an
    error of its own: the program ends, as it does when the object is destroyed.  A character 255 in the
    file is taken for the end too.  [read_line] gives the first line each time, whatever was read before. *)
Theorem end_of_file_terminates (k : path_key) (c line : str) (s : world * File) (Hs : appending k c s)
    (Hmode : f_mode (snd s) = TEXT_RWA) (Hz : no_nul (std_path (fullpath (snd s)))) :
  (exists s1 s2, (text_read;; text_get_char) s = (s1, Ret (Some "255"%char, false)) /\ file_close s1 = (s2, Throw Terminate))
  /\ (forall pos, stream (snd s) = mk_stream (Some k) TEXT_RWA pos [] false false -> c !! pos = Some "255"%char ->
      exists s1, text_get_char s = (s1, Ret (Some "255"%char, false)) /\ s_eof (stream (snd s1)) = false)
  /\ text_read_line line s = (s, Ret (if decide (c = []) then ([], false)
        else (take_while (fun x => bool_decide (x <> "010"%char)) c, true))).
Proof.
  destruct s as [w [fm p id st]]. simpl in Hmode, Hz. subst fm.
  rewrite (fio_bind_ret _ _ _ _ _ (text_read_eq k c _ Hs)). destruct Hs as [Hk [pos E] He Hf Hp]. simpl in E, He, Hf, Hp. subst st.
  split; [|split].
  - cbn [fst snd with_stream f_mode fullpath f_id].
    assert (stream_get w (mk_stream (Some k) TEXT_RWA (length c) [] false false) = (w, mk_stream (Some k) TEXT_RWA (length c) [] true true, None)) as G.
    { unfold stream_get, stream_read. cbn [s_fail orb]. change (bool_decide (1 = 0)) with false. change (can_read _) with true. cbv iota.
      change (stream_flush w _) with (w, mk_stream (Some k) TEXT_RWA (length c) [] false false). cbn [s_file s_pos s_mode].
      unfold file_content. rewrite He, drop_ge by lia. rewrite Nat.add_0_r. reflexivity. }
    eexists _, _. split.
    + rewrite text_get_char_eq by done. cbn [stream fst snd with_stream]. rewrite G. reflexivity.
    + reflexivity.
  - intros pos' [= <-] Hc. assert (stream_get w (mk_stream (Some k) TEXT_RWA pos [] false false)
      = (w, mk_stream (Some k) TEXT_RWA (pos + 1) [] false false, Some "255"%char)) as G.
    { unfold stream_get, stream_read. cbn [s_fail orb]. change (bool_decide (1 = 0)) with false. change (can_read _) with true. cbv iota.
      change (stream_flush w _) with (w, mk_stream (Some k) TEXT_RWA pos [] false false). cbn [s_file s_pos s_mode].
      unfold file_content. rewrite He, (drop_S c "255"%char pos Hc). reflexivity. }
    eexists. split.
    + rewrite text_get_char_eq by done. cbn [stream fst snd with_stream]. rewrite G. reflexivity.
    + reflexivity.
  - unfold text_read_line. do 2 step. cbn [stream snd f_mode]. change (negb _ || _) with false. cbv iota. do 2 step.
    unfold first_line. cbn [fst snd fullpath]. unfold path_str. rewrite cstr_no_nul by done.
    rewrite (open_existing w closed_stream (std_path p) ios_in false true k c) by done. unfold open_at. cbn [s_file].
    unfold file_content. rewrite lookup_set_entry, decide_True by done. by destruct c.
Qed.

Lemma end_of_file_terminates_witness :
  (exists s1 s2, (text_read;; text_get_char) open_sample = (s1, Ret (Some "255"%char, false)) /\ file_close s1 = (s2, Throw Terminate))
  /\ text_read_line [] open_sample = (open_sample, Ret (W "abcdef", true)).
Proof.
  assert (no_nul (W "a")) as Hz by (apply (bool_decide_unpack _); vm_compute; exact I).
  destruct (end_of_file_terminates [W "home"; W "a"] (W "abcdef") [] open_sample open_sample_appending eq_refl Hz) as (A & _ & B).
  split; [exact A|exact B].
Defined.

(** *** Random names *)

Section random_names.
Context (draw : nat -> nat).
Hypothesis Hdraw : forall i, draw i < length CHARS.

Lemma random_char_in i : random_char draw i ∈ CHARS.
Proof.
  unfold random_char. destruct (nth_in_or_default (draw i) CHARS NULL_CHAR) as [H|H]; [by apply list_elem_of_In|].
  exfalso. pose proof (Hdraw i) as L. apply (nth_In CHARS NULL_CHAR) in L. rewrite H in L.
  apply list_elem_of_In in L. revert L. apply (bool_decide_unpack _). vm_compute. exact Logic.I.
Qed.

(** The search finds the first letter of the next [count] draws, or throws. *)
Lemma first_char_spec count i : 0 < count ->
  (exists j, i <= j < i + count /\ is_digit (random_char draw j) = false /\ (forall l, i <= l < j -> is_digit (random_char draw l) = true)
     /\ first_char draw count i = Ret (random_char draw j, j))
  \/ ((forall l, i <= l < i + count -> is_digit (random_char draw l) = true) /\ exists m, first_char draw count i = Throw (RuntimeError m)).
Proof.
  revert i. induction count as [|count IH]; intros i Hc; [lia|]. cbn [first_char].
  destruct (is_digit (random_char draw i)) eqn:E.
  - case_decide as Z.
    + right. split; [|by eexists]. intros l Hl. by replace l with i by lia.
    + destruct (IH (S i)) as [(j & Hj & Ej & Hl & F)|[Hl F]]; [lia| |].
      * left. exists j. split; [lia|]. split; [done|]. split; [|done]. intros l Hl'. destruct (decide (l = i)) as [->|]; [done|]. apply Hl. lia.
      * right. split; [|done]. intros l Hl'. destruct (decide (l = i)) as [->|]; [done|]. apply Hl. lia.
  - left. exists i. split; [lia|]. split; [done|]. split; [|done]. lia.
Qed.
End random_names.

(** C40. The name of a random file is made as soon as one of the first thousand draws is a letter: it has the length
    asked for, starts with that letter, the first one drawn, and holds only letters and digits.  When the first thousand
    draws are digits the call throws, whatever the next draw, which is still made, would be. *)
Theorem random_string_returns (draw : nat -> nat) (len : nat) (Hdraw : forall i, draw i < length CHARS) (Hlen : 0 < len) :
  ((exists i, i < MAX_TRIES /\ is_digit (random_char draw i) = false) ->
     exists s i, random_string draw len = Ret s /\ length s = len /\ Forall (fun c => c ∈ CHARS) s
       /\ i < MAX_TRIES /\ head s = Some (random_char draw i) /\ is_digit (random_char draw i) = false
       /\ forall l, l < i -> is_digit (random_char draw l) = true)
  /\ ((forall i, i < MAX_TRIES -> is_digit (random_char draw i) = true) -> exists m, random_string draw len = Throw (RuntimeError m)).
Proof.
  assert (0 < MAX_TRIES) as H0 by (apply Nat.ltb_lt; reflexivity).
  unfold random_string. revert H0. generalize MAX_TRIES. intros tries H0.
  destruct (first_char_spec draw tries 0 H0) as [(j & Hj & Ej & Hl & F)|[Hl [m F]]]; rewrite F; split.
  - intros _. cbn [mbind outcome_bind fst snd]. rewrite decide_False by lia. eexists _, j. split; [reflexivity|].
    split; [cbn [length]; rewrite length_map, length_seq; lia|]. split; [|split; [lia|split; [done|split; [done|]]]].
    + constructor; [by apply random_char_in|]. apply Forall_forall. intros c Hc. apply list_elem_of_In, in_map_iff in Hc as (i & <- & _).
      by apply random_char_in.
    + intros l Hl'. apply Hl. lia.
  - intros Hd. rewrite Hd in Ej by lia. done.
  - intros (i & Hi & Ei). rewrite Hl in Ei by lia. done.
  - intros _. by exists m.
Qed.

Lemma random_string_returns_witness :
  (forall i, Nat.min (5 + 3 * i) 20 < length CHARS)
  /\ exists s, random_string (fun i => Nat.min (5 + 3 * i) 20) DEFAULT_LENGTH = Ret s /\ length s = DEFAULT_LENGTH.
Proof.
  assert (forall i, Nat.min (5 + 3 * i) 20 < length CHARS) as H by (intros i; change (length CHARS) with 62; lia). split; [exact H|].
  assert (0 < DEFAULT_LENGTH) as H0 by (apply Nat.ltb_lt; reflexivity).
  destruct (random_string_returns (fun i => Nat.min (5 + 3 * i) 20) DEFAULT_LENGTH H H0) as [R _].
  destruct R as (s & i & E & L & _).
  - exists 2. split; [apply Nat.ltb_lt; reflexivity|reflexivity].
  - exists s. split; [exact E|exact L].
Defined.
