(* ===== verification/Logs.v ===== *)
(** * The log (cpp/src/log.hpp)

    The state of one translation unit: the flags [log_on] and [initialized] and the stream, all of them [static], and the world of
    FileSystem.  The operations are [open_log_file], [enable_log], [disable_log] and the macro [LOG]. *)
From stdpp Require Import gmap.
From S2P Require Import Prelude Strings FileSystem Paths.

(* src: cpp/src/log.hpp:17-17 DEFAULT_LOG_FILE_OPEN_MODE *)
Definition DEFAULT_LOG_FILE_OPEN_MODE : Z := Z.lor ios_out ios_app.
(* src: cpp/src/log.hpp:25-28 default_log_file_name *)
Definition default_log_file_name : str := W "./log.txt".

(* src: cpp/src/log.hpp:16-16 log_on *)
Record log_state := mk_log { disk : world; log_on : bool; initialized : bool; log_stream : fstream }.
(* src: cpp/src/log.hpp:29-30 initialized, log_stream *)
Definition initial_log (w : world) : log_state := mk_log w true false closed_stream.

Definition open_stream (full_path : str) (mode : Z) (s : log_state) : log_state :=
  let '(w, st) := stream_open (disk s) (log_stream s) full_path mode in mk_log w (log_on s) (initialized s) st.
Definition set_initialized (b : bool) (s : log_state) : log_state := mk_log (disk s) (log_on s) b (log_stream s).
Definition set_log_on (b : bool) (s : log_state) : log_state := mk_log (disk s) b (initialized s) (log_stream s).

(* src: cpp/src/log.hpp:41-61 open_log_file *)
Definition open_log_file (full_path : str) (mode : Z) (s : log_state) : log_state :=
  if negb (initialized s) then set_initialized true (open_stream full_path mode s)
  else if negb (is_open (log_stream s)) then open_stream full_path mode s else s.
(* src: cpp/src/log.hpp:64-64 enable_log *)
Definition enable_log (s : log_state) : log_state :=
  set_log_on true (if negb (initialized s) || negb (is_open (log_stream s))
                   then open_log_file default_log_file_name DEFAULT_LOG_FILE_OPEN_MODE s else s).
(* src: cpp/src/log.hpp:65-65 disable_log *)
Definition disable_log (s : log_state) : log_state :=
  let '(w, st) := stream_flush (disk s) (log_stream s) in let '(w, st) := stream_close w st in mk_log w false false st.
(** The line number, the message without a space between, and the end of the line; the flush is a statement of its own. *)
(* src: cpp/src/log.hpp:34-34 cpplog *)
Definition cpplog (line : Z) (msg : str) (s : log_state) : log_state :=
  if log_on s then mk_log (disk s) (log_on s) (initialized s) (stream_write (log_stream s) (decimal line ++ msg ++ ["010"%char])) else s.
(* src: cpp/src/log.hpp:68-68 LOG *)
Definition LOG (line : Z) (msg : str) (s : log_state) : log_state :=
  let s := cpplog line msg s in
  let '(w, st) := stream_flush (disk s) (log_stream s) in mk_log w (log_on s) (initialized s) st.
(* src: cpp/src/log.hpp:83-88 log_throw *)
Definition log_throw {A} (line : Z) (error_msg : str) (s : log_state) : log_state * outcome A :=
  (LOG line error_msg s, runtime_error error_msg).

(** ** What the log file holds *)

Inductive log_op := Enable | Disable | Message (line : Z) (msg : str).
Definition run_log (s : log_state) (op : log_op) : log_state :=
  match op with Enable => enable_log s | Disable => disable_log s | Message l m => LOG l m s end.

(** The log as its content, if the file is there, and whether it is on. *)
Definition spec_log (a : option str * bool) (op : log_op) : option str * bool :=
  let '(c, on) := a in
  match op with
  | Enable => (Some (default [] c), true)
  | Disable => (c, false)
  | Message l m => (if on : bool then (fun c => c ++ decimal l ++ m ++ ["010"%char]) <$> c else c, on)
  end.

Section refinement.
Context (k : path_key) (w0 : world).
Hypothesis Hdir : lookup_entry w0 (parent_key k) = Some Directory.
Hypothesis Hk : k <> [].
Hypothesis Hpath : resolve (cwd w0) default_log_file_name = k.

(** The stream is open on the file, with nothing waiting, when the log is on; otherwise it is closed. *)
Record log_related (s : log_state) (c : option str) (on : bool) : Prop := mk_related {
  rel_entry : lookup_entry (disk s) k = Regular <$> c;
  rel_rest : cwd (disk s) = cwd w0 /\ forall j, j <> k -> lookup_entry (disk s) j = lookup_entry w0 j;
  rel_stream : if on then log_on s = true /\ initialized s = true /\ is_Some c
                 /\ exists pos, log_stream s = mk_stream (Some k) DEFAULT_LOG_FILE_OPEN_MODE pos [] false false
               else initialized s = false /\ s_file (log_stream s) = None }.

Lemma enable_related s c on : log_related s c on -> log_related (enable_log s) (Some (default [] c)) true.
Proof.
  intros [E [R1 R2] S]. destruct s as [w o i st]. simpl in *. destruct on.
  - destruct S as (-> & -> & [c' ->] & [pos ->]). by constructor; [| |split; [|split; [|split; [|eexists]]]].
  - destruct S as [-> Hf]. unfold enable_log, open_log_file, open_stream. cbn [initialized negb orb disk log_stream set_initialized set_log_on log_on].
    assert (stream_open w st default_log_file_name DEFAULT_LOG_FILE_OPEN_MODE = open_at w k DEFAULT_LOG_FILE_OPEN_MODE (default [] c)) as ->.
    { unfold stream_open, is_open. rewrite Hf. cbn [is_Some]. change (bool_decide (is_Some None)) with false. cbv iota.
      rewrite R1, Hpath, E. destruct c as [c|]; [reflexivity|]. change (open_table _) with (Some (false, false)). cbn [fmap option_fmap option_map].
      rewrite R2, Hdir; [by rewrite bool_decide_eq_true_2|]. intros X. apply (f_equal length) in X. unfold parent_key in X.
      rewrite length_take in X. destruct k; simpl in *; [done|lia]. }
    unfold open_at. constructor; cbn [disk log_on initialized log_stream set_initialized set_log_on].
    + rewrite lookup_set_entry, decide_True by done. done.
    + split; [done|]. intros j Hj. rewrite lookup_set_entry by done. rewrite decide_False by done. by apply R2.
    + split; [done|]. split; [done|]. split; [done|]. by eexists.
Qed.

Lemma disable_related s c on : log_related s c on -> log_related (disable_log s) c false.
Proof.
  intros [E R S]. destruct s as [w o i st]. simpl in *. destruct on.
  - destruct S as (-> & -> & [c' ->] & [pos ->]). by constructor.
  - destruct S as [-> Hf]. unfold disable_log, stream_flush, stream_close, is_open. cbn [disk log_stream]. rewrite Hf. rewrite Hf.
    change (bool_decide (is_Some None)) with false. cbv iota. constructor; cbn [disk initialized log_stream]; [done|done|]. done.
Qed.

Lemma message_related s c on l m : log_related s c on -> 
  log_related (LOG l m s) (if on then (fun c => c ++ decimal l ++ m ++ ["010"%char]) <$> c else c) on.
Proof.
  intros [E [R1 R2] S]. destruct s as [w o i st]. simpl in *. destruct on.
  - destruct S as (-> & -> & [c' ->] & [pos ->]). unfold LOG, cpplog. cbn [log_on disk initialized log_stream].
    set (x := decimal l ++ m ++ ["010"%char]).
    change (stream_write _ x) with (mk_stream (Some k) DEFAULT_LOG_FILE_OPEN_MODE pos x false false).
    unfold stream_flush. cbn [s_file s_pending s_mode s_pos s_fail s_eof]. rewrite decide_False.
    2:{ unfold x. intros X. apply (f_equal length) in X. rewrite !length_app in X. simpl in X. lia. }
    unfold file_content. rewrite E. cbn [fmap option_fmap option_map]. rewrite bool_decide_eq_false_2 by done.
    change (flag DEFAULT_LOG_FILE_OPEN_MODE ios_app) with true. cbv iota. constructor; cbn [disk log_on initialized log_stream].
    + rewrite lookup_set_entry, decide_True by done. simpl. unfold write_at. rewrite firstn_all, Nat.sub_diag, drop_ge by lia.
      simpl. by rewrite app_nil_r.
    + split; [done|]. intros j Hj. rewrite lookup_set_entry by done. rewrite decide_False by done. by apply R2.
    + split; [done|]. split; [done|]. split; [done|]. by eexists.
  - destruct S as [-> Hf]. unfold LOG, cpplog, stream_write, can_write, is_open. cbn [log_on disk initialized log_stream]. rewrite Hf.
    change (bool_decide (is_Some None)) with false. cbn [andb]. unfold stream_flush.
    destruct o; cbn [disk log_on initialized log_stream set_fail s_file]; rewrite Hf; by constructor.
Qed.
End refinement.

(** C20. The log file refines the sequence of the messages logged while the log is on.  For any history of [enable_log], [disable_log] and
    [LOG] from the start of the program, the file [./log.txt] holds what it held before, followed by one line for each
    message logged after an [enable_log] with no [disable_log] since: the number of the source line and the message, with
    nothing between them.  [log_on] is true from the start, but what is logged before the first [enable_log] is lost. No
    other file changes. *)
Theorem log_refines_messages (w : world) (c : option str) (ops : list log_op)
    (Hdir : lookup_entry w (cwd w) = Some Directory)
    (Hfile : lookup_entry w (cwd w ++ [W "log.txt"]) = Regular <$> c) :
  let k := cwd w ++ [W "log.txt"] in
  let s := fold_left run_log ops (initial_log w) in
  lookup_entry (disk s) k = Regular <$> fst (fold_left spec_log ops (c, false))
  /\ is_open (log_stream s) = snd (fold_left spec_log ops (c, false))
  /\ forall j, j <> k -> lookup_entry (disk s) j = lookup_entry w j.
Proof.
  intros k s. assert (k <> []) as Hk by (unfold k; intros [_ X]%app_nil; done).
  assert (resolve (cwd w) default_log_file_name = k) as Hp by done.
  assert (lookup_entry w (parent_key k) = Some Directory) as Hd by (unfold k; by rewrite parent_key_snoc).
  assert (forall ops s a, log_related k w s (fst a) (snd a) ->
    log_related k w (fold_left run_log ops s) (fst (fold_left spec_log ops a)) (snd (fold_left spec_log ops a))) as G.
  { clear s ops. induction ops as [|op ops IH]; intros s [c' on] R; [done|]. apply IH. destruct op; cbn [run_log spec_log fst snd] in *.
    - by eapply enable_related.
    - by eapply disable_related.
    - by eapply message_related. }
  destruct (G ops (initial_log w) (c, false)) as [E [_ R] S]; [by constructor|]. fold s in E, R, S.
  split; [exact E|]. split; [|exact R]. destruct (snd (fold_left spec_log ops (c, false))).
  - by destruct S as (_ & _ & _ & [pos ->]).
  - unfold is_open. by destruct S as [_ ->].
Qed.

Lemma log_refines_messages_witness :
  lookup_entry (disk (fold_left run_log [Message 1 (W "lost"); Enable; Message 7 (W " hi"); Disable; Message 8 (W "no"); Enable; Message 9 (W "x")]
    (initial_log sample_world))) [W "home"; W "log.txt"]
  = Some (Regular (W "7 hi" ++ ["010"%char] ++ W "9x" ++ ["010"%char])).
Proof.
  destruct (log_refines_messages sample_world None
    [Message 1 (W "lost"); Enable; Message 7 (W " hi"); Disable; Message 8 (W "no"); Enable; Message 9 (W "x")] eq_refl eq_refl) as [E _].
  exact E.
Defined.
