(* ===== verification/IoUtil.v ===== *)
(** * Input and output utilities (cpp/src/io_util.hpp, cpp/src/macos/io_util_macos.hpp)

    Whole files written from and read into buffers of bytes; binary values in streams; words of a string and the string of words; reading
    a file line by line.  The second file exists once for each platform; the functions here are the same in the ones
    for iOS, Android and Windows, but for [read_file], which is the macOS one.  Files are those of FileSystem: the disk
    never fills, and a directory is not opened. *)
From stdpp Require Import gmap.
From S2P Require Import Prelude CS CodeUtil Strings Bytes Buffers Objects FileSystem Paths.

(** ** Buffers and files *)

Definition io_error (m : str) : outcome (Result Bool) := result_of_cstr m Bool_UNKNOWN.

(** An offset past the end wraps around, and characters are read outside of the buffer. *)
(* src: cpp/src/io_util.hpp:44-58 save_to_file *)
Definition io_save_to_file (w : world) (filename : str) (buffer : list byte) (offset : nat) : outcome (world * Result Bool) :=
  let '(w, f) := stream_open w closed_stream (cstr filename) (Z.lor ios_out ios_binary) in
  if negb (is_open f) then r ← io_error (W "Failed to open file for writing"); Ret (w, r) else
  if decide (length buffer < offset) then Undef OutOfBounds else
  let '(w, f) := stream_flush w (stream_write f (drop offset buffer)) in
  let '(w, _) := stream_close w f in Ret (w, result_of Bool_T).

(* src: cpp/src/io_util.hpp:61-90 load_from_file *)
Definition io_load_from_file (w : world) (filename : str) (buffer : list byte) : outcome (list byte * Result Bool) :=
  let '(w, f) := stream_open w closed_stream (cstr filename) (Z.lor ios_in ios_binary) in
  match s_file f with
  | None => r ← io_error (W "Failed to open file for reading"); Ret (buffer, r)
  | Some k =>
      let file_size := length (file_content w k) in
      let buffer := resize file_size buffer in
      let '(w, _, bytes) := stream_read w f file_size in
      let buffer := overlay 0 bytes buffer in
      if bool_decide (length bytes <> file_size) then r ← io_error (W "Read mismatch: read less bytes than expected"); Ret (buffer, r)
      else Ret (buffer, result_of Bool_T)
  end.

(** Into an object's own bytes: a file smaller than them leaves the rest as it was. *)
(* src: cpp/src/io_util.hpp:92-126 load_from_file *)
Definition io_load_into (w : world) (filename : str) (out_span : list byte) : outcome (list byte * Result Bool) :=
  let '(w, f) := stream_open w closed_stream (cstr filename) (Z.lor ios_in ios_binary) in
  match s_file f with
  | None => r ← io_error (W "Failed to open file for reading"); Ret (out_span, r)
  | Some k =>
      let file_size := length (file_content w k) in
      if decide (length out_span < file_size) then r ← io_error (W "Output span is too small to hold file contents"); Ret (out_span, r) else
      let '(w, _, bytes) := stream_read w f file_size in
      let out_span := overlay 0 bytes out_span in
      if bool_decide (length bytes <> file_size) then r ← io_error (W "Read mismatch: read less bytes than expected"); Ret (out_span, r)
      else Ret (out_span, result_of Bool_T)
  end.

(** ** Binary values in streams *)

Section binary.
Context (native : endian).

(** A value is its bytes in memory; the byte order asked for has no effect. *)
(* src: cpp/src/macos/io_util_macos.hpp:117-121 binary_write *)
Definition binary_write (os bytes : list byte) : list byte := os ++ bytes.
(** The size first, then [size] bytes from the address of the value: no more than it has. *)
(* src: cpp/src/macos/io_util_macos.hpp:89-93 binary_write *)
Definition binary_write_sized (os bytes : list byte) (size : nat) : outcome (list byte) :=
  if decide (size <= length bytes) then Ret (os ++ memory_bytes native 8 (Z.of_nat size) ++ take size bytes) else Undef OutOfBounds.
(* src: cpp/src/macos/io_util_macos.hpp:124-132 binary_write *)
Definition binary_write_string (os : list byte) (s : str) : list byte :=
  fold_left (fun os c => binary_write os [c]) s (binary_write os (memory_bytes native 8 (Z.of_nat (length s)))).

(** [is.read] over the object: what the stream still has replaces the first bytes. *)
(* src: cpp/src/macos/io_util_macos.hpp:165-169 binary_read *)
Definition binary_read (istr t : list byte) : list byte * list byte :=
  (drop (length t) istr, overlay 0 (take (length t) istr) t).
(** The size is read over the caller's variable, constant or not, and then that many bytes over the value, unless the stream
    ended within the size: no more bytes than the value has may be there. *)
(* src: cpp/src/macos/io_util_macos.hpp:140-163 binary_read *)
Definition binary_read_sized (istr t : list byte) (size : Z) : outcome (list byte * list byte * Z) :=
  let '(rest, sz) := binary_read istr (memory_bytes native 8 size) in
  let size := memory_value native sz in
  if decide (length istr < 8) then Ret (rest, t, size) else
  let bytes := take (Z.to_nat size) rest in
  if decide (length bytes <= length t) then Ret (drop (Z.to_nat size) rest, overlay 0 bytes t, size) else Undef OutOfBounds.
(** [is.read((char* )(&s), size)] writes the characters over the string object itself; with none it does nothing. *)
(* src: cpp/src/macos/io_util_macos.hpp:171-178 binary_read *)
Definition binary_read_string (istr : list byte) : outcome (list byte * str) :=
  let '(istr, size) := binary_read istr (memory_bytes native 8 0) in
  if decide (take (Z.to_nat (memory_value native size)) istr = []) then Ret (istr, []) else Undef OutOfBounds.
End binary.

(** What is left of a process that has failed: its message, and the code it exits with. *)
(* src: cpp/src/macos/io_util_macos.hpp:228-232 handle_error *)
Definition handle_error (perror : str) : str * Z := (perror, 255%Z).

(* src: cpp/src/macos/io_util_macos.hpp:271-275 SAME_NAME, SAME_SIZE, SAME_TIME, SAME_ALL *)
Definition SAME_ALL : Z := Z.lor (Z.lor 1 2) 4.

(** ** Words and strings *)

(** The bytes of each word, the lowest first. *)
(* src: cpp/src/macos/io_util_macos.hpp:186-188 binary_to_string *)
Definition word_chars (n : nat) (byte : Z) : str := map (fun i => byte_of_Z (Z.shiftr byte (Z.of_nat (i * 8)))) (seq 0 n).
(* src: cpp/src/macos/io_util_macos.hpp:180-191 binary_to_string *)
Definition binary_to_string (n : nat) (data : list Z) : str := fold_left (fun out byte => out ++ word_chars n byte) data [].

(** [in[i + j]]: the terminator may be read, what follows may not. *)
Definition char_at (s : str) (i : nat) : outcome ascii :=
  if decide (i < length s) then Ret (nth i s NULL_CHAR) else if decide (i = length s) then Ret NULL_CHAR else Undef OutOfBounds.
(* src: cpp/src/macos/io_util_macos.hpp:199-202 string_to_binary *)
Fixpoint read_word (s : str) (i j n : nat) (byte : Z) : outcome Z :=
  match n with
  | O => Ret byte
  | S n => c ← char_at s (i + j); read_word s i (S j) n (Z.lor byte (Z.shiftl (byte_val c) (Z.of_nat (j * 8))))
  end.
(** The loop runs once for each [n] characters, the last time for what is left. *)
(* src: cpp/src/macos/io_util_macos.hpp:198-204 string_to_binary *)
Fixpoint string_to_binary_loop (fuel n i : nat) (s : str) (out : list Z) : outcome (list Z) :=
  match fuel with
  | O => Ret out
  | S fuel => if decide (i < length s) then b ← read_word s i 0 n 0; string_to_binary_loop fuel n (i + n) s (out ++ [b]) else Ret out
  end.
(* src: cpp/src/macos/io_util_macos.hpp:193-205 string_to_binary *)
Definition string_to_binary (n : nat) (s : str) : outcome (list Z) := string_to_binary_loop (length s) n 0 s [].

(** ** Files *)

(* src: cpp/src/macos/io_util_macos.hpp:210-226 create_empty_file *)
Definition create_empty_file (w : world) (file_full_path : str) : world * outcome unit :=
  let '(w, f) := stream_open w closed_stream (cstr file_full_path) ios_out in
  if negb (is_open f) then (w, Throw (RuntimeError (W "create_file: It was not possible to create file." ++ cstr file_full_path)))
  else (fst (stream_close w f), Ret tt).

(* src: cpp/src/macos/io_util_macos.hpp:60-87 read_file *)
Definition read_file (w : world) (filename : str) : outcome str :=
  let '(w, f) := stream_open w closed_stream filename (Z.lor ios_in ios_binary) in
  match s_file f with
  | None => log_and_throw (W "macos_read_file: Error opening file: " ++ filename)
  | Some k =>
      let '(w, f, s) := stream_read w f (length (file_content w k)) in
      if s_fail f then log_and_throw (W "macos_read_file: Error reading file: " ++ filename) else Ret s
  end.

(** [std::getline]: the characters up to a line feed, which is taken too; nothing at the end of the file. *)
Definition LINE_FEED : ascii := "010"%char.
Definition getline (s : str) : option (str * str) :=
  match s with
  | [] => None
  | _ => let p c := bool_decide (c <> LINE_FEED) in Some (take_while p s, drop 1 (drop_while p s))
  end.
(** The calls of the handler, with their counts; the count is an [int].  The loop ends when no characters are left. *)
(* src: cpp/src/macos/io_util_macos.hpp:238-242 read_file *)
Fixpoint read_lines (fuel : nat) (s : str) (line_count : Z) (calls : list (Z * str)) : outcome (Z * list (Z * str)) :=
  match fuel with
  | O => Undef NoProgress
  | S fuel => match getline s with
              | None => Ret (line_count, calls)
              | Some (line, s) =>
                  if in_signed 32 (line_count + 1) then read_lines fuel s (line_count + 1) (calls ++ [(line_count, line)])
                  else Undef SignedOverflow
              end
  end.
(** A file that can not be opened has no lines. *)
(* src: cpp/src/macos/io_util_macos.hpp:234-244 read_file *)
Definition read_file_lines (w : world) (fname : str) : outcome (Z * list (Z * str)) :=
  let '(w, f) := stream_open w closed_stream fname ios_in in
  let s := match s_file f with Some k => file_content w k | None => [] end in
  read_lines (S (length s)) s 0 [].

(* src: cpp/src/macos/io_util_macos.hpp:246-269 file_exists *)
Definition io_file_exists (w : world) (filename : str) : bool := fs_exists w (cstr filename).
(** The size the system gives a directory is an argument. *)
(* src: cpp/src/macos/io_util_macos.hpp:278-299 get_file_size *)
Definition get_file_size (directory_size : Z) (w : world) (file_name : str) : Z :=
  match find_entry w (cstr file_name) with
  | Some (Regular c) => Z.of_nat (length c)
  | Some Directory => directory_size
  | None => -1
  end.

(** ** Words: lemmas *)

Lemma word_chars_le n v : (0 <= v)%Z -> word_chars n v = le_bytes n v.
Proof.
  revert v. induction n as [|n IH]; intros v Hv; [done|]. unfold word_chars. cbn [seq map]. rewrite Z.shiftr_0_r. cbn [le_bytes]. f_equal.
  rewrite <- IH by (by apply Z.div_pos). unfold word_chars. rewrite <- seq_shift, map_map. apply map_ext. intros i.
  f_equal. rewrite !Z.shiftr_div_pow2, Z.div_div by lia. f_equal. replace (Z.of_nat (S i * 8)) with (8 + Z.of_nat (i * 8))%Z by lia.
  rewrite Z.pow_add_r by lia. done.
Qed.

Lemma binary_to_string_concat n data : binary_to_string n data = concat (map (word_chars n) data).
Proof.
  unfold binary_to_string. assert (forall out, fold_left (fun out byte => out ++ word_chars n byte) data out = out ++ concat (map (word_chars n) data)) as ->; [|done].
  induction data as [|v data IH]; intros out; simpl; [by rewrite app_nil_r|]. by rewrite IH, app_assoc.
Qed.

(** Setting the bits above [k] of a number below [2 ^ k]. *)
Lemma lor_shifted a b k : (0 <= k)%Z -> (0 <= a < 2 ^ k)%Z -> Z.lor a (Z.shiftl b k) = (a + b * 2 ^ k)%Z.
Proof.
  intros Hk Ha. rewrite <- Z.lxor_lor, <- Z.add_nocarry_lxor; rewrite ?Z.shiftl_mul_pow2 by done; try done.
  all: rewrite <- Z.shiftl_mul_pow2 by done; apply Z.bits_inj'; intros i Hi; rewrite Z.land_spec, Z.bits_0, Z.shiftl_spec by done;
    destruct (decide (i < k)%Z) as [Hik|Hik];
    [by rewrite (Z.testbit_neg_r b) by lia; rewrite andb_false_r
    |rewrite <- (Z.mod_small a (2 ^ k)) by done; by rewrite Z.mod_pow2_bits_high by lia].
Qed.

Lemma char_at_terminated s i c : (s ++ [NULL_CHAR]) !! i = Some c -> char_at s i = Ret c.
Proof.
  intros H. pose proof (lookup_lt_Some _ _ _ H) as L. rewrite length_app in L. simpl in L. unfold char_at. case_decide.
  - rewrite lookup_app_l in H by done. by rewrite (nth_lookup_Some _ _ _ _ H).
  - rewrite decide_True by lia. rewrite lookup_app_r in H by lia. replace (i - length s) with 0 in H by lia. by simplify_eq/=.
Qed.

Lemma read_word_val s i cs j acc : (0 <= acc < 2 ^ Z.of_nat (j * 8))%Z -> (exists r, drop (i + j) (s ++ [NULL_CHAR]) = cs ++ r) ->
  read_word s i j (length cs) acc = Ret (acc + le_val cs * 2 ^ Z.of_nat (j * 8))%Z.
Proof.
  revert j acc. induction cs as [|c cs IH]; intros j acc Ha [r Hr]; cbn [length read_word le_val]; [f_equal; lia|].
  assert ((s ++ [NULL_CHAR]) !! (i + j) = Some c) as Hc by (rewrite <- (Nat.add_0_r (i + j)), <- lookup_drop, Hr; done).
  rewrite (char_at_terminated _ _ _ Hc). cbn [mbind outcome_bind]. rewrite lor_shifted by lia.
  pose proof (byte_val_range c) as Hb. assert (2 ^ Z.of_nat (S j * 8) = 256 * 2 ^ Z.of_nat (j * 8))%Z as E.
  { replace (Z.of_nat (S j * 8)) with (8 + Z.of_nat (j * 8))%Z by lia. rewrite Z.pow_add_r by lia. done. }
  rewrite IH; [f_equal; rewrite E; lia|rewrite E; nia|]. exists r. rewrite Nat.add_succ_r, <- Nat.add_1_r, <- drop_drop, Hr. done.
Qed.

Lemma read_word_out s i n j acc : length s < i + j + n - 1 -> 0 < n -> read_word s i j n acc = Undef OutOfBounds.
Proof.
  revert j acc. induction n as [|n IH]; intros j acc Hl Hn; [lia|]. cbn [read_word]. unfold char_at.
  repeat case_decide; cbn [mbind outcome_bind]; [apply IH; lia|apply IH; lia|done].
Qed.

Lemma le_bytes_concat_length n data : length (concat (map (le_bytes n) data)) = n * length data.
Proof. induction data as [|v data IH]; simpl; [lia|]. rewrite length_app, le_bytes_length, IH. lia. Qed.

(** The loop from position [i], with whole words and then fewer characters than a word left. *)
Lemma string_to_binary_loop_spec n s data tail fuel i out : 0 < n -> Forall (fun v => (0 <= v < 256 ^ Z.of_nat n)%Z) data ->
  length tail < n -> drop i s = concat (map (le_bytes n) data) ++ tail -> length s <= fuel + i ->
  string_to_binary_loop fuel n i s out =
    if decide (tail = []) then Ret (out ++ data)
    else if decide (S (length tail) = n) then Ret (out ++ data ++ [le_val (tail ++ [NULL_CHAR])]) else Undef OutOfBounds.
Proof.
  intros Hn. revert i out fuel. induction data as [|v data IH]; intros i out fuel Hd Ht E Hf.
  - simpl in E. assert (length s - i = length tail) as L by (rewrite <- E, length_drop; done).
    destruct tail as [|c tail].
    + simpl in L. rewrite decide_True by done. rewrite app_nil_r. destruct fuel; [done|]. cbn [string_to_binary_loop]. by rewrite decide_False by lia.
    + rewrite decide_False by done. simpl in L. destruct fuel as [|fuel]; [lia|]. cbn [string_to_binary_loop]. rewrite decide_True by lia. case_decide as Hx.
      * replace n with (length ((c :: tail) ++ [NULL_CHAR])) at 1 by (rewrite length_app; simpl in *; lia).
        rewrite read_word_val; [|simpl; lia|].
        -- cbn [mbind outcome_bind]. change (2 ^ Z.of_nat (0 * 8))%Z with 1%Z. rewrite Z.mul_1_r, Z.add_0_l.
           destruct fuel; cbn [string_to_binary_loop]; [done|]. by rewrite decide_False by (simpl in *; lia).
        -- exists []. rewrite Nat.add_0_r, drop_app_le, E, app_nil_r by lia. done.
      * rewrite read_word_out by (simpl in *; lia). done.
  - apply Forall_cons in Hd as [Hv Hd]. cbn [map concat] in E. rewrite <- app_assoc in E.
    assert (n + length (concat (map (le_bytes n) data) ++ tail) = length s - i) as L.
    { rewrite <- length_drop, E, !length_app, le_bytes_length. lia. }
    destruct fuel as [|fuel]; [lia|]. cbn [string_to_binary_loop]. rewrite decide_True by lia.
    replace n with (length (le_bytes n v)) at 1 by apply le_bytes_length. rewrite read_word_val; [|simpl; lia|].
    + cbn [mbind outcome_bind]. rewrite le_val_bytes, Z.mod_small by done.
      change (2 ^ Z.of_nat (0 * 8))%Z with 1%Z. rewrite Z.mul_1_r, Z.add_0_l.
      rewrite (IH (i + n) _ fuel Hd Ht); [|rewrite <- drop_drop, E, drop_app_length' by (by rewrite le_bytes_length); done|lia].
      repeat case_decide; rewrite <- ?app_assoc; done.
    + exists ((concat (map (le_bytes n) data) ++ tail) ++ [NULL_CHAR]). rewrite Nat.add_0_r, drop_app_le, E by lia. by rewrite !app_assoc.
Qed.

(** ** Properties *)

Definition word_range (n : nat) (v : Z) : Prop := (0 <= v < 256 ^ Z.of_nat n)%Z.

Lemma le_bytes_of n bs : length bs = n -> le_bytes n (le_val bs) = bs.
Proof. intros <-. apply le_bytes_val. Qed.
Lemma word_range_of n bs : length bs = n -> word_range n (le_val bs).
Proof. intros <-. apply le_val_range. Qed.

Lemma words_of_string n s : 0 < n -> exists data tail, s = concat (map (le_bytes n) data) ++ tail /\ length tail < n /\ Forall (word_range n) data.
Proof.
  intros Hn. remember (length s) as l eqn:L. revert s L. induction l as [l IH] using lt_wf_ind. intros s ->.
  destruct (decide (length s < n)) as [H|H].
  - by exists [], s.
  - destruct (IH (length (drop n s))) with (s := drop n s) as (data & tail & E & Ht & Hd); [rewrite length_drop; lia|done|].
    assert (length (take n s) = n) as Ln by (rewrite length_take; lia).
    exists (le_val (take n s) :: data), tail. cbn [map concat]. rewrite <- app_assoc, <- E, (le_bytes_of n _ Ln), take_drop.
    split; [done|split; [done|]]. constructor; [|done]. by apply word_range_of.
Qed.

(** Words to a string and back.  For words of [n] bytes, [string_to_binary] inverts [binary_to_string], and every string is such words
    followed by fewer than [n] characters.  When none are left the string is given back by [binary_to_string] in turn.  When one
    character is missing the terminator of the string is taken for it, and the string comes back one character longer.  When
    more are missing, characters past the end of the string are read. *)
Theorem words_roundtrip (n : nat) (s : str) (Hn : 0 < n) :
  (forall data, Forall (word_range n) data -> string_to_binary n (binary_to_string n data) = Ret data)
  /\ exists data tail, Forall (word_range n) data /\ s = binary_to_string n data ++ tail /\ length tail < n
     /\ string_to_binary n s =
          (if decide (tail = []) then Ret data
           else if decide (S (length tail) = n) then Ret (data ++ [le_val (tail ++ [NULL_CHAR])]) else Undef OutOfBounds)
     /\ (S (length tail) = n -> binary_to_string n (data ++ [le_val (tail ++ [NULL_CHAR])]) = s ++ [NULL_CHAR]).
Proof.
  assert (forall data, Forall (word_range n) data -> binary_to_string n data = concat (map (le_bytes n) data)) as B.
  { intros data Hd. rewrite binary_to_string_concat. f_equal. apply map_ext_in. intros v Hv%list_elem_of_In.
    rewrite Forall_forall in Hd. apply word_chars_le. destruct (Hd v Hv). done. }
  split.
  - intros data Hd. rewrite B by done. unfold string_to_binary.
    rewrite (string_to_binary_loop_spec n _ data []) by (rewrite ?app_nil_r; simpl; done || lia). done.
  - destruct (words_of_string n s Hn) as (data & tail & E & Ht & Hd). exists data, tail. rewrite (B data Hd).
    split; [done|split; [done|split; [done|split]]].
    + unfold string_to_binary. by rewrite (string_to_binary_loop_spec n s data tail) by (done || lia).
    + intros Hl. assert (length (tail ++ [NULL_CHAR]) = n) as Ll by (rewrite length_app; simpl; lia). rewrite B.
      * rewrite map_app, concat_app. cbn [map concat]. rewrite (le_bytes_of n _ Ll), app_nil_r, E. by rewrite app_assoc.
      * apply Forall_app. split; [done|]. constructor; [|done]. by apply word_range_of.
Qed.

Lemma words_roundtrip_witness :
  string_to_binary 4 (binary_to_string 4 [1; 4294967295; 66051]%Z) = Ret [1; 4294967295; 66051]%Z.
Proof.
  assert (0 < 4) as H by (apply Nat.ltb_lt; reflexivity).
  destruct (words_roundtrip 4 [] H) as [R _]. apply R. apply (bool_decide_unpack _). vm_compute. exact I.
Defined.

(** *** Whole files *)

(** A file can be made or emptied at [k]. *)
Definition writable (w : world) (k : path_key) : bool :=
  bool_decide (k <> []) && match lookup_entry w k with Some Directory => false | Some (Regular _) => true
                           | None => bool_decide (lookup_entry w (parent_key k) = Some Directory) end.

Lemma open_writable w p mode k must : directory_only p = false -> open_table mode = Some (false, must) -> resolve (cwd w) p = k -> writable w k = true ->
  must = true -> stream_open w closed_stream p mode = open_at w k mode [].
Proof.
  intros Hd Ht Hp Hw ->. unfold writable in Hw. apply andb_true_iff in Hw as [_ Hw]. unfold stream_open. rewrite Hd, Ht, Hp.
  change (is_open closed_stream || false) with false. cbv iota. destruct (lookup_entry w k) as [[|c]|]; [done|done|]. by rewrite Hw.
Qed.

Section whole_files.
Context (w : world) (name : str) (k : path_key).
Hypothesis Hfile : directory_only (cstr name) = false.
Hypothesis Hk : resolve (cwd w) (cstr name) = k.

Lemma saved_file buffer offset : writable w k = true -> offset <= length buffer -> exists w',
  io_save_to_file w name buffer offset = Ret (w', result_of Bool_T)
  /\ lookup_entry w' k = Some (Regular (drop offset buffer)) /\ cwd w' = cwd w /\ forall j, j <> k -> lookup_entry w' j = lookup_entry w j.
Proof.
  intros Hw Ho. unfold io_save_to_file. rewrite (open_writable w (cstr name) _ k true) by done. unfold open_at.
  change (is_open _) with true. cbn [negb]. rewrite decide_False by lia. set (w1 := set_entry w k (Regular [])).
  assert (k <> []) as Hne by (unfold writable in Hw; by apply andb_true_iff in Hw as [?%bool_decide_eq_true _]).
  change (stream_write _ ?x) with (mk_stream (Some k) (Z.lor ios_out ios_binary) 0 x false false).
  assert (lookup_entry w1 k = Some (Regular [])) as E1 by (unfold w1; rewrite lookup_set_entry by done; by rewrite decide_True).
  assert (forall j, j <> k -> lookup_entry w1 j = lookup_entry w j) as R1.
  { intros j Hj. unfold w1. rewrite lookup_set_entry by done. by rewrite decide_False. }
  unfold stream_flush. cbn [s_file s_pending s_mode s_pos s_fail s_eof]. case_decide as Hx.
  - exists w1. rewrite Hx. split; [done|]. split; [done|]. split; [done|exact R1].
  - unfold file_content. rewrite E1. rewrite bool_decide_eq_false_2 by done.
    change (flag _ ios_app) with false. cbv iota. eexists. split; [reflexivity|]. split; [|split; [done|]].
    + rewrite lookup_set_entry, decide_True by done. unfold write_at. cbn [take length Nat.sub replicate app].
      by rewrite drop_nil, app_nil_r.
    + intros j Hj. rewrite lookup_set_entry by done. rewrite decide_False by done. by apply R1.
Qed.

Lemma opened_to_read c : lookup_entry w k = Some (Regular c) -> exists w1 st,
  stream_open w closed_stream (cstr name) (Z.lor ios_in ios_binary) = (w1, st) /\ s_file st = Some k /\ file_content w1 k = c
  /\ exists st', stream_read w1 st (length c) = (w1, st', c).
Proof.
  intros Hc. destruct (decide (k = [])) as [->|Hne]; [done|]. unfold stream_open. rewrite Hfile. change (is_open closed_stream || false) with false. cbv iota.
  rewrite Hk, Hc. unfold open_at. eexists _, _. split; [reflexivity|]. split; [done|].
  assert (file_content (set_entry w k (Regular c)) k = c) as F.
  { unfold file_content. rewrite lookup_set_entry by done. by rewrite decide_True. }
  split; [done|]. unfold stream_read. cbn [s_fail orb]. case_bool_decide as Hl; [destruct c; [by eexists|done]|].
  change (can_read _) with true. cbv iota. unfold stream_flush. cbn [s_file s_pending]. rewrite decide_True by done. cbn [s_file s_pos].
  rewrite F. change (flag (Z.lor ios_in ios_binary) ios_ate) with false. cbv iota. rewrite drop_0, firstn_all. by eexists.
Qed.

Lemma loaded_file c buffer : lookup_entry w k = Some (Regular c) -> io_load_from_file w name buffer = Ret (c, result_of Bool_T).
Proof.
  intros Hc. destruct (opened_to_read c Hc) as (w1 & st & E & Hf & F & st' & R). unfold io_load_from_file. rewrite E, Hf, F, R.
  rewrite bool_decide_eq_false_2 by (intros X; by apply X). rewrite overlay_0, (drop_ge (resize _ _)) by (rewrite resize_length; lia). by rewrite app_nil_r.
Qed.

Lemma loaded_into c span : lookup_entry w k = Some (Regular c) -> length c <= length span ->
  io_load_into w name span = Ret (c ++ drop (length c) span, result_of Bool_T).
Proof.
  intros Hc Hl. destruct (opened_to_read c Hc) as (w1 & st & E & Hf & F & st' & R). unfold io_load_into. rewrite E, Hf, F, R.
  rewrite decide_False by lia. by rewrite bool_decide_eq_false_2 by (intros X; by apply X).
Qed.

Lemma io_error_false m : bool_decide (no_nul m) = true -> length m < 256 -> exists r, io_error m = Ret r /\ result_bool r = false.
Proof.
  intros Hn%bool_decide_eq_true Hl. destruct (result_of_cstr_ok m Bool_UNKNOWN Hn Hl) as (r & E & Hr & _). exists r. split; [exact E|].
  unfold result_bool. by rewrite Hr.
Qed.

Lemma not_loaded_into c span : lookup_entry w k = Some (Regular c) -> length span < length c ->
  exists r, io_load_into w name span = Ret (span, r) /\ result_bool r = false.
Proof.
  intros Hc Hl. destruct (opened_to_read c Hc) as (w1 & st & E & Hf & F & st' & R). unfold io_load_into. rewrite E, Hf, F, R.
  rewrite decide_True by lia. destruct (io_error_false (W "Output span is too small to hold file contents")) as (r & Er & Hr); [done|simpl; lia|].
  rewrite Er. by exists r.
Qed.
End whole_files.

(** Saving to a file and loading from it, where a file can be made or is there already.  [save_to_file] leaves the bytes from the offset
    on as the whole content, whatever the file held, and touches nothing else; a vector loaded from it is exactly those
    bytes; an object's bytes are overwritten from the first one, and the rest is kept; when they are fewer than the
    file's the load fails and nothing is changed.  An offset past the end of the buffer is not checked. *)
Theorem file_buffer_roundtrip (w : world) (name : str) (buffer : list byte) (offset : nat)
    (Hfile : directory_only (cstr name) = false) (Hw : writable w (resolve (cwd w) (cstr name)) = true) :
  if decide (length buffer < offset) then io_save_to_file w name buffer offset = Undef OutOfBounds
  else exists w', io_save_to_file w name buffer offset = Ret (w', result_of Bool_T)
    /\ lookup_entry w' (resolve (cwd w) (cstr name)) = Some (Regular (drop offset buffer))
    /\ (forall j, j <> resolve (cwd w) (cstr name) -> lookup_entry w' j = lookup_entry w j)
    /\ (forall b, io_load_from_file w' name b = Ret (drop offset buffer, result_of Bool_T))
    /\ (forall span, if decide (length span < length (drop offset buffer))
          then exists r, io_load_into w' name span = Ret (span, r) /\ result_bool r = false
          else io_load_into w' name span = Ret (drop offset buffer ++ drop (length (drop offset buffer)) span, result_of Bool_T)).
Proof.
  case_decide as H.
  - unfold io_save_to_file. rewrite (open_writable w (cstr name) _ _ true) by done. unfold open_at. change (is_open _) with true. cbn [negb].
    by rewrite decide_True.
  - destruct (saved_file w name _ Hfile eq_refl buffer offset Hw) as (w' & E & L & C & R); [lia|]. exists w'. split; [done|split; [done|split; [done|]]].
    assert (resolve (cwd w') (cstr name) = resolve (cwd w) (cstr name)) as K by (by rewrite C). split.
    + intros b. by eapply loaded_file.
    + intros span. case_decide; [by eapply not_loaded_into|]. eapply loaded_into; [done|done|done|lia].
Qed.

Lemma file_buffer_roundtrip_witness :
  exists w', io_save_to_file sample_world (W "data.bin") (W "abcdef") 2 = Ret (w', result_of Bool_T)
    /\ io_load_from_file w' (W "data.bin") (W "old") = Ret (W "cdef", result_of Bool_T)
    /\ io_load_into w' (W "data.bin") (W "123456") = Ret (W "cdef56", result_of Bool_T).
Proof.
  destruct (file_buffer_roundtrip sample_world (W "data.bin") (W "abcdef") 2 eq_refl eq_refl) as (w' & E & _ & _ & L & S).
  exists w'. split; [exact E|]. split; [apply L|]. apply (S (W "123456")).
Defined.

(** *** Lines *)

Definition unlines (ls : list str) : str := concat (map (fun l => l ++ [LINE_FEED]) ls).
(** The text with its last line ended. *)
Definition ended (s : str) : str := if decide (s = [] \/ last s = Some LINE_FEED) then s else s ++ [LINE_FEED].
Definition numbered (from : Z) (ls : list str) : list (Z * str) := imap (fun i l => (from + Z.of_nat i, l)%Z) ls.

Lemma getline_spec s : s <> [] -> exists l s', getline s = Some (l, s') /\ LINE_FEED ∉ l /\ length s' < length s /\ ended s = l ++ LINE_FEED :: ended s'.
Proof.
  intros Hs. unfold getline. set (p c := bool_decide (c <> LINE_FEED)). exists (take_while p s), (drop 1 (drop_while p s)).
  assert (LINE_FEED ∉ take_while p s) as Hl.
  { intros Hin. pose proof (take_while_all p s) as F. rewrite Forall_forall in F. specialize (F _ Hin). by apply bool_decide_eq_true in F. }
  split; [by destruct s|]. split; [done|]. pose proof (take_drop_while p s) as E. pose proof (drop_while_head p s) as Hd.
  destruct (drop_while p s) as [|c r].
  - rewrite app_nil_r in E. rewrite drop_nil. split; [destruct s; simpl; [done|lia]|]. rewrite E in *. unfold ended at 1. rewrite decide_False; [done|].
    intros [?|Hx]; [done|]. apply Hl. by apply last_Some_elem_of.
  - apply bool_decide_eq_false, dec_stable in Hd as ->. cbn [drop]. rewrite drop_0. split; [rewrite <- E, length_app; simpl; lia|].
    rewrite <- E at 1. unfold ended at 1. rewrite last_app. unfold ended. destruct r as [|x r].
    + simpl. repeat rewrite decide_True by naive_solver. done.
    + rewrite last_cons_cons. destruct (last (x :: r)) as [y|] eqn:Ey; [|by apply last_None in Ey]. case_decide as D.
      * destruct D as [D|D]; [by destruct (take_while p s)|]. by rewrite decide_True by naive_solver.
      * rewrite decide_False by (intros [?|[= ->]]; naive_solver). by rewrite <- app_assoc.
Qed.

Lemma read_lines_ok fuel s n calls : length s < fuel -> (0 <= n)%Z -> (n + Z.of_nat (length s) < 2 ^ 31)%Z ->
  exists ls, read_lines fuel s n calls = Ret (n + Z.of_nat (length ls), calls ++ numbered n ls)%Z
    /\ Forall (fun l => LINE_FEED ∉ l) ls /\ unlines ls = ended s.
Proof.
  revert s n calls. induction fuel as [|fuel IH]; intros s n calls Hf Hn Hb; [lia|]. destruct (decide (s = [])) as [->|Hs].
  - exists []. cbn [read_lines getline]. simpl. rewrite app_nil_r, Z.add_0_r. done.
  - destruct (getline_spec s Hs) as (l & s' & E & Hl & Hlen & He). cbn [read_lines]. rewrite E.
    assert (in_signed 32 (n + 1) = true) as -> by (apply bool_decide_eq_true; simpl; lia).
    destruct (IH s' (n + 1)%Z (calls ++ [(n, l)])) as (ls & R & F & U); [lia|lia|lia|]. exists (l :: ls). rewrite R. split; [|split].
    + f_equal. f_equal; [cbn [length]; lia|]. rewrite <- app_assoc. f_equal. unfold numbered. rewrite imap_cons. simpl. f_equal; [f_equal; lia|].
      apply imap_ext. intros i x _. simpl. f_equal. lia.
    + by constructor.
    + unfold unlines in *. cbn [map concat]. rewrite U, He, <- app_assoc. done.
Qed.

(** Reading a file line by line, for a file of less than 2 GB.  The loop ends; the handler gets the lines of the file in order, with their
    numbers from zero and without their line feeds; put together again, each with its line feed, they are the file, with a line
    feed added when it does not end with one; and their number is returned.  A file that can not be opened
    has no lines, and no error is reported. *)
Theorem read_lines_spec (w : world) (fname : str) (c : str)
    (Hlen : (Z.of_nat (length c) < 2 ^ 31)%Z) (Hfile : directory_only fname = false) :
  (lookup_entry w (resolve (cwd w) fname) = Some (Regular c) -> exists ls,
     read_file_lines w fname = Ret (Z.of_nat (length ls), numbered 0 ls) /\ Forall (fun l => LINE_FEED ∉ l) ls /\ unlines ls = ended c)
  /\ (lookup_entry w (resolve (cwd w) fname) = None -> read_file_lines w fname = Ret (0%Z, [])).
Proof.
  split; intros H; unfold read_file_lines, stream_open; rewrite Hfile; change (is_open closed_stream || false) with false; cbv iota; rewrite H;
    change (open_table ios_in) with (Some (true, false)); cbv iota.
  - destruct (decide (resolve (cwd w) fname = [])) as [E|E]; [by rewrite E in H|]. unfold open_at. cbn [s_file]. unfold file_content.
    rewrite lookup_set_entry, decide_True by done. destruct (read_lines_ok (S (length c)) c 0 []) as (ls & R & F & U); [lia|lia|lia|].
    exists ls. by rewrite R.
  - done.
Qed.

Lemma read_lines_spec_witness :
  exists ls, read_file_lines (set_entry sample_world [W "t"] (Regular (W "one" ++ [LINE_FEED] ++ W "two"))) (W "/t") = Ret (Z.of_nat (length ls), numbered 0 ls)
    /\ unlines ls = W "one" ++ [LINE_FEED] ++ W "two" ++ [LINE_FEED].
Proof.
  assert ((Z.of_nat (length (W "one" ++ [LINE_FEED] ++ W "two")) < 2 ^ 31)%Z) as H by reflexivity.
  destruct (read_lines_spec (set_entry sample_world [W "t"] (Regular (W "one" ++ [LINE_FEED] ++ W "two"))) (W "/t") (W "one" ++ [LINE_FEED] ++ W "two") H eq_refl) as [R _].
  destruct (R eq_refl) as (ls & E & _ & U). exists ls. split; [exact E|exact U].
Defined.

(** *** Values and strings in binary *)

Lemma binary_read_app v r t : length t = length v -> binary_read (v ++ r) t = (r, v).
Proof.
  intros Ht. unfold binary_read. rewrite Ht, drop_app_length, take_app_length, overlay_0, (drop_ge t) by lia. by rewrite app_nil_r.
Qed.

(** Binary values and strings in streams.  Values are read back from what [binary_write] wrote, one after the other.  A string is
    written as its length and its characters, but [binary_read] puts the characters over the string object: only the empty
    string is read back. *)
Theorem binary_string_unreadable (native : endian) (vs ts : list (list byte)) (s rest : list byte)
    (Hlen : (Z.of_nat (length s) < 2 ^ 64)%Z) (Hts : map length ts = map length vs) :
  fold_left (fun a t => let '(r, out) := a in let '(r, x) := binary_read r t in (r, out ++ [x])) ts
     (fold_left binary_write vs [] ++ rest, []) = (rest, vs)
  /\ binary_read_string native (binary_write_string native [] s ++ rest) = if decide (s = []) then Ret (rest, []) else Undef OutOfBounds.
Proof.
  split.
  - assert (forall os, fold_left binary_write vs os = os ++ concat vs) as ->.
    { clear Hts. induction vs as [|v vs IH]; intros os; simpl; [by rewrite app_nil_r|]. rewrite IH. unfold binary_write. by rewrite app_assoc. }
    cbn [app]. assert (forall out, fold_left (fun a t => let '(r, out) := a in let '(r, x) := binary_read r t in (r, out ++ [x])) ts
      (concat vs ++ rest, out) = (rest, out ++ vs)) as G; [|by rewrite G].
    revert ts Hts. induction vs as [|v vs IH]; intros ts Hts out; destruct ts as [|t ts]; try done; [by rewrite app_nil_r|].
    cbn [map] in Hts. injection Hts as Ht Hts. cbn [fold_left concat].
    rewrite <- app_assoc, binary_read_app by done. rewrite IH by done. by rewrite <- app_assoc.
  - assert (binary_write_string native [] s = memory_bytes native 8 (Z.of_nat (length s)) ++ s) as ->.
    { unfold binary_write_string. assert (forall os, fold_left (fun os c => binary_write os [c]) s os = os ++ s) as ->; [|done].
      clear. induction s as [|c s IH]; intros os; simpl; [by rewrite app_nil_r|]. rewrite IH. unfold binary_write. by rewrite <- app_assoc. }
    unfold binary_read_string. rewrite <- app_assoc, binary_read_app by (by rewrite !memory_bytes_length).
    rewrite memory_value_bytes by (change (256 ^ Z.of_nat 8)%Z with (2 ^ 64)%Z; lia).
    rewrite Nat2Z.id, take_app_length. repeat case_decide; subst; done.
Qed.

Lemma binary_string_unreadable_witness :
  binary_read_string little_endian (binary_write_string little_endian [] (W "abc") ++ W "!") = Undef OutOfBounds.
Proof.
  assert ((Z.of_nat (length (W "abc")) < 2 ^ 64)%Z) as H by reflexivity.
  destruct (binary_string_unreadable little_endian [] [] (W "abc") (W "!") H eq_refl) as [_ E]. rewrite E. reflexivity.
Defined.

(** A value written with its size is read back with it, and its size is left in the caller's variable, when the place it is read to is
    at least as large; a smaller place is written past its end. *)
Theorem sized_roundtrip (native : endian) (v t rest : list byte) (n : nat) (size : Z)
    (Hn : n <= length v) (Hl : (Z.of_nat n < 2 ^ 64)%Z) :
  exists os, binary_write_sized native [] v n = Ret os
  /\ binary_read_sized native (os ++ rest) t size =
       if decide (n <= length t) then Ret (rest, take n v ++ drop n t, Z.of_nat n) else Undef OutOfBounds.
Proof.
  unfold binary_write_sized, binary_read_sized. rewrite decide_True by done. eexists. split; [reflexivity|]. cbn [app].
  rewrite <- app_assoc, binary_read_app by (by rewrite !memory_bytes_length).
  rewrite memory_value_bytes by (change (256 ^ Z.of_nat 8)%Z with (2 ^ 64)%Z; lia).
  assert (length (take n v) = n) as Ln by (rewrite length_take; lia).
  rewrite decide_False by (rewrite length_app, memory_bytes_length; lia). rewrite Nat2Z.id, take_app_length', drop_app_length' by done.
  rewrite Ln. case_decide; [|done]. by rewrite overlay_0, Ln.
Qed.

Lemma sized_roundtrip_witness :
  exists os, binary_write_sized little_endian [] (W "abcd") 3 = Ret os
  /\ binary_read_sized little_endian (os ++ W "!") (W "12345") 0 = Ret (W "!", W "abc45", 3%Z).
Proof.
  destruct (sized_roundtrip little_endian (W "abcd") (W "12345") (W "!") 3 0) as (os & E & R); [simpl; lia|reflexivity|].
  exists os. split; [exact E|]. rewrite R. reflexivity.
Defined.
