(* ===== verification/Utilities.v ===== *)
(** * Small utilities and the system

    Hardware addresses (cpp/src/mac_address.hpp and the three system files), the number of threads (cpp/src/sysinfo.hpp), names and paths of
    the system (cpp/src/system.hpp), the stop watch (cpp/src/stop_watch.hpp), C's random numbers (cpp/src/random_util.hpp),
    the algorithms on containers (cpp/src/algorithm_util.hpp) and [Language].  What the system is asked for - the bytes of a network card,
    the count of its processors, the time, the next random number - are arguments. *)
From S2P Require Import Prelude Strings Bytes Objects FileSystem IoUtil.

(** ** Hardware addresses *)

Definition hex_digit (upper : bool) (d : Z) : ascii := if (d <? 10)%Z then byte_of_Z (48 + d) else byte_of_Z ((if upper then 55 else 87) + d).
(** [%02x] and [%02X] of a byte. *)
Definition hex2 (upper : bool) (v : Z) : str := [hex_digit upper (v / 16); hex_digit upper (v mod 16)].

(* src: cpp/src/mac_address.hpp:23-25 MacAddress *)
Record MacAddress := mk_mac { mac : Z }.
(* src: cpp/src/mac_address.hpp:30-37 MacAddress::operator std::string *)
Definition mac_string (m : MacAddress) : str :=
  join ":"%char (map (fun i => hex2 false (Z.land (Z.shiftr (mac m) i) 255)) [40; 32; 24; 16; 8; 0])%Z.
(* src: cpp/src/mac_address.hpp:39-42 MacAddress::operator int64_t *)
Definition mac_value (m : MacAddress) : Z := mac m.

(** The wide string has the same digits; the low byte of a wide character is all it uses. *)
(* src: cpp/src/mac_address.hpp:44-51 MacAddress::operator std::wstring *)
Definition mac_wstring (m : MacAddress) : list Z := map byte_val (mac_string m).

(** Six bytes are copied to the start of an [int64_t] without a value, and its low six bytes are kept. *)
(* src: cpp/src/linux/system_linux.hpp:66-72 mac_addresses *)
Definition mac_linux (native : endian) (address : list byte) : outcome MacAddress :=
  match native with little_endian => Ret (mk_mac (le_val address)) | big_endian => Undef Uninitialized end.
(* src: cpp/src/macos/system_macos.hpp:68-75 mac_addresses *)
Definition mac_macos (address : list byte) : MacAddress :=
  let b i := byte_val (nth i address NULL_CHAR) in
  mk_mac (Z.lor (Z.lor (Z.lor (Z.lor (Z.lor (Z.shiftl (b 0%nat) 40) (Z.shiftl (b 1%nat) 32)) (Z.shiftl (b 2%nat) 24)) (Z.shiftl (b 3%nat) 16))
    (Z.shiftl (b 4%nat) 8)) (b 5%nat)).
(** A card without an address is skipped. *)
(* src: cpp/src/macos/system_macos.hpp:66-66 mac_addresses *)
Definition mac_macos_skipped (address : list byte) : bool := forallb (fun c => byte_val c =? 0)%Z address.
(** [sscanf] of [%llx] stops at the first character that is no hexadecimal digit. *)
Definition hex_val (c : ascii) : option Z :=
  let v := byte_val c in
  if bool_decide (48 <= v <= 57)%Z then Some (v - 48)%Z else if bool_decide (65 <= v <= 70)%Z then Some (v - 55)%Z
  else if bool_decide (97 <= v <= 102)%Z then Some (v - 87)%Z else None.
Fixpoint scan_hex (acc : Z) (s : str) : Z :=
  match s with [] => acc | c :: s => match hex_val c with Some d => scan_hex (acc * 16 + d) s | None => acc end end.
(* src: cpp/src/windows/system_windows.hpp:66-73 mac_addresses *)
Definition mac_windows (address : list byte) : MacAddress :=
  mk_mac (scan_hex 0 (join ":"%char (map (fun c => hex2 true (byte_val c)) address))).

(** ** Threads *)

(** What a thread of the test does: rounds of arithmetic until it is told to stop or its time has passed; [running] and [elapsed] are what it
    finds before and after its rounds.  The result is the number of rounds. *)
(* src: cpp/src/sysinfo.hpp:33-50 estimate_cpu_threads *)
Fixpoint worker (fuel : nat) (running : nat -> bool) (elapsed : nat -> Z) (duration_ms : Z) (round : nat) : option nat :=
  if negb (running round) then Some round
  else match fuel with
       | O => None
       | S fuel => if (duration_ms <=? elapsed round)%Z then Some (S round) else worker fuel running elapsed duration_ms (S round)
       end.
(** A thread ends, however long the flag stays up, when time passes. *)
Lemma worker_ends running elapsed duration_ms fuel : forall round, (exists i, round <= i < round + fuel /\ (duration_ms <= elapsed i)%Z) ->
  exists k, worker fuel running elapsed duration_ms round = Some k /\ round <= k
    /\ forall i, round <= i < k -> running i = true /\ (S i < k -> (elapsed i < duration_ms)%Z).
Proof.
  induction fuel as [|fuel IH]; intros round (i & Hi & He); [lia|]. cbn [worker]. destruct (running round) eqn:Hr; cbn [negb].
  - destruct (Z.leb_spec duration_ms (elapsed round)) as [Hd|Hd].
    + exists (S round). split; [done|]. split; [lia|]. intros j Hj. replace j with round by lia. split; [done|lia].
    + destruct (IH (S round)) as (k & Hw & Hk & Hall).
      { exists i. split; [|done]. destruct (decide (i = round)) as [->|]; lia. }
      exists k. split; [done|]. split; [lia|]. intros j Hj. destruct (decide (j = round)) as [->|]; [by split|]. apply Hall. lia.
  - exists round. split; [done|]. split; lia.
Qed.

(** The loop over the numbers of threads to test; [degraded] tells whether the run with that many took more than
    1.2 times as long as the run before. *)
(* src: cpp/src/sysinfo.hpp:53-89 estimate_cpu_threads *)
Fixpoint estimate_loop (degraded : nat -> bool) (num_threads left_ max_threads : nat) : nat :=
  match left_ with
  | O => max_threads
  | S left_ => if bool_decide (1 < num_threads) && degraded num_threads then num_threads else estimate_loop degraded (S num_threads) left_ max_threads
  end.
(* src: cpp/src/sysinfo.hpp:19-30 estimate_cpu_threads *)
Definition estimate_cpu_threads (hardware_concurrency : nat) (degraded : nat -> bool) : nat :=
  let max_threads := hardware_concurrency * 2 in
  let min_threads := 1 in
  estimate_loop degraded min_threads (S max_threads - min_threads) max_threads.

(* src: cpp/src/sysinfo.hpp:116-131 cpu_threads *)
Definition mode_step (results : list nat) (s : nat * nat * nat) (i : nat) : nat * nat * nat :=
  let '(mode, count, max_count) := s in
  if decide (nth i results 0 = nth (i - 1) results 0) then (mode, count + 1, max_count)
  else if decide (max_count < count) then (nth (i - 1) results 0, 1, count) else (mode, 1, max_count).
(** [results[0]] of an empty vector is outside of it. *)
(* src: cpp/src/sysinfo.hpp:111-136 cpu_threads *)
Definition sorted_mode (results : list nat) : outcome nat :=
  match results with
  | [] => Undef OutOfBounds
  | r :: _ =>
      let n := length results in
      let '(mode, count, max_count) := fold_left (mode_step results) (seq 1 (n - 1)) (r, 1, 1) in
      Ret (if decide (max_count < count) then nth (n - 1) results 0 else mode)
  end.
(* src: cpp/src/sysinfo.hpp:94-137 cpu_threads *)
Definition cpu_threads (hardware_concurrency : nat) (degraded : nat -> nat -> bool) (n : nat) : outcome nat :=
  let result := hardware_concurrency in
  if decide (0 < result) then Ret result
  else sorted_mode (merge_sort Nat.le (map (fun i => estimate_cpu_threads hardware_concurrency (degraded i)) (seq 0 n))).

(** ** Names and paths *)

(* src: cpp/src/system.hpp:50-50 BaseSystem::DEFAULT_MAX_NAME_LENGTH *)
Definition DEFAULT_MAX_NAME_LENGTH : nat := 255.
(* src: cpp/src/system.hpp:53-58 BaseSystem::endianess_name *)
Definition endianess_name (native : endian) : str := match native with little_endian => W "Little Endian" | big_endian => W "Big Endian" end.
(* src: cpp/src/system.hpp:61-63 BaseSystem::is_name_valid_common *)
Definition is_name_valid_common (name : str) : bool :=
  match name with [] => false | c :: _ => bool_decide (c <> "."%char) && bool_decide (length name <= DEFAULT_MAX_NAME_LENGTH) end.
(* src: cpp/src/system.hpp:76-79 System::is_valid_file_name *)
Definition is_valid_file_name (file_name : str) : bool :=
  is_name_valid_common file_name && bool_decide (find_char SEPARATOR file_name = None) && bool_decide (find_char NULL_CHAR file_name = None).
(* src: cpp/src/system.hpp:81-84 System::is_valid_path *)
Definition is_valid_path (path_name : str) : bool := is_name_valid_common path_name && bool_decide (find_char NULL_CHAR path_name = None).
(* src: cpp/src/linux/system_linux.hpp:35-35 get_max_name_length *)
Definition linux_max_name_length : nat := 255.
(* src: cpp/src/linux/system_linux.hpp:36-40 get_max_path *)
Definition linux_max_path : nat := 4096.
(** The first line of the processor's description that starts with the word. *)
(* src: cpp/src/linux/system_linux.hpp:82-98 cpu_id *)
Definition linux_cpu_id (cpuinfo : list str) : str :=
  default [] (list_find (fun line => take 9 line = W "processor") cpuinfo ≫= fun p => Some (snd p)).

(** ** StopWatch

    Points in time are nanoseconds of the steady clock; [now] is what it shows at the call. *)

(* src: cpp/src/stop_watch.hpp:18-26 StopWatch *)
Record StopWatch := mk_watch { mstart : Z; mlast : Z; mmark : Z; mrunning : bool }.
(** The units, in nanoseconds. *)
Record watch_units := mk_units { H_ : Z; M_ : Z; S_ : Z; MS_ : Z; MICRO_SECOND : Z }.
(* src: cpp/src/stop_watch.hpp:28-33 StopWatch::H, StopWatch::M, StopWatch::S, StopWatch::MS, StopWatch::MICRO_SECOND *)
Definition UNITS : watch_units := mk_units 3600000000000 60000000000 1000000000 1000000 1000.
(* src: cpp/src/stop_watch.hpp:36-37 StopWatch::StopWatch *)
Definition new_StopWatch (start_now : bool) (now : Z) : StopWatch := mk_watch (if start_now then now else 0) 0 0 start_now.
(* src: cpp/src/stop_watch.hpp:40-40 StopWatch::start *)
Definition watch_start (now : Z) (w : StopWatch) : StopWatch := mk_watch now (mlast w) (mmark w) true.
(* src: cpp/src/stop_watch.hpp:43-43 StopWatch::reset *)
Definition watch_reset (now : Z) (w : StopWatch) : StopWatch := mk_watch now 0 (mmark w) true.
(* src: cpp/src/stop_watch.hpp:45-45 StopWatch::stop *)
Definition watch_stop (now : Z) (w : StopWatch) : StopWatch := mk_watch (mstart w) now (mmark w) false.
(* src: cpp/src/stop_watch.hpp:53-53 StopWatch::mark *)
Definition watch_mark (now : Z) (w : StopWatch) : StopWatch := mk_watch (mstart w) (mlast w) now (mrunning w).
(** [duration_cast] to a resolution of [r] nanoseconds truncates. *)
(* src: cpp/src/stop_watch.hpp:48-51 StopWatch::elapsed *)
Definition elapsed (r now : Z) (w : StopWatch) : Z := ((if mrunning w then now - mstart w else mlast w - mstart w) ÷ r)%Z.
(* src: cpp/src/stop_watch.hpp:55-58 StopWatch::elapsed_since_mark *)
Definition elapsed_since_mark (r now : Z) (w : StopWatch) : Z := ((if mrunning w then now - mmark w else mlast w - mmark w) ÷ r)%Z.
(* src: cpp/src/stop_watch.hpp:60-63 StopWatch::now *)
Definition watch_now (r now : Z) : Z := (now ÷ r)%Z.
(* src: cpp/src/stop_watch.hpp:65-89 StopWatch::elapsed_formatted *)
Definition elapsed_formatted (elapsed_nanoseconds : Z) : outcome str :=
  let e := elapsed_nanoseconds in
  let hours := (e ÷ H_ UNITS)%Z in let e := (e - hours * H_ UNITS)%Z in
  let minutes := (e ÷ M_ UNITS)%Z in let e := (e - minutes * M_ UNITS)%Z in
  let seconds := (e ÷ S_ UNITS)%Z in let e := (e - seconds * S_ UNITS)%Z in
  let milliseconds := (e ÷ MS_ UNITS)%Z in let e := (e - milliseconds * MS_ UNITS)%Z in
  let microseconds := (e ÷ MICRO_SECOND UNITS)%Z in let e := (e - microseconds * MICRO_SECOND UNITS)%Z in
  h ← pad_left0 hours 2; m ← pad_left0 minutes 2; s ← pad_left0 seconds 2;
  ms ← pad_left0 milliseconds 3; us ← pad_left0 microseconds 3; ns ← pad_left0 e 3;
  Ret (h ++ W ":" ++ m ++ W ":" ++ s ++ W "." ++ ms ++ W "." ++ us ++ W "." ++ ns).
(** The elapsed time is given in the resolution of the watch and read as nanoseconds. *)
(* src: cpp/src/stop_watch.hpp:92-95 StopWatch::elapsed_formatted *)
Definition watch_formatted (r now : Z) (w : StopWatch) : outcome str := elapsed_formatted (elapsed r now w).
(* src: cpp/src/stop_watch.hpp:96-99 StopWatch::elapsed_since_mark_formatted *)
Definition mark_formatted (r now : Z) (w : StopWatch) : outcome str := elapsed_formatted (elapsed_since_mark r now w).

(** ** Random numbers

    The engine [std::mt19937_64] is a state that is seeded; [uniform] is [std::uniform_int_distribution], which draws from a generator, given
    as its step, until it has a number between two bounds. *)
Section random.
Context {Engine : Type} (engine : Z -> Engine) (engine_next : Engine -> Engine * Z).
Context (uniform : forall G : Type, (G -> G * Z) -> Z -> Z -> G -> G * Z).

(* src: cpp/src/random_util.hpp:20-24 CustomRandomGenerator *)
Record RandGen := mk_randgen { m_engine : Engine }.
(* src: cpp/src/random_util.hpp:26-26 CustomRandomGenerator::CustomRandomGenerator *)
Definition new_RandGen (seed : Z) : RandGen := mk_randgen (engine (wrap64 seed)).
(* src: cpp/src/random_util.hpp:28-29 CustomRandomGenerator::min, CustomRandomGenerator::max *)
Definition randgen_range : Z * Z := (0, two64 - 1)%Z.
(* src: cpp/src/random_util.hpp:31-33 CustomRandomGenerator::operator() *)
Definition randgen_next (g : RandGen) : RandGen * Z :=
  let '(e, v) := uniform Engine engine_next (fst randgen_range) (snd randgen_range) (m_engine g) in (mk_randgen e, v).

(** The seed is the time, [now], as an unsigned number. *)
(* src: cpp/src/random_util.hpp:15-18 seed *)
Definition seed (now : Z) : Z := wrap64 now.
(* src: cpp/src/random_util.hpp:61-67 Random *)
Record Random := mk_Random { mseed : Z; mmin : Z; mmax : Z; mgenerator : RandGen }.
(* src: cpp/src/random_util.hpp:47-54 Random::Random *)
Definition new_Random (now min_value max_value : Z) : Random := mk_Random (seed now) min_value max_value (new_RandGen now).
(* src: cpp/src/random_util.hpp:56-59 Random::operator() *)
Definition random_next (r : Random) : Random * Z :=
  let '(g, v) := uniform RandGen randgen_next (mmin r) (mmax r) (mgenerator r) in (mk_Random (mseed r) (mmin r) (mmax r) g, v).
Fixpoint draws {G} (next : G -> G * Z) (n : nat) (g : G) : list Z :=
  match n with O => [] | S n => let '(g, v) := next g in v :: draws next n g end.

(** The generator is a [static] of the function, made at the first call, and a copy of it is returned. *)
(* src: cpp/src/random_util.hpp:85-91 get_generator *)
Definition get_generator (now : Z) (static_ : option RandGen) : option RandGen * RandGen :=
  let g := match static_ with Some g => g | None => new_RandGen now end in (Some g, g).

(** The numbers that [Random] draws are between its bounds, and follow from the time it was made at.  Whoever asks
    for the generator is given a copy of the same one, which nobody advances: all draw the same numbers, whatever the
    time of their calls. *)
Theorem random_generators (now min_value max_value : Z) (Hb : (min_value <= max_value)%Z)
    (Hu : forall G next lo hi (g : G), (lo <= hi)%Z -> (lo <= snd (uniform G next lo hi g) <= hi)%Z) :
  (forall n, Forall (fun v => (min_value <= v <= max_value)%Z) (draws random_next n (new_Random now min_value max_value)))
  /\ (forall now', wrap64 now' = wrap64 now -> new_Random now' min_value max_value = new_Random now min_value max_value)
  /\ (forall static_ now' n, let '(s1, g1) := get_generator now static_ in let '(s2, g2) := get_generator now' s1 in
      s2 = s1 /\ draws randgen_next n g2 = draws randgen_next n g1).
Proof.
  split; [|split].
  - assert (G : forall n r, mmin r = min_value -> mmax r = max_value -> Forall (fun v => (min_value <= v <= max_value)%Z) (draws random_next n r)).
    { induction n as [|n IH]; intros r H1 H2; [constructor|]. cbn [draws]. unfold random_next at 1. rewrite H1, H2.
      pose proof (Hu RandGen randgen_next min_value max_value (mgenerator r) Hb) as Hv.
      destruct (uniform RandGen randgen_next min_value max_value (mgenerator r)) as [g v]. constructor; [exact Hv|by apply IH]. }
    intros n. by apply G.
  - intros now' H. unfold new_Random, new_RandGen, seed. by rewrite H.
  - intros [g|] now' n; by cbn.
Qed.
End random.

(** A generator of all bits and the remainder of its number. *)
Lemma random_generators_witness :
  let engine_next := fun e : Z => ((e * 5 + 1) mod two64, e)%Z in
  let uniform := fun (G : Type) (next : G -> G * Z) (lo hi : Z) (g : G) => let '(g, v) := next g in (g, lo + v mod (hi - lo + 1))%Z in
  (forall G next lo hi (g : G), (lo <= hi)%Z -> (lo <= snd (uniform G next lo hi g) <= hi)%Z)
  /\ Forall (fun v => (1 <= v <= 6)%Z) (draws (random_next engine_next uniform) 20 (new_Random id 77 1 6)).
Proof.
  intros engine_next uniform.
  assert (Hu : forall G next lo hi (g : G), (lo <= hi)%Z -> (lo <= snd (uniform G next lo hi g) <= hi)%Z).
  { intros G next lo hi g H. unfold uniform. destruct (next g) as [g' v]. cbn. pose proof (Z.mod_pos_bound v (hi - lo + 1)). lia. }
  split; [exact Hu|]. exact (proj1 (random_generators id engine_next uniform 77 1 6 ltac:(lia) Hu) 20).
Defined.

(** ** CRandom *)

(* src: cpp/src/random_util.hpp:80-82 CRandom *)
Record CRandom := mk_random { r_min : Z; r_max : Z }.
(** The seed that [srand] is given, the low 32 bits of the time, and the object. *)
(* src: cpp/src/random_util.hpp:72-72 CRandom::CRandom *)
Definition new_CRandom (now min_value max_value : Z) : Z * CRandom := ((seed now mod 2 ^ 32)%Z, mk_random min_value max_value).
(* src: cpp/src/random_util.hpp:75-75 CRandom::get_min *)
Definition get_min (r : CRandom) : Z := r_min r.
(* src: cpp/src/random_util.hpp:76-76 CRandom::get_max *)
Definition get_max (r : CRandom) : Z := r_max r.
(* src: cpp/src/random_util.hpp:78-78 CRandom::set_min *)
Definition set_min (min_value : Z) (r : CRandom) : CRandom := mk_random min_value (r_max r).
(* src: cpp/src/random_util.hpp:79-79 CRandom::set_max *)
Definition set_max (max_value : Z) (r : CRandom) : CRandom := mk_random (r_min r) max_value.
(** The arithmetic is that of [int]; a modulus of zero is undefined too. *)
(* src: cpp/src/random_util.hpp:74-74 CRandom::get *)
Definition crandom_get (rand : Z) (r : CRandom) : outcome Z :=
  let range := (r_max r - r_min r + 1)%Z in
  if negb (in_signed 32 (r_max r - r_min r)) || negb (in_signed 32 range) then Undef SignedOverflow else
  if (range =? 0)%Z then Undef SignedOverflow else
  let v := (Z.rem rand range + r_min r)%Z in if in_signed 32 v then Ret v else Undef SignedOverflow.

(** ** Algorithms *)

Section algorithms.
Context {A : Type}.
(** [std::remove_if] moves the kept elements to the front, and [erase] takes off the rest. *)
(* src: cpp/src/algorithm_util.hpp:18-22 erase_if *)
Definition erase_if (p : A -> bool) (c : list A) : list A :=
  let kept := filter (fun x => p x = false) c in take (length kept) (overlay 0 kept c).
(** A map is the list of its entries in order: an entry is erased or stepped over. *)
(* src: cpp/src/algorithm_util.hpp:34-43 erase_if *)
Fixpoint erase_if_map (p : A -> bool) (m : list A) : list A :=
  match m with [] => [] | x :: m => if p x then erase_if_map p m else x :: erase_if_map p m end.
(** [*res++ = *first]: [at_] is where [res] points in the destination. *)
(* src: cpp/src/algorithm_util.hpp:53-63 copy_if *)
Fixpoint copy_if (pr : A -> bool) (src dst : list A) (at_ : nat) : outcome (list A * nat) :=
  match src with
  | [] => Ret (dst, at_)
  | x :: src => if pr x then if decide (at_ < length dst) then copy_if pr src (<[at_ := x]> dst) (S at_) else Undef OutOfBounds
                else copy_if pr src dst at_
  end.
End algorithms.

(** ** Language *)

(** An id of its own unless one is given; [Object]'s assignment and copy. *)
(* src: cpp/src/language.hpp:22-22 Language::Language *)
Definition new_Language (generator : Generator) (aid : Z) : outcome (Generator * obj) :=
  if (aid =? NULL_ID)%Z then r ← get_id generator; Ret (fst r, new_Object (snd r)) else Ret (generator, new_Object aid).
(** Nothing happens when the two are one object. *)
(* src: cpp/src/language.hpp:33-40 Language::operator= *)
Definition language_assign (native : endian) (same : bool) (this other : obj) : outcome obj :=
  if same then Ret this else obj_assign native this other.

(** ** Hardware addresses: properties *)

Lemma byte_of_le bs i c : bs !! i = Some c -> Z.land (Z.shiftr (le_val bs) (8 * Z.of_nat i)) 255 = byte_val c.
Proof.
  revert i. induction bs as [|b bs IH]; intros i H; [done|]. change 255%Z with (Z.ones 8). rewrite Z.land_ones, Z.shiftr_div_pow2 by lia.
  pose proof (byte_val_range b). pose proof (le_val_range bs). cbn [le_val]. destruct i as [|i].
  - injection H as ->. rewrite Z.div_1_r. change (2 ^ 8)%Z with 256%Z. rewrite Z.mul_comm, Z_mod_plus_full. by apply Z.mod_small.
  - simpl in H. rewrite <- (IH i H). change 255%Z with (Z.ones 8). rewrite Z.land_ones, Z.shiftr_div_pow2 by lia.
    replace (8 * Z.of_nat (S i))%Z with (8 + 8 * Z.of_nat i)%Z by lia. rewrite Z.pow_add_r, <- Z.div_div by lia. f_equal. f_equal.
    change (2 ^ 8)%Z with 256%Z. rewrite Z.mul_comm, Z.div_add, Z.div_small by lia. lia.
Qed.

Definition colons (bs : list byte) : str := join ":"%char (map (fun c => hex2 false (byte_val c)) bs).

Lemma mac_string_le bs : length bs = 6 -> mac_string (mk_mac (le_val bs)) = colons (rev bs).
Proof.
  intros H. do 6 (destruct bs as [|?b bs]; [done|]). destruct bs; [|done]. set (l := [b; b0; b1; b2; b3; b4]).
  pose proof (byte_of_le l 5 b4 eq_refl) as E5. pose proof (byte_of_le l 4 b3 eq_refl) as E4. pose proof (byte_of_le l 3 b2 eq_refl) as E3.
  pose proof (byte_of_le l 2 b1 eq_refl) as E2. pose proof (byte_of_le l 1 b0 eq_refl) as E1. pose proof (byte_of_le l 0 b eq_refl) as E0.
  unfold mac_string, colons. cbn [mac map rev app l]. fold l. change (8 * Z.of_nat 5)%Z with 40%Z in E5. change (8 * Z.of_nat 4)%Z with 32%Z in E4. change (8 * Z.of_nat 3)%Z with 24%Z in E3.
  change (8 * Z.of_nat 2)%Z with 16%Z in E2. change (8 * Z.of_nat 1)%Z with 8%Z in E1. change (8 * Z.of_nat 0)%Z with 0%Z in E0. by rewrite E5, E4, E3, E2, E1, E0.
Qed.

Lemma lor_low q x y k m : (0 <= k)%Z -> m = (2 ^ k)%Z -> (0 <= y < m)%Z -> x = (q * m)%Z -> Z.lor x y = (x + y)%Z.
Proof.
  intros Hk -> Hy ->. rewrite <- Z.shiftl_mul_pow2 by done. rewrite Z.lor_comm, lor_shifted by done.
  rewrite Z.shiftl_mul_pow2 by done. lia.
Qed.

Lemma mac_macos_le bs : length bs = 6 -> mac_macos bs = mk_mac (le_val (rev bs)).
Proof.
  intros H. do 6 (destruct bs as [|?b bs]; [done|]). destruct bs; [|done]. unfold mac_macos. cbn [nth rev app le_val]. f_equal.
  pose proof (byte_val_range b). pose proof (byte_val_range b0). pose proof (byte_val_range b1). pose proof (byte_val_range b2).
  pose proof (byte_val_range b3). pose proof (byte_val_range b4). rewrite !Z.shiftl_mul_pow2 by (done || lia).
  change (2 ^ 40)%Z with 1099511627776%Z. change (2 ^ 32)%Z with 4294967296%Z. change (2 ^ 24)%Z with 16777216%Z.
  change (2 ^ 16)%Z with 65536%Z. change (2 ^ 8)%Z with 256%Z.
  set (v := byte_val b) in *. set (v0 := byte_val b0) in *. set (v1 := byte_val b1) in *. set (v2 := byte_val b2) in *. set (v3 := byte_val b3) in *.
  rewrite (lor_low v (v * 1099511627776) _ 40 1099511627776) by (done || lia).
  rewrite (lor_low (v * 256 + v0) _ (v1 * _) 32 4294967296) by (done || lia).
  rewrite (lor_low (v * 65536 + v0 * 256 + v1) _ (v2 * _) 24 16777216) by (done || lia).
  rewrite (lor_low (v * 16777216 + v0 * 65536 + v1 * 256 + v2) _ (v3 * _) 16 65536) by (done || lia).
  rewrite (lor_low (v * 4294967296 + v0 * 16777216 + v1 * 65536 + v2 * 256 + v3) _ (byte_val b4) 8 256) by (done || lia). lia.
Qed.

Lemma scan_byte c r : scan_hex 0 (hex2 true (byte_val c) ++ ":"%char :: r) = byte_val c.
Proof. destruct c as [[] [] [] [] [] [] [] []]; reflexivity. Qed.

(** The text of a hardware address on each platform.  On macOS the six bytes of the card are printed in order.  On Linux they are printed in reverse
    on a little-endian processor, and on a big-endian one bytes without a value are read.  On Windows the text with
    colons is read back as a number, which ends at the first colon: only the first byte is left. *)
Theorem mac_addresses_platforms (address : list byte) (H : length address = 6) :
  mac_string (mac_macos address) = colons address
  /\ (exists m, mac_linux little_endian address = Ret m /\ mac_string m = colons (rev address))
  /\ mac_linux big_endian address = Undef Uninitialized
  /\ (exists first rest, address = first :: rest /\ mac_value (mac_windows address) = byte_val first
       /\ mac_string (mac_windows address) = W "00:00:00:00:00:" ++ hex2 false (byte_val first)).
Proof.
  split; [|split; [|split]].
  - rewrite mac_macos_le by done. rewrite mac_string_le by (by rewrite length_rev). by rewrite rev_involutive.
  - eexists. split; [reflexivity|]. by apply mac_string_le.
  - done.
  - destruct address as [|c rest]; [done|]. exists c, rest. split; [done|].
    assert (mac_windows (c :: rest) = mk_mac (byte_val c)) as ->.
    { unfold mac_windows. destruct rest as [|d rest]; [done|]. cbn [map join]. f_equal. apply scan_byte. }
    split; [done|]. replace (byte_val c) with (le_val [c; NULL_CHAR; NULL_CHAR; NULL_CHAR; NULL_CHAR; NULL_CHAR]) at 1.
    + rewrite mac_string_le by done. done.
    + cbn [le_val]. change (byte_val NULL_CHAR) with 0%Z. lia.
Qed.

Lemma mac_addresses_platforms_witness :
  mac_string (mac_macos (map byte_of_Z [222; 173; 190; 239; 0; 1]%Z)) = W "de:ad:be:ef:00:01"
  /\ mac_string (mac_windows (map byte_of_Z [222; 173; 190; 239; 0; 1]%Z)) = W "00:00:00:00:00:de".
Proof.
  destruct (mac_addresses_platforms (map byte_of_Z [222; 173; 190; 239; 0; 1]%Z) eq_refl) as (A & _ & _ & (f & r & E & _ & B)).
  split; [rewrite A; reflexivity|]. rewrite B. injection E as <- _. reflexivity.
Defined.

(** ** Threads: properties *)

Definition occ (x : nat) (l : list nat) : nat := count_occ Nat.eq_dec l x.

Lemma occ_snoc x l y : occ x (l ++ [y]) = occ x l + (if decide (y = x) then 1 else 0).
Proof.
  unfold occ. rewrite count_occ_app. simpl. destruct (Nat.eq_dec y x); case_decide; try done.
Qed.

(** After the first [i] results: the last of them, how often it came, and the most frequent of those before its run. *)
Definition mode_inv (l : list nat) (i : nat) (s : nat * nat * nat) : Prop :=
  let '(mode, count, max_count) := s in
  let seen := take i l in let cur := nth (i - 1) l 0 in
  1 <= i <= length l /\ count = occ cur seen /\ 1 <= max_count <= occ mode seen /\ forall x, x <> cur -> occ x seen <= max_count.

Lemma occ_new l i y z : StronglySorted Nat.le l -> l !! i = Some y -> l !! (i - 1) = Some z -> y <> z -> occ y (take i l) = 0.
Proof.
  intros Hs Hy Hz E. apply count_occ_not_In. intros [j Hj]%list_elem_of_In%list_elem_of_lookup. apply lookup_take_Some in Hj as [Hj Hji].
  rewrite StronglySorted_lookup in Hs. assert (y <= z).
  { destruct (decide (j = i - 1)) as [->|]; [simplify_eq; lia|]. apply (Hs j (i - 1)); [lia|done|done]. }
  assert (z <= y) by (apply (Hs (i - 1) i); [lia|done|done]). lia.
Qed.

Lemma mode_step_inv l i s : StronglySorted Nat.le l -> mode_inv l i s -> i < length l -> mode_inv l (S i) (mode_step l s i).
Proof.
  intros Hs. destruct s as [[mode count] max_count]. intros (Hi & Hc & Hm & Hx) Hl.
  destruct (lookup_lt_is_Some_2 l i Hl) as [y Hy]. destruct (lookup_lt_is_Some_2 l (i - 1)) as [z Hz]; [lia|].
  rewrite (nth_lookup_Some _ _ 0 _ Hz) in Hc, Hx. unfold mode_step. rewrite (nth_lookup_Some _ _ 0 _ Hz), (nth_lookup_Some _ _ 0 _ Hy).
  assert (forall s', mode_inv l (S i) s' <-> let '(mode, count, max_count) := s' in
     count = occ y (take i l ++ [y]) /\ 1 <= max_count <= occ mode (take i l ++ [y]) /\ forall x, x <> y -> occ x (take i l ++ [y]) <= max_count) as G.
  { intros [[m' c'] x']. unfold mode_inv. rewrite (take_S_r _ _ _ Hy). replace (S i - 1) with i by lia. rewrite (nth_lookup_Some _ _ 0 _ Hy).
    split; [tauto|]. intros ?. split; [lia|tauto]. }
  case_decide as E; [|case_decide as D]; apply G; clear G; rewrite !occ_snoc.
  - subst z. rewrite decide_True by done. split; [lia|]. split; [case_decide; lia|]. intros x Hxy. rewrite occ_snoc, decide_False by done.
    specialize (Hx x Hxy). lia.
  - pose proof (occ_new l i y z Hs Hy Hz E) as Z.
    rewrite decide_True by done. split; [lia|]. rewrite decide_False by done. split; [lia|]. intros x Hxy. rewrite occ_snoc, decide_False by done.
    destruct (decide (x = z)) as [->|Hxz]; [lia|]. specialize (Hx x Hxz). lia.
  - pose proof (occ_new l i y z Hs Hy Hz E) as Z.
    rewrite decide_True by done. split; [lia|]. split; [case_decide; lia|]. intros x Hxy. rewrite occ_snoc, decide_False by done.
    destruct (decide (x = z)) as [->|Hxz]; [lia|]. specialize (Hx x Hxz). lia.
Qed.

Lemma sorted_mode_spec l : StronglySorted Nat.le l -> l <> [] -> exists m, sorted_mode l = Ret m /\ m ∈ l /\ forall x, occ x l <= occ m l.
Proof.
  intros Hs Hne. destruct l as [|r l0] eqn:El; [done|]. rewrite <- El in *. assert (sorted_mode l =
    (let n := length l in let '(mode, count, max_count) := fold_left (mode_step l) (seq 1 (n - 1)) (r, 1, 1) in
     Ret (if decide (max_count < count) then nth (n - 1) l 0 else mode))) as -> by (by rewrite El).
  assert (mode_inv l (1 + (length l - 1)) (fold_left (mode_step l) (seq 1 (length l - 1)) (r, 1, 1))) as I.
  { apply (fold_left_seq_inv (mode_inv l)).
    - rewrite El. unfold mode_inv. cbn [length Nat.sub nth take]. rewrite take_0. unfold occ. cbn [count_occ]. destruct (Nat.eq_dec r r); [|done].
      split; [lia|]. split; [done|]. split; [lia|]. intros x Hx. destruct (Nat.eq_dec r x); [congruence|lia].
    - intros i s Hi Hinv. apply mode_step_inv; [done|done|]. lia. }
  cbv zeta. destruct (fold_left _ _ _) as [[mode count] max_count]. destruct I as (Hi & Hc & Hm & Hx).
  replace (1 + (length l - 1)) with (length l) in * by (rewrite El; simpl; lia). rewrite firstn_all in *.
  assert (forall m, 0 < occ m l -> m ∈ l) as Hin by (intros m Hm'; apply list_elem_of_In; by apply (count_occ_In Nat.eq_dec)).
  eexists. split; [reflexivity|]. case_decide.
  - split; [apply Hin; lia|]. intros x. destruct (decide (x = nth (length l - 1) l 0)) as [->|Hne']; [lia|]. specialize (Hx x Hne'). lia.
  - split; [apply Hin; lia|]. intros x. destruct (decide (x = nth (length l - 1) l 0)) as [->|Hne']; [lia|]. specialize (Hx x Hne'). lia.
Qed.

(** The number of threads.  The mode of the sorted results is one that no other result occurs more often than.  But the estimate, which
    runs only when the system does not tell the number of its processors, takes that number, zero, for its bound: no test
    runs, every estimate is zero, and [cpu_threads] returns zero; with no estimates asked for it reads outside
    of an empty vector. *)
Theorem cpu_threads_spec (hw n : nat) (degraded : nat -> nat -> bool) (results : list nat) (Hne : results <> []) :
  (exists m, sorted_mode (merge_sort Nat.le results) = Ret m /\ m ∈ results /\ forall x, occ x results <= occ m results)
  /\ cpu_threads hw degraded n = (if decide (0 < hw) then Ret hw else if decide (n = 0) then Undef OutOfBounds else Ret 0)
  /\ (0 < hw -> forall d, 2 <= estimate_cpu_threads hw d <= hw * 2).
Proof.
  assert (forall l, StronglySorted Nat.le (merge_sort Nat.le l)) as Hsort by (intros l; apply (StronglySorted_merge_sort Nat.le)).
  split; [|split].
  - pose proof (merge_sort_Permutation Nat.le results) as P.
    destruct (sorted_mode_spec (merge_sort Nat.le results)) as (m & E & Hm & Hx); [done| |].
    { intros E. rewrite E in P. by apply Permutation_nil in P. }
    exists m. split; [done|]. split; [by rewrite <- P|]. intros x. unfold occ in *. specialize (Hx x).
    pose proof (proj1 (Permutation_count_occ Nat.eq_dec _ _) P) as C. by rewrite !C in Hx.
  - unfold cpu_threads. case_decide as Hh; [done|]. assert (hw = 0) as -> by lia.
    assert (forall a, map (fun i => estimate_cpu_threads 0 (degraded i)) (seq a n) = replicate n 0) as ->.
    { clear. induction n as [|n IH]; intros a; [done|]. simpl. by rewrite IH. }
    case_decide as Hn; [by subst|]. pose proof (merge_sort_Permutation Nat.le (replicate n 0)) as P.
    destruct (sorted_mode_spec (merge_sort Nat.le (replicate n 0))) as (m & E & Hm & _); [done| |].
    { intros E. rewrite E in P. apply Permutation_nil in P. by destruct n. }
    rewrite E. rewrite P in Hm. by apply elem_of_replicate in Hm as [-> _].
  - intros Hh d. unfold estimate_cpu_threads. assert (forall k i, 1 <= i -> (i = 1 -> 2 <= k) -> i + k = S (hw * 2) -> 2 <= estimate_loop d i k (hw * 2) <= hw * 2) as G.
    { induction k as [|k IH]; intros i Hi Hk E; cbn [estimate_loop]; [lia|]. case_bool_decide as B; cbn [andb]; [|apply IH; lia].
      destruct (d i); [lia|]. apply IH; lia. }
    apply G; lia.
Qed.

Lemma cpu_threads_spec_witness :
  cpu_threads 0 (fun _ _ => true) 10 = Ret 0 /\ exists m, sorted_mode (merge_sort Nat.le [4; 8; 4; 16; 8; 4]) = Ret m /\ forall x, occ x [4; 8; 4; 16; 8; 4] <= occ m [4; 8; 4; 16; 8; 4].
Proof.
  assert ([4; 8; 4; 16; 8; 4] <> []) as H by discriminate.
  destruct (cpu_threads_spec 0 10 (fun _ _ => true) [4; 8; 4; 16; 8; 4] H) as ((m & A & _ & X) & B & _).
  split; [rewrite B; reflexivity|]. exists m. split; [exact A|exact X].
Defined.

(** ** Time, random numbers and algorithms: properties *)

(** The stop watch.  A time that is not negative and shorter than a hundred hours is printed as six fields of digits of fixed widths, and their
    values, as hours, minutes, seconds, thousandths, millionths and billionths, give the time back.  While it runs the
    watch shows the time since the last start, and after [stop] the time between the two; starting again forgets the
    time measured before; a watch that was never started shows zero. *)
Theorem stop_watch_spec (e t0 t1 t2 t3 : Z) (He : (0 <= e < 360000000000000)%Z) :
  (exists h m s ms us ns,
     elapsed_formatted e = Ret (h ++ W ":" ++ m ++ W ":" ++ s ++ W "." ++ ms ++ W "." ++ us ++ W "." ++ ns)
     /\ (length h = 2 /\ length m = 2 /\ length s = 2 /\ length ms = 3 /\ length us = 3 /\ length ns = 3)
     /\ (digits_val m < 60 /\ digits_val s < 60)%Z
     /\ (((((digits_val h * 60 + digits_val m) * 60 + digits_val s) * 1000 + digits_val ms) * 1000 + digits_val us) * 1000 + digits_val ns = e)%Z)
  /\ elapsed 1 t1 (new_StopWatch true t0) = (t1 - t0)%Z
  /\ elapsed 1 t2 (watch_stop t1 (new_StopWatch true t0)) = (t1 - t0)%Z
  /\ elapsed 1 t3 (watch_start t2 (watch_stop t1 (new_StopWatch true t0))) = (t3 - t2)%Z
  /\ elapsed 1 t1 (new_StopWatch false t0) = 0%Z.
Proof.
  split; [|split; [|split; [|split]]]; try (unfold elapsed; simpl; by rewrite Z.quot_1_r).
  unfold elapsed_formatted, UNITS. cbn [H_ M_ S_ MS_ MICRO_SECOND]. set (hours := (e ÷ 3600000000000)%Z). set (e1 := (e - hours * 3600000000000)%Z).
  set (minutes := (e1 ÷ 60000000000)%Z). set (e2 := (e1 - minutes * 60000000000)%Z). set (seconds := (e2 ÷ 1000000000)%Z).
  set (e3 := (e2 - seconds * 1000000000)%Z). set (milliseconds := (e3 ÷ 1000000)%Z). set (e4 := (e3 - milliseconds * 1000000)%Z).
  set (microseconds := (e4 ÷ 1000)%Z). set (e5 := (e4 - microseconds * 1000)%Z).
  assert (forall x d, (0 <= x)%Z -> (0 < d)%Z -> (0 <= x ÷ d /\ x ÷ d * d <= x < x ÷ d * d + d)%Z) as Q.
  { intros x d Hx Hd. rewrite Z.quot_div_nonneg by lia. pose proof (Z.div_mod x d). pose proof (Z.mod_pos_bound x d). pose proof (Z.div_pos x d). nia. }
  pose proof (Q e 3600000000000%Z) as Q1. pose proof (Q e1 60000000000%Z) as Q2. pose proof (Q e2 1000000000%Z) as Q3.
  pose proof (Q e3 1000000%Z) as Q4. pose proof (Q e4 1000%Z) as Q5. fold hours in Q1. fold minutes in Q2. fold seconds in Q3.
  fold milliseconds in Q4. fold microseconds in Q5. clear Q.
  assert (forall x k n, n = Z.of_nat k -> 0 < k -> (n < 2 ^ 31)%Z -> (0 <= x < 10 ^ n)%Z -> exists s, pad_left0 x n = Ret s /\ length s = k /\ digits_val s = x) as P
    by (intros x k n -> Hk Hn Hx; by apply pad_left0_fits).
  destruct (P hours 2 2%Z) as (h & -> & Lh & Vh); [done|lia|done|lia|]. destruct (P minutes 2 2%Z) as (m & -> & Lm & Vm); [done|lia|done|lia|].
  destruct (P seconds 2 2%Z) as (s & -> & Ls & Vs); [done|lia|done|lia|]. destruct (P milliseconds 3 3%Z) as (ms & -> & Lms & Vms); [done|lia|done|lia|].
  destruct (P microseconds 3 3%Z) as (us & -> & Lus & Vus); [done|lia|done|lia|]. destruct (P e5 3 3%Z) as (ns & -> & Lns & Vns); [done|lia|done|lia|].
  exists h, m, s, ms, us, ns. split; [done|]. split; [done|]. rewrite Vh, Vm, Vs, Vms, Vus, Vns. unfold e5, e4, e3, e2, e1 in *. lia.
Qed.

Lemma stop_watch_spec_witness :
  (0 <= 3723004005006 < 360000000000000)%Z /\ elapsed_formatted 3723004005006 = Ret (W "01:02:03.004.005.006")
  /\ exists h m s ms us ns, elapsed_formatted 3723004005006 = Ret (h ++ W ":" ++ m ++ W ":" ++ s ++ W "." ++ ms ++ W "." ++ us ++ W "." ++ ns).
Proof.
  assert ((0 <= 3723004005006 < 360000000000000)%Z) as H by lia. split; [exact H|]. split; [vm_compute; reflexivity|].
  destruct (stop_watch_spec 3723004005006 0 0 0 0 H) as ((h & m & s & ms & us & ns & E & _) & _). exists h, m, s, ms, us, ns. exact E.
Defined.

(** A watch of milliseconds that ran for five seconds: its five thousand milliseconds are printed as nanoseconds. *)
Example watch_of_milliseconds : watch_formatted 1000000 5000000000 (new_StopWatch true 0) = Ret (W "00:00:00.000.005.000").
Proof. vm_compute. reflexivity. Qed.

(** [CRandom]: when the bounds are in order and less than [INT_MAX] apart, what [get] returns lies between them, for any number that [rand] gives,
    and every number between them is returned for some; when they are further apart, or the upper one is just below
    the lower one, the call has no meaning. *)
Theorem crandom_bounds (r : CRandom) (rand : Z) (Hrand : (0 <= rand < 2 ^ 31)%Z)
    (Hmin : in_signed 32 (r_min r) = true) (Hmax : in_signed 32 (r_max r) = true) :
  ((r_min r <= r_max r)%Z -> (r_max r - r_min r + 1 < 2 ^ 31)%Z ->
     (exists v, crandom_get rand r = Ret v /\ (r_min r <= v <= r_max r)%Z)
     /\ forall v, (r_min r <= v <= r_max r)%Z -> crandom_get (v - r_min r) r = Ret v)
  /\ ((2 ^ 31 <= r_max r - r_min r + 1)%Z \/ (r_max r = r_min r - 1)%Z -> crandom_get rand r = Undef SignedOverflow).
Proof.
  unfold in_signed in *. rewrite bool_decide_eq_true in Hmin, Hmax. change (2 ^ (32 - 1))%Z with 2147483648%Z in *. change (2 ^ 31)%Z with 2147483648%Z in *.
  split.
  - intros H1 H2. set (range := (r_max r - r_min r + 1)%Z).
    assert (forall x, (0 <= x)%Z -> exists v, crandom_get x r = Ret v /\ v = (Z.rem x range + r_min r)%Z /\ (r_min r <= v <= r_max r)%Z) as G.
    { intros x Hx. pose proof (Z.rem_bound_pos x range) as R. unfold crandom_get, in_signed. fold range. change (2 ^ (32 - 1))%Z with 2147483648%Z.
      rewrite !bool_decide_eq_true_2 by lia. cbn [negb orb]. rewrite (proj2 (Z.eqb_neq _ _)) by lia.
      rewrite ?bool_decide_eq_true_2 by lia. eexists. split; [done|]. split; [done|]. lia. }
    split.
    + destruct (G rand) as (v & E & _ & B); [lia|]. by exists v.
    + intros v Hv. destruct (G (v - r_min r)%Z) as (v' & E & Ev & _); [lia|]. rewrite E, Ev. f_equal. rewrite Z.rem_small by lia. lia.
  - intros H. unfold crandom_get, in_signed. change (2 ^ (32 - 1))%Z with 2147483648%Z. destruct H as [H|H].
    + rewrite (bool_decide_eq_false_2 (_ <= r_max r - r_min r + 1 < _)%Z) by lia. by rewrite orb_true_r.
    + rewrite H. replace (r_min r - 1 - r_min r)%Z with (-1)%Z by lia. reflexivity.
Qed.

Lemma crandom_bounds_witness : exists v, crandom_get 2000000011 (mk_random (-3) 6) = Ret v /\ (-3 <= v <= 6)%Z.
Proof.
  assert ((0 <= 2000000011 < 2 ^ 31)%Z) as H by (vm_compute; split; [intros X; discriminate X|reflexivity]).
  destruct (crandom_bounds (mk_random (-3) 6) 2000000011 H eq_refl eq_refl) as [B _].
  destruct B as [(v & E & R) _]; [vm_compute; intros X; discriminate X|reflexivity|]. exists v. split; [exact E|exact R].
Defined.

(** [copy_if] writes the elements that satisfy the predicate, in order, from where the output iterator stands, and leaves the rest of the destination; the
    iterator stands after them at the end.  When they do not fit it writes outside.  [erase_if] on a container, and its loop over a
    map, keep exactly the elements the predicate does not hold for, in order. *)
Theorem copy_if_filters {A} (p : A -> bool) (src dst m : list A) (at_ : nat) (Hat : at_ <= length dst) :
  let kept := filter (fun x => p x = true) src in
  copy_if p src dst at_ = (if decide (at_ + length kept <= length dst) then Ret (overlay at_ kept dst, at_ + length kept) else Undef OutOfBounds)
  /\ erase_if_map p m = filter (fun x => p x = false) m /\ erase_if p m = filter (fun x => p x = false) m.
Proof.
  cbv zeta. split; [|split]; [| |unfold erase_if; by rewrite overlay_0, take_app_length].
  - revert dst at_ Hat. induction src as [|x src IH]; intros dst at_ Hat.
    + cbn. rewrite decide_True by lia. unfold overlay. cbn. rewrite Nat.add_0_r, take_drop. done.
    + cbn [copy_if]. destruct (p x) eqn:E.
      * rewrite filter_cons_True by done. cbn [length]. case_decide as H.
        -- rewrite IH by (rewrite length_insert; lia). rewrite length_insert. repeat case_decide; try lia; [|done]. f_equal. f_equal; [|lia].
           unfold overlay. cbn [length]. rewrite (take_S_r _ _ x) by (by apply list_lookup_insert_eq). rewrite take_insert_ge by lia.
           rewrite drop_insert_lt by lia. rewrite <- app_assoc. simpl. repeat f_equal. lia.
        -- by rewrite decide_False by lia.
      * rewrite filter_cons_False by congruence. by apply IH.
  - induction m as [|x m IH]; [done|]. cbn [erase_if_map]. destruct (p x) eqn:E.
    + by rewrite filter_cons_False by congruence.
    + rewrite filter_cons_True by done. by rewrite IH.
Qed.

Lemma copy_if_filters_witness : copy_if Nat.even [1; 2; 3; 4] [9; 9; 9; 9; 9] 1 = Ret ([9; 2; 4; 9; 9], 3).
Proof.
  assert (1 <= length [9; 9; 9; 9; 9]) as H by (apply Nat.leb_le; reflexivity).
  destruct (copy_if_filters Nat.even [1; 2; 3; 4] [9; 9; 9; 9; 9] [] 1 H) as [E _]. rewrite E. reflexivity.
Defined.
