(* ===== verification/Locales.v ===== *)
(** * Countries, locales, bytes and names of types (cpp/src/country.hpp, locale.hpp, bytes_util.hpp, memory.hpp, type_util.hpp, stream_util.hpp)

    The first header names types that are declared nowhere, and the second includes it, so that neither is compiled; what their
    text says is modelled all the same.  The third declares functions that have no body, and has two templates. *)
From S2P Require Import Prelude Bytes Objects.

(** ** Country *)

(** An id of its own unless one is given. *)
(* src: cpp/src/country.hpp:24-24 Country::Country *)
Definition new_Country (generator : Generator) (aid : Z) : outcome (Generator * obj) :=
  if (aid =? NULL_ID)%Z then r ← get_id generator; Ret (fst r, new_Object (snd r)) else Ret (generator, new_Object aid).
(* src: cpp/src/country.hpp:30-30 Country::Country *)
Definition country_copy (native : endian) (other : obj) : outcome obj := obj_copy native other.
(** The id is set, and then the end of a function that should return something is reached. *)
(* src: cpp/src/country.hpp:36-36 Country::operator= *)
Definition country_assign (this other : obj) : obj * outcome unit := (set_id (mid other) this, Undef NoProgress).

(** ** Locale *)

Section locale.
Context {Language Country : Type}.

(** Pointers that were never set are [None]. *)
(* src: cpp/src/locale.hpp:17-17 Locale *)
Record Locale := mk_locale { lo_object : obj; language : option Language; country : option Country }.
(** The id is not given to the base, and no constructor sets a pointer; a copy copies nothing. *)
(* src: cpp/src/locale.hpp:21-21 Locale::Locale *)
Definition new_Locale (aid : Z) : Locale := mk_locale (new_Object NULL_ID) None None.
(* src: cpp/src/locale.hpp:28-28 Locale::Locale *)
Definition locale_copy (other : Locale) : Locale := mk_locale (new_Object NULL_ID) None None.
(* src: cpp/src/locale.hpp:33-33 Locale::operator= *)
Definition locale_assign (this other : Locale) : Locale * outcome unit := (this, Undef NoProgress).
(* src: cpp/src/locale.hpp:37-37 Locale::get_name *)
Definition locale_name (l : Locale) : str := [].
(* src: cpp/src/locale.hpp:41-41 Locale::get_language *)
Definition get_language (l : Locale) : outcome Language := match language l with Some x => Ret x | None => Undef Uninitialized end.
(* src: cpp/src/locale.hpp:46-46 Locale::get_country *)
Definition get_country (l : Locale) : outcome Country := match country l with Some x => Ret x | None => Undef Uninitialized end.

(** The calls on a locale; the class has no other, and no friend. *)
Inductive locale_call := CopyLocale | AssignLocale (other : Locale) | LocaleName.
Definition call_locale (c : locale_call) (l : Locale) : Locale :=
  match c with CopyLocale => locale_copy l | AssignLocale other => fst (locale_assign l other) | LocaleName => l end.
(** No locale ever has a language or a country: whatever is called on it, asking for them reads what was never set. *)
Lemma locale_never_set aid (calls : list locale_call) : let l := fold_left (fun l c => call_locale c l) calls (new_Locale aid) in
  get_language l = Undef Uninitialized /\ get_country l = Undef Uninitialized /\ mid (lo_object l) = NULL_ID.
Proof.
  cbv zeta. assert (G : forall l, language l = None -> country l = None -> mid (lo_object l) = NULL_ID ->
    let l := fold_left (fun l c => call_locale c l) calls l in language l = None /\ country l = None /\ mid (lo_object l) = NULL_ID).
  { induction calls as [|c calls IH]; intros l H1 H2 H3; [done|]. cbn. apply IH; by destruct c. }
  destruct (G (new_Locale aid) eq_refl eq_refl eq_refl) as (H1 & H2 & H3). unfold get_language, get_country. by rewrite H1, H2.
Qed.
End locale.

(** ** Bytes of values *)

(** [add_bytes] has no body in the repository: it is an argument, of the bytes to add and of the span to add them to.  The number is given
    by its bytes in memory. *)
(* src: cpp/src/bytes_util.hpp:58-65 add_number_to_bytes *)
Definition add_number_to_bytes (add_bytes : list byte -> list byte -> list byte) (n bytes : list byte) : list byte := add_bytes n bytes.
(** [memcpy] of the size of the type, however many bytes there are. *)
(* src: cpp/src/bytes_util.hpp:83-89 bytes_to_type *)
Definition bytes_to_type (size : nat) (bytes : list byte) : outcome (list byte) :=
  if decide (size <= length bytes) then Ret (take size bytes) else Undef OutOfBounds.

(** An integer comes back from its bytes, whatever follows them; too few bytes are read past their end. *)
Lemma bytes_to_type_roundtrip native n v rest : in_signed (8 * Z.of_nat n) v = true -> 0 < n ->
  int_of_bytes native <$> bytes_to_type n (int_bytes native n v ++ rest) = Ret v
  /\ forall k, k < n -> bytes_to_type n (take k (int_bytes native n v)) = Undef OutOfBounds.
Proof.
  intros Hv Hn. unfold bytes_to_type. split.
  - rewrite decide_True by (rewrite length_app, int_bytes_length; lia). rewrite take_app_length' by (by rewrite int_bytes_length). cbn.
    f_equal. by apply int_of_int_bytes.
  - intros k Hk. rewrite decide_False; [done|]. rewrite length_take, int_bytes_length. lia.
Qed.

(** [memcpy] into a block, whose pointer is returned. *)
(* src: cpp/src/memory.hpp:23-27 memory_copy *)
Definition memory_copy (dest src : list byte) (size : nat) : outcome (list byte) :=
  if decide (size <= length src) then memcpy_at dest 0 (take size src) else Undef OutOfBounds.

(** ** Names of types *)

(** The length of the word and the space that one compiler puts before a name is taken off whatever the name starts with; [typeid_name] is
    what [typeid] says. *)
(* src: cpp/src/type_util.hpp:16-26 class_name *)
Definition type_class_name (typeid_name : str) : str := drop (length (W "class ")) typeid_name.
(** The name of a class of this library, as the other compilers write it, loses its first six characters. *)
Example mangled_class_name :
  type_class_name (W "class pensar_digital::cpplib::Object") = W "pensar_digital::cpplib::Object"
  /\ type_class_name (W "N14pensar_digital6cpplib6ObjectE") = W "sar_digital6cpplib6ObjectE".
Proof. vm_compute. by split. Qed.

(* src: cpp/src/stream_util.hpp:25-32 StringStream *)
Definition StringStream : str := [].
