(* ===== verification/Platforms.v ===== *)
(** * Platforms (cpp/src/multiplatform.hpp, ostype.hpp, sys_user_info.hpp, cpp/src/linux, macos, windows, ios, android)

    Which files a build includes; what each platform says of itself; the directory of the user, the path of the executable, the cards of
    the network, the text of an error; and the files that Windows, iOS and Android have in place of io_util_macos.hpp.  What the system
    answers is an argument; what Windows promises of files and mappings is the class [Win32] with the laws [Win32Laws]. *)
From stdpp Require Import gmap.
From S2P Require Import Prelude CS CodeUtil Strings Bytes Objects FileSystem Paths Files IoUtil Utilities.

(** ** The platform of a build *)

(* src: cpp/src/ostype.hpp:9-17 OSType *)
Inductive OSType := OS_Windows | OS_Linux | OS_macOS | OS_iOS | OS_Android | OS_Unknown.
#[export] Instance OSType_eq_dec : EqDecision OSType.
Proof. solve_decision. Defined.

(** The macros a compiler defines. *)
Record macros := mk_macros {
  d_WIN32 : bool; d_WIN64 : bool; d_linux : bool; d_APPLE : bool; TARGET_OS_MAC : bool; TARGET_OS_IPHONE : bool; d_ANDROID : bool }.
(** [None] is the error that the platform is not supported. *)
(* src: cpp/src/multiplatform.hpp:22-49 _PLATFORM_FOLDER *)
Definition PLATFORM_FOLDER (m : macros) : option str :=
  if d_WIN32 m || d_WIN64 m then Some (W "windows")
  else if d_linux m then Some (W "linux")
  else if d_APPLE m && TARGET_OS_MAC m && negb (TARGET_OS_IPHONE m) then Some (W "macos")
  else if d_APPLE m && TARGET_OS_IPHONE m then Some (W "ios")
  else if d_ANDROID m then Some (W "android")
  else None.
(* src: cpp/src/multiplatform.hpp:25-26 INCLUDE *)
Definition INCLUDE (m : macros) (base_name : str) : option str :=
  folder ← PLATFORM_FOLDER m; Some (folder ++ W "/" ++ base_name ++ W "_" ++ folder ++ W ".hpp").
(** The macros of the compilers for each system: Android is a Linux, and iOS counts as a Mac. *)
Definition compiler_macros (o : OSType) : macros :=
  match o with
  | OS_Windows => mk_macros true true false false false false false
  | OS_Linux => mk_macros false false true false false false false
  | OS_macOS => mk_macros false false false true true false false
  | OS_iOS => mk_macros false false false true true true false
  | OS_Android => mk_macros false false true false false false true
  | OS_Unknown => mk_macros false false false false false false false
  end.

(** What the file of a platform says of it. *)
Record system := mk_system { os_name : str; OS_TYPE : OSType; LINE_FEED_ : str; get_max_name_length : nat; get_max_path : nat; path_separator : ascii }.
(* src: cpp/src/linux/system_linux.hpp:28-41 os_name, OS_TYPE, LINE_FEED, get_max_name_length, get_max_path, path_separator *)
Definition linux_system : system := mk_system (W "Linux") OS_Linux [LINE_FEED] 255 4096 SEPARATOR.
(* src: cpp/src/macos/system_macos.hpp:22-36 os_name, OS_TYPE, LINE_FEED, get_max_name_length, get_max_path, path_separator *)
Definition macos_system : system := mk_system (W "macOS") OS_macOS [LINE_FEED] 255 1024 SEPARATOR.
(* src: cpp/src/windows/system_windows.hpp:28-42 os_name, OS_TYPE, LINE_FEED, get_max_name_length, get_max_path, path_separator *)
Definition windows_system : system := mk_system (W "Windows") OS_Windows [LINE_FEED] 255 1024 "\"%char.
(** What the files of the phones would say; they specialize a template that is not one, and so do not compile. *)
Record phone_system := mk_phone {
  ph_LINE_FEED : str; ph_max_name_length : nat; ph_max_path : nat; ph_path_separator : ascii;
  ph_valid_file_name : str -> bool; ph_valid_path : str -> bool; ph_mac_addresses : list MacAddress; ph_cpu_id : str }.
(* src: cpp/src/ios/system_ios.hpp:12-42 System *)
Definition ios_system : phone_system := mk_phone [LINE_FEED] 255 4096 SEPARATOR
  (fun file_name => is_name_valid_common file_name && bool_decide (find_char SEPARATOR file_name = None) && bool_decide (find_char NULL_CHAR file_name = None))
  (fun path_name => is_name_valid_common path_name && bool_decide (find_char NULL_CHAR path_name = None)) [] [].
(* src: cpp/src/android/system_android.hpp:12-43 System *)
Definition android_system : phone_system := mk_phone [LINE_FEED] 255 4096 SEPARATOR
  (fun file_name => is_name_valid_common file_name && bool_decide (find_char SEPARATOR file_name = None) && bool_decide (find_char NULL_CHAR file_name = None))
  (fun path_name => is_name_valid_common path_name && bool_decide (find_char NULL_CHAR path_name = None)) [] [].
(** The System of a build. *)
(* src: cpp/src/system.hpp:71-75 System *)
Definition System (m : macros) : option system :=
  folder ← PLATFORM_FOLDER m;
  if decide (folder = W "windows") then Some windows_system else if decide (folder = W "linux") then Some linux_system
  else if decide (folder = W "macos") then Some macos_system else None.

(** ** The user and the executable *)

(** [getenv("HOME")], then the directory of the password database. *)
(* src: cpp/src/linux/sys_user_info_linux.hpp:18-32 get_user_home *)
Definition linux_user_home (HOME pw_dir : option str) : Path :=
  match HOME with Some h => as_Path h | None => match pw_dir with Some d => as_Path d | None => as_Path [] end end.
(* src: cpp/src/macos/sys_user_info_macos.hpp:11-20 get_user_home *)
Definition macos_user_home (HOME : option str) : Path := match HOME with Some h => as_Path h | None => as_Path [] end.
(** The answer of [SHGetFolderPathW], or none when it is not [S_OK]. *)
(* src: cpp/src/windows/sys_user_info_windows.hpp:17-36 get_user_home_windows *)
Definition get_user_home_windows (use_exceptions : bool) (profile : option str) : outcome Path :=
  match profile with
  | Some p => Ret (as_Path p)
  | None => if use_exceptions then Throw (RuntimeError (W "get_user_home_windows: Failed to get user home directory.")) else Ret (as_Path [])
  end.
(* src: cpp/src/windows/sys_user_info_windows.hpp:38-42 get_user_home *)
Definition windows_user_home (profile : option str) : outcome Path := get_user_home_windows true profile.

Definition exe_error (m : str) : outcome (Result str) := result_of_cstr m [].
(** [readlink] gives at most as many bytes as it is given room for, and does not say when there are more; [realpath] of them. *)
(* src: cpp/src/linux/io_util_linux.hpp:24-42 get_exe_full_path *)
Definition linux_exe_full_path (PATH_MAX : nat) (link : option str) (realpath : str -> option str) : outcome (Result str) :=
  match link with
  | None => exe_error (W "Error getting executable path")
  | Some l => match realpath (cstr (take (PATH_MAX - 1) l)) with
              | None => exe_error (W "Error resolving executable path")
              | Some r => Ret (result_of (cstr r))
              end
  end.
(** [_NSGetExecutablePath] is called for the size it needs, then with a buffer of it. *)
(* src: cpp/src/macos/io_util_macos.hpp:31-57 get_exe_full_path *)
Definition macos_exe_full_path (executable : option str) (realpath : str -> option str) : outcome (Result str) :=
  match executable with
  | None => exe_error (W "Error getting executable path")
  | Some e => match realpath (cstr e) with
              | None => exe_error (W "Error resolving executable path")
              | Some r => Ret (result_of (cstr r))
              end
  end.
(** [GetModuleFileNameA] fills the buffer, and its result is not zero when the name did not fit: the name is cut. *)
(* src: cpp/src/windows/io_util_windows.hpp:22-34 get_exe_full_path *)
Definition windows_exe_full_path (MAX_PATH : nat) (module_name : option str) : outcome (Result str) :=
  match module_name with
  | None => exe_error (W "Error getting executable path")
  | Some n => Ret (result_of (cstr (take (MAX_PATH - 1) n)))
  end.

(** ** The text of an error *)

(** [strncpy] copies up to the terminator and fills the rest of the count with zeros. *)
Definition strncpy (buffer msg : str) (n : nat) : str := overlay 0 (take n (cstr msg) ++ replicate (n - length (cstr msg)) NULL_CHAR) buffer.
(** [strerror] may give no message; the buffer has at least [buffer_size] characters. *)
(* src: cpp/src/linux/file_linux.hpp:19-25 safe_strerror *)
Definition safe_strerror (buffer : str) (buffer_size : nat) (strerror : option str) : str :=
  let buffer := strncpy buffer (default [] strerror) buffer_size in
  if decide (0 < buffer_size) then <[buffer_size - 1 := NULL_CHAR]> buffer else buffer.
(* src: cpp/src/macos/file_macos.hpp:19-25 safe_strerror *)
Definition macos_safe_strerror (buffer : str) (buffer_size : nat) (strerror : option str) : str := safe_strerror buffer buffer_size strerror.

(** ** The cards of the network *)

(** An interface as the kernel lists it: whether its flags can be read and are those of a loopback, and its address if it can be read. *)
Record interface := mk_interface { if_loopback : option bool; if_hwaddr : option (list byte) }.
(** [None] is a socket or a list that could not be had: the errors are not handled, and the loop runs over the buffer as it was. *)
(* src: cpp/src/linux/system_linux.hpp:44-80 mac_addresses *)
Definition linux_mac_addresses (native : endian) (ifc_req : option (list interface)) : outcome (list MacAddress) :=
  match ifc_req with
  | None => Undef Uninitialized
  | Some ifs =>
      fold_left (fun acc it => macs ← acc;
        match if_loopback it, if_hwaddr it with
        | Some false, Some address => m ← mac_linux native address; Ret (macs ++ [m])
        | _, _ => Ret macs
        end) ifs (Ret [])
  end.
(** A message of the routing socket: whether it describes an interface, and the address of it. *)
Record route_message := mk_route { ifm_is_info : bool; sdl_address : list byte }.
(* src: cpp/src/macos/system_macos.hpp:38-82 mac_addresses *)
Definition macos_mac_addresses (sysctl : option (list route_message)) : list MacAddress :=
  match sysctl with
  | None => []
  | Some messages =>
      fold_left (fun result ifm =>
        if ifm_is_info ifm && bool_decide (length (sdl_address ifm) = 6) && negb (mac_macos_skipped (sdl_address ifm))
        then result ++ [mac_macos (sdl_address ifm)] else result) messages []
  end.
(** [GetAdaptersInfo] into the second buffer when the first was too small; a list it gives is not empty. *)
(* src: cpp/src/windows/system_windows.hpp:44-82 mac_addresses *)
Definition windows_mac_addresses (adapters : option (list (list byte))) : list MacAddress :=
  match adapters with None => [] | Some l => fold_left (fun result a => result ++ [mac_windows a]) l [] end.
(** The brand of the processor, or the model of the machine. *)
(* src: cpp/src/macos/system_macos.hpp:84-96 cpu_id *)
Definition macos_cpu_id (brand_string model : option str) : str :=
  match brand_string with Some b => cstr b | None => match model with Some m => cstr m | None => [] end end.
(* src: cpp/src/windows/system_windows.hpp:84-91 cpu_id *)
Definition windows_cpu_id (ebx edx : Z) : str := decimal (signed_wrap 32 ebx) ++ decimal (signed_wrap 32 edx).

(** ** Times of files (the Borland build) *)

(** Borland's structure. *)
Record ftime := mk_ftime { ft_year : Z; ft_month : Z; ft_day : Z; ft_hour : Z; ft_min : Z; ft_tsec : Z }.
(* src: cpp/src/windows/io_util_windows.hpp:274-282 operator== *)
Definition ftime_eq (left_ right_ : ftime) : bool :=
  (ft_year left_ =? ft_year right_)%Z && (ft_month left_ =? ft_month right_)%Z && (ft_day left_ =? ft_day right_)%Z
  && (ft_hour left_ =? ft_hour right_)%Z && (ft_min left_ =? ft_min right_)%Z && (ft_tsec left_ =? ft_tsec right_)%Z.
(* src: cpp/src/windows/io_util_windows.hpp:284-287 operator!= *)
Definition ftime_neq (left_ right_ : ftime) : bool := negb (ftime_eq left_ right_).
(* src: cpp/src/windows/io_util_windows.hpp:289-313 operator< *)
Definition ftime_lt (left_ right_ : ftime) : bool :=
  let less := (ft_year left_ <? ft_year right_)%Z in
  if negb less then
    let less := (ft_month left_ <? ft_month right_)%Z in
    if negb less then
      let less := (ft_day left_ <? ft_day right_)%Z in
      if negb less then
        let less := (ft_hour left_ <? ft_hour right_)%Z in
        if negb less then
          let less := (ft_min left_ <? ft_min right_)%Z in
          if negb less then (ft_tsec left_ <? ft_tsec right_)%Z else less
        else less
      else less
    else less
  else less.
(** The time of a file that opens; otherwise the variable that was not set. *)
(* src: cpp/src/windows/io_util_windows.hpp:315-325 fileTimestamp *)
Definition fileTimestamp (getftime : option ftime) : outcome ftime := match getftime with Some t => Ret t | None => Undef Uninitialized end.
(* src: cpp/src/windows/io_util_windows.hpp:327-339 fileTimestampString *)
Definition fileTimestampString (getftime : option ftime) : str :=
  match getftime with
  | None => []
  | Some ft => decimal (ft_year ft + 1980) ++ W "-" ++ decimal (ft_month ft) ++ W "-" ++ decimal (ft_day ft) ++ W " "
      ++ decimal (ft_hour ft) ++ W "h" ++ decimal (ft_min ft)
  end.
(** The same functions in the files of the phones. *)
(* src: cpp/src/ios/io_util_ios.cpp:110-118 operator== *)
Definition ios_ftime_eq (left_ right_ : ftime) : bool := ftime_eq left_ right_.
(* src: cpp/src/ios/io_util_ios.cpp:120-123 operator!= *)
Definition ios_ftime_neq (left_ right_ : ftime) : bool := negb (ios_ftime_eq left_ right_).
(* src: cpp/src/ios/io_util_ios.cpp:125-149 operator< *)
Definition ios_ftime_lt (left_ right_ : ftime) : bool := ftime_lt left_ right_.
(* src: cpp/src/ios/io_util_ios.cpp:151-161 fileTimestamp *)
Definition ios_fileTimestamp (getftime : option ftime) : outcome ftime := fileTimestamp getftime.
(* src: cpp/src/ios/io_util_ios.cpp:163-175 fileTimestampString *)
Definition ios_fileTimestampString (getftime : option ftime) : str := fileTimestampString getftime.
(* src: cpp/src/android/io_util_android.cpp:110-118 operator== *)
Definition android_ftime_eq (left_ right_ : ftime) : bool := ftime_eq left_ right_.
(* src: cpp/src/android/io_util_android.cpp:120-123 operator!= *)
Definition android_ftime_neq (left_ right_ : ftime) : bool := negb (android_ftime_eq left_ right_).
(* src: cpp/src/android/io_util_android.cpp:125-149 operator< *)
Definition android_ftime_lt (left_ right_ : ftime) : bool := ftime_lt left_ right_.
(* src: cpp/src/android/io_util_android.cpp:151-161 fileTimestamp *)
Definition android_fileTimestamp (getftime : option ftime) : outcome ftime := fileTimestamp getftime.
(* src: cpp/src/android/io_util_android.cpp:163-175 fileTimestampString *)
Definition android_fileTimestampString (getftime : option ftime) : str := fileTimestampString getftime.

(** What two files can have in common, as a set of bits; the function that would take it is not there. *)
Record same_flags := mk_same { SAME_NAME : Z; SAME_SIZE : Z; SAME_TIME : Z; SAME_ALL : Z }.
(* src: cpp/src/windows/io_util_windows.hpp:267-270 SAME_NAME, SAME_SIZE, SAME_TIME, SAME_ALL *)
Definition windows_same_flags : same_flags := mk_same 1 2 4 (Z.lor (Z.lor 1 2) 4).
(* src: cpp/src/ios/io_util_ios.cpp:103-106 SAME_NAME, SAME_SIZE, SAME_TIME, SAME_ALL *)
Definition ios_same_flags : same_flags := mk_same 1 2 4 (Z.lor (Z.lor 1 2) 4).
(* src: cpp/src/android/io_util_android.cpp:103-106 SAME_NAME, SAME_SIZE, SAME_TIME, SAME_ALL *)
Definition android_same_flags : same_flags := mk_same 1 2 4 (Z.lor (Z.lor 1 2) 4).

(** ** Files on Windows *)

Definition INVALID_FILE_SIZE : Z := (2 ^ 32 - 1)%Z.
(** The calls, on a world of files: a handle, if there is one; the low 32 bits of the size; whether a mapping of the whole
    file could be made; the bytes seen through a view of [n] bytes of it, zero standing for all of them. *)
Class Win32 (HANDLE : Type) := {
  CreateFile : world -> str -> option HANDLE;
  GetFileSize : world -> option HANDLE -> Z;
  CreateFileMapping : world -> option HANDLE -> bool;
  MapViewOfFile : world -> option HANDLE -> Z -> option (list byte);
  GetFileSizeEx : world -> HANDLE -> option Z }.
Class Win32Laws (HANDLE : Type) `{Win32 HANDLE} := {
  handle_of : HANDLE -> path_key;
  create_open_existing w p : match find_entry w p with
    | Some (Regular c) => exists h, CreateFile w p = Some h /\ handle_of h = resolve (cwd w) p
    | _ => CreateFile w p = None end;
  file_size_low w h c : lookup_entry w (handle_of h) = Some (Regular c) -> GetFileSize w (Some h) = (Z.of_nat (length c) mod 2 ^ 32)%Z;
  file_size_invalid w : GetFileSize w None = INVALID_FILE_SIZE;
  file_size_ex w h c : lookup_entry w (handle_of h) = Some (Regular c) -> GetFileSizeEx w h = Some (Z.of_nat (length c));
  mapping_invalid w : CreateFileMapping w None = false;
  mapping_empty w h c : lookup_entry w (handle_of h) = Some (Regular c) -> CreateFileMapping w (Some h) = bool_decide (c <> []);
  view_all w h c : lookup_entry w (handle_of h) = Some (Regular c) -> (Z.of_nat (length c) < 2 ^ 32)%Z -> c <> [] ->
    MapViewOfFile w (Some h) (Z.of_nat (length c)) = Some c }.

(** What a call leaves: its result; the string of the caller; how many strings made with [new] and how many handles nobody owns. *)
Record read_result := mk_read { r_result : outcome str; r_caller : str; r_lost_strings : nat; r_open_handles : nat }.

Section windows.
Context {HANDLE : Type} `{Win32 HANDLE}.

(** The handle is not checked.  [s = new S(addr, file_size)] sets the parameter, not the caller's string. *)
(* src: cpp/src/windows/io_util_windows.hpp:38-82 read_file *)
Definition windows_read_file (w : world) (filename s : str) : read_result :=
  let file := CreateFile w filename in
  let opened := match file with Some _ => 1 | None => 0 end in
  let file_size := GetFileSize w file in
  if negb (CreateFileMapping w file) then
    mk_read (log_and_throw (W "windows_read_file: Error mapping file: " ++ filename)) s 0 opened
  else match MapViewOfFile w file file_size with
       | None => mk_read (log_and_throw (W "windows_read_file: Error mapping view of file: " ++ filename)) s 0 (S opened)
       | Some addr => mk_read (Ret (take (Z.to_nat file_size) addr)) s 1 0
       end.
(** The same function, under another name, in the files of the phones. *)
(* src: cpp/src/ios/io_util_ios.hpp:33-76 windows_read_file *)
Definition ios_windows_read_file (w : world) (filename s : str) : read_result := windows_read_file w filename s.
(* src: cpp/src/android/io_util_android.hpp:33-76 windows_read_file *)
Definition android_windows_read_file (w : world) (filename s : str) : read_result := windows_read_file w filename s.

(** Which compiler builds the file of a phone; on Linux the function returns a pointer as a reference, which does not compile, and without
    either nothing is returned. *)
Inductive build := MSVC | GccLinux | OtherBuild.
(* src: cpp/src/ios/io_util_ios.hpp:100-108 read_file_mmap *)
Definition read_file_mmap (b : build) (w : world) (filename s : str) : option read_result :=
  match b with
  | MSVC => Some (ios_windows_read_file w filename s)
  | GccLinux => None
  | OtherBuild => Some (mk_read (Undef NullDereference) s 0 0)
  end.
(* src: cpp/src/android/io_util_android.hpp:100-108 read_file_mmap *)
Definition android_read_file_mmap (b : build) (w : world) (filename s : str) : option read_result := read_file_mmap b w filename s.

(* src: cpp/src/windows/io_util_windows.hpp:343-375 get_file_size *)
Definition windows_file_size (w : world) (file_name : str) : Z :=
  match CreateFile w (cstr file_name) with
  | None => -1
  | Some h => match GetFileSizeEx w h with Some size => size | None => -1 end
  end.
(* src: cpp/src/ios/io_util_ios.cpp:179-212 get_file_size *)
Definition ios_file_size (w : world) (file_name : str) : Z := windows_file_size w file_name.
(* src: cpp/src/android/io_util_android.cpp:179-212 get_file_size *)
Definition android_file_size (w : world) (file_name : str) : Z := windows_file_size w file_name.
End windows.

(** An input stream opened for output is opened for both, which asks for a file that is there. *)
(* src: cpp/src/windows/io_util_windows.hpp:205-221 create_empty_file *)
Definition windows_create_empty_file (w : world) (file_full_path : str) : world * outcome unit :=
  let '(w, f) := stream_open w closed_stream (cstr file_full_path) (Z.lor ios_out ios_in) in
  if negb (is_open f) then (w, Throw (RuntimeError (W "create_file: It was not possible to create file." ++ cstr file_full_path)))
  else (fst (stream_close w f), Ret tt).
(* src: cpp/src/ios/io_util_ios.cpp:41-57 create_empty_file *)
Definition ios_create_empty_file (w : world) (file_full_path : str) : world * outcome unit := windows_create_empty_file w file_full_path.
(* src: cpp/src/android/io_util_android.cpp:41-57 create_empty_file *)
Definition android_create_empty_file (w : world) (file_full_path : str) : world * outcome unit := windows_create_empty_file w file_full_path.

(** ** The functions each platform has

    The rest of the four files is the same text: binary values, words and strings, lines. *)
Record io_util := mk_io_util {
  u_binary_write : list byte -> list byte -> list byte;
  u_binary_write_sized : list byte -> list byte -> nat -> outcome (list byte);
  u_binary_write_string : list byte -> str -> list byte;
  u_binary_read : list byte -> list byte -> list byte * list byte;
  u_binary_read_sized : list byte -> list byte -> Z -> outcome (list byte * list byte * Z);
  u_binary_read_string : list byte -> outcome (list byte * str);
  u_binary_to_string : nat -> list Z -> str;
  u_string_to_binary : nat -> str -> outcome (list Z) }.
Record file_util := mk_file_util {
  u_handle_error : str -> str * Z;
  u_create_empty_file : world -> str -> world * outcome unit;
  u_read_file_lines : world -> str -> outcome (Z * list (Z * str));
  u_file_exists : world -> str -> bool }.
Section io_utils.
Context (native : endian).
(* src: cpp/src/macos/io_util_macos.hpp:134-138 binary_write *)
Definition macos_io_util : io_util :=
  mk_io_util binary_write (binary_write_sized native) (binary_write_string native) binary_read (binary_read_sized native) (binary_read_string native) binary_to_string string_to_binary.
(* src: cpp/src/windows/io_util_windows.hpp:84-200 binary_write, binary_read, binary_to_string, string_to_binary *)
Definition windows_io_util : io_util :=
  mk_io_util binary_write (binary_write_sized native) (binary_write_string native) binary_read (binary_read_sized native) (binary_read_string native) binary_to_string string_to_binary.
(* src: cpp/src/ios/io_util_ios.hpp:110-226 binary_write, binary_read, binary_to_string, string_to_binary *)
Definition ios_io_util : io_util :=
  mk_io_util binary_write (binary_write_sized native) (binary_write_string native) binary_read (binary_read_sized native) (binary_read_string native) binary_to_string string_to_binary.
(* src: cpp/src/android/io_util_android.hpp:110-226 binary_write, binary_read, binary_to_string, string_to_binary *)
Definition android_io_util : io_util :=
  mk_io_util binary_write (binary_write_sized native) (binary_write_string native) binary_read (binary_read_sized native) (binary_read_string native) binary_to_string string_to_binary.
End io_utils.
Definition macos_file_util : file_util := mk_file_util handle_error create_empty_file read_file_lines io_file_exists.
(* src: cpp/src/windows/io_util_windows.hpp:223-264 handle_error, read_file, file_exists *)
Definition windows_file_util : file_util := mk_file_util handle_error windows_create_empty_file read_file_lines io_file_exists.
(* src: cpp/src/ios/io_util_ios.cpp:59-99 handle_error, read_file, file_exists *)
Definition ios_file_util : file_util := mk_file_util handle_error ios_create_empty_file read_file_lines io_file_exists.
(* src: cpp/src/android/io_util_android.cpp:59-99 handle_error, read_file, file_exists *)
Definition android_file_util : file_util := mk_file_util handle_error android_create_empty_file read_file_lines io_file_exists.

(** ** Properties *)

(** The files a build includes.  Each compiler gets the folder of its system, but for Android's, which says that it is a Linux first: it gets the
    Linux files, and no build on a Linux ever gets those of Android.  What is included is the base name between the
    folder and its suffix. *)
Theorem platform_selection (m : macros) (base_name : str) :
  map (fun o => PLATFORM_FOLDER (compiler_macros o)) [OS_Windows; OS_Linux; OS_macOS; OS_iOS; OS_Unknown]
    = [Some (W "windows"); Some (W "linux"); Some (W "macos"); Some (W "ios"); None]
  /\ PLATFORM_FOLDER (compiler_macros OS_Android) = Some (W "linux")
  /\ (PLATFORM_FOLDER m = Some (W "android") -> d_linux m = false)
  /\ INCLUDE (compiler_macros OS_Linux) base_name = Some (W "linux/" ++ base_name ++ W "_linux.hpp")
  /\ (forall s, System m = Some s -> exists o, OS_TYPE s = o /\ o <> OS_Android /\ o <> OS_iOS).
Proof.
  split; [done|]. split; [done|]. split; [|split].
  - unfold PLATFORM_FOLDER. destruct (d_WIN32 m || d_WIN64 m); [done|]. by destruct (d_linux m).
  - done.
  - intros s. unfold System. destruct (PLATFORM_FOLDER m) as [f|]; [|done]. cbn [mbind option_bind]. repeat case_decide; intros [= <-]; eauto.
Qed.

Lemma cstr_app_nul a b : no_nul a -> cstr (a ++ NULL_CHAR :: b) = a.
Proof.
  intros Ha. unfold cstr, cstr_length. rewrite nul_index_app by done. by apply take_app_length.
Qed.

(** The text of an error in a buffer: as much of it as fits before the terminator, which is always there; what lies behind the
    size of the buffer is left alone, and an empty buffer is. *)
Theorem safe_strerror_spec (buffer : str) (n : nat) (msg : str) (Hn : n <= length buffer) (Hm : no_nul msg) :
  safe_strerror buffer n (Some msg) = (if decide (n = 0) then buffer else take (n - 1) msg ++ replicate (n - length (take (n - 1) msg)) NULL_CHAR ++ drop n buffer)
  /\ (0 < n -> cstr (safe_strerror buffer n (Some msg)) = take (n - 1) msg).
Proof.
  assert (safe_strerror buffer n (Some msg) = (if decide (n = 0) then buffer else take (n - 1) msg ++ replicate (n - length (take (n - 1) msg)) NULL_CHAR ++ drop n buffer)) as E.
  { unfold safe_strerror, strncpy. change (default [] (Some msg)) with msg. rewrite (cstr_no_nul msg Hm), overlay_0, length_app, length_take, length_replicate.
    destruct n as [|n]; [by rewrite !decide_False by lia|]. rewrite decide_True by lia. rewrite decide_False by done.
    replace (S n - 1) with n by lia. replace (S n `min` length msg + (S n - length msg)) with (S n) by lia. rewrite length_take.
    destruct (decide (length msg <= n)) as [H|H].
    - rewrite !take_ge by lia. replace (n `min` length msg) with (length msg) by lia. rewrite <- app_assoc, insert_app_r_alt by lia. f_equal.
      rewrite insert_app_l by (rewrite length_replicate; lia). by rewrite insert_replicate.
    - replace (n `min` length msg) with n by lia. replace (S n - length msg) with 0 by lia. replace (S n - n) with 1 by lia. cbn [replicate app]. rewrite app_nil_r.
      destruct (lookup_lt_is_Some_2 msg n ltac:(lia)) as [c Hc]. rewrite (take_S_r _ _ _ Hc), <- app_assoc, insert_app_r_alt by (rewrite length_take; lia).
      rewrite length_take. by replace (n - n `min` length msg) with 0 by lia. }
  split; [exact E|]. intros Hpos. rewrite E, decide_False by lia. rewrite length_take.
  destruct (n - (n - 1) `min` length msg) as [|k] eqn:Ek; [lia|]. cbn [replicate app]. apply cstr_app_nul.
  intros H. apply Hm. rewrite <- (take_drop (n - 1) msg). apply elem_of_app. by left.
Qed.

(** What goes wrong with a file is reported without naming the file: the message has the text of the id of its path, which
    for a path made without one is a minus one with two signs, and as much of the system's text as the buffer holds. *)
Theorem file_error_messages (strerror : Z -> str) (f : File) (error : Z) (msg buffer : str)
    (Hb : length buffer = BUFFER_SIZE) (Hm : no_nul (strerror error)) (He : error <> 0%Z) :
  s_io_error_msg strerror error = cstr (safe_strerror buffer BUFFER_SIZE (Some (strerror error)))
  /\ (path_id (fullpath f) = NULL_ID -> log_if_error strerror f error msg
      = Some (msg ++ W " in file --1 " ++ cstr (safe_strerror buffer BUFFER_SIZE (Some (strerror error)))))
  /\ (forall g, path_id (fullpath g) = path_id (fullpath f) -> log_if_error strerror g error msg = log_if_error strerror f error msg).
Proof.
  assert (H : s_io_error_msg strerror error = cstr (safe_strerror buffer BUFFER_SIZE (Some (strerror error)))).
  { unfold s_io_error_msg. rewrite cstr_no_nul by done. symmetry. apply safe_strerror_spec; [by rewrite Hb|done|]. unfold BUFFER_SIZE. lia. }
  split; [exact H|]. unfold log_if_error, error_message, path_to_string. rewrite (proj2 (Z.eqb_neq _ _) He), H. split; [|by intros g ->].
  intros ->. done.
Qed.

Lemma file_error_messages_witness :
  no_nul (W "denied") /\ log_if_error (fun _ => W "denied") (mk_File 0 (as_Path (W "a.txt")) 0 closed_stream) 13 (W "no")
    = Some (W "no in file --1 denied").
Proof.
  assert (H : no_nul (W "denied")) by (apply (bool_decide_unpack _); vm_compute; exact Logic.I). split; [exact H|].
  destruct (file_error_messages (fun _ => W "denied") (mk_File 0 (as_Path (W "a.txt")) 0 closed_stream) 13 (W "no") (replicate BUFFER_SIZE NULL_CHAR)
    ltac:(apply length_replicate) H ltac:(done)) as (E & E2 & _). rewrite (E2 eq_refl), <- E. vm_compute. reflexivity.
Defined.

Lemma safe_strerror_spec_witness :
  4 <= length (W "........") /\ no_nul (W "No such file")
  /\ safe_strerror (W "........") 4 (Some (W "No such file")) = W "No " ++ NULL_CHAR :: W "....".
Proof.
  assert (4 <= length (W "........")) as H by (simpl; lia).
  assert (no_nul (W "No such file")) as N by (apply (bool_decide_unpack _); vm_compute; exact Logic.I).
  split; [exact H|split; [exact N|]]. rewrite (proj1 (safe_strerror_spec (W "........") 4 (W "No such file") H N)). reflexivity.
Defined.

(** The comparison of times.  [==] is equality.  [<] says that some part of the left time is less than the same part of the right one,
    so it is right only when the times are ordered in every part: of two times that differ both ways, each is less than the other. *)
Theorem ftime_order (a b : ftime) :
  (ftime_eq a b = true <-> a = b) /\ ftime_neq a b = negb (bool_decide (ftime_eq a b = true))
  /\ (ftime_lt a b = true <-> exists part, part ∈ [ft_year; ft_month; ft_day; ft_hour; ft_min; ft_tsec] /\ (part a < part b)%Z)
  /\ (forall y m, ft_year a = y -> ft_year b = (y + 1)%Z -> ft_month b = m -> ft_month a = (m + 1)%Z -> ftime_lt a b = true /\ ftime_lt b a = true).
Proof.
  assert (Hlt : ftime_lt a b = true <-> exists part, part ∈ [ft_year; ft_month; ft_day; ft_hour; ft_min; ft_tsec] /\ (part a < part b)%Z).
  { unfold ftime_lt.
    assert (forall x y c : bool, (if negb x then y else x) = x || y) as C by (intros [] [] _; done). rewrite !C by exact true.
    rewrite !orb_true_iff, !Z.ltb_lt. split.
    - intros [H|[H|[H|[H|[H|H]]]]]; eexists; (split; [|exact H]); set_solver.
    - intros (p & Hp & H). rewrite !elem_of_cons, elem_of_nil in Hp. naive_solver. }
  split; [|split; [|split; [exact Hlt|]]].
  - unfold ftime_eq. rewrite !andb_true_iff, !Z.eqb_eq. destruct a, b; simpl. split; [intros; destruct_and?; congruence|intros [=]; done].
  - unfold ftime_neq. by destruct (ftime_eq a b).
  - intros y m Ha Hb Hm Hn. unfold ftime_lt. rewrite Ha, Hb, Hm, Hn. rewrite (proj2 (Z.ltb_lt y (y + 1))) by lia.
    split; [done|]. rewrite (proj2 (Z.ltb_ge (y + 1) y)) by lia. cbn [negb]. by rewrite (proj2 (Z.ltb_lt m (m + 1))) by lia.
Qed.

(** The addresses of the cards.  On Linux those of every interface whose flags and address can be read, the loopback not
    counted, in the kernel's order; without a list, memory that was never set is read.  On macOS those of six bytes that are not all zero, and on
    Windows one for each adapter, of which only the first byte is left.  The same card is a different number on each. *)
Theorem network_cards (native : endian) (ifs : list interface) (messages : list route_message) (adapters : list (list byte)) :
  (native = little_endian -> linux_mac_addresses native (Some ifs)
     = Ret (omap (fun it => match if_loopback it with Some false => (fun a => mk_mac (le_val a)) <$> if_hwaddr it | _ => None end) ifs))
  /\ linux_mac_addresses native None = Undef Uninitialized
  /\ macos_mac_addresses (Some messages)
     = map (fun ifm => mac_macos (sdl_address ifm))
         (filter (fun ifm => ifm_is_info ifm && bool_decide (length (sdl_address ifm) = 6) && negb (mac_macos_skipped (sdl_address ifm)) = true) messages)
  /\ windows_mac_addresses (Some adapters) = map mac_windows adapters
  /\ (forall address, length address = 6 -> native = little_endian -> mac_macos_skipped address = false ->
        linux_mac_addresses native (Some [mk_interface (Some false) (Some address)]) = Ret [mk_mac (le_val address)]
        /\ macos_mac_addresses (Some [mk_route true address]) = [mk_mac (le_val (rev address))]).
Proof.
  split; [|split; [done|split; [|split]]].
  - intros ->. unfold linux_mac_addresses.
    match goal with |- fold_left ?f ifs _ = _ => assert (forall acc, fold_left f ifs (Ret acc) = Ret (acc ++ omap (fun it => match if_loopback it with Some false => (fun a => mk_mac (le_val a)) <$> if_hwaddr it | _ => None end) ifs)) as G; [|by rewrite G] end.
    induction ifs as [|it ifs' IH]; intros acc; cbn [fold_left omap list_omap mbind outcome_bind]; [by rewrite app_nil_r|].
    destruct (if_loopback it) as [[]|], (if_hwaddr it) as [a|]; cbn [mac_linux mbind outcome_bind fmap option_fmap option_map]; rewrite IH; try done. by rewrite <- app_assoc.
  - unfold macos_mac_addresses.
    match goal with |- fold_left ?f messages _ = ?r => assert (forall acc, fold_left f messages acc = acc ++ r) as G; [|by rewrite G] end.
    induction messages as [|x l IH]; intros acc; cbn [fold_left]; [by rewrite app_nil_r|]. rewrite filter_cons.
    destruct (ifm_is_info x && _ && _) eqn:E; [rewrite decide_True by done|rewrite decide_False by done]; rewrite IH; [|done].
    cbn [map]. by rewrite <- app_assoc.
  - unfold windows_mac_addresses. assert (forall acc, fold_left (fun result a => result ++ [mac_windows a]) adapters acc = acc ++ map mac_windows adapters) as G; [|by rewrite G].
    induction adapters as [|x l IH]; intros acc; cbn [fold_left map]; [by rewrite app_nil_r|]. rewrite IH. by rewrite <- app_assoc.
  - intros a Ha -> Hs. split; [done|]. unfold macos_mac_addresses. cbn [fold_left ifm_is_info sdl_address]. rewrite Hs, bool_decide_eq_true_2 by done.
    cbn [andb negb app]. by rewrite mac_macos_le.
Qed.

(** *** Windows *)

(** A Windows whose handles are the paths of the files: it meets the laws. *)
Definition path_mapping (w : world) (h : option path_key) : bool :=
  match h with Some k => match lookup_entry w k with Some (Regular c) => bool_decide (c <> []) | _ => false end | None => false end.
#[export] Instance path_win32 : Win32 path_key := {
  CreateFile w p := match find_entry w p with Some (Regular _) => Some (resolve (cwd w) p) | _ => None end;
  GetFileSize w h := match h with Some k => (Z.of_nat (length (file_content w k)) mod 2 ^ 32)%Z | None => INVALID_FILE_SIZE end;
  CreateFileMapping := path_mapping;
  MapViewOfFile w h n := match h with Some k => Some (if (n =? 0)%Z then file_content w k else take (Z.to_nat n) (file_content w k)) | None => None end;
  GetFileSizeEx w h := Some (Z.of_nat (length (file_content w h))) }.
#[export] Program Instance path_win32_laws : Win32Laws path_key := { handle_of h := h }.
Next Obligation. intros w p. simpl. destruct (find_entry w p) as [[]|]; eauto. Qed.
Next Obligation. intros w h c H. simpl. unfold file_content. by rewrite H. Qed.
Next Obligation. done. Qed.
Next Obligation. intros w h c H. simpl. unfold file_content. by rewrite H. Qed.
Next Obligation. done. Qed.
Next Obligation. intros w h c H. simpl. by rewrite H. Qed.
Next Obligation.
  intros w h c H Hl Hc. simpl. unfold file_content. rewrite H. destruct (Z.eqb_spec (Z.of_nat (length c)) 0) as [E|E]; [done|].
  by rewrite Nat2Z.id, firstn_all.
Qed.

Section windows_files.
Context {HANDLE : Type} `{Win32Laws HANDLE}.

(** [in | out] opens what is there and leaves it as it is. *)
Lemma windows_create_spec w p : directory_only (cstr p) = false -> match lookup_entry w (resolve (cwd w) (cstr p)) with
  | Some (Regular c) => exists w', windows_create_empty_file w p = (w', Ret tt) /\ (resolve (cwd w) (cstr p) <> [] -> forall j, lookup_entry w' j = lookup_entry w j)
  | _ => exists m, windows_create_empty_file w p = (w, Throw (RuntimeError m)) end.
Proof.
  intros Hd. unfold windows_create_empty_file, stream_open. rewrite Hd. change (is_open closed_stream || false) with false. cbv iota.
  change (open_table (Z.lor ios_out ios_in)) with (Some (true, false)).
  destruct (lookup_entry w (resolve (cwd w) (cstr p))) as [[|c]|] eqn:E; [by eexists| |by eexists].
  unfold open_at. change (is_open _) with true. cbn [negb]. eexists. split; [reflexivity|]. intros Hk j.
  change (fst (stream_close ?w (mk_stream (Some ?k) ?m ?n [] false false))) with w. rewrite lookup_set_entry by done. by case_decide; subst.
Qed.

(** The files of Windows against those of macOS, for a file [p] that is there with content [c], or is not.  [read_file] of Windows returns the content of a
    file that is not empty, but in a string that nobody owns, and the caller's is not changed; an empty file, which macOS reads as the empty
    string, is an error, and its handle stays open, as a missing file is.  [create_empty_file] of Windows never creates a
    file nor empties one: it succeeds, and does nothing, when the file is there, and fails when it is not.  The sizes agree. *)
Theorem windows_files (w : world) (p s : str) (k : path_key) (Hk : resolve (cwd w) p = k) (Hp : no_nul p) (Hfile : directory_only p = false) (Hne : k <> []) :
  match lookup_entry w k with
  | Some (Regular c) =>
      (c <> [] -> (Z.of_nat (length c) < 2 ^ 32)%Z -> windows_read_file w p s = mk_read (Ret c) s 1 0)
      /\ (c = [] -> exists m, windows_read_file w p s = mk_read (Throw (ErrorObject m)) s 0 1)
      /\ read_file w p = Ret c
      /\ (exists w', windows_create_empty_file w p = (w', Ret tt) /\ lookup_entry w' k = Some (Regular c))
      /\ (exists w', create_empty_file w p = (w', Ret tt) /\ lookup_entry w' k = Some (Regular []))
      /\ forall d, windows_file_size w p = get_file_size d w p
  | None =>
      (exists m, windows_read_file w p s = mk_read (Throw (ErrorObject m)) s 0 0)
      /\ (exists m, windows_create_empty_file w p = (w, Throw (RuntimeError m)))
      /\ (lookup_entry w (parent_key k) = Some Directory -> exists w', create_empty_file w p = (w', Ret tt) /\ lookup_entry w' k = Some (Regular []))
      /\ forall d, windows_file_size w p = -1 /\ get_file_size d w p = -1
  | Some Directory => exists m, windows_create_empty_file w p = (w, Throw (RuntimeError m))
  end%Z.
Proof.
  pose proof (windows_create_spec w p) as C. rewrite (cstr_no_nul p Hp), Hk in C. specialize (C Hfile). pose proof (create_open_existing w p) as O.
  rewrite (find_entry_file w p Hfile), Hk in O.
  assert (forall c, lookup_entry w k = Some (Regular c) \/ (lookup_entry w k = None /\ lookup_entry w (parent_key k) = Some Directory) ->
    exists w', create_empty_file w p = (w', Ret tt) /\ lookup_entry w' k = Some (Regular [])) as M.
  { intros c Hc. unfold create_empty_file. rewrite (cstr_no_nul p Hp), (open_writable w p ios_out k true).
    - unfold open_at. change (is_open _) with true. cbn [negb]. eexists. split; [reflexivity|].
      change (fst (stream_close ?w (mk_stream (Some ?k) ?m ?n [] false false))) with w. rewrite lookup_set_entry by done. by rewrite decide_True.
    - done.
    - done.
    - done.
    - unfold writable. rewrite bool_decide_eq_true_2 by done. destruct Hc as [->|[-> ->]]; done.
    - done. }
  destruct (lookup_entry w k) as [[|c]|] eqn:E; [exact C| |].
  - destruct O as (h & Oh & Hh). assert (lookup_entry w (handle_of h) = Some (Regular c)) as Eh by (by rewrite Hh).
    split; [|split; [|split; [|split; [|split]]]].
    + intros Hc Hl. unfold windows_read_file. rewrite Oh, (mapping_empty w h c Eh), bool_decide_eq_true_2 by done. cbn [negb].
      rewrite (file_size_low w h c Eh), Z.mod_small by lia. rewrite (view_all w h c Eh Hl Hc). by rewrite Nat2Z.id, firstn_all.
    + intros ->. unfold windows_read_file. rewrite Oh, (mapping_empty w h [] Eh), bool_decide_eq_false_2 by (intros X; by apply X). by eexists.
    + unfold read_file, stream_open. rewrite Hfile. change (is_open closed_stream || false) with false. cbv iota.
      change (open_table (Z.lor ios_in ios_binary)) with (Some (true, false)). rewrite Hk, E. unfold open_at. cbn [s_file].
      unfold file_content. rewrite lookup_set_entry, decide_True by done. unfold stream_read. cbn [s_fail orb]. case_bool_decide as Hl.
      * destruct c; done.
      * change (can_read _) with true. cbv iota. unfold stream_flush. cbn [s_file s_pending]. rewrite decide_True by done. cbn [s_file s_pos s_fail].
        unfold file_content. rewrite lookup_set_entry, decide_True by done. change (flag (Z.lor ios_in ios_binary) ios_ate) with false. cbv iota.
        rewrite drop_0, firstn_all. by rewrite bool_decide_eq_false_2 by lia.
    + destruct C as (w' & C & L). exists w'. split; [done|]. by rewrite L.
    + by apply (M c); left.
    + intros d. unfold windows_file_size, get_file_size. rewrite (cstr_no_nul p Hp), Oh, (find_entry_file w p Hfile), Hk, E. by rewrite (file_size_ex w h c Eh).
  - split; [|split; [exact C|split]].
    + unfold windows_read_file. rewrite O, mapping_invalid. by eexists.
    + intros Hd. by apply (M []); right.
    + intros d. unfold windows_file_size, get_file_size. rewrite (cstr_no_nul p Hp), O, (find_entry_file w p Hfile), Hk, E. done.
Qed.
End windows_files.

Lemma windows_files_witness :
  resolve (cwd sample_world) (W "data.bin") = [W "home"; W "data.bin"]
  /\ exists m, windows_create_empty_file sample_world (W "data.bin") = (sample_world, Throw (RuntimeError m)).
Proof.
  assert (no_nul (W "data.bin")) as N by (apply (bool_decide_unpack _); vm_compute; exact Logic.I).
  split; [reflexivity|].
  exact (proj1 (proj2 (windows_files sample_world (W "data.bin") (W "old") [W "home"; W "data.bin"] eq_refl N eq_refl ltac:(discriminate)))).
Defined.

(** Byte utilities are the same functions on every platform, and so is the reading of lines; the creation of empty files is not. *)
Theorem platforms_agree (native : endian) :
  windows_io_util native = macos_io_util native /\ ios_io_util native = macos_io_util native /\ android_io_util native = macos_io_util native
  /\ Forall (fun u => u_read_file_lines u = u_read_file_lines macos_file_util /\ u_file_exists u = u_file_exists macos_file_util
                      /\ u_create_empty_file u = windows_create_empty_file) [windows_file_util; ios_file_util; android_file_util]
  /\ exists w p w', u_create_empty_file macos_file_util w p = (w', Ret tt) /\ forall w'', u_create_empty_file windows_file_util w p <> (w'', Ret tt).
Proof.
  split; [done|split; [done|split; [done|split]]].
  - repeat constructor.
  - assert (no_nul (W "data.bin")) as N by (apply (bool_decide_unpack _); vm_compute; exact Logic.I).
    destruct windows_files_witness as (_ & m & E). exists sample_world, (W "data.bin"). eexists. split; [reflexivity|].
    intros w'' X. cbn [u_create_empty_file windows_file_util] in X. rewrite E in X. discriminate X.
Qed.
