(* ===== verification/Statistic.v ===== *)
(** * Statistics (cpp/src/statistic.hpp)

    [standard_deviation] in the arithmetic the processor does: a [double] is a binary64 number of the Standard Library's SpecFloat, and
    each operation rounds to the nearest. *)
From Stdlib Require Import Floats.SpecFloat.
From S2P Require Import Prelude.

Definition double : Type := spec_float.
Definition prec : Z := 53.
Definition emax : Z := 1024.
Definition dadd : double -> double -> double := SFadd prec emax.
Definition dsub : double -> double -> double := SFsub prec emax.
Definition dmul : double -> double -> double := SFmul prec emax.
Definition ddiv : double -> double -> double := SFdiv prec emax.
Definition dsqrt : double -> double := SFsqrt prec emax.
(** The double of an integer, and of [m * 2 ^ e]. *)
Definition double_of (m e : Z) : double := binary_normalize prec emax m e false.

(* src: cpp/src/statistic.hpp:21-25 standard_deviation *)
Record Accumulator := mk_acc { sum_x : double; sum_x2 : double; count : nat }.
(* src: cpp/src/statistic.hpp:26-33 standard_deviation *)
Definition accumulate_step (acc : Accumulator) (dx : double) : Accumulator :=
  mk_acc (dadd (sum_x acc) dx) (dadd (sum_x2 acc) (dmul dx dx)) (count acc + 1).
(* src: cpp/src/statistic.hpp:37-39 standard_deviation *)
Definition deviation_of (result : Accumulator) : double :=
  let n := double_of (Z.of_nat (count result)) 0 in
  let mean := ddiv (sum_x result) n in
  let variance := dsub (ddiv (sum_x2 result) n) (dmul mean mean) in
  dsqrt variance.
(* src: cpp/src/statistic.hpp:19-41 standard_deviation *)
Definition standard_deviation (values : list double) : double :=
  let result := fold_left accumulate_step values (mk_acc (S754_zero false) (S754_zero false) 0) in
  if decide (count result = 0) then S754_nan else deviation_of result.
(** A collection is its elements from the first to the last. *)
(* src: cpp/src/statistic.hpp:43-48 standard_deviation *)
Definition standard_deviation_of (collection : list double) : double := standard_deviation collection.

(** The difference of two rounded numbers can be zero, or below zero.  The values 2, 4, 4, 4, 5, 5, 7, 9 deviate by two.  Of 100000001, 100000002
    and 100000003 the rounded squares are all that is left, and the deviation is zero.  Of three times 0.1 the variance is below zero: the
    deviation is no number, as it is for no values. *)
Theorem standard_deviation_cancels :
  standard_deviation (map (fun z => double_of z 0) [2; 4; 4; 4; 5; 5; 7; 9]%Z) = double_of 2 0
  /\ standard_deviation (map (fun z => double_of z 0) [100000001; 100000002; 100000003]%Z) = S754_zero false
  /\ standard_deviation (replicate 3 (double_of 3602879701896397 (-55))) = S754_nan
  /\ standard_deviation [] = S754_nan.
Proof. vm_compute. done. Qed.
