(* ===== verification/Statics.v ===== *)
(** * Static factories and the small members of objects (cpp/src/object.hpp, generator.hpp, path.hpp, error.hpp)

    Objects, generators and paths are handed out by a [static] factory of their class; this file composes Factory
    with the classes, and holds what an object prints of itself and the class [Exception]. *)
From S2P Require Import Prelude Bytes Streams Strings Buffers Factory Objects FileSystem Paths.

(** ** The accessors [get] *)

(** A factory with the heap of its objects, as it is when the program starts. *)
Definition started {T Args} (make : Args -> T) (default_args : Args) : list (cell T) * factory := new_factory make 3 10 default_args [].

(* src: cpp/src/object.hpp:147-147 Object::mfactory *)
Definition object_mfactory : list (cell obj) * factory := started new_Object NULL_ID.
(* src: cpp/src/object.hpp:281-284 Object::get *)
Definition object_get (f : factory) (h : list (cell obj)) (id : Z) : list (cell obj) * nat := factory_get new_Object f h id.
(* src: cpp/src/object.hpp:276-279 Object::get *)
Definition object_get_data (f : factory) (h : list (cell obj)) (data : Z) : list (cell obj) * nat := factory_get new_Object f h data.

Definition make_generator (args : Z * Z * Z) : Generator := let '(aid, initial_value, step) := args in new_Generator aid initial_value step.
(* src: cpp/src/generator.hpp:49-49 Generator::mfactory *)
Definition generator_mfactory : list (cell Generator) * factory := started make_generator (NULL_ID, 0%Z, 1%Z).
(* src: cpp/src/generator.hpp:143-146 Generator::get *)
Definition generator_get (f : factory) (h : list (cell Generator)) (aid initial_value step : Z) : list (cell Generator) * nat :=
  factory_get make_generator f h (aid, initial_value, step).
(** The clone draws its id from the generator that is cloned. *)
(* src: cpp/src/generator.hpp:148-151 Generator::clone *)
Definition generator_clone_in (f : factory) (h : list (cell Generator)) (g : Generator) : outcome (Generator * (list (cell Generator) * nat)) :=
  '(g, i) ← get_id g; Ret (g, generator_get f h i (minitial_value g) (mstep g)).

Definition make_path (args : str * Z) : Path := new_Path (fst args) (snd args).
(* src: cpp/src/path.hpp:51-51 Path::mfactory *)
Definition path_mfactory : list (cell Path) * factory := started make_path (W ".", NULL_ID).
(* src: cpp/src/path.hpp:70-73 Path::get *)
Definition path_get (f : factory) (h : list (cell Path)) (p : str) (aid : Z) : list (cell Path) * nat := factory_get make_path f h (p, aid).
(* src: cpp/src/path.hpp:75-80 Path::clone *)
Definition path_clone_in (f : factory) (h : list (cell Path)) (apath : Path) : list (cell Path) * nat := path_get f h (std_path apath) (path_id apath).

(** ** What an object gives of itself *)

Section members.
Context (native : endian).
(* src: cpp/src/object.hpp:169-172 Object::data_bytes *)
Definition data_bytes (o : obj) : list byte := obj_data native o.
(** The span that can be written through: what the object is after [bytes] were copied over the first of its data. *)
(* src: cpp/src/object.hpp:175-181 Object::data_wbytes *)
Definition data_wbytes (o : obj) (bytes : list byte) : outcome obj :=
  block ← memcpy_at (data_bytes o) 0 bytes;
  Ret match mdata o with Some _ => mk_obj (mid o) (Some block) | None => mk_obj (int_of_bytes native block) None end.
End members.

(* src: cpp/src/object.hpp:252-256 Object::to_string, Object::operator S *)
Definition object_to_string (o : obj) : str := to_string false (mid o) ","%char.
(* src: cpp/src/object.hpp:303-306 operator>> *)
Definition object_in (i : istream) (o : obj) : istream * obj := obj_read_text i o.
(* src: cpp/src/object.hpp:308-311 operator<< *)
Definition object_out (os : str) (o : obj) : str := obj_write_text os o.
(* src: cpp/src/error.hpp:91-91 operator<< *)
Definition error_out (os : str) (e : Error) : str := error_write os e.
(* src: cpp/src/error.hpp:92-92 operator>> *)
Definition error_in (uninit : Z) (i : istream) (e : Error) : istream * Error := error_read uninit i e.

(** ** Exception *)

(* src: cpp/src/error.hpp:31-32 Exception *)
Record Exception := mk_Exception { message : str }.
(* src: cpp/src/error.hpp:21-21 Exception::Exception *)
Definition new_Exception (message : str) : Exception := mk_Exception message.
(** [what] is not overridden: it is that of [std::exception], a text of the library, [std_what]. *)
(* src: cpp/src/error.hpp:22-30 Exception::what_error *)
Definition what_error (std_what : str) (e : Exception) : str := cstr std_what.

(** ** Properties *)

Section get.
Context {T Args : Type} (make : Args -> T).

(** A history of calls of [get] with these arguments, from the start of the program: the heap, and the pointers in order. *)
Definition gets (hf : list (cell T) * factory) (calls : list Args) : list (cell T) * list nat :=
  fold_left (fun '(h, ps) a => let '(h, p) := factory_get make (snd hf) h a in (h, ps ++ [p])) calls (fst hf, []).

(** Every object that was asked for is there under its own pointer, made from its arguments, and owned once. *)
Definition fresh_objects (hf : list (cell T) * factory) (calls : list Args) : Prop :=
  let '(h, ps) := gets hf calls in
  NoDup ps /\ Forall2 (fun p a => h !! p = Some (mk_cell (make a) 1)) ps calls
  /\ forall p, p ∈ pool (mfactory_ptr (snd hf)) -> p ∉ ps.

Lemma started_fresh (default_args : Args) (calls : list Args) : fresh_objects (started make default_args) calls.
Proof.
  unfold fresh_objects, gets, started, new_factory, new_pool_factory, fill_pool. rewrite add_objects_spec. cbn [fst snd mfactory_ptr pool app length].
  set (h0 := replicate 3 _). assert (H : forall calls h ps, fold_left (fun '(h, ps) a => let '(h, p) := factory_get make
      (mk_factory (mk_pool (seq 0 3) (Z.of_nat 3) 10)) h a in (h, ps ++ [p])) calls (h, ps)
    = (h ++ map (fun a => mk_cell (make a) 1) calls, ps ++ seq (length h) (length calls))).
  { clear. induction calls as [|a calls IH]; intros h ps; simpl; [by rewrite !app_nil_r|].
    unfold make_shared. rewrite IH, length_app; simpl. by rewrite <- !app_assoc, Nat.add_1_r. }
  rewrite H. cbn [app]. split; [apply NoDup_seq|]. split.
  - apply Forall2_same_length_lookup_2; [by rewrite length_seq|]. intros i p a Hp Ha.
    apply lookup_seq in Hp as [-> Hi]. rewrite lookup_app_r by lia. replace (length h0 + i - length h0) with i by lia.
    change (map (fun a => mk_cell (make a) 1) calls) with ((fun a => mk_cell (make a) 1) <$> calls). by rewrite list_lookup_fmap, Ha.
  - intros p Hp Hin. apply elem_of_seq in Hp, Hin. unfold h0 in Hin. rewrite length_replicate in Hin. lia.
Qed.
End get.

(** Whatever is asked of the static factories, each call gives an object of its own with the id, the values or the path that were
    asked for, and never one of the three that the factory made in advance; so does the clone of a generator or of a path. *)
Theorem static_factories (ids : list Z) (gens : list (Z * Z * Z)) (paths : list (str * Z)) :
  fresh_objects new_Object object_mfactory ids /\ fresh_objects make_generator generator_mfactory gens /\ fresh_objects make_path path_mfactory paths
  /\ (forall f h g g' h' p, generator_clone_in f h g = Ret (g', (h', p)) ->
        exists c, generator_clone g = Ret (g', c) /\ h' !! p = Some (mk_cell c 1) /\ p = length h)
  /\ (forall f h q, let '(h', p) := path_clone_in f h q in h' !! p = Some (mk_cell q 1) /\ p = length h).
Proof.
  split; [apply started_fresh|]. split; [apply started_fresh|]. split; [apply started_fresh|]. split.
  - intros f h g g' h' p H. unfold generator_clone_in in H. apply outcome_bind_Ret_inv in H as ([g1 i] & E & H). injection H as <- <- <-.
    exists (new_Generator i (minitial_value g1) (mstep g1)). split; [unfold generator_clone; by rewrite E|]. split; [|done]. by rewrite list_lookup_middle.
  - intros f h q. cbn. split; [|done]. rewrite list_lookup_middle by done. by destruct q.
Qed.

Lemma static_factories_witness :
  generator_clone (mk_generator 1 5 7 2) = Ret (mk_generator 1 5 9 2, mk_generator 9 5 5 2)
  /\ exists h p, generator_clone_in (snd generator_mfactory) (fst generator_mfactory) (mk_generator 1 5 7 2) = Ret (mk_generator 1 5 9 2, (h, p))
     /\ h !! p = Some (mk_cell (mk_generator 9 5 5 2) 1).
Proof.
  split; [reflexivity|]. do 2 eexists. split; [reflexivity|].
  destruct (static_factories [] [] []) as (_ & _ & _ & H & _).
  destruct (H (snd generator_mfactory) (fst generator_mfactory) (mk_generator 1 5 7 2) _ _ _ eq_refl) as (c & Hc & Hl & _).
  injection Hc as <-. exact Hl.
Defined.

(** Writing the bytes of one object of a class through the span of another copies its data, as assignment does; writing more than it has leaves the object. *)
Theorem data_wbytes_spec (native : endian) (o this : obj) (Hl : data_size native o = data_size native this) :
  data_wbytes native this (data_bytes native o) = obj_assign native this o
  /\ (forall b, data_wbytes native this (data_bytes native o ++ [b]) = Undef OutOfBounds).
Proof.
  unfold data_wbytes, obj_assign, memcpy_at, data_bytes, data_size in *. split.
  - rewrite decide_True by (simpl; lia). cbn [mbind outcome_bind]. rewrite decide_True by lia.
    rewrite overlay_0, drop_ge, app_nil_r by lia. by rewrite <- Hl, firstn_all.
  - intros b. rewrite decide_False; [done|]. rewrite length_app. simpl. lia.
Qed.

Lemma data_wbytes_spec_witness :
  data_size little_endian (mk_obj 7 None) = data_size little_endian (mk_obj 3 None)
  /\ data_wbytes little_endian (mk_obj 3 None) (data_bytes little_endian (mk_obj 7 None)) = obj_assign little_endian (mk_obj 3 None) (mk_obj 7 None).
Proof. split; [reflexivity|]. exact (proj1 (data_wbytes_spec little_endian (mk_obj 7 None) (mk_obj 3 None) eq_refl)). Defined.
