(* ===== verification/Tests.v ===== *)
(** * The program's own tests (cpp/src/test, contact/test), run on the model

    Each example is a test case of the repository, its checks in their order, evaluated on the definitions of the other files.  Checks that
    only ask the compiler something, and those that need a file of the machine the test ran on, are left out; accented letters of the
    tests are their UTF-8 bytes. *)
From stdpp Require Import gmap.
From S2P Require Import Prelude CS CodeUtil SortedList Distance Bytes Buffers Factory Objects Commands Emails Person Constraints Utilities.

(** No test has a letter that ICU would take apart. *)
#[local] Existing Instance icu_identity.

(** ** distance_test.cpp *)

Definition distance_cases : list (str * str * nat) :=
  [(W "", W "", 0); (W "", W "a", 1); (W "abc", W "abd", 1); (W "abc", W "ab", 1); (W "abc", W "acb", 1); (W "abc", W "a", 2);
   (W "abc", W "acd", 2); (W "abc", W "agg", 2);
   (W "Campeonato Ingl" ++ [byte_of_Z 195; byte_of_Z 170] ++ W "s Arsenal x Liverpool", W "Campeonato Ingles ArsenalxLiverpool", 4);
   (W "1234", W "456", 4); (W "PLANETA EXPN: SURFE 2009", W "PLANETA EXPN : AVENTURAS COM RENATA FALZONI", 25);
   (W "copaamericamasculinodebasquetebrasilxportorico", W "copaamericamasculinodebasqueteVTbrasilxportorico", 2)].
Example DistLev : forallb (fun '(s, t, n) => bool_decide (distance s t = n)) distance_cases = true.
Proof. vm_compute. reflexivity. Qed.

(** ** s_test.cpp *)

Example CS_test :
  exists abc abc' def abcdef, cs_of_cstr 0 20 (W "abc") = Ret abc /\ cs_of_S 0 20 (W "abc") = Ret abc' /\ cs_of_cstr 0 20 (W "def") = Ret def
    /\ cs_eq false false (cs_null 20) (cs_null 20) = Ret true /\ cs_neq false false abc (cs_null 20) = Ret true /\ cs_str abc = Ret (W "abc")
    /\ cs_length abc = Ret 3 /\ cs_size 20 abc = 20 /\ cs_eq false false abc abc' = Ret true /\ cs_str def = Ret (W "def")
    /\ cs_str abc' = Ret (W "abc") /\ cs_plus 20 abc def = Ret abcdef /\ cs_str abcdef = Ret (W "abcdef").
Proof. do 4 eexists. repeat (split; [vm_compute; reflexivity|]). vm_compute. reflexivity. Qed.

(** ** code_util_test.cpp *)

Example Result_test :
  let r := result_of 10%Z in let r1 := result_error (W "err msg") 0%Z in
  result_eq Z.eqb r 10%Z = true /\ Bool_eq (mok r) Bool_T = true /\ result_not r1 = true /\ merror_message r1 = W "err msg" /\ result_bool r1 = false.
Proof. vm_compute. by repeat split. Qed.

(** ** algorithm_util_test.cpp *)

Example erase_if_test : erase_if (fun v => negb (v mod 2 =? 0)%Z) [0; 1; 2]%Z = [0; 2]%Z.
Proof. vm_compute. reflexivity. Qed.

(** ** generator_test.cpp *)

Definition ids (n : nat) (g : Generator) : outcome (list Z) :=
  (fix go n g := match n with O => Ret [] | S n => r ← get_id g; l ← go n (fst r); Ret (snd r :: l) end) n g.
Example GetId : ids 2 (new_Generator NULL_ID 0 1) = Ret [1; 2]%Z /\ ids 2 (new_Generator 1 1 2) = Ret [3; 5]%Z.
Proof. vm_compute. by split. Qed.
Example GetNext : next (new_Generator NULL_ID 0 1) = Ret 1%Z /\ next (new_Generator 1 1 2) = Ret 3%Z.
Proof. vm_compute. by split. Qed.
Example GetCurrent :
  current (new_Generator NULL_ID 0 1) = 0%Z /\ current (new_Generator 1 1 2) = 1%Z
  /\ (r ← get_id (new_Generator 1 1 2); Ret (snd r, current (fst r))) = Ret (3%Z, 3%Z).
Proof. vm_compute. by repeat split. Qed.
Example SetValue : let g := set_value 10 (new_Generator NULL_ID 0 1) in current g = 10%Z /\ ids 1 g = Ret [11%Z].
Proof. vm_compute. by split. Qed.
Example SetStep : let g := new_Generator 1 0 2 in current g = 0%Z /\ ids 2 g = Ret [2; 4]%Z.
Proof. vm_compute. by split. Qed.
Example GeneratorSerialization :
  let g := new_Generator NULL_ID 0 1 in let g2 := new_Generator 1 0 1 in
  g2 <> g /\ snd (generator_read little_endian g2 (generator_write little_endian g new_bb)) = g.
Proof. vm_compute. split; [discriminate|reflexivity]. Qed.

(** ** byte_order_test.cpp *)

(** The test converts the words of a vector, here the words 0 to 8 on a little-endian machine, and compares their bytes. *)
Definition converted (n : nat) (vs : list Z) : outcome (list byte) :=
  convert (flat_map (le_bytes n) vs) n (native_byte_order little_endian) big_address_8_byte_order.
Definition big_words (n : nat) (vs : list Z) : list byte := flat_map (fun v => rev (le_bytes n v)) vs.
Example ByteOrder_test :
  let a := [0; 1; 2; 3; 4; 5; 6; 7; 8]%Z in let negative := map (fun v => (v mod 2 ^ 64)%Z) [-8; -7; -6; -5; -4; -3; -2; -1]%Z in
  forallb (fun n => bool_decide (converted n a = Ret (big_words n a)) && bool_decide (converted n negative = Ret (big_words n negative))
    && bool_decide ((b ← converted n a; convert b n big_address_8_byte_order (native_byte_order little_endian)) = Ret (flat_map (le_bytes n) a))) [2; 4; 8] = true.
Proof. vm_compute. reflexivity. Qed.

(** ** e-mail_test.cpp *)

Example valid_addresses :
  forallb is_valid_email_address
    [W "x@x.com"; W "user@example.com"; W "user.name@example.com"; W "user+tag@example.co.uk"; W "a@b.cd"] = true.
Proof. vm_compute. reflexivity. Qed.
Example invalid_addresses :
  existsb is_valid_email_address
    [W ""; W "noatsign"; W "@domain.com"; W "user@"; W "user@@domain.com"; W "user@.com"; W "user@domain"; W ".user@domain.com"; W "user.@domain.com";
     W "us..er@domain.com"] = false.
Proof. vm_compute. reflexivity. Qed.
Example email_forms :
  (e ← email_of_S (W "x@x.com") Personal; email_str e) = Ret (W "x@x.com")
  /\ (l ← cs_of_cstr 0 LOCAL_MAX (W "local"); d ← cs_of_cstr 0 DOMAIN_MAX (W "domain.com"); e ← email_of_parts l d Personal; email_str e) = Ret (W "local@domain.com")
  /\ (e ← email_of_S (W "test@mail.com") Personal; email_write [] e) = Ret (W "test@mail.com")
  /\ (e ← email_of_S (W "x@x.com") Personal; r ← email_read (W "read@stream.com") e; email_str (snd r)) = Ret (W "read@stream.com").
Proof. vm_compute. by repeat split. Qed.
Example email_equality :
  (a ← email_of_S (W "user@example.com") Personal; b ← email_of_S (W "user@example.com") Personal; email_eq a b) = Ret true
  /\ (a ← email_of_S (W "user@example.com") Personal; c ← email_of_S (W "other@example.com") Personal; email_eq a c) = Ret false.
Proof. vm_compute. by split. Qed.

(** ** constraint_test.cpp *)

Definition all_ok (f : str -> bool) (yes no : list str) : bool := forallb f yes && negb (existsb f no).
Example StringConstraint_test :
  (sc ← new_StringConstraint ONLY_DIGITS_REGEX NULL_ID []; Some (all_ok (string_ok sc) [W "123"; W ""; W "0"] [W "123a"; W "a123"; W " "; W " 123"])) = Some true
  /\ (sc2 ← new_StringConstraint (W "^bola$") NULL_ID []; Some (all_ok (string_ok sc2) [W "bola"] [W " bola"; W ""])) = Some true.
Proof. vm_compute. by split. Qed.
Definition zrange (lo hi : Z) : Z -> bool := range_ok Z.geb Z.leb (new_RangeConstraint lo hi NULL_ID []).
Example RangeConstraint_test :
  map (zrange 0 10) [0; 10; 5; -1; 11; 100]%Z = [true; true; true; false; false; false]
  /\ map (fun c => zrange 65 69 (char_val c)) (W "AEC@Fae") = [true; true; true; false; false; false; false]
  /\ map (range_ok Z.geb Z.leb (new_RangeConstraint_value 10%Z NULL_ID [])) [10; 9; 11]%Z = [true; false; false].
Proof. vm_compute. by repeat split. Qed.
(** The composites of the test are named, and their parts outlive them. *)
Example CompositeConstraints_test :
  let '(h, baby) := alloc (Leaf (zrange 0 2)) (mk_heap ∅ 0) in
  let '(h, kid) := alloc (Leaf (zrange 3 10)) h in let '(h, teen) := alloc (Leaf (zrange 11 19)) h in
  ('(h, babies_or_kids) ← or_constraints h baby kid; '(h, no_adults) ← or_constraints h babies_or_kids teen;
   Some (map (ok h babies_or_kids) [0; 11; 3; 10]%Z, map (ok h no_adults) [0; 3; 10; 11; 19; 20; 60; 61]%Z)) =
  Some (map Ret [true; false; true; true], map Ret [true; true; true; true; true; false; false; false]).
Proof. by vm_compute. Qed.

(** ** sorted_list_test.cpp *)

Definition ascending : Z -> Z -> bool := Z.ltb.
Definition Descending : Z -> Z -> bool := Z.gtb.
Fixpoint str_less (a b : list Z) : bool :=
  match a, b with _, [] => false | [], _ :: _ => true | x :: a, y :: b => (x <? y)%Z || (x =? y)%Z && str_less a b end.
Definition CaseInsensitive (a b : str) : bool := let lower := map (fun c => tolower (char_val c)) in str_less (lower a) (lower b).
Definition adds {T} (comp : T -> T -> bool) (l : sorted_list T) (vs : list T) : sorted_list T := fold_left (fun l v => fst (SortedList.add comp l v)) vs l.
Definition show (v : Z) : str := decimal v.

Example SortedList_ascending :
  let sl := adds ascending (new_list false) [2; 0; 1]%Z in let removed := fst (SortedList.remove ascending sl 1%Z) in
  data_ sl = [0; 1; 2]%Z /\ SortedList.find ascending sl 1%Z = 1 /\ SortedList.find ascending sl 99%Z = 3
  /\ contains ascending sl 2%Z = true /\ contains ascending sl 99%Z = false
  /\ data_ removed = [0; 2]%Z /\ snd (SortedList.remove ascending sl 1%Z) = true /\ snd (SortedList.remove ascending removed 99%Z) = false
  /\ (data_ <$> remove_at removed 0) = Ret [2%Z] /\ data_ (clear removed) = []
  /\ (exists e, subscript (clear sl) 0 = Throw e) /\ (exists e, at_ (clear sl) 0 = Throw e)
  /\ data_ (adds ascending (new_list false) [5; 2; 8; 1]%Z) = [1; 2; 5; 8]%Z
  /\ SortedList.to_s show (adds ascending (new_list false) [5; 2; 8; 1]%Z) = W "[1, 2, 5, 8]" /\ SortedList.to_s show (clear sl) = W "[]".
Proof. cbv zeta. repeat split; try (eexists; vm_compute; reflexivity); vm_compute; reflexivity. Qed.
Example SortedList_descending :
  let l := of_range Descending [3; 1; 4; 1; 5]%Z false in
  data_ l = [5; 4; 3; 1; 1]%Z /\ data_ (adds Descending l [2]%Z) = [5; 4; 3; 2; 1; 1]%Z
  /\ SortedList.to_s show (adds Descending (new_list false) [3; 2; 1]%Z) = W "[3, 2, 1]"
  /\ data_ (adds Descending (new_list false) [3; 2; 1; 2]%Z) = [3; 2; 2; 1]%Z.
Proof. vm_compute. by repeat split. Qed.
Example SortedList_unique :
  let once := adds ascending (new_list true) [1%Z] in let twice := SortedList.add ascending once 1%Z in
  snd twice = false /\ data_ (fst twice) = [1%Z] /\ data_ (adds ascending (set_unique once false) [1%Z]) = [1; 1]%Z
  /\ data_ (of_range Descending [3; 1; 3; 1]%Z true) = [3; 1]%Z
  /\ snd (SortedList.add Descending (of_range Descending [3; 1]%Z true) 3%Z) = false
  /\ data_ (adds Descending (set_unique (of_range Descending [3; 1]%Z true) false) [3%Z]) = [3; 3; 1]%Z
  /\ data_ (adds CaseInsensitive (new_list true) [W "Apple"; W "apple"]) = [W "Apple"].
Proof. vm_compute. by repeat split. Qed.
Example SortedList_case :
  let l := adds CaseInsensitive (of_range CaseInsensitive [W "Apple"; W "banana"; W "date"] false) [W "Cherry"] in
  SortedList.to_s id l = W "[Apple, banana, Cherry, date]"
  /\ data_ (of_range CaseInsensitive [W "Cherry"; W "banana"; W "Apple"; W "date"] false) = [W "Apple"; W "banana"; W "Cherry"; W "date"]
  /\ data_ (of_range CaseInsensitive [W "APPLE"; W "Banana"; W "cherry"; W "Date"] false) = [W "APPLE"; W "Banana"; W "cherry"; W "Date"]
  /\ CaseInsensitive (W "Cherry") (W "date") = true /\ CaseInsensitive (W "date") (W "Cherry") = false.
Proof. vm_compute. by repeat split. Qed.

(** ** command_test.cpp *)

(** The commands of the test, over the value they change; a failing command throws and changes nothing. *)
Inductive test_command := IncCmd | DecCmd | IncFailCmd | DoubleCmd.
Definition test_run (c : test_command) (v : Z) : Z * option exn :=
  match c with IncCmd => (v + 1, None) | DecCmd => (v - 1, None) | DoubleCmd => (v * 2, None) | IncFailCmd => (v, Some (RuntimeError (W "IncFailCmd.run () error."))) end%Z.
Definition test_undo (c : test_command) (v : Z) : Z :=
  match c with IncCmd => v - 1 | DecCmd => v + 1 | DoubleCmd => v ÷ 2 | IncFailCmd => v - 1 end%Z.
(** The value after [run], and after [run] and [undo]; whether [run] threw. *)
Definition run_undo (c : @Commands.command test_command) (v : Z) : Z * Z * bool :=
  let '(c, v1, st) := run test_run c v in (v1, fst (undo test_undo c v1), match st with Threw _ => true | _ => false end).
Definition composite_of (cs : list test_command) : outcome (@Commands.command test_command) :=
  fold_left (fun c a => c ← c; cmd_add c (new_Leaf 1 a)) cs (Ret (new_Composite 2)).
Example Command_test :
  map (fun a => run_undo (new_Leaf 1 a) 0) [IncCmd; DecCmd; IncFailCmd] = [(1, 0, false); (-1, 0, false); (0, 0, true)]%Z.
Proof. vm_compute. reflexivity. Qed.
Example CompositeCommand_test :
  ((fun c => run_undo c 0) <$> composite_of []) = Ret (0, 0, false)%Z
  /\ ((fun c => run_undo c 0) <$> composite_of [IncCmd; DecCmd; DecCmd; DecCmd]) = Ret (-2, 0, false)%Z
  /\ ((fun c => run_undo c 0) <$> composite_of [IncCmd; DecCmd; IncFailCmd]) = Ret (0, 0, true)%Z.
Proof. vm_compute. by repeat split. Qed.

(** ** factory_test.cpp *)

(** Objects by their ids: the pool of three, refilled by ten, from which four are taken. *)
Definition test_pool := new_pool_factory (fun id : Z => id) 3 10 0%Z [].
Fixpoint take_ids (args : list Z) (h : list (cell Z)) (f : pool_factory) : outcome (list (Z * Z)) :=
  match args with
  | [] => Ret []
  | a :: args =>
      '(h, f, p) ← pool_get (fun id : Z => id) (fun a _ => a) true 2 a h f;
      l ← take_ids args h f; Ret ((default (-1)%Z (Factory.obj <$> h !! p), get_available_count f) :: l)
  end.
Example PoolFactory_test :
  get_available_count (snd test_pool) = 3%Z /\ take_ids [1; 2; 3; 4]%Z (fst test_pool) (snd test_pool) = Ret [(1, 2); (2, 1); (3, 0); (4, 9)]%Z.
Proof. vm_compute. by split. Qed.

(** ** person_test.cpp *)

Example PersonName_test :
  (n ← new_name (W "Mauricio") (W "") (W "Gomes"); s ← name_of n; cs_str s) = Ret (W "Mauricio Gomes")
  /\ (n ← new_name (W "Mauricio") (W "") (W "Gomes"); cs_empty (mmiddle n)) = Ret true
  /\ (a ← new_name (W "Mauricio") (W "") (W "Gomes"); b ← new_name (W "First") (W "Middle") (W "Last"); name_eq a b) = Ret false.
Proof. vm_compute. by repeat split. Qed.
