(* ===== verification/DbTests.v ===== *)
(** * The tests of the data layer (contact/test/db_test.cpp), run over the schema

    Each example is a test case: the operations of the data access objects in their order, through sessions of the pool, over the
    tables, triggers and functions of the schema, from the database as it is installed.  They are evaluated, not proved; the search in one log,
    whose text is outside the fragment, and the prefix search of last names, whose pattern matching is the server's, are left out. *)
From stdpp Require Import gmap strings.
From S2P Require Import Prelude Sql Database Dao ContactDao PersonDao OrgDao VisibilityDao AuditDao Schema Tables History SchemaServer SchemaDao.

#[local] Existing Instance plain_server.
Abbreviation test := (dao (S := plain_server)).
Definition outcome_of {A} (m : test A) : outcome A := snd (m plain_world).
Definition test_user : str := W "test_user".
Definition a_person (first last keywords : String.string) : PersonDTO := mk_person_dto 0 (W first) [] (W last) [] [] [] [] [] [] (W keywords).

(** ** LocaleDAO *)

Example LocaleDAO_test :
  outcome_of (ls ← locale_list_all; en ← find_by_code (W "en-US"); bad ← find_by_code (W "xx-XX");
    def ← get_default; mret (map lc_code ls, option_map lc_is_default en, bool_decide (is_Some bad), option_map lc_code def))
  = Ret ([W "pt-BR"; W "en-US"; W "es-AR"; W "es-MX"; W "fr-FR"], Some false, false, Some (W "pt-BR")).
Proof. vm_compute. reflexivity. Qed.

(** ** PersonDAO *)

Definition joao : PersonDTO := mk_person_dto 0 (W "Joao") (W "Carlos") (W "Silva") [] [] [] [] [] [] (W "developer engineer").
Definition santos (p : PersonDTO) : PersonDTO :=
  mk_person_dto (pe_id p) (pe_first_name p) (pe_middle_name p) (W "Santos") (pe_federal_tax_id p) (pe_identification_number p) (pe_passport_number p)
    (pe_passport_country p) (pe_passport_expiry p) (pe_date_of_birth p) (W "manager").
Example PersonDAO_test :
  outcome_of (id ← person_insert joao test_user; found ← person_find_by_id id;
    updated ← person_update (santos (default joao found)) test_user; refound ← person_find_by_id id;
    deleted ← person_remove id test_user; gone ← person_find_by_id id;
    mret (id, option_map pe_middle_name found, updated, option_map (fun p => (pe_last_name p, pe_keywords p)) refound, deleted, gone))
  = Ret (1%Z, Some (W "Carlos"), true, Some (W "Santos", W "manager"), true, None).
Proof. vm_compute. reflexivity. Qed.
Example PersonDAO_lists :
  outcome_of (id1 ← person_insert joao test_user; id2 ← person_insert (a_person "Maria" "Souza" "") test_user;
    found ← person_find_by_last_name (W "Silva"); everyone ← person_list_all 100 0; page ← person_list_all 1 1;
    mret (map pe_id found, map pe_id everyone, map pe_id page))
  = Ret ([1], [1; 2], [2])%Z.
Proof. vm_compute. reflexivity. Qed.

(** ** OrgDAO *)

Example OrgDAO_test :
  outcome_of (root ← org_insert (mk_org_dto 0 0 (W "Company") [] true (W "headquarters")) test_user;
    _ ← org_insert_localized (mk_localized_org 0 root 1 (W "Pensar Digital")) test_user;
    dept ← org_insert (mk_org_dto 0 root (W "Department") [] true (W "engineering")) test_user;
    _ ← org_insert_localized (mk_localized_org 0 dept 1 (W "Engenharia")) test_user;
    found ← org_find_by_id root; children ← org_find_children root; hier ← org_hierarchy (W "pt-BR"); other ← org_hierarchy (W "en-US");
    a ← org_remove dept test_user; b ← org_remove root test_user; left ← org_hierarchy (W "pt-BR");
    mret (option_map or_org_type found, map or_id children, map (fun h => (hi_name h, hi_parent_id h, hi_depth h)) hier, other, (a, b), left))
  = Ret (Some (W "Company"), [2%Z], [(W "Pensar Digital", 0, 1); (W "Engenharia", 1, 2)]%Z, [], (true, true), []).
Proof. vm_compute. reflexivity. Qed.

(** ** ContactDAO *)

Definition a_contact : PersonDTO := a_person "Test" "Contact" "".
Example ContactDAO_test :
  outcome_of (pid ← person_insert a_contact test_user;
    ph ← insert_phone (mk_phone_dto 0 pid 0 (W "+55") (W "11") (W "999887766") [] true 2 true) test_user; phones ← phones_for_person pid;
    em ← insert_email (mk_email_dto 0 pid 0 (W "test@example.com") 2 true false) test_user; emails ← emails_for_person pid;
    ad ← insert_address (mk_address_dto 0 pid 0 (W "Rua Teste 123") [] (W "Sao Paulo") (W "SP") (W "01234-567") (W "BR") 1 true 7 11) test_user;
    addrs ← addresses_for_person pid;
    a ← remove_phone ph test_user; removed ← person_remove pid test_user; left ← emails_for_person pid;
    mret (map (fun p => (ph_country_code p, ph_is_mobile p)) phones, map em_email emails, map (fun a => (ad_city a, ad_country a)) addrs, (a, removed), left))
  = Ret ([(W "+55", true)], [W "test@example.com"], [(W "Sao Paulo", W "BR")], (true, true), []).
Proof. vm_compute. reflexivity. Qed.

(** ** RoleDAO *)

Example RoleDAO_test :
  outcome_of (pid ← person_insert (a_person "Test" "Role" "") test_user; oid ← org_insert (mk_org_dto 0 0 (W "Company") [] true []) test_user;
    rid ← insert_role (mk_role_dto 0 oid true) test_user;
    _ ← insert_localized_role (mk_localized_role 0 rid 1 (W "Desenvolvedor") (W "Desenvolvedor de software")) test_user;
    _ ← insert_person_org_relation (mk_relation_dto 0 pid oid (W "Employee") (W "2025-01-15") [] true) test_user;
    pr ← assign_role (mk_person_role_dto 0 pid rid [] [] true) test_user;
    roles ← roles_for_person pid; rels ← relations_for_person pid;
    a ← unassign_role pr test_user; b ← remove_role rid test_user; c ← org_remove oid test_user; left ← relations_for_person pid;
    mret (map pr_is_primary roles, map re_relationship rels, [a; b; c], left))
  = Ret ([true], [W "Employee"], [true; true; true], []).
Proof. vm_compute. reflexivity. Qed.

(** ** SearchDAO *)

Example SearchDAO_test :
  outcome_of (_ ← person_insert (a_person "Ricardo" "Albuquerque" "architect senior") test_user;
    _ ← person_insert (a_person "Ana" "Ferreira" "designer junior") test_user;
    a ← search_persons (W "architect") 50 (W "simple"); b ← search_persons (W "Ferreira") 50 (W "simple"); c ← search_contacts (W "senior") 50 (W "simple");
    mret (map ps_first_name a, map ps_last_name b, map se_entity_type c))
  = Ret ([W "Ricardo"], [W "Ferreira"], [W "Person"]).
Proof. vm_compute. reflexivity. Qed.

(** ** VisibilityDAO *)

Example VisibilityDAO_test :
  outcome_of (owner ← person_insert (a_person "Owner" "Person" "") test_user; viewer ← person_insert (a_person "Viewer" "Person" "") test_user;
    vid ← visibility_insert (mk_visibility 0 owner (W "Phone") viewer 0 0 true false) test_user;
    a ← can_view owner viewer (W "Phone"); b ← can_view owner viewer (W "Email"); rules ← rules_for_owner owner; removed ← visibility_remove vid test_user;
    mret (a, b, map vi_data_category rules, removed))
  = Ret (true, false, [W "Phone"], true).
Proof. vm_compute. reflexivity. Qed.

(** ** AuditDAO *)

(** The transaction of the test takes place at the time 7 of the database. *)
Example AuditDAO_test :
  outcome_of (pid ← person_insert (a_person "Audit" "Test" "") (W "audit_tester"); ts ← entity_timestamps (W "t_log_person") pid; mret ts)
  = Ret (Some (mk_timestamps (W "7") (W "audit_tester") (W "7") (W "audit_tester"))).
Proof. vm_compute. reflexivity. Qed.
(** What the test does not ask: the search across the logs, of which there are two entries, finds none. *)
Example AuditDAO_search_all :
  outcome_of (pid ← person_insert (a_person "Audit" "Test" "") (W "audit_tester"); _ ← person_remove pid (W "audit_tester"); audit_search_all [] [] [] [] 500) = Ret []
  /\ length (log_of (proj1_sig (w_db (fst ((pid ← person_insert (a_person "Audit" "Test" "") (W "audit_tester"); person_remove pid (W "audit_tester")) plain_world)))) (W "t_log_person")) = 2.
Proof. vm_compute. by split. Qed.
